(* ===== verification/_CoqProject ===== *)
-Q . S2P
Prelude.v
F64.v
Runtime.v
Tokens.v
Text.v
StrFacts.v
LintAudit.v
Xtask.v
Deployment.v
Audio.v
Runner.v
Session.v
Backoff.v
Classify.v
CircuitBreaker.v
RateLimit.v
Queue.v
Worker.v
Engine.v
Remote.v
Placement.v
Coordinator.v
Manager.v
Metrics.v
Request.v
LocalEngine.v
RealtimeEngine.v
LocalWorker.v
Gateway.v
WsCore.v
TestKit.v
PyTypes.v
PyCluster.v
PyModule.v
Http.v
MockWs.v
MockOpenAi.v
OpenAi.v
RemoteDemo.v
Anthropic.v
AudioProvider.v
StreamStt.v
Deepgram.v
AssemblyAi.v
Synthesis.v
ElevenLabs.v
OpenAiTts.v
OpenAiStt.v
Gemini.v
LiteLlm.v
OpenAiRealtime.v
GeminiLive.v
WavDecode.v
Whisper.v
Piper.v
AudioDemos.v
LocalTts.v
Audio2Face.v
LocalModels.v
VllmEngine.v
VllmDefaults.v
PyBridge.v
GemmaBench.v
Cli.v
OrtSampling.v
OrtGenerate.v
OrtSession.v
Pipeline.v
Manifests.v
Rollup.v
RemoteStubs.v
