(* ===== verification/Prelude.v ===== *)
(** * atomr-infer: verification development

    A model of atomr-infer, the multi-runtime inference layer under src/, with the
    theorems that make its parts correct.  Sources below are relative to src/crates/,
    apart from src/xtask/ and src/examples/.

    ** The program and how its parts meet

    A client calls the HTTP gateway (inference-runtime/src/gateway.rs), which asks the
    data-parallel coordinator (dp_coordinator.rs) for a replica of the named deployment.
    A deployment is a value (inference-core/src/deployment.rs) kept by the deployment
    manager (deployment_manager.rs) and spread on nodes by the placement actor
    (placement.rs).  A request actor (request.rs) mirrors the chunks of one request to
    the client and accumulates them.  A replica is either local - an admission gate
    (engine_core.rs, audio_engine.rs, speech_engine.rs, realtime_engine.rs) in front of
    one runner, itself owned by a two-tier worker (worker.rs) - or remote: a bounded
    priority queue and a pool of workers (inference-remote-core/src/engine.rs, queue.rs,
    worker.rs) that retry with back-off (retry.rs, backoff.rs) behind a circuit breaker
    (circuit_breaker.rs) and a rate limiter (rate_limit.rs), on a shared session
    (session.rs).  A runner implements the traits of inference-core/src/runner.rs; the
    provider crates (inference-runtime-openai and the like) turn a batch into a request and
    the answer's events into chunks, over HTTP (classify.rs, sse.rs) or WebSocket
    (inference-runtime-ws-core).  The Python bindings (inference-py-bindings) expose the data
    types and a cluster of their own, whose runners are the test kit's; the developer tool
    (src/xtask/) keeps the workspace's lint baseline and versions.

    ** Files

    - [Prelude]: result type, machine integers, durations (nanoseconds), the string,
      byte and list functions of the standard library the source uses, hints, tactics.
    - [F64]: binary64 as executable [spec_float] with the casts, [min], [max] and [powi].
    - [Runtime], [Tokens], [Deployment], [Audio], [Runner]: inference-core (runtime.rs and
      error.rs; batch.rs, tokens.rs and cost.rs; deployment.rs and registry.rs; audio.rs;
      runner.rs).
    - [Session], [Backoff], [Classify], [CircuitBreaker], [RateLimit], [Queue], [Worker],
      [Engine]: inference-remote-core, a file per module ([Backoff] has retry.rs too);
      [Remote] runs the engine with its workers, their runners and the idle signals.
    - [Placement], [Coordinator], [Manager], [Metrics], [Request], [LocalEngine],
      [LocalWorker], [Gateway]: inference-runtime ([LocalEngine] has the text, audio and speech
      engines); [RealtimeEngine]: realtime_engine.rs, whose sessions outlive their message.
    - [WsCore]: inference-runtime-ws-core.
    - [Http]: what the HTTP providers share, with inference-remote-core/src/sse.rs.
    - [OpenAi], [Anthropic], [Gemini], [LiteLlm]: the text providers, request to wire and
      wire to chunk.
    - [AudioProvider]: what the audio providers share (URLs, input streams, codecs);
      [StreamStt]: the uplink and downlink tasks of a streaming transcription, for
      [Deepgram] and [AssemblyAi]; [Synthesis]: the re-chunking of a synthesized body, for
      [ElevenLabs] and [OpenAiTts]; [OpenAiStt].
    - [OpenAiRealtime], [GeminiLive]: realtime speech sessions, a step relation each.
    - [Text]: UTF-8 strings by their characters: what [str::trim], [split_whitespace],
      [lines], [chars] and slices do, and the chat template of the local text engines.
    - [WavDecode], [Whisper]: inference-runtime-whisper-local: audio_decode.rs; config.rs,
      error.rs, session.rs and runner.rs.
    - [Piper]: inference-runtime-piper.
    - [VllmEngine], [VllmDefaults]: inference-runtime-vllm: lib.rs and engine.rs; hf_cache.rs,
      probe.rs and defaults.rs.
    - [Cli]: inference-cli, which starts the actors.
    - [OrtSampling], [OrtGenerate], [OrtSession]: inference-runtime-ort: sampling.rs;
      generate.rs with topology.rs, tokenizer.rs, error.rs and runner.rs; config.rs,
      session.rs and infer.rs.
    - [LocalTts]: inference-runtime-kokoro, -xtts and -moss, which share their shape;
      [Audio2Face]: inference-runtime-audio2face; [LocalModels]: inference-runtime-candle,
      -cudarc, -tensorrt and -mistralrs.
    - [TestKit], [MockWs], [MockOpenAi]: inference-testkit: the scripted runners; mock_ws.rs, a
      server with its two tasks; mock_openai.rs, over an interface of the mock server.
    - [PyTypes], [PyCluster], [PyModule]: inference-py-bindings: errors.rs, runtime.rs, core.rs,
      config.rs and audio.rs; cluster.rs; lib.rs with what every module registers.
    - [PyBridge]: inference-python-bridge: the two locks of [with_python] and the threads.
    - [Manifests], [Rollup], [RemoteStubs]: the Cargo.toml files of the workspace, inference
      (the rollup crate) and what a build with given features compiles, the remote audio
      crates without their features; [Pipeline]: inference-pipeline.
    - [RemoteDemo], [AudioDemos]: src/examples/: remote_only_demo; tts_piper_local,
      stt_whisper_local and tts_elevenlabs_alignment.
    - [GemmaBench]: src/examples/gemma_bench/src/main.rs, the benchmark harness of the vLLM
      runtime.
    - [StrFacts], [LintAudit], [Xtask]: src/xtask/src/main.rs: the string operations it uses with
      their laws; the audit with its baseline file; versions, verification and the commands.
    Each file names in its own header the source files it models; a definition has the
    name of the function it models, or the function's with the component's where two
    share it (a constructor of an enum has the variant's name after an abbreviation of
    the enum's).

    ** Conventions

    An actor is a state and a handler; the messages it sends, the replies it gives on
    channels and the calls it makes are the events its step returns, in order.  A run is
    a fold over a list of messages, so a theorem over every list is one over every
    arrival order; where tasks run concurrently with the mailbox ([LocalEngine]) or
    actors exchange messages ([Engine]), the interleavings are a step relation or a list
    of scheduling events, and a liveness theorem is over every fair schedule
    ([Prelude.fair]).  An asynchronous stream is the list of its items, and a
    consumer that stops early is a receiver that answers [false].  Clock readings are
    arguments, in the order the code takes them.  Integers are [Z] with the width's
    wrap-around ([wrap_u64], [saturating_sub], ...) written where the code computes;
    a Rust panic, where the code could reach one, is [None].

    Code that is not in the repository is a parameter: serde_json's values and decoders,
    HTTP and WebSocket clients, the actor library's spawn, channel ends, chrono's date
    parser, the [GCounter] CRDT (class [GCounterOps], its laws [GCounterLaws]).  The
    theorems that need something of them say so, and a witness instantiates it.

    ** What the theorems show

    - Nothing is lost or reordered: the remote engine conserves requests and is work
      conserving ([Engine.engine_conserves], [Engine.engine_aggregate_exact]), the queue
      is priority-then-FIFO ([Queue.queue_priority_fifo]), frames and chunks arrive as
      sent ([WsCore.coalesce_preserves], [Request.request_stream_mirrored],
      [Tokens.tokens_accumulate]).
    - Admission is safe: the request budget of a window ([RateLimit.window_budget]), the
      slots of a local engine in every interleaving ([LocalEngine.gated_admission]), those of
      realtime sessions, which are relayed in order and given back when they end
      ([RealtimeEngine.realtime_sessions_relayed], [RealtimeEngine.realtime_slots_released]).
    - Everything admitted is answered: once arrivals stop, every fair schedule drains the
      engine, and each request got its stream or an error on its own channel
      ([Remote.remote_answers_all]).
    - Failures are contained: retries end ([Worker.dispatch_terminates]) within delays
      that respect the policy ([Backoff.compute_backoff_bounded]), the breaker answers as
      the documented one as long as no half-open probe fails
      ([CircuitBreaker.breaker_follows_docs]), a poisoned context is rebuilt once, with nothing
      kept, in any interleaving of a worker's parent, children and tasks
      ([LocalWorker.worker_generations]), a successful session rebuild is in force from then
      on and a failed one changes nothing ([Session.session_rebuild_safe]).
    - Codecs and decoders: base64 and RIFF/WAVE round trips, totality on malformed input
      ([Audio.base64_roundtrip], [WavDecode.wav_roundtrip],
      [WavDecode.payload_decode_total]); streamed and unary answers of a provider agree
      ([OpenAi.openai_stream_matches_unary], [Gemini.gemini_stream_matches_unary]); the tool
      reads back the baseline and the version it writes ([LintAudit.audit_roundtrip],
      [LintAudit.audit_layout_independent], [Xtask.version_roundtrip]).
    - Streaming sessions, in every interleaving of their tasks: a transcription delivers
      what was recognised, with the provider's times, and ends if the provider does
      ([StreamStt.stt_stream_spec], [StreamStt.stt_stream_ends],
      [Deepgram.deepgram_stream_timed], [AssemblyAi.assemblyai_stream_timed],
      [StreamStt.stt_uplink_roundtrip]); a synthesis delivers
      the whole audio with one final chunk ([Synthesis.speech_chunks_spec],
      [ElevenLabs.ws_stream_one_final]); realtime sessions relay both directions and end when
      someone ends them ([OpenAiRealtime.realtime_relay], [OpenAiRealtime.realtime_ends_iff],
      [GeminiLive.open_session_gated], [GeminiLive.live_relay]).
    - Local text generation: the KV-cached loop samples what the uncached model would and
      streams exactly its text ([OrtGenerate.generation_faithful]); a draw stays in the
      vocabulary, the top-k and the nucleus ([OrtSampling.sample_support]); a vLLM request
      that has the engine to itself receives all its text ([VllmEngine.vllm_alone_complete]).
    - Local speech: a transcription has one chunk per segment, one final
      ([Whisper.whisper_execute_delivers]); a text becomes phoneme ids that determine it, and
      the chunks are the samples of the voice ([Piper.phoneme_ids_injective],
      [Piper.piper_speak_delivers]).
    - Other local back ends: a chat answer is the model's, in order
      ([LocalModels.mistral_stream_spec]), raw inference runs the session once
      ([OrtSession.infer_runs_once]), an animation has the frames asked for with timestamps
      that advance ([Audio2Face.a2f_stream_spec]).
    - Python: the calls of one token stream, however interleaved or cancelled, run the runner
      once and deliver its chunks in order ([PyCluster.stream_interleaving]); [execute] is the
      iteration folded up ([PyCluster.execute_is_async_for]); a deployment serves until it is
      deployed again, and streams opened before keep their runner
      ([PyCluster.mock_deployment_serves], [PyCluster.redeploy_safe]); names, attributes,
      defaults and exceptions ([PyTypes.enum_names_faithful], [PyTypes.assign_getattr],
      [PyTypes.defaults_agree], [PyTypes.exception_hierarchy]); every class and exception is
      registered where it says ([PyModule.native_registers_all]); threads that call through the
      bridge never deadlock as long as none holds the GIL before ([PyBridge.bridge_calls_complete]).
    - Builds: whatever features are chosen, the rollup re-exports a backend exactly when it
      depends on it and when it is compiled, and then not as its stub ([Rollup.backend_built_iff_visible],
      [Rollup.visible_backend_live]); the pure-remote build has the remote runtimes and no GPU
      dependency ([Rollup.remote_only_no_gpu], [RemoteStubs.remote_only_has_no_stub]).
    - The parts put together: the remote demo prints what it promises on the mock server
      ([RemoteDemo.demo_meets_exit_criteria]), its retry driver ends for any runner
      ([RemoteDemo.retry_driver_ends]); what the Piper example writes is what the Whisper
      example reads ([AudioDemos.synthesized_file_transcribes]); the mock WebSocket server
      relays both ways ([MockWs.mock_ws_relays]).
    - Developer tool: the audit fails exactly on a regression ([LintAudit.audit_gate]), a bump is a
      step of the version order ([Xtask.semver_bump_spec]), a verification passes when every
      step does ([Xtask.verify_gate]); a benchmark run ends and measures each request once
      ([GemmaBench.bench_run_completes]).
    - Control plane: routing, placement, catalog, metrics against specifications
      ([Coordinator.route_least_loaded], [Placement.placement_spec],
      [Manager.catalog_last_write], [Metrics.metrics_count]); auto-provisioning registers a
      valid deployment or changes nothing ([VllmDefaults.provision_all_or_nothing]).
    - Where the code does not do what its documentation says, the theorem states what it
      does: [CircuitBreaker.half_open_never_reopens], [RateLimit.cluster_spend_ignored],
      [Worker.retry_replays_stream], [Engine.idle_signal_misattributed],
      [LocalEngine.engine_core_unbounded], [LocalWorker.poisoned_context_kept],
      [Anthropic.anthropic_stop_reason_overwritten], [Coordinator.nan_load_captures_routing],
      [Gemini.gemini_ai_studio_unauthenticated], [GeminiLive.live_cancel_keeps_uplink],
      [GeminiLive.live_close_keeps_session], [Placement.placement_ignores_preference],
      [Placement.placement_rotates],
      [StreamStt.stt_stream_held_open], [ElevenLabs.pcm24_mislabelled],
      [OpenAiTts.pcm_mislabelled], [OpenAiStt.straddling_word_dropped],
      [VllmEngine.vllm_final_output_lost], [Piper.piper_speaker_wraps],
      [Cli.served_project_unroutable], [Audio2Face.high_fps_frozen],
      [LocalModels.mistral_ignores_sampling], [LocalModels.trt_poisoned_kept],
      [LocalModels.with_stream_before_use], [PyCluster.abandoned_stream_is_empty],
      [PyCluster.readme_deploy_refused], [LintAudit.cfg_test_use_hides_next_item],
      [LintAudit.println_after_eprintln], [Xtask.bump_clobbers_rust_version],
      [GemmaBench.experiments_repeat_base], [GemmaBench.zero_concurrency_hangs],
      [RealtimeEngine.dropped_caller_keeps_slot], [RealtimeEngine.zero_relay_capacity_panics],
      [LocalEngine.load_of_no_slots], [PyBridge.with_python_under_gil_deadlocks],
      [PyBridge.with_python_nested_deadlocks], [MockOpenAi.injection_order],
      [AudioDemos.alignment_frames_miscounted].

    ** Fuel and bounds

    - [Worker.execute_with_retries]: fuel [retry_fuel], one more than the attempts the
      policy allows; [Worker.dispatch_terminates] proves it is never exhausted.
    - [Engine.try_dispatch_loop]: fuel the length of the queue, since a round hands out
      one request; [Engine.engine_conserves] proves no work is left undone.
    - [WavDecode.wav_loop]: one round per byte at most; [payload_decode_total].
    - [OrtGenerate.gen_loop]: fuel [gen_fuel], the tokens that may be generated, at least
      one; [OrtGenerate.generation_bounded] proves more changes nothing.
    - [StrFacts.replace_fuel]: [str_replace] gives it one more than the length of the text,
      of which every round consumes a character.
    - [PyCluster.async_for]: one turn more than the stream has items;
      [PyCluster.execute_is_async_for] proves the iteration ends within it.
    - [GemmaBench.top_up]: fuel [concurrency], since a round adds a task to the pool and a full
      pool stops it; [GemmaBench.pool_loop] is given the polls and needs no fuel.
    - [RemoteDemo.drive_with_retries]: fuel [retry_fuel]; [RemoteDemo.retry_driver_ends].
    - [Rollup.resolve]: fuel 4000, enough for the few hundred items of a build; that the result is closed, and
      so is the whole build, is computed with it ([Rollup.resolve_exact]).
    - Counters that the source keeps at a width are kept at it; a theorem that needs no
      wrap-around has the bound as a hypothesis.

    ** Not modelled

    The axum server, the reqwest, tungstenite and wiremock libraries, serde derivations and TLS,
    ONNX Runtime, whisper.cpp, vLLM, mistral.rs, TensorRT, CUDA and the streams crate, which are
    parameters or interfaces of the files that use them; PyO3's argument conversion and event
    loop; Cargo features of crates outside the workspace; tracing and logging, [Debug]
    formatting, and the tests. *)
From Stdlib Require Export ZArith Lia.
From stdpp Require Export base list gmap strings pretty numbers sorting.
From Stdlib Require Ascii.
Export (notations) Ascii.

(** ** Scope, notations *)

Declare Scope rust_scope.
Delimit Scope rust_scope with rust.
#[global] Open Scope Z_scope.

(** [Result<A, E>].  The error type comes first so that [result E] is the
    monad the source threads with [?]. *)
Inductive result (E A : Type) : Type :=
  | Ok (a : A)
  | Err (e : E).
Arguments Ok {E A} a.
Arguments Err {E A} e.

#[global] Instance result_ret {E} : MRet (result E) := λ A a, Ok a.
#[global] Instance result_bind {E} : MBind (result E) :=
  λ A B k m, match m with Ok a => k a | Err e => Err e end.
#[global] Instance result_fmap {E} : FMap (result E) :=
  λ A B f m, match m with Ok a => Ok (f a) | Err e => Err e end.
#[global] Instance result_eq_dec {E A} `{EqDecision E, EqDecision A} :
  EqDecision (result E A).
Proof. solve_decision. Defined.

Definition map_err {E F A} (f : E → F) (m : result E A) : result F A :=
  match m with Ok a => Ok a | Err e => Err (f e) end.
Definition is_ok {E A} (m : result E A) : bool :=
  match m with Ok _ => true | Err _ => false end.
Definition result_ok {E A} (m : result E A) : option A :=
  match m with Ok a => Some a | Err _ => None end.

Notation "'let?' x ':=' m 'in' k" :=
  (match m with Ok x => k | Err e => Err e end)
  (at level 10, x binder, m at level 100, k at level 200) : rust_scope.
#[global] Open Scope rust_scope.

(** ** Machine integers *)

Definition U8_MAX : Z := 255.
Definition U16_MAX : Z := 65535.
Definition U32_MAX : Z := 4294967295.
Definition U64_MAX : Z := 18446744073709551615.

Definition wrap (w : Z) (x : Z) : Z := x `mod` 2 ^ w.
Abbreviation wrap_u8 := (wrap 8).
Abbreviation wrap_u16 := (wrap 16).
Abbreviation wrap_u32 := (wrap 32).
Abbreviation wrap_u64 := (wrap 64).

(** [x as i32] of a [u32]. *)
Definition as_i32 (x : Z) : Z :=
  let y := wrap 32 x in if y <? 2 ^ 31 then y else y - 2 ^ 32.

Definition is_u (w : Z) (x : Z) : Prop := 0 ≤ x < 2 ^ w.
Definition saturating_sub (a b : Z) : Z := Z.max 0 (a - b).
Definition saturating_add (w a b : Z) : Z := Z.min (2 ^ w - 1) (a + b).
Definition saturating_mul (w a b : Z) : Z := Z.min (2 ^ w - 1) (a * b).

Lemma wrap_range w x : 0 ≤ w → 0 ≤ wrap w x < 2 ^ w.
Proof. intros. apply Z.mod_pos_bound. by apply Z.pow_pos_nonneg. Qed.
Lemma wrap_id w x : is_u w x → wrap w x = x.
Proof. intros H. by apply Z.mod_small. Qed.
Lemma saturating_sub_range w a b : is_u w a → 0 ≤ b → is_u w (saturating_sub a b).
Proof. unfold is_u, saturating_sub. lia. Qed.
Lemma saturating_add_range w a b :
  0 ≤ w → 0 ≤ a → 0 ≤ b → is_u w (saturating_add w a b).
Proof.
  unfold is_u, saturating_add. intros Hw Ha Hb.
  pose proof (Z.pow_pos_nonneg 2 w ltac:(lia) Hw). lia.
Qed.

(** ** Time *)

(** [std::time::Duration]: a non-negative number of nanoseconds.
    [std::time::Instant]: nanoseconds since a process-local origin. *)
Abbreviation Duration := Z (only parsing).
Abbreviation Instant := Z (only parsing).

Definition ns_per_ms : Z := 1000000.
Definition ns_per_s : Z := 1000000000.
Definition from_millis (ms : Z) : Duration := ms * ns_per_ms.
Definition from_secs (s : Z) : Duration := s * ns_per_s.
Definition as_millis (d : Duration) : Z := d `div` ns_per_ms.
Definition as_secs (d : Duration) : Z := d `div` ns_per_s.
(** [a.saturating_duration_since(b)], and [b.elapsed()] at time [a]. *)
Definition duration_since (a b : Instant) : Duration := saturating_sub a b.

Lemma as_millis_from_millis ms : as_millis (from_millis ms) = ms.
Proof. unfold as_millis, from_millis, ns_per_ms. by rewrite Z.div_mul. Qed.

(** ** Strings *)

Abbreviation ascii := Ascii.ascii (only parsing).
Abbreviation N_of_ascii := Ascii.N_of_ascii (only parsing).
Abbreviation ascii_of_N := Ascii.ascii_of_N (only parsing).

Definition quote_char : ascii := ascii_of_N 34.
Definition dquote : string := String quote_char EmptyString.

Definition ascii_lower (c : ascii) : ascii :=
  let n := N_of_ascii c in
  if ((65 <=? n) && (n <=? 90))%N then ascii_of_N (n + 32) else c.
Fixpoint to_ascii_lowercase (s : string) : string :=
  match s with
  | EmptyString => EmptyString
  | String c r => String (ascii_lower c) (to_ascii_lowercase r)
  end.
Definition starts_with (p s : string) : bool := String.prefix p s.
Fixpoint contains (p s : string) : bool :=
  String.prefix p s ||
  match s with EmptyString => false | String _ r => contains p r end.
(** [str::split_once(sep)] for a non-empty separator. *)
Fixpoint split_once (sep s : string) : option (string * string) :=
  if String.prefix sep s then Some ("", String.substring (String.length sep) (String.length s) s)
  else match s with
       | EmptyString => None
       | String c r => (λ '(a, b), (String c a, b)) <$> split_once sep r
       end.
Definition is_empty_str (s : string) : bool :=
  match s with EmptyString => true | _ => false end.

Definition hex_digit (n : N) : ascii :=
  if (n <? 10)%N then ascii_of_N (48 + n) else ascii_of_N (87 + n).
(** [<str as Debug>] on ASCII text; bytes of multi-byte characters are copied. *)
Definition debug_char (c : ascii) : string :=
  let n := N_of_ascii c in
  if (n =? 34)%N then String (ascii_of_N 92) dquote
  else if (n =? 92)%N then "\\"
  else if (n =? 10)%N then "\n"
  else if (n =? 13)%N then "\r"
  else if (n =? 9)%N then "\t"
  else if (n =? 0)%N then "\0"
  else if (n <? 16)%N then "\u{" +:+ String (hex_digit n) "}"
  else if ((n <? 32) || (n =? 127))%N
    then "\u{" +:+ String (hex_digit (n / 16)) (String (hex_digit (n mod 16)) "}")
  else String c EmptyString.
Fixpoint debug_body (s : string) : string :=
  match s with EmptyString => EmptyString | String c r => debug_char c +:+ debug_body r end.
Definition debug_str (s : string) : string := dquote +:+ debug_body s +:+ dquote.
Definition debug_option {A} (f : A → string) (o : option A) : string :=
  match o with None => "None" | Some a => "Some(" +:+ f a +:+ ")" end.

Lemma string_app_assoc (a b c : string) : (a +:+ b) +:+ c = a +:+ b +:+ c.
Proof. induction a; [done|]. by apply (f_equal (String _)). Qed.
Lemma string_app_nil_r (a : string) : a +:+ "" = a.
Proof. induction a; [done|]. by apply (f_equal (String _)). Qed.

(** ** Bytes *)

(** [u32::to_le_bytes], [u16::to_le_bytes]. *)
Fixpoint to_le_bytes (n : nat) (x : Z) : list Z :=
  match n with O => [] | S n' => x `mod` 256 :: to_le_bytes n' (x `div` 256) end.
Fixpoint of_le_bytes (b : list Z) : Z :=
  match b with [] => 0 | x :: r => x + 256 * of_le_bytes r end.
Fixpoint string_bytes (s : string) : list Z :=
  match s with EmptyString => [] | String c r => Z.of_N (N_of_ascii c) :: string_bytes r end.
Lemma of_to_le_bytes n x : 0 ≤ x < 256 ^ Z.of_nat n → of_le_bytes (to_le_bytes n x) = x.
Proof.
  revert x. induction n as [|n IH]; intros x Hx; cbn [to_le_bytes of_le_bytes]; [cbn in Hx; lia|].
  rewrite IH; [pose proof (Z.div_mod x 256); lia|].
  rewrite Nat2Z.inj_succ, Z.pow_succ_r in Hx by lia.
  split; [apply Z.div_pos; lia|apply Z.div_lt_upper_bound; lia].
Qed.
Lemma length_to_le_bytes n x : length (to_le_bytes n x) = n.
Proof. revert x. induction n as [|n IH]; intros x; cbn; [done|]. by rewrite IH. Qed.

(** ** Tactics and hints *)

Create HintDb rust.
#[export] Hint Resolve wrap_range wrap_id saturating_sub_range saturating_add_range : rust.
Create Rewrite HintDb rust.
#[export] Hint Rewrite as_millis_from_millis : rust.

(** Turn the boolean comparisons of the source into hypotheses for [lia]. *)
Ltac bool_to_prop :=
  repeat match goal with
  | H : (_ && _) = true |- _ => apply andb_true_iff in H; destruct H
  | H : (_ || _) = false |- _ => apply orb_false_iff in H; destruct H
  | H : (_ <? _) = true |- _ => apply Z.ltb_lt in H
  | H : (_ <? _) = false |- _ => apply Z.ltb_ge in H
  | H : (_ <=? _) = true |- _ => apply Z.leb_le in H
  | H : (_ <=? _) = false |- _ => apply Z.leb_gt in H
  | H : (_ =? _) = true |- _ => apply Z.eqb_eq in H
  | H : (_ =? _) = false |- _ => apply Z.eqb_neq in H
  | H : negb _ = true |- _ => apply negb_true_iff in H
  | H : negb _ = false |- _ => apply negb_false_iff in H
  end.
(** Case on every [if] and [match] of the goal, discharging what computes. *)
Ltac split_ifs :=
  repeat (case_match; simplify_eq/=); bool_to_prop.
Ltac unwrap_u := unfold is_u, saturating_sub, saturating_add, duration_since in *.

(** ** Lists *)

Section list_lemmas.
Context {A : Type}.
Implicit Types (l : list A) (P : A → Prop).

Lemma Forall_app_snoc P l x : Forall P l → P x → Forall P (l ++ [x]).
Proof. intros. by apply Forall_app_2; [|constructor]. Qed.

Lemma Forall_impl2 P Q (R : A → Prop) l :
  Forall P l → Forall Q l → (∀ x, P x → Q x → R x) → Forall R l.
Proof. rewrite !Forall_forall. naive_solver. Qed.
Fixpoint count_if (f : A → bool) (l : list A) : nat :=
  match l with [] => 0%nat | x :: r => (if f x then 1 else 0)%nat + count_if f r end.

Lemma count_if_app f l1 l2 : count_if f (l1 ++ l2) = (count_if f l1 + count_if f l2)%nat.
Proof. induction l1; simpl; lia. Qed.
Lemma count_if_le_length f l : (count_if f l ≤ length l)%nat.
Proof. induction l; simpl; [lia|]. case_match; lia. Qed.
Lemma count_if_insert f l i x y :
  l !! i = Some x →
  (count_if f (<[i:=y]> l) + (if f x then 1 else 0) =
   count_if f l + (if f y then 1 else 0))%nat.
Proof.
  revert i. induction l as [|z l IH]; intros [|i] Hi; simplify_eq/=.
  - lia.
  - specialize (IH i Hi). lia.
Qed.
Lemma count_if_none f l : (∀ x, x ∈ l → f x = false) → count_if f l = 0%nat.
Proof.
  induction l as [|x l IH]; intros H; simpl; [done|].
  rewrite (H x) by set_solver. rewrite IH; [done|]. set_solver.
Qed.
Lemma count_if_perm f l1 l2 : l1 ≡ₚ l2 → count_if f l1 = count_if f l2.
Proof. induction 1; simpl; lia. Qed.
Lemma count_if_lt f l x : x ∈ l → f x = false → (count_if f l < length l)%nat.
Proof.
  intros Hx Hf. apply list_elem_of_split in Hx as (l1 & l2 & ->).
  rewrite count_if_app, length_app. cbn [count_if length]. rewrite Hf.
  pose proof (count_if_le_length f l1). pose proof (count_if_le_length f l2). lia.
Qed.
End list_lemmas.
Lemma count_if_fmap {A B} (f : B → bool) (g : A → B) l : count_if f (g <$> l) = count_if (f ∘ g) l.
Proof. induction l; simpl; [done|]. by f_equal. Qed.
#[export] Hint Resolve Forall_app_snoc : rust.

(** The first index satisfying a test, [iter().position(f)]. *)
Fixpoint position {A} (f : A → bool) (l : list A) : option nat :=
  match l with
  | [] => None
  | x :: r => if f x then Some 0%nat else S <$> position f r
  end.

(** [Iterator::find_map]. *)
Fixpoint find_map {A B} (f : A → option B) (l : list A) : option B :=
  match l with [] => None | x :: r => match f x with Some b => Some b | None => find_map f r end end.
Lemma position_Some {A} (f : A → bool) l i :
  position f l = Some i → ∃ x, l !! i = Some x ∧ f x = true.
Proof.
  revert i. induction l as [|x l IH]; intros i; simpl; [done|].
  case_match eqn:E; intros; simplify_eq/=; [eauto|].
  destruct (position f l) eqn:Ep; simplify_eq/=. eauto.
Qed.
Lemma position_None {A} (f : A → bool) l x :
  position f l = None → x ∈ l → f x = false.
Proof.
  induction l as [|y l IH]; simpl; [set_solver|].
  destruct (f y) eqn:E; [done|]. intros H%fmap_None.
  rewrite elem_of_cons. intros [->|?]; auto.
Qed.

(** ** Fair schedules *)

(** A run of interleaved tasks under an infinite schedule, and the argument that makes
    them finish: a rank no task raises and one task, scheduled again and again, lowers. *)
Section fair.
Context {T S : Type} (step : T → S → S).
Definition run_sched (sched : nat → T) (s : S) (n : nat) : S :=
  foldl (λ s t, step t s) s (sched <$> seq 0 n).
Definition fair (sched : nat → T) (t : T) : Prop := ∀ n, ∃ m, (n ≤ m)%nat ∧ sched m = t.

Lemma run_sched_S sched s n : run_sched sched s (Datatypes.S n) = step (sched n) (run_sched sched s n).
Proof. unfold run_sched. by rewrite seq_S, fmap_app, foldl_app. Qed.
Lemma run_sched_ind (P : S → Prop) sched s n :
  P s → (∀ t x, P x → P (step t x)) → P (run_sched sched s n).
Proof.
  intros H0 HS. induction n as [|n IH]; [exact H0|]. rewrite run_sched_S. by apply HS.
Qed.

Lemma fair_lowers (rank : S → nat) sched t s :
  (∀ u x, (rank (step u x) ≤ rank x)%nat) →
  (∀ x, (0 < rank x)%nat → (rank (step t x) < rank x)%nat) →
  fair sched t → ∃ n, ∀ m, (n ≤ m)%nat → rank (run_sched sched s m) = 0%nat.
Proof.
  intros Hle Hlt Hf.
  assert (∀ n m, (n ≤ m)%nat → (rank (run_sched sched s m) ≤ rank (run_sched sched s n))%nat) as Hmono.
  { intros n m Hnm. induction Hnm as [|m Hnm IH]; [done|]. rewrite run_sched_S.
    specialize (Hle (sched m) (run_sched sched s m)). lia. }
  assert (∀ k n, (rank (run_sched sched s n) ≤ k)%nat → ∃ n', rank (run_sched sched s n') = 0%nat) as Hz.
  { induction k as [|k IH]; intros n Hn; [exists n; lia|].
    destruct (Hf n) as (m & Hnm & Hm).
    destruct (decide (rank (run_sched sched s m) = 0%nat)); [eauto|].
    apply (IH (Datatypes.S m)). rewrite run_sched_S, Hm.
    specialize (Hlt (run_sched sched s m) ltac:(lia)). specialize (Hmono n m Hnm). lia. }
  destruct (Hz _ 0%nat ltac:(done)) as [n Hn]. exists n. intros m Hm. specialize (Hmono n m Hm). lia.
Qed.
(** The same with an invariant under which rank 0 means that the goal is reached. *)
Lemma fair_reaches (rank : S → nat) (I D : S → Prop) sched t s :
  I s → (∀ u x, I x → I (step u x)) →
  (∀ u x, (rank (step u x) ≤ rank x)%nat) →
  (∀ x, (0 < rank x)%nat → (rank (step t x) < rank x)%nat) →
  (∀ x, I x → rank x = 0%nat → D x) →
  fair sched t → ∃ n, ∀ m, (n ≤ m)%nat → D (run_sched sched s m).
Proof.
  intros Hs HI Hle Hlt HD Hf. destruct (fair_lowers rank sched t s Hle Hlt Hf) as [n Hn].
  exists n. intros m Hm. apply HD; [|by apply Hn]. by apply run_sched_ind.
Qed.
(** The same when the task that lowers the rank depends on the state: some task that is
    helpful, and that stays helpful until the rank has dropped. *)
Lemma fair_helpful (allowed : T → Prop) (I : S → Prop) (rank : S → nat) (helpful : T → S → Prop) sched s :
  I s → (∀ n, allowed (sched n)) →
  (∀ u x, allowed u → I x → I (step u x)) →
  (∀ u x, allowed u → I x → (rank (step u x) ≤ rank x)%nat) →
  (∀ x, I x → (0 < rank x)%nat → ∃ t, fair sched t ∧ helpful t x) →
  (∀ t x, I x → helpful t x → (rank (step t x) < rank x)%nat) →
  (∀ u t x, allowed u → I x → helpful t x → (rank (step u x) < rank x)%nat ∨ helpful t (step u x)) →
  ∃ n, ∀ m, (n ≤ m)%nat → I (run_sched sched s m) ∧ rank (run_sched sched s m) = 0%nat.
Proof.
  intros Hs Hall HI Hle Hex Hlt Hkeep.
  assert (∀ n, I (run_sched sched s n)) as Hinv.
  { induction n as [|n IH]; [done|]. rewrite run_sched_S. by apply HI. }
  assert (∀ n d, rank (run_sched sched s (n + d)) ≤ rank (run_sched sched s n))%nat as Hmono.
  { intros n. induction d as [|d IH]; [by rewrite Nat.add_0_r|].
    rewrite Nat.add_succ_r, run_sched_S. pose proof (Hle _ _ (Hall (n + d)%nat) (Hinv (n + d)%nat)). lia. }
  assert (∀ t n d, helpful t (run_sched sched s n) →
    (rank (run_sched sched s (n + d)) < rank (run_sched sched s n))%nat ∨
    helpful t (run_sched sched s (n + d))) as Hstay.
  { intros t n d Ht. induction d as [|d [IH|IH]]; rewrite ?Nat.add_0_r; [by right| |].
    - left. specialize (Hmono (n + d)%nat 1%nat). rewrite Nat.add_1_r in Hmono. rewrite Nat.add_succ_r. lia.
    - rewrite Nat.add_succ_r, run_sched_S.
      destruct (Hkeep _ t _ (Hall (n + d)%nat) (Hinv (n + d)%nat) IH); [left|by right].
      specialize (Hmono n d). lia. }
  assert (∀ k n, (rank (run_sched sched s n) ≤ k)%nat → ∃ n', rank (run_sched sched s n') = 0%nat) as Hz.
  { induction k as [|k IH]; intros n Hn; [exists n; lia|].
    destruct (decide (rank (run_sched sched s n) = 0%nat)); [eauto|].
    destruct (Hex _ (Hinv n) ltac:(lia)) as (t & Hf & Ht). destruct (Hf n) as (m & Hnm & Hm).
    apply (IH (Datatypes.S m)). replace m with (n + (m - n))%nat in * by lia.
    rewrite run_sched_S, Hm. pose proof (Hle _ _ (Hall (n + (m - n))%nat) (Hinv (n + (m - n))%nat)) as Hl.
    rewrite Hm in Hl. destruct (Hstay t n (m - n)%nat Ht) as [Hd|Hh]; [lia|].
    pose proof (Hlt _ _ (Hinv _) Hh). specialize (Hmono n (m - n)%nat). lia. }
  destruct (Hz _ 0%nat ltac:(done)) as [n Hn]. exists n. intros m Hm. split; [done|].
  specialize (Hmono n (m - n)%nat). replace (n + (m - n))%nat with m in Hmono by lia. lia.
Qed.
End fair.
(** The fairest schedule of two tasks. *)
Definition alternating {T : Type} (a b : T) (n : nat) : T := if Nat.even n then a else b.
Lemma alternating_fair {T : Type} (a b t : T) : t = a ∨ t = b → fair (alternating a b) t.
Proof.
  intros Ht n. unfold alternating. destruct Ht as [->| ->].
  - exists (2 * n)%nat. rewrite Nat.even_even. split; [lia|done].
  - exists (Datatypes.S (2 * n)). rewrite Nat.even_succ, <-Nat.negb_even, Nat.even_even. split; [lia|done].
Qed.
