(* ===== verification/F64.v ===== *)
(** * IEEE-754 binary64 as the source uses it

    [f64] is the Standard Library's executable [spec_float] at precision 53;
    arithmetic is correctly rounded.  The file models the casts ([x as f64],
    [x as u64]/[as u32]), [min], [max], [partial_cmp] and [powi], and proves the
    rounding bound the back-off computation rests on.  The bridge to the
    primitive floats is used only to know that results are canonical.  [f32] is the same at
    precision 24, with when its results are numbers and how far a rounding moves a value. *)
From S2P Require Import Prelude.
From Stdlib Require Import Floats SpecFloat.

Abbreviation f64 := spec_float (only parsing).
Abbreviation prec64 := 53 (only parsing).
Abbreviation emax64 := 1024 (only parsing).

Definition f64_mul (x y : f64) : f64 := SFmul prec64 emax64 x y.
Definition f64_add (x y : f64) : f64 := SFadd prec64 emax64 x y.
Definition f64_div (x y : f64) : f64 := SFdiv prec64 emax64 x y.
Definition f64_cmp (x y : f64) : option comparison := SFcompare x y.
(** [n as f64] for an integer [n]. *)
Definition f64_of_Z (n : Z) : f64 := binary_normalize prec64 emax64 n 0 false.
(** A decimal literal [n/d] whose numerator and denominator are exact. *)
Definition f64_lit (n d : Z) : f64 := f64_div (f64_of_Z n) (f64_of_Z d).
Definition f64_is_nan (x : f64) : bool :=
  match x with S754_nan => true | _ => false end.

(** [f64::min] and [f64::max]: a NaN operand loses. *)
Definition f64_min (x y : f64) : f64 :=
  if f64_is_nan x then y else if f64_is_nan y then x
  else if SFltb y x then y else x.
Definition f64_max (x y : f64) : f64 :=
  if f64_is_nan x then y else if f64_is_nan y then x
  else if SFltb x y then y else x.

(** Truncation of [m * 2^e] towards zero. *)
Definition trunc_pos (m : positive) (e : Z) : Z :=
  if 0 <=? e then Zpos m * 2 ^ e else Zpos m / 2 ^ (- e).
(** [x as u{w}]: truncating, saturating, NaN to zero. *)
Definition f64_to_u (w : Z) (x : f64) : Z :=
  match x with
  | S754_finite false m e => Z.min (2 ^ w - 1) (trunc_pos m e)
  | S754_infinity false => 2 ^ w - 1
  | _ => 0
  end.

(** [x.powi(n)]: the repeated squaring of compiler-rt's [__powidf2]; 32 rounds
    exhaust a 32-bit exponent. *)
Fixpoint powi_loop (fuel : nat) (r a : f64) (b : Z) : f64 :=
  match fuel with
  | O => r
  | S fuel' =>
      let r := if Z.odd b then f64_mul r a else r in
      let b := Z.quot b 2 in
      if b =? 0 then r else powi_loop fuel' r (f64_mul a a) b
  end.
Definition f64_powi (a : f64) (b : Z) : f64 :=
  let r := powi_loop 32 (f64_of_Z 1) a b in
  if b <? 0 then f64_div (f64_of_Z 1) r else r.

(** ** Canonical floats *)

Definition f64_valid (x : f64) : Prop := SpecFloat.valid_binary prec64 emax64 x = true.

Lemma f64_valid_prim x : f64_valid x → ∃ p, Prim2SF p = x.
Proof. intros H. exists (SF2Prim x). by apply Prim2SF_SF2Prim. Qed.
Lemma f64_mul_valid x y : f64_valid x → f64_valid y → f64_valid (f64_mul x y).
Proof.
  intros [p <-]%f64_valid_prim [q <-]%f64_valid_prim.
  unfold f64_mul. change (SFmul 53 1024) with SF64mul. rewrite <-mul_spec.
  apply Prim2SF_valid.
Qed.
Lemma f64_add_valid x y : f64_valid x → f64_valid y → f64_valid (f64_add x y).
Proof.
  intros [p <-]%f64_valid_prim [q <-]%f64_valid_prim.
  unfold f64_add. change (SFadd 53 1024) with SF64add. rewrite <-add_spec.
  apply Prim2SF_valid.
Qed.
Lemma f64_div_valid x y : f64_valid x → f64_valid y → f64_valid (f64_div x y).
Proof.
  intros [p <-]%f64_valid_prim [q <-]%f64_valid_prim.
  unfold f64_div. change (SFdiv 53 1024) with SF64div. rewrite <-div_spec.
  apply Prim2SF_valid.
Qed.
Lemma f64_min_valid x y : f64_valid x → f64_valid y → f64_valid (f64_min x y).
Proof. intros. unfold f64_min. by repeat case_match. Qed.
Lemma powi_loop_valid fuel r a b :
  f64_valid r → f64_valid a → f64_valid (powi_loop fuel r a b).
Proof.
  revert r a b. induction fuel as [|fuel IH]; intros r a b Hr Ha; simpl; [done|].
  repeat case_match; auto using f64_mul_valid.
Qed.
Lemma f64_powi_valid a b : f64_valid a → f64_valid (f64_powi a b).
Proof.
  intros Ha. unfold f64_powi.
  assert (f64_valid (f64_of_Z 1)) by done.
  case_match; auto using powi_loop_valid, f64_div_valid.
Qed.
#[export] Hint Resolve f64_mul_valid f64_add_valid f64_div_valid f64_min_valid
  f64_powi_valid : rust.

(** ** Digits and canonical exponents *)

Lemma digits2_bounds m :
  2 ^ (Zpos (digits2_pos m) - 1) ≤ Zpos m < 2 ^ Zpos (digits2_pos m).
Proof.
  induction m as [m IH|m IH|]; cbn [digits2_pos].
  - rewrite Pos2Z.inj_succ. replace (Z.succ _ - 1) with (Zpos (digits2_pos m)) by lia.
    rewrite Z.pow_succ_r by lia.
    assert (2 ^ Zpos (digits2_pos m) = 2 * 2 ^ (Zpos (digits2_pos m) - 1)) as E.
    { rewrite <-Z.pow_succ_r by lia. f_equal. lia. }
    lia.
  - rewrite Pos2Z.inj_succ. replace (Z.succ _ - 1) with (Zpos (digits2_pos m)) by lia.
    rewrite Z.pow_succ_r by lia.
    assert (2 ^ Zpos (digits2_pos m) = 2 * 2 ^ (Zpos (digits2_pos m) - 1)) as E.
    { rewrite <-Z.pow_succ_r by lia. f_equal. lia. }
    lia.
  - done.
Qed.
Lemma Zdigits2_bounds m : 0 < m → 2 ^ (Zdigits2 m - 1) ≤ m < 2 ^ Zdigits2 m.
Proof. destruct m; [lia| |lia]. intros _. apply digits2_bounds. Qed.
Lemma Zdigits2_nonneg m : 0 ≤ Zdigits2 m.
Proof. destruct m; simpl; lia. Qed.
Lemma Zdigits2_pos m : 0 < m → 0 < Zdigits2 m.
Proof. destruct m; simpl; lia. Qed.

(** Magnitudes are monotone: a smaller real has no larger top exponent. *)
Lemma digits_mono K m1 e1 m2 e2 :
  0 < m1 → 0 < m2 → 0 ≤ e1 + K → 0 ≤ e2 + K →
  m1 * 2 ^ (e1 + K) ≤ m2 * 2 ^ (e2 + K) →
  Zdigits2 m1 + e1 ≤ Zdigits2 m2 + e2.
Proof.
  intros H1 H2 He1 He2 Hle.
  pose proof (Zdigits2_bounds m1 H1) as [B1 _].
  pose proof (Zdigits2_bounds m2 H2) as [_ B2].
  pose proof (Zdigits2_pos m1 H1). pose proof (Zdigits2_pos m2 H2).
  destruct (Z_le_gt_dec (Zdigits2 m1 + e1) (Zdigits2 m2 + e2)) as [|Hgt]; [done|exfalso].
  assert (2 ^ (Zdigits2 m1 - 1 + (e1 + K)) ≤ m1 * 2 ^ (e1 + K)).
  { rewrite Z.pow_add_r by lia. apply Z.mul_le_mono_nonneg_r; [apply Z.pow_nonneg|]; lia. }
  assert (m2 * 2 ^ (e2 + K) < 2 ^ (Zdigits2 m2 + (e2 + K))).
  { rewrite (Z.pow_add_r 2 (Zdigits2 m2)) by lia.
    apply Z.mul_lt_mono_pos_r; [apply Z.pow_pos_nonneg|]; lia. }
  assert (2 ^ (Zdigits2 m2 + (e2 + K)) ≤ 2 ^ (Zdigits2 m1 - 1 + (e1 + K)))
    by (apply Z.pow_le_mono_r; lia).
  lia.
Qed.

(** The facts a canonical finite [m * 2^e] provides. *)
Definition canonical (m e : Z) : Prop :=
  0 < m ∧ e = Z.max (Zdigits2 m + e - 53) (-1074) ∧ e ≤ 971.
Lemma valid_canonical s m e : f64_valid (S754_finite s m e) → canonical (Zpos m) e.
Proof.
  unfold f64_valid, canonical. cbn. unfold bounded, canonical_mantissa, fexp, emin.
  intros [H1 H2]%andb_true_iff. bool_to_prop.
  cbn [Zdigits2]. apply Z.eqb_eq in H1. apply Z.leb_le in H2. lia.
Qed.

(** ** Rounding never crosses a float above the exact value *)

Lemma iter_pos_iter {A} (f : A → A) p x : iter_pos f p x = Nat.iter (Pos.to_nat p) f x.
Proof.
  revert x. induction p as [p IH|p IH|]; intros x; cbn [iter_pos].
  - rewrite !IH, Pos2Nat.inj_xI, Nat.iter_succ_r, <-Nat.iter_add. f_equal. lia.
  - rewrite !IH, Pos2Nat.inj_xO, <-Nat.iter_add. f_equal. lia.
  - done.
Qed.

Lemma shr_1_spec mrs :
  0 ≤ shr_m mrs →
  shr_m (shr_1 mrs) = shr_m mrs / 2 ∧
  shr_r (shr_1 mrs) = Z.odd (shr_m mrs) ∧
  shr_s (shr_1 mrs) = (shr_r mrs || shr_s mrs)%bool.
Proof.
  destruct mrs as [[|[p|p|]|p] r s]; cbn -[Z.div]; intros; try done; [|].
  - split; [|done]. rewrite <-Z.div2_div. done.
  - split; [|done]. rewrite <-Z.div2_div. done.
Qed.

(** [n] right shifts: the quotient, and clean round/sticky bits when exact. *)
Lemma shr_iter_spec m n :
  0 ≤ m →
  let mrs := Nat.iter n shr_1 {| shr_m := m; shr_r := false; shr_s := false |} in
  shr_m mrs = m / 2 ^ Z.of_nat n ∧
  (m mod 2 ^ Z.of_nat n = 0 → shr_r mrs = false ∧ shr_s mrs = false).
Proof.
  intros Hm. cbv zeta. induction n as [|n [IH1 IH2]].
  - by rewrite Z.div_1_r.
  - rewrite Nat.iter_succ. set (mrs := Nat.iter n shr_1 _) in *.
    assert (0 < 2 ^ Z.of_nat n) by (apply Z.pow_pos_nonneg; lia).
    assert (0 ≤ shr_m mrs) by (rewrite IH1; by apply Z.div_pos).
    destruct (shr_1_spec mrs) as (E1 & E2 & E3); [done|]. rewrite E1, E2, E3.
    rewrite Nat2Z.inj_succ, Z.pow_succ_r, Z.mul_comm by lia.
    rewrite <-Z.div_div, IH1 by lia. split; [done|].
    rewrite Z.rem_mul_r by lia.
    pose proof (Z.mod_pos_bound m (2 ^ Z.of_nat n)).
    pose proof (Z.mod_pos_bound (m / 2 ^ Z.of_nat n) 2). intros E.
    destruct IH2 as [-> ->]; [nia|].
    split; [|done]. rewrite <-Z.negb_even, Zeven_mod.
    by replace (m / 2 ^ Z.of_nat n mod 2) with 0 by nia.
Qed.

(** One shift-and-round of [m * 2^e] for [m >= 0]: the result of rounding a
    quotient is at most any multiple of [2^n] above [m]. *)
Lemma shr_round_le m e n X :
  0 ≤ m → m ≤ X * 2 ^ Z.max 0 n →
  let '(mrs, e') := shr (shr_record_of_loc m loc_Exact) e n in
  e' = e + Z.max 0 n ∧ 0 ≤ shr_m mrs ∧ shr_m mrs * 2 ^ Z.max 0 n ≤ m ∧
  0 ≤ round_nearest_even (shr_m mrs) (loc_of_shr_record mrs) ≤ X.
Proof.
  intros Hm HX. destruct n as [|p|p];
    [change (Z.max 0 0) with 0 in *|change (Z.max 0 (Zpos p)) with (Zpos p) in *
    |change (Z.max 0 (Zneg p)) with 0 in *];
    cbn -[Z.pow] in *; [rewrite Z.pow_0_r in *; lia| |rewrite Z.pow_0_r in *; lia].
  rewrite iter_pos_iter.
  pose proof (shr_iter_spec m (Pos.to_nat p) Hm) as [E1 E2].
  set (mrs := Nat.iter _ _ _) in *. rewrite positive_nat_Z in E1, E2.
  set (P := 2 ^ Zpos p) in *.
  assert (0 < P) by (apply Z.pow_pos_nonneg; lia).
  pose proof (Z.div_mod m P ltac:(lia)). pose proof (Z.mod_pos_bound m P ltac:(lia)).
  assert (0 ≤ shr_m mrs) by (rewrite E1; by apply Z.div_pos).
  assert (shr_m mrs ≤ X) by (rewrite E1; apply Z.div_le_upper_bound; lia).
  assert (loc_of_shr_record mrs ≠ loc_Exact → shr_m mrs < X) as Hne.
  { intros Hloc. destruct (Z.eq_dec (m mod P) 0) as [Hz|Hnz]; [|rewrite E1; nia].
    destruct (E2 Hz) as [Hr Hs]. destruct mrs as [? ? ?]; simplify_eq/=. }
  split_and!; [done|done|rewrite E1; lia|..]; unfold round_nearest_even;
    destruct (loc_of_shr_record mrs) as [|[]] eqn:El; try case_match; try lia;
    specialize (Hne ltac:(done)); lia.
Qed.

(** [0 <= x <= m * 2^e] for a float [x] (a zero counts as non-negative). *)
Definition f64_le_pos (x : f64) (m e : Z) : Prop :=
  match x with
  | S754_zero _ => True
  | S754_finite false mx ex =>
      -1074 ≤ ex ≤ 971 ∧ Zpos mx * 2 ^ (ex + 4096) ≤ m * 2 ^ (e + 4096)
  | _ => False
  end.

Lemma pow_split a b : 0 ≤ b → -4096 ≤ a → 2 ^ (a + b + 4096) = 2 ^ b * 2 ^ (a + 4096).
Proof. intros. rewrite <-Z.pow_add_r by lia. f_equal. lia. Qed.

(** Comparing [m * 2^(e+n)] with a canonical float, at exponent [e + n]. *)
Lemma scale_multiple m e n my ey :
  0 ≤ n → -4096 ≤ e → e + n ≤ ey →
  m * 2 ^ (e + 4096) ≤ my * 2 ^ (ey + 4096) →
  ∃ X, m ≤ X * 2 ^ n ∧ X * 2 ^ (e + n + 4096) ≤ my * 2 ^ (ey + 4096).
Proof.
  intros Hn He Hey Hle. exists (my * 2 ^ (ey - (e + n))).
  assert (my * 2 ^ (ey - (e + n)) * 2 ^ (e + n + 4096) = my * 2 ^ (ey + 4096)) as E.
  { rewrite <-Z.mul_assoc, <-Z.pow_add_r by lia. do 2 f_equal. lia. }
  split; [|lia]. rewrite <-E, pow_split, Z.mul_assoc in Hle by lia.
  apply (Z.mul_le_mono_pos_r _ _ (2 ^ (e + 4096))); [apply Z.pow_pos_nonneg; lia|done].
Qed.

(** Dropping low bits does not increase the value. *)
Lemma scale_floor m2 n q e M :
  0 ≤ n → -4096 ≤ e → m2 * 2 ^ n ≤ q → q * 2 ^ (e + 4096) ≤ M →
  m2 * 2 ^ (e + n + 4096) ≤ M.
Proof.
  intros Hn He Hle HM. rewrite pow_split, Z.mul_assoc by lia.
  etrans; [|exact HM]. apply Z.mul_le_mono_nonneg_r; [apply Z.pow_nonneg; lia|done].
Qed.

Lemma pow_ge_1 n : 0 ≤ n → 1 ≤ 2 ^ n.
Proof. intros. pose proof (Z.pow_pos_nonneg 2 n). lia. Qed.

Lemma round_aux_le m e my ey :
  0 < m → -4096 ≤ e ≤ 971 → canonical my ey →
  m * 2 ^ (e + 4096) ≤ my * 2 ^ (ey + 4096) →
  f64_le_pos (binary_round_aux 53 1024 false m e loc_Exact) my ey.
Proof.
  intros Hm He (Hmy & Hey & Hmax) Hle.
  assert (Zdigits2 m + e ≤ Zdigits2 my + ey) as Hd by (apply (digits_mono 4096); lia).
  unfold binary_round_aux, shr_fexp.
  change (fexp 53 1024 (Zdigits2 m + e)) with (Z.max (Zdigits2 m + e - 53) (-1074)).
  set (n := Z.max (Zdigits2 m + e - 53) (-1074) - e).
  assert (∃ X, m ≤ X * 2 ^ Z.max 0 n ∧
    X * 2 ^ (e + Z.max 0 n + 4096) ≤ my * 2 ^ (ey + 4096)) as (X & HX1 & HX2).
  { destruct (Z_le_gt_dec n 0) as [Hn|Hn].
    - exists m. rewrite Z.max_l by lia. rewrite Z.add_0_r, Z.pow_0_r. lia.
    - apply scale_multiple; lia. }
  pose proof (shr_round_le m e n X ltac:(lia) HX1) as H1.
  destruct (shr _ e n) as [mrs e']. destruct H1 as (-> & Hs & _ & Hq).
  set (q := round_nearest_even _ _) in *. set (e' := e + Z.max 0 n) in *.
  assert (q * 2 ^ (e' + 4096) ≤ my * 2 ^ (ey + 4096)) as Hq'.
  { etrans; [|exact HX2]. apply Z.mul_le_mono_nonneg_r; [apply Z.pow_nonneg|]; lia. }
  change (fexp 53 1024 (Zdigits2 q + e')) with (Z.max (Zdigits2 q + e' - 53) (-1074)).
  set (n2 := Z.max (Zdigits2 q + e' - 53) (-1074) - e').
  assert (q ≤ q * 2 ^ Z.max 0 n2) as Hqq.
  { rewrite <-(Z.mul_1_r q) at 1. apply Z.mul_le_mono_nonneg_l; [lia|apply pow_ge_1; lia]. }
  pose proof (shr_round_le q e' n2 q ltac:(lia) Hqq) as H2.
  destruct (shr _ e' n2) as [mrs2 e2]. destruct H2 as (-> & Hs2 & Hv & _).
  clear HX1 HX2 Hqq Hq Hs. destruct (shr_m mrs2) as [|m2|] eqn:Em; [done| |lia].
  assert (0 < q).
  { pose proof (Z.pow_pos_nonneg 2 (Z.max 0 n2) ltac:(lia) ltac:(lia)) as Hp.
    pose proof (Z.mul_pos_pos (Zpos m2) _ ltac:(lia) Hp). lia. }
  assert (Zdigits2 q + e' ≤ Zdigits2 my + ey)
    by (apply (digits_mono 4096); [lia..|done]).
  rewrite (proj2 (Z.leb_le _ _)) by lia.
  split; [lia|]. apply (scale_floor _ _ q); [lia..|done|done].
Qed.

(** ** Exact integers, truncation, comparison *)

Lemma round_aux_exact m e :
  canonical (Zpos m) e → binary_round_aux 53 1024 false (Zpos m) e loc_Exact = S754_finite false m e.
Proof.
  intros (_ & He & Hmax). unfold binary_round_aux, shr_fexp.
  change (fexp 53 1024 (Zdigits2 (Zpos m) + e)) with (Z.max (Zdigits2 (Zpos m) + e - 53) (-1074)).
  rewrite <-He, Z.sub_diag. cbn [shr shr_record_of_loc shr_m loc_of_shr_record round_nearest_even].
  change (fexp 53 1024 (Zdigits2 (Zpos m) + e)) with (Z.max (Zdigits2 (Zpos m) + e - 53) (-1074)).
  rewrite <-He, Z.sub_diag. cbn [shr shr_record_of_loc shr_m].
  by rewrite (proj2 (Z.leb_le e (1024 - 53))) by lia.
Qed.

Lemma iter_xO p m : Zpos (Pos.iter xO m p) = Zpos m * 2 ^ Zpos p.
Proof.
  revert m. induction p as [|p IH] using Pos.peano_ind; intros m.
  - cbn -[Z.mul]. lia.
  - rewrite Pos.iter_succ, Pos2Z.inj_succ, Z.pow_succ_r by lia.
    rewrite Pos2Z.inj_xO, IH. lia.
Qed.
Lemma shl_align_spec m e e' :
  let '(mz, ez) := shl_align m e e' in
  ez = Z.min e e' ∧ Zpos mz = Zpos m * 2 ^ (e - ez).
Proof.
  unfold shl_align. destruct (e' - e) as [|p|p] eqn:E; cbn -[Z.mul Z.pow].
  - split; [lia|]. rewrite Z.sub_diag, Z.pow_0_r. lia.
  - split; [lia|]. rewrite Z.sub_diag, Z.pow_0_r. lia.
  - split; [lia|]. rewrite iter_xO. do 2 f_equal. lia.
Qed.

Lemma digits_shift m mz k :
  0 ≤ k → Zpos mz = Zpos m * 2 ^ k → Zdigits2 (Zpos mz) = Zdigits2 (Zpos m) + k.
Proof.
  intros Hk E. apply Z.le_antisymm.
  - pose proof (digits_mono 0 (Zpos mz) 0 (Zpos m) k ltac:(lia) ltac:(lia) ltac:(lia) ltac:(lia)).
    rewrite !Z.add_0_r, Z.pow_0_r in *. lia.
  - pose proof (digits_mono 0 (Zpos m) k (Zpos mz) 0 ltac:(lia) ltac:(lia) ltac:(lia) ltac:(lia)).
    rewrite !Z.add_0_r, Z.pow_0_r in *. lia.
Qed.

(** Integers up to [2^53] convert exactly. *)
Lemma f64_of_Z_exact z :
  0 < z ≤ 2 ^ 53 →
  ∃ m e, f64_of_Z z = S754_finite false m e ∧ canonical (Zpos m) e ∧
    Zpos m * 2 ^ (e + 4096) = z * 2 ^ 4096.
Proof.
  intros [Hz Hmax]. destruct (Z.eq_dec z (2 ^ 53)) as [->|Hne].
  { eexists _, _. split; [vm_compute; done|]. unfold canonical. split_and!; done || lia. }
  destruct z as [|p|p]; [lia| |lia].
  assert (0 < Zdigits2 (Zpos p)) by by apply Zdigits2_pos.
  assert (Zdigits2 (Zpos p) ≤ 53) as Hd.
  { pose proof (Zdigits2_bounds (Zpos p) ltac:(lia)) as [B _].
    assert (2 ^ (Zdigits2 (Zpos p) - 1) < 2 ^ 53) as B' by lia.
    apply Z.pow_lt_mono_r_iff in B'; lia. }
  unfold f64_of_Z, binary_normalize, binary_round.
  change (fexp prec64 emax64 (Zpos (digits2_pos p) + 0))
    with (Z.max (Zdigits2 (Zpos p) + 0 - 53) (-1074)).
  pose proof (shl_align_spec p 0 (Z.max (Zdigits2 (Zpos p) + 0 - 53) (-1074))) as Hs.
  destruct (shl_align _ _ _) as [mz ez]. destruct Hs as [He Hm].
  pose proof (digits_shift p mz (0 - ez) ltac:(lia) Hm) as Hdz.
  assert (canonical (Zpos mz) ez) as Hc by (unfold canonical; lia).
  exists mz, ez. rewrite round_aux_exact by done. split_and!; [done..|].
  rewrite Hm, <-Z.mul_assoc, <-Z.pow_add_r by lia. do 2 f_equal. lia.
Qed.

Lemma trunc_pos_nonneg m e : 0 ≤ trunc_pos m e.
Proof.
  unfold trunc_pos. case_match; bool_to_prop.
  - apply Z.mul_nonneg_nonneg; [lia|]. by apply Z.pow_nonneg.
  - apply Z.div_pos; [lia|]. apply Z.pow_pos_nonneg; lia.
Qed.
Lemma trunc_pos_le m e z :
  -4096 ≤ e → Zpos m * 2 ^ (e + 4096) ≤ z * 2 ^ 4096 → trunc_pos m e ≤ z.
Proof.
  intros He Hle. unfold trunc_pos. case_match; bool_to_prop.
  - apply (Z.mul_le_mono_pos_r _ _ (2 ^ 4096)); [done|].
    by rewrite <-Z.mul_assoc, <-Z.pow_add_r by lia.
  - assert (2 ^ 4096 = 2 ^ (- e) * 2 ^ (e + 4096)) as E.
    { rewrite <-Z.pow_add_r by lia. f_equal. lia. }
    apply Z.div_le_upper_bound; [apply Z.pow_pos_nonneg; lia|].
    rewrite E, Z.mul_assoc in Hle.
    apply Z.mul_le_mono_pos_r in Hle; [lia|apply Z.pow_pos_nonneg; lia].
Qed.

Lemma f64_to_u_nonneg w x : 0 ≤ w → 0 ≤ f64_to_u w x.
Proof.
  intros Hw. pose proof (Z.pow_pos_nonneg 2 w ltac:(lia) Hw).
  destruct x as [|[]| |[] m e]; simpl; try lia.
  pose proof (trunc_pos_nonneg m e). lia.
Qed.
Lemma f64_to_u_le w x m e z :
  0 ≤ w → 0 ≤ z → m * 2 ^ (e + 4096) ≤ z * 2 ^ 4096 → f64_le_pos x m e → f64_to_u w x ≤ z.
Proof.
  intros Hw Hz Hle. pose proof (Z.pow_pos_nonneg 2 w ltac:(lia) Hw).
  destruct x as [|[]| |[] mx ex]; simpl; try done.
  intros [He Hx]. pose proof (trunc_pos_le mx ex z ltac:(lia) ltac:(lia)). lia.
Qed.

(** On canonical positives the float order is the order of the values. *)
Lemma f64_ltb_false_le m1 e1 m2 e2 :
  canonical (Zpos m1) e1 → canonical (Zpos m2) e2 →
  SFltb (S754_finite false m1 e1) (S754_finite false m2 e2) = false →
  Zpos m2 * 2 ^ (e2 + 4096) ≤ Zpos m1 * 2 ^ (e1 + 4096).
Proof.
  intros (_ & C1 & _) (_ & C2 & _). unfold SFltb, SFcompare.
  destruct (Z.compare_spec e1 e2) as [->|He|He]; [|done|].
  - change (Pos.compare_cont Eq m1 m2) with (Pos.compare m1 m2).
    destruct (Pos.compare_spec m1 m2); [intros _; by subst|done|intros _].
    apply Z.mul_le_mono_nonneg_r; [by apply Z.pow_nonneg|lia].
  - intros _. pose proof (Zdigits2_bounds (Zpos m1) ltac:(lia)) as [B1 _].
    pose proof (Zdigits2_bounds (Zpos m2) ltac:(lia)) as [_ B2].
    assert (Zdigits2 (Zpos m1) = 53) as E1 by lia. rewrite E1 in B1.
    assert (2 ^ Zdigits2 (Zpos m2) ≤ 2 ^ 53) by (apply Z.pow_le_mono_r; lia).
    assert (2 ^ (e1 + 4096) = 2 ^ (e1 - e2) * 2 ^ (e2 + 4096)) as ->.
    { rewrite <-Z.pow_add_r by lia. f_equal. lia. }
    rewrite Z.mul_assoc. apply Z.mul_le_mono_nonneg_r; [apply Z.pow_nonneg; lia|].
    assert (2 ^ 1 ≤ 2 ^ (e1 - e2)) by (apply Z.pow_le_mono_r; lia).
    assert (2 ^ (53 - 1) * 2 ^ 1 ≤ Zpos m1 * 2 ^ (e1 - e2))
      by (apply Z.mul_le_mono_nonneg; lia).
    lia.
Qed.

(** ** Products and sums below a bound *)

(** A result that [max(0.0) as u64] turns into zero. *)
Definition f64_nonpos (x : f64) : bool :=
  match x with
  | S754_zero _ | S754_nan => true
  | S754_infinity s | S754_finite s _ _ => s
  end.

Lemma round_aux_neg m e l : f64_nonpos (binary_round_aux 53 1024 true m e l) = true.
Proof. unfold binary_round_aux. by repeat case_match. Qed.

Lemma f64_le_pos_trans x m1 e1 m2 e2 :
  f64_le_pos x m1 e1 → m1 * 2 ^ (e1 + 4096) ≤ m2 * 2 ^ (e2 + 4096) → f64_le_pos x m2 e2.
Proof. destruct x as [| | |[]]; simpl; try done. intros [??] ?. split; [done|lia]. Qed.

(** [x * y <= x] for [y <= 1]. *)
Lemma mul_pow_le1 mx my ex ey :
  0 ≤ mx → -2048 ≤ ey → -2048 ≤ ex → my * 2 ^ (ey + 4096) ≤ 2 ^ 4096 →
  mx * my * 2 ^ (ex + ey + 4096) ≤ mx * 2 ^ (ex + 4096).
Proof.
  intros Hm Hy Hx Hle.
  assert (0 ≤ 2 ^ (ex + 4096)) by (apply Z.pow_nonneg; lia).
  assert (2 ^ (ex + ey + 4096) * 2 ^ 4096 = 2 ^ (ex + 4096) * 2 ^ (ey + 4096)) as E.
  { rewrite <-!Z.pow_add_r by lia. f_equal. lia. }
  apply (Z.mul_le_mono_pos_r _ _ (2 ^ 4096)); [by apply Z.pow_pos_nonneg|].
  rewrite <-Z.mul_assoc, E.
  replace (mx * my * (2 ^ (ex + 4096) * 2 ^ (ey + 4096)))
    with (mx * 2 ^ (ex + 4096) * (my * 2 ^ (ey + 4096))) by ring.
  apply Z.mul_le_mono_nonneg_l; [by apply Z.mul_nonneg_nonneg|done].
Qed.

Lemma f64_mul_le_pos x r mx ex :
  f64_le_pos x mx ex → f64_le_pos r 1 0 →
  (∀ m e, r = S754_finite false m e → e ≤ 0) →
  canonical mx ex → f64_le_pos (f64_mul x r) mx ex.
Proof.
  destruct x as [sx| | |[] m e], r as [sr| | |[] mr er]; try done.
  intros [He Hle] [Her Hr] Hr0 Hm. specialize (Hr0 _ _ eq_refl).
  unfold f64_mul. cbn [SFmul xorb]. apply round_aux_le; [lia..|done|].
  etrans; [|exact Hle]. rewrite Pos2Z.inj_mul.
  apply mul_pow_le1; [lia..|]. by rewrite Z.mul_1_l in Hr.
Qed.

Lemma f64_add_le_pos h q m e my ey :
  0 < m → f64_le_pos h m e → f64_le_pos q m e → -1074 ≤ e →
  canonical my ey → 2 * (m * 2 ^ (e + 4096)) ≤ my * 2 ^ (ey + 4096) →
  f64_le_pos (f64_add h q) my ey.
Proof.
  intros Hm Hh Hq He Hy Hle.
  assert (0 ≤ m * 2 ^ (e + 4096)) by (apply Z.mul_nonneg_nonneg; [lia|apply Z.pow_nonneg; lia]).
  destruct h as [sh| | |[] mh eh], q as [sq| | |[] mq eq]; try done;
    [by destruct sh, sq|destruct Hq; split; [done|lia]|destruct Hh; split; [done|lia]|].
  destruct Hh as [Hh1 Hh2], Hq as [Hq1 Hq2].
  unfold f64_add. cbn [SFadd cond_Zopp].
  pose proof (shl_align_spec mh eh (Z.min eh eq)) as Ah.
  pose proof (shl_align_spec mq eq (Z.min eh eq)) as Aq.
  destruct (shl_align mh _ _) as [ah ?], (shl_align mq _ _) as [aq ?]. cbn [fst].
  destruct Ah as [-> Ah], Aq as [-> Aq].
  rewrite Z.min_r in Ah by lia. rewrite Z.min_r in Aq by lia.
  set (ez := Z.min eh eq) in *.
  assert (Zpos (ah + aq) * 2 ^ (ez + 4096) ≤ my * 2 ^ (ey + 4096)) as Hs.
  { assert (∀ a k c, Zpos a = Zpos c * 2 ^ (k - ez) → ez ≤ k →
      Zpos a * 2 ^ (ez + 4096) = Zpos c * 2 ^ (k + 4096)) as Hal.
    { intros a k c -> Hk. rewrite <-Z.mul_assoc, <-Z.pow_add_r by lia. do 2 f_equal. lia. }
    rewrite Pos2Z.inj_add, Z.mul_add_distr_r, (Hal _ _ _ Ah), (Hal _ _ _ Aq) by lia. lia. }
  change (Zpos ah + Zpos aq) with (Zpos (ah + aq)).
  unfold binary_normalize, binary_round.
  match goal with |- context [shl_align ?a ?b ?c] => pose proof (shl_align_spec a b c) as Al;
    destruct (shl_align a b c) as [mz e2] end.
  destruct Al as [He2 Hmz]. destruct Hy as (Hy0 & Hy1 & Hy2).
  assert (-1074 ≤ e2).
  { rewrite He2. unfold fexp, emin. lia. }
  apply round_aux_le; [lia..|by split_and!|].
  rewrite Hmz, <-Z.mul_assoc, <-Z.pow_add_r by lia.
  by replace (ez - e2 + (e2 + 4096)) with (ez + 4096) by lia.
Qed.

(** ** [partial_cmp] on floats *)

(** [a <= b] unless one of them is NaN: [partial_cmp] is not [Greater]. *)
Definition f64_not_gt (a b : f64) : Prop := f64_cmp a b ≠ Some Gt.

Lemma f64_not_gt_trans a b c :
  f64_is_nan b = false → f64_not_gt a b → f64_not_gt b c → f64_not_gt a c.
Proof.
  unfold f64_not_gt, f64_cmp.
  destruct a as [sa|sa| |sa ma ea], b as [sb|sb| |sb mb eb], c as [sc|sc| |sc mc ec];
    try destruct sa; try destruct sb; try destruct sc; cbn; try done; intros _;
    change (Pos.compare_cont Eq) with Pos.compare;
    repeat match goal with
    | |- context [(?x ?= ?y)%Z] => destruct (Z.compare_spec x y)
    | |- context [(?x ?= ?y)%positive] => destruct (Pos.compare_spec x y)
    end; cbn; intros; subst; try done; try lia.
Qed.
Lemma f64_cmp_antisym a b : f64_cmp b a = CompOpp <$> f64_cmp a b.
Proof.
  unfold f64_cmp. destruct a as [sa|sa| |sa ma ea], b as [sb|sb| |sb mb eb];
    try destruct sa; try destruct sb; cbn; try done;
    change (Pos.compare_cont Eq) with Pos.compare;
    rewrite (Z.compare_antisym ea eb), (Pos.compare_antisym ma mb);
    destruct (ea ?= eb)%Z; cbn; try done; destruct (ma ?= mb)%positive; done.
Qed.
Lemma f64_gt_flip a b : f64_cmp a b = Some Gt → f64_not_gt b a ∧ f64_is_nan a = false ∧ f64_is_nan b = false.
Proof.
  unfold f64_not_gt. rewrite (f64_cmp_antisym a b). intros Hab. rewrite Hab. split; [done|].
  by destruct a, b.
Qed.
Lemma f64_not_gt_refl a : f64_not_gt a a.
Proof.
  unfold f64_not_gt, f64_cmp.
  destruct a as [sa|sa| |sa ma ea]; try destruct sa; cbn; try done;
    change (Pos.compare_cont Eq) with Pos.compare;
    rewrite Z.compare_refl, Pos.compare_refl; done.
Qed.

(** ** binary32 *)

(** [f32]: the same executable floats at precision 24; [partial_cmp] is [f64_cmp]. *)
Abbreviation f32 := spec_float (only parsing).
Definition f32_of_Z (n : Z) : f32 := binary_normalize 24 128 n 0 false.
Definition f32_add (x y : f32) : f32 := SFadd 24 128 x y.
Definition f32_sub (x y : f32) : f32 := SFsub 24 128 x y.
Definition f32_mul (x y : f32) : f32 := SFmul 24 128 x y.
Definition f32_div (x y : f32) : f32 := SFdiv 24 128 x y.
(** A decimal literal [n / d], both exact: one rounding, as the compiler's. *)
Definition f32_lit (n d : Z) : f32 := f32_div (f32_of_Z n) (f32_of_Z d).
(** Neither NaN nor infinite. *)
Definition f32_finite (x : f32) : bool :=
  match x with S754_zero _ | S754_finite _ _ _ => true | _ => false end.
(** [x > y], [x >= y], [x <= y]: false on NaN. *)
Definition f32_gt (x y : f32) : bool := match f64_cmp x y with Some Gt => true | _ => false end.
Definition f32_ge (x y : f32) : bool := match f64_cmp x y with Some Gt | Some Eq => true | _ => false end.
Definition f32_le (x y : f32) : bool := f32_ge y x.
(** [f32::clamp]; NaN stays. *)
Definition f32_clamp (x lo hi : f32) : f32 :=
  if f32_gt lo x then lo else if f32_gt x hi then hi else x.
(** [x as i<w>]: truncated and saturated, 0 for NaN. *)
Definition f32_to_i (w : Z) (x : f32) : Z :=
  match x with
  | S754_nan | S754_zero _ => 0
  | S754_infinity s => if s then - 2 ^ (w - 1) else 2 ^ (w - 1) - 1
  | S754_finite s m e =>
      if s then Z.max (- 2 ^ (w - 1)) (- trunc_pos m e) else Z.min (2 ^ (w - 1) - 1) (trunc_pos m e)
  end.
Lemma f32_to_i_range w x : 1 ≤ w → - 2 ^ (w - 1) ≤ f32_to_i w x < 2 ^ (w - 1).
Proof.
  intros Hw. pose proof (Z.pow_pos_nonneg 2 (w - 1) ltac:(lia) ltac:(lia)) as Hp.
  destruct x as [s|s| |s m e]; cbn [f32_to_i]; try lia; [destruct s; lia|].
  assert (0 ≤ trunc_pos m e).
  { unfold trunc_pos. destruct (0 <=? e); [pose proof (Z.pow_nonneg 2 e); nia|].
    apply Z_div_nonneg_nonneg; [lia|]. by apply Z.pow_nonneg. }
  destruct s; lia.
Qed.
(** [f32::max], [Iterator::sum]. *)
Definition f32_max (x y : f32) : f32 :=
  if f64_is_nan x then y else if f64_is_nan y then x else if f32_gt y x then y else x.
Definition f32_sum (l : list f32) : f32 := foldl f32_add (S754_zero true) l.

(** ** Rounding answers a number *)

Lemma shr_nonneg mrs e n : 0 ≤ shr_m mrs → 0 ≤ shr_m (fst (shr mrs e n)).
Proof.
  intros Hm. destruct n as [|p|p]; cbn [shr fst]; [done| |done]. rewrite iter_pos_iter.
  induction (Pos.to_nat p) as [|k IH]; [done|]. rewrite Nat.iter_succ.
  destruct (shr_1_spec _ IH) as [-> _]. by apply Z.div_pos.
Qed.
Lemma round_aux_number prec emax s m e l :
  0 ≤ m → f64_is_nan (binary_round_aux prec emax s m e l) = false.
Proof.
  intros Hm. unfold binary_round_aux, shr_fexp.
  pose proof (shr_nonneg (shr_record_of_loc m l) e (fexp prec emax (Zdigits2 m + e) - e)) as H1.
  destruct (shr (shr_record_of_loc m l) _ _) as [mrs e1]. cbn [fst] in H1.
  assert (0 ≤ shr_m mrs) as Hs by (apply H1; by destruct l as [|[]]).
  set (q := round_nearest_even _ _).
  assert (0 ≤ q) by (unfold q, round_nearest_even; repeat case_match; lia).
  pose proof (shr_nonneg (shr_record_of_loc q loc_Exact) e1 (fexp prec emax (Zdigits2 q + e1) - e1)) as H2.
  destruct (shr (shr_record_of_loc q _) _ _) as [mrs2 e2]. cbn [fst] in H2. specialize (H2 H).
  destruct (shr_m mrs2); [done|by case_match|lia].
Qed.
(** A finite float over a positive one: 0/0 and infinity over infinity are out. *)
Lemma f32_div_number x s : f32_finite x = true → f32_gt s (S754_zero false) = true → f64_is_nan (f32_div x s) = false.
Proof.
  intros Hx Hs. unfold f32_div. destruct x as [sx|sx| |sx mx ex], s as [ss|ss| |ss ms es]; try done.
  cbn [SFdiv]. unfold SFdiv_core_binary.
  set (e := Z.min _ _). set (m := match _ with Zpos _ => _ | _ => _ end).
  assert (0 ≤ m) as Hm.
  { unfold m. destruct (ex - es - e); [done| |done]. apply Z.shiftl_nonneg. lia. }
  pose proof (Z.div_pos m (Zpos ms) Hm ltac:(lia)) as Hq. unfold Z.div in Hq.
  destruct (Z.div_eucl m (Zpos ms)) as [q r]. by apply round_aux_number.
Qed.
(** The larger of two finite floats is one of them, and neither exceeds it. *)
Lemma f32_max_finite x y :
  f32_finite y = true → x = S754_infinity true ∨ f32_finite x = true →
  f32_finite (f32_max x y) = true ∧ f64_not_gt x (f32_max x y) ∧ f64_not_gt y (f32_max x y).
Proof.
  intros Hy Hx. unfold f32_max, f32_gt.
  assert (f64_is_nan x = false ∧ f64_is_nan y = false) as [-> ->] by (by destruct x, y, Hx).
  destruct (f64_cmp y x) as [[]|] eqn:E; unfold f64_not_gt;
    rewrite ?(f64_cmp_antisym y x), ?E; split_and?; try done; try apply f64_not_gt_refl.
  all: destruct Hx as [-> |Hx]; [by destruct y as [| | |[]]|done].
Qed.

(** ** A binary32 rounding is faithful *)

(** One shift-and-round lands less than one unit of the new exponent away. *)
Lemma shr_round_near m e n :
  0 ≤ m → 0 ≤ n →
  let '(mrs, e') := shr (shr_record_of_loc m loc_Exact) e n in
  let q := round_nearest_even (shr_m mrs) (loc_of_shr_record mrs) in
  e' = e + n ∧ 0 ≤ shr_m mrs ∧ (q - 1) * 2 ^ n < m < (q + 1) * 2 ^ n ∧ (n = 0 → shr_m mrs = m).
Proof.
  intros Hm Hn.
  destruct n as [|p|p]; [| |lia]; cbn -[Z.pow] in *; [rewrite Z.pow_0_r; lia|].
  rewrite iter_pos_iter.
  pose proof (shr_iter_spec m (Pos.to_nat p) Hm) as [E1 E2].
  set (mrs := Nat.iter _ _ _) in *. rewrite positive_nat_Z in E1, E2.
  assert (0 < 2 ^ Zpos p) by (apply Z.pow_pos_nonneg; lia).
  pose proof (Z.div_mod m (2 ^ Zpos p) ltac:(lia)). pose proof (Z.mod_pos_bound m (2 ^ Zpos p) ltac:(lia)).
  assert (0 ≤ shr_m mrs) by (rewrite E1; by apply Z.div_pos).
  assert (loc_of_shr_record mrs ≠ loc_Exact → m mod 2 ^ Zpos p ≠ 0) as Hne.
  { intros Hl Hz. destruct (E2 Hz) as [Hr Hs]. destruct mrs; simplify_eq/=. }
  split_and!; [done|done|..|done]; unfold round_nearest_even; destruct (loc_of_shr_record mrs) as [|[]];
    try specialize (Hne ltac:(done)); rewrite ?E1; try case_match; nia.
Qed.

Lemma trunc_pos_shift m e E q :
  E ≤ 0 → E ≤ e → Zpos m * 2 ^ (e - E) = q → trunc_pos m e = q / 2 ^ (- E).
Proof.
  intros HE He <-. unfold trunc_pos. case_match; bool_to_prop.
  - replace (e - E) with (e + - E) by lia. by rewrite Z.pow_add_r, Z.mul_assoc, Z.div_mul by lia.
  - replace (- E) with ((e - E) + (- e)) by lia.
    rewrite (Z.pow_add_r 2 _ (- e)), (Z.mul_comm (2 ^ (e - _))) by lia.
    by rewrite Z.div_mul_cancel_r by (apply Z.pow_nonzero; lia).
Qed.
(** A second normalisation of a rounded mantissa is exact. *)
Lemma f32_renorm q E :
  0 ≤ q ≤ 2 ^ 24 → -149 ≤ E →
  ∃ mrs e, shr (shr_record_of_loc q loc_Exact) E (Z.max (Zdigits2 q + E - 24) (-149) - E) = (mrs, e) ∧
    0 ≤ shr_m mrs ∧ E ≤ e ≤ E + 1 ∧ shr_m mrs * 2 ^ (e - E) = q.
Proof.
  intros Hq HE. destruct (Z.eq_dec q (2 ^ 24)) as [Hqe|Hqn].
  - assert (Zdigits2 q = 25) as -> by by rewrite Hqe.
    replace (Z.max _ _ - E) with 1 by lia. rewrite Hqe.
    exists {| shr_m := 2 ^ 23; shr_r := false; shr_s := false |}, (E + 1).
    split; [reflexivity|]. replace (E + 1 - E) with 1 by lia. split_and!; [done|lia|lia|done].
  - assert (Zdigits2 q ≤ 24).
    { destruct (Z.eq_dec q 0) as [->|]; [cbn; lia|].
      pose proof (Zdigits2_bounds q ltac:(lia)) as [C1 _].
      assert (2 ^ (Zdigits2 q - 1) < 2 ^ 24) as B by lia. apply Z.pow_lt_mono_r_iff in B; lia. }
    set (n := Z.max _ _ - E). assert (n ≤ 0) by lia.
    exists {| shr_m := q; shr_r := false; shr_s := false |}, E.
    rewrite Z.sub_diag, Z.pow_0_r. split; [|cbn; lia]. by destruct n; [|lia|].
Qed.

(** A product below [2^24] rounds to a float less than one away from it. *)
Lemma f32_round_near (M : positive) (E : Z) :
  2 ^ 23 ≤ Zpos M → -163 ≤ E ≤ 0 → Zpos M < 2 ^ (24 - E) →
  let x := binary_round_aux 24 128 false (Zpos M) E loc_Exact in
  let t := f64_to_u 32 x in
  (x = S754_zero false ∨ ∃ m e, x = S754_finite false m e) ∧
  Z.abs (t * 2 ^ (- E) - Zpos M) < 2 ^ (- E).
Proof.
  intros HM HE Hlt. cbv zeta. unfold binary_round_aux, shr_fexp.
  pose proof (Zdigits2_bounds (Zpos M) ltac:(lia)) as [B1 B2].
  assert (Zdigits2 (Zpos M) ≤ 24 - E) as Hd.
  { assert (2 ^ (Zdigits2 (Zpos M) - 1) < 2 ^ (24 - E)) as B by lia. apply Z.pow_lt_mono_r_iff in B; lia. }
  assert (24 ≤ Zdigits2 (Zpos M)) as Hd'.
  { assert (2 ^ 23 < 2 ^ Zdigits2 (Zpos M)) as B by lia. apply Z.pow_lt_mono_r_iff in B; [lia..|].
    by apply Zdigits2_nonneg. }
  change (fexp 24 128 (Zdigits2 (Zpos M) + E)) with (Z.max (Zdigits2 (Zpos M) + E - 24) (-149)).
  set (n := Z.max (Zdigits2 (Zpos M) + E - 24) (-149) - E).
  assert (0 ≤ n) by lia.
  pose proof (shr_round_near (Zpos M) E n ltac:(lia) ltac:(lia)) as H1.
  pose proof (shr_round_le (Zpos M) E n (2 ^ 24) ltac:(lia)) as H1'.
  destruct (shr _ E n) as [mrs e']. destruct H1 as (-> & Hs & Hq & _).
  destruct H1' as (_ & _ & _ & Hq0 & Hq1).
  { rewrite Z.max_r, <-Z.pow_add_r by lia. etrans; [apply Z.lt_le_incl, B2|]. apply Z.pow_le_mono_r; lia. }
  set (q := round_nearest_even _ _) in *.
  change (fexp 24 128 (Zdigits2 q + (E + n))) with (Z.max (Zdigits2 q + (E + n) - 24) (-149)).
  destruct (f32_renorm q (E + n)) as (mrs2 & e2 & -> & Hm2 & He2 & Hv); [lia..|].
  assert (E + n ≤ 0) by lia.
  assert (∃ t, 0 ≤ t < 2 ^ 32 ∧ t * 2 ^ (- (E + n)) ≤ q < (t + 1) * 2 ^ (- (E + n)) ∧
    (shr_m mrs2 = 0 → t = 0) ∧
    ∀ m2, shr_m mrs2 = Zpos m2 → trunc_pos m2 e2 = t) as (t & Ht & Htq & Ht0 & Htr).
  { exists (q / 2 ^ (- (E + n))).
    assert (0 < 2 ^ (- (E + n))) as Hp by (apply Z.pow_pos_nonneg; lia).
    pose proof (Z.div_mod q (2 ^ (- (E + n))) ltac:(lia)). pose proof (Z.mod_pos_bound q (2 ^ (- (E + n))) Hp).
    split_and!; [by apply Z.div_pos| |lia|lia|intros Hz; rewrite Hz in Hv; by rewrite <-Hv|].
    { apply Z.div_lt_upper_bound; [done|]. assert (1 ≤ 2 ^ (- (E + n))) by lia. nia. }
    intros m2 Hm. rewrite Hm in Hv. apply trunc_pos_shift; [lia..|done]. }
  assert (Z.abs (t * 2 ^ (- E) - Zpos M) < 2 ^ (- E)) as Habs.
  { replace (- E) with (- (E + n) + n) by lia. rewrite Z.pow_add_r by lia.
    assert (0 < 2 ^ n) by (apply Z.pow_pos_nonneg; lia).
    assert (0 < 2 ^ (- (E + n))) by (apply Z.pow_pos_nonneg; lia).
    set (P := 2 ^ (- (E + n))) in *. set (N := 2 ^ n) in *.
    assert (t * P * N < Zpos M + N) by nia. assert (Zpos M < (t + 1) * P * N) by nia. nia. }
  destruct (shr_m mrs2) as [|m2|] eqn:Em; [|rewrite (proj2 (Z.leb_le e2 (128 - 24))) by lia|lia].
  - split; [by left|]. by rewrite (Ht0 eq_refl) in Habs.
  - split; [by eauto|]. cbn [f64_to_u]. by rewrite (Htr _ eq_refl), Z.min_r by lia.
Qed.
