(* ===== verification/Runtime.v ===== *)
(** * Runtime, transport and provider taxonomy; the error type

    Models [inference-core/src/runtime.rs] (kinds, classification,
    [RuntimeConfig], circuit-breaker configuration, millisecond codec) and
    [inference-core/src/error.rs] ([InferenceError], its classification, its
    [Display] text and the millisecond codec of [retry_after]).  JSON values
    are opaque: the code carries [serde_json::Value] without inspecting it. *)
From S2P Require Import Prelude.

(** ** Kinds (runtime.rs) *)

Inductive RuntimeKind : Type :=
  | RK_Vllm | RK_TensorRt | RK_Ort | RK_Candle | RK_Cudarc | RK_MistralRs
  | RK_Python (name : string)
  | RK_OpenAi | RK_Anthropic | RK_Gemini | RK_LiteLlm
  | RK_SpeechToText | RK_TextToSpeech | RK_RealtimeSpeech | RK_Audio2Face
  | RK_Custom (name : string).

Definition is_remote (k : RuntimeKind) : bool :=
  match k with
  | RK_OpenAi | RK_Anthropic | RK_Gemini | RK_LiteLlm => true
  | _ => false
  end.
Definition is_local (k : RuntimeKind) : bool := negb (is_remote k).
Definition is_audio (k : RuntimeKind) : bool :=
  match k with
  | RK_SpeechToText | RK_TextToSpeech | RK_RealtimeSpeech | RK_Audio2Face => true
  | _ => false
  end.

Inductive ProviderKind : Type :=
  | PK_OpenAi | PK_Anthropic | PK_Gemini | PK_LiteLlm
  | PK_Deepgram | PK_AssemblyAi | PK_ElevenLabs | PK_NvidiaA2F
  | PK_Custom (name : string).

Inductive TransportKind : Type :=
  | TK_LocalGpu
  | TK_LocalCpu
  | TK_RemoteNetwork (provider : ProviderKind)
  | TK_UnknownTransport.

#[global] Instance RuntimeKind_eq_dec : EqDecision RuntimeKind.
Proof. solve_decision. Defined.
#[global] Instance ProviderKind_eq_dec : EqDecision ProviderKind.
Proof. solve_decision. Defined.
#[global] Instance TransportKind_eq_dec : EqDecision TransportKind.
Proof. solve_decision. Defined.

(** [impl From<&RuntimeKind> for TransportKind]. *)
Definition transport_of_runtime (k : RuntimeKind) : TransportKind :=
  match k with
  | RK_OpenAi => TK_RemoteNetwork PK_OpenAi
  | RK_Anthropic => TK_RemoteNetwork PK_Anthropic
  | RK_Gemini => TK_RemoteNetwork PK_Gemini
  | RK_LiteLlm => TK_RemoteNetwork PK_LiteLlm
  | RK_Vllm | RK_TensorRt | RK_Ort | RK_Candle | RK_Cudarc | RK_MistralRs => TK_LocalGpu
  | RK_Python _ => TK_LocalGpu
  | RK_SpeechToText | RK_TextToSpeech | RK_RealtimeSpeech | RK_Audio2Face =>
      TK_UnknownTransport
  | RK_Custom _ => TK_UnknownTransport
  end.

(** ** Runtime configuration (runtime.rs) *)

Section runtime_config.
Context {Json : Type}.

Inductive RuntimeConfig : Type :=
  | RC_Vllm (v : Json) | RC_TensorRt (v : Json) | RC_Ort (v : Json)
  | RC_Candle (v : Json) | RC_Cudarc (v : Json) | RC_MistralRs (v : Json)
  | RC_OpenAi (v : Json) | RC_Anthropic (v : Json) | RC_Gemini (v : Json)
  | RC_LiteLlm (v : Json) | RC_SpeechToText (v : Json) | RC_TextToSpeech (v : Json)
  | RC_RealtimeSpeech (v : Json) | RC_Audio2Face (v : Json)
  | RC_Custom (kind : string) (config : Json).

Definition runtime_kind (c : RuntimeConfig) : RuntimeKind :=
  match c with
  | RC_Vllm _ => RK_Vllm
  | RC_TensorRt _ => RK_TensorRt
  | RC_Ort _ => RK_Ort
  | RC_Candle _ => RK_Candle
  | RC_Cudarc _ => RK_Cudarc
  | RC_MistralRs _ => RK_MistralRs
  | RC_OpenAi _ => RK_OpenAi
  | RC_Anthropic _ => RK_Anthropic
  | RC_Gemini _ => RK_Gemini
  | RC_LiteLlm _ => RK_LiteLlm
  | RC_SpeechToText _ => RK_SpeechToText
  | RC_TextToSpeech _ => RK_TextToSpeech
  | RC_RealtimeSpeech _ => RK_RealtimeSpeech
  | RC_Audio2Face _ => RK_Audio2Face
  | RC_Custom kind _ => RK_Custom kind
  end.
Definition config_transport_kind (c : RuntimeConfig) : TransportKind :=
  transport_of_runtime (runtime_kind c).
End runtime_config.
Arguments RuntimeConfig Json : clear implicits.

Record CircuitBreakerConfig : Type := {
  failure_threshold : Z;
  open_duration : Duration;
  half_open_max_probes : Z
}.
Definition CircuitBreakerConfig_default : CircuitBreakerConfig := {|
  failure_threshold := 10;
  open_duration := from_secs 30;
  half_open_max_probes := 1
|}.

Inductive JitterKind : Type := Jitter_None | Jitter_Equal | Jitter_Full.
#[global] Instance JitterKind_eq_dec : EqDecision JitterKind.
Proof. solve_decision. Defined.

(** [humantime_serde_ms]: a duration travels as a [u64] of milliseconds. *)
Definition duration_serialize (d : Duration) : Z := wrap_u64 (as_millis d).
Definition duration_deserialize (ms : Z) : Duration := from_millis ms.

(** ** [InferenceError] (error.rs) *)

Inductive InferenceError : Type :=
  | RateLimited (provider : ProviderKind) (retry_after : option Duration)
  | CircuitOpen (provider : ProviderKind) (opened_at_unix_ms retry_at_unix_ms : Z)
  | ContentFiltered (reason : string)
  | ContextLengthExceeded (tokens max_tokens : Z)
  | BadRequest (message : string)
  | Unauthorized (message : string)
  | Forbidden (message : string)
  | Backpressure (msg : string)
  | BudgetExceeded (deployment : string)
  | NetworkError (msg : string)
  | ServerError (status : Z) (body : option string)
  | Timeout (elapsed_ms : Z)
  | CudaContextPoisoned (msg : string)
  | Unsupported (method : string) (runtime : RuntimeKind)
  | UnsupportedAudioFormat (message : string)
  | RealtimeClosed (reason : string)
  | Internal (msg : string).
#[global] Instance InferenceError_eq_dec : EqDecision InferenceError.
Proof. solve_decision. Defined.

Abbreviation InferenceResult := (result InferenceError).

Definition is_retryable (e : InferenceError) : bool :=
  match e with
  | RateLimited _ _ | ServerError _ _ | Timeout _ | NetworkError _ => true
  | _ => false
  end.
Definition counts_as_circuit_failure (e : InferenceError) : bool :=
  match e with
  | ServerError _ _ | Timeout _ | NetworkError _ => true
  | _ => false
  end.

(** [duration_opt_ms] of error.rs. *)
Definition duration_opt_serialize (d : option Duration) : option Z :=
  (λ x, wrap_u64 (as_millis x)) <$> d.
Definition duration_opt_deserialize (o : option Z) : option Duration :=
  from_millis <$> o.

(** ** [Display] of the errors (the [#[error(...)]] attributes) *)

Definition debug_RuntimeKind (k : RuntimeKind) : string :=
  match k with
  | RK_Vllm => "Vllm" | RK_TensorRt => "TensorRt" | RK_Ort => "Ort"
  | RK_Candle => "Candle" | RK_Cudarc => "Cudarc" | RK_MistralRs => "MistralRs"
  | RK_Python s => "Python(" +:+ debug_str s +:+ ")"
  | RK_OpenAi => "OpenAi" | RK_Anthropic => "Anthropic" | RK_Gemini => "Gemini"
  | RK_LiteLlm => "LiteLlm" | RK_SpeechToText => "SpeechToText"
  | RK_TextToSpeech => "TextToSpeech" | RK_RealtimeSpeech => "RealtimeSpeech"
  | RK_Audio2Face => "Audio2Face"
  | RK_Custom s => "Custom(" +:+ debug_str s +:+ ")"
  end.
Definition debug_ProviderKind (k : ProviderKind) : string :=
  match k with
  | PK_OpenAi => "OpenAi" | PK_Anthropic => "Anthropic" | PK_Gemini => "Gemini"
  | PK_LiteLlm => "LiteLlm" | PK_Deepgram => "Deepgram" | PK_AssemblyAi => "AssemblyAi"
  | PK_ElevenLabs => "ElevenLabs" | PK_NvidiaA2F => "NvidiaA2F"
  | PK_Custom s => "Custom(" +:+ debug_str s +:+ ")"
  end.

(** The text of every variant; [debug_duration] is the standard library's
    [<Duration as Debug>], which only [RateLimited] uses. *)
Definition error_to_string (debug_duration : Duration → string) (e : InferenceError) : string :=
  match e with
  | RateLimited _ ra => "rate-limited (retry after " +:+ debug_option debug_duration ra +:+ ")"
  | CircuitOpen p o r =>
      "circuit open for " +:+ debug_ProviderKind p +:+ " until " +:+ pretty r +:+
      " (opened at " +:+ pretty o +:+ ")"
  | ContentFiltered reason => "content filtered: " +:+ reason
  | ContextLengthExceeded t m =>
      "context length exceeded (" +:+ pretty t +:+ " > " +:+ pretty m +:+ ")"
  | BadRequest m => "bad request: " +:+ m
  | Unauthorized m => "unauthorized: " +:+ m
  | Forbidden m => "forbidden: " +:+ m
  | Backpressure m => "backpressure: " +:+ m
  | BudgetExceeded d => "budget exceeded for `" +:+ d +:+ "`"
  | NetworkError m => "network error: " +:+ m
  | ServerError s _ => "server error: " +:+ pretty s
  | Timeout ms => "timeout after " +:+ pretty ms +:+ "ms"
  | CudaContextPoisoned m => "CUDA context poisoned: " +:+ m
  | Unsupported m r => m +:+ " is unsupported by runtime " +:+ debug_RuntimeKind r
  | UnsupportedAudioFormat m => "unsupported audio format: " +:+ m
  | RealtimeClosed r => "realtime session closed: " +:+ r
  | Internal m => "internal: " +:+ m
  end.

(** ** Lemmas *)

Lemma circuit_failure_retryable e :
  counts_as_circuit_failure e = true → is_retryable e = true.
Proof. by destruct e. Qed.
#[export] Hint Resolve circuit_failure_retryable : rust.

Lemma transport_remote_iff k :
  (∃ p, transport_of_runtime k = TK_RemoteNetwork p) ↔ is_remote k = true.
Proof. split; [intros [? H]; by destruct k | destruct k; naive_solver]. Qed.

Lemma duration_roundtrip_ms ms :
  is_u 64 ms → duration_serialize (duration_deserialize ms) = ms.
Proof.
  intros H. unfold duration_serialize, duration_deserialize.
  autorewrite with rust. by apply wrap_id.
Qed.
Lemma duration_roundtrip d :
  0 ≤ d → as_millis d < 2 ^ 64 → d `mod` ns_per_ms = 0 →
  duration_deserialize (duration_serialize d) = d.
Proof.
  intros Hd Hlt Hmod. unfold duration_serialize, duration_deserialize.
  rewrite wrap_id; [|unfold is_u, as_millis, ns_per_ms in *; split; [apply Z.div_pos|]; lia].
  unfold as_millis, from_millis. unfold ns_per_ms in *.
  pose proof (Z.div_mod d 1000000). lia.
Qed.
