(* ===== verification/Tokens.v ===== *)
(** * Batches, token chunks, accumulation, cost split

    Models [inference-core/src/batch.rs], [tokens.rs] and [cost.rs].  A tool-call
    delta is a JSON value the runtime carries without inspecting it. *)
From Stdlib Require Import SpecFloat.
From S2P Require Import Prelude F64.

(** ** Request batch (batch.rs) *)

Inductive Role : Type := Role_System | Role_User | Role_Assistant | Role_Tool.
#[global] Instance Role_eq_dec : EqDecision Role.
Proof. solve_decision. Defined.

Inductive ContentPart : Type :=
  | CP_Text (text : string)
  | CP_ImageBase64 (mime data : string)
  | CP_ImageUrl (url : string).

Inductive MessageContent : Type :=
  | MC_Text (text : string)
  | MC_Parts (parts : list ContentPart).

Record Message : Type := { role : Role; content : MessageContent }.

(** [f32] values are carried, never computed with, at this layer. *)
Record SamplingParams : Type := {
  temperature : option spec_float;
  top_p : option spec_float;
  top_k : option Z;
  max_tokens : option Z;
  stop : list string;
  presence_penalty : option spec_float;
  frequency_penalty : option spec_float;
  seed : option Z
}.
Definition SamplingParams_default : SamplingParams := {|
  temperature := None; top_p := None; top_k := None; max_tokens := None; stop := [];
  presence_penalty := None; frequency_penalty := None; seed := None
|}.

Record ExecuteBatch : Type := {
  request_id : string;
  model : string;
  messages : list Message;
  sampling : SamplingParams;
  stream : bool;
  estimated_tokens_field : Z
}.
(** [ExecuteBatch::estimated_tokens]. *)
Definition estimated_tokens (b : ExecuteBatch) : Z := Z.max (estimated_tokens_field b) 1.

(** ** Token chunks and the per-request accumulator (tokens.rs) *)

Inductive FinishReason : Type :=
  | Fin_Stop | Fin_Length | Fin_ToolCalls | Fin_ContentFilter | Fin_Error.
#[global] Instance FinishReason_eq_dec : EqDecision FinishReason.
Proof. solve_decision. Defined.

Record TokenUsage : Type := {
  input_tokens : Z;
  output_tokens : Z;
  reasoning_tokens : Z;
  cached_tokens : Z
}.
Definition TokenUsage_default : TokenUsage :=
  {| input_tokens := 0; output_tokens := 0; reasoning_tokens := 0; cached_tokens := 0 |}.
(** [TokenUsage::add]: four wrapping [u32] additions (release profile). *)
Definition usage_add (u o : TokenUsage) : TokenUsage := {|
  input_tokens := wrap_u32 (input_tokens u + input_tokens o);
  output_tokens := wrap_u32 (output_tokens u + output_tokens o);
  reasoning_tokens := wrap_u32 (reasoning_tokens u + reasoning_tokens o);
  cached_tokens := wrap_u32 (cached_tokens u + cached_tokens o)
|}.

Record Tokens : Type := {
  t_request_id : string;
  t_text : string;
  t_usage : TokenUsage;
  t_finish_reason : option FinishReason
}.
Definition Tokens_default : Tokens := {|
  t_request_id := ""; t_text := ""; t_usage := TokenUsage_default; t_finish_reason := None
|}.

Section chunks.
Context {Json : Type}.

Record TokenChunk : Type := {
  c_request_id : string;
  text_delta : string;
  tool_call_delta : option Json;
  usage : option TokenUsage;
  finish_reason : option FinishReason
}.

Definition tokens_append (t : Tokens) (c : TokenChunk) : Tokens := {|
  t_request_id := t_request_id t;
  t_text := t_text t +:+ text_delta c;
  t_usage := match usage c with Some u => usage_add (t_usage t) u | None => t_usage t end;
  t_finish_reason :=
    match finish_reason c with Some r => Some r | None => t_finish_reason t end
|}.

(** ** Lemmas *)

Definition tokens_of (t : Tokens) (cs : list TokenChunk) : Tokens := foldl tokens_append t cs.

Definition usages (cs : list TokenChunk) : list TokenUsage := omap usage cs.
Definition concat_text (cs : list TokenChunk) : string :=
  foldr (λ c s, text_delta c +:+ s) "" cs.
Definition sum_u32 (f : TokenUsage → Z) (cs : list TokenChunk) : Z :=
  foldr (λ u s, f u + s) 0 (usages cs).

Lemma concat_text_app l1 l2 : concat_text (l1 ++ l2) = concat_text l1 +:+ concat_text l2.
Proof.
  induction l1 as [|c l1 IH]; [done|].
  change (text_delta c +:+ concat_text (l1 ++ l2) = (text_delta c +:+ concat_text l1) +:+ concat_text l2).
  by rewrite IH, string_app_assoc.
Qed.
Lemma tokens_of_text t cs : t_text (tokens_of t cs) = t_text t +:+ concat_text cs.
Proof.
  unfold tokens_of. revert t. induction cs as [|c cs IH]; intros t; simpl.
  - by rewrite string_app_nil_r.
  - rewrite IH. simpl. by rewrite string_app_assoc.
Qed.
Lemma tokens_of_id t cs : t_request_id (tokens_of t cs) = t_request_id t.
Proof.
  unfold tokens_of. revert t. induction cs as [|c cs IH]; intros t; [done|].
  simpl. by rewrite IH.
Qed.
Lemma tokens_of_finish t cs :
  t_finish_reason (tokens_of t cs) =
    match list.last (omap finish_reason cs) with Some r => Some r | None => t_finish_reason t end.
Proof.
  unfold tokens_of. revert t. induction cs as [|c cs IH]; intros t; simpl; [done|].
  rewrite IH. simpl. destruct (finish_reason c); simpl; [|done].
  rewrite last_cons. by destruct (list.last _).
Qed.

(** The accumulated usage of one field is the sum of the reported ones modulo
    [2^32]; [f] ranges over the four fields. *)
Lemma tokens_of_usage f t cs :
  (∀ u o, f (usage_add u o) = wrap_u32 (f u + f o)) →
  wrap_u32 (f (t_usage t)) = f (t_usage t) →
  f (t_usage (tokens_of t cs)) = wrap_u32 (f (t_usage t) + sum_u32 f cs).
Proof.
  intros Hf. unfold tokens_of, sum_u32, usages.
  revert t. induction cs as [|c cs IH]; intros t Ht; simpl; [by rewrite Z.add_0_r|].
  rewrite IH; simpl; destruct (usage c) as [u|] eqn:E; simpl; [|done| |done]; rewrite Hf.
  - unfold wrap. rewrite Zplus_mod_idemp_l, Z.add_assoc. done.
  - unfold wrap. by rewrite Zmod_mod.
Qed.
End chunks.
Arguments TokenChunk Json : clear implicits.

(** ** Cost split (cost.rs) *)

Record CostEstimate : Type := {
  usd : f64;
  ce_input_tokens : Z;
  output_tokens_max : Z
}.
Definition from_rates (input_per_mtok_usd output_per_mtok_usd : f64) (b : ExecuteBatch) : CostEstimate :=
  let in_t := estimated_tokens b in
  let in_share := f64_to_u 32 (f64_mul (f64_of_Z in_t) (f64_lit 8 10)) in
  let out_share := wrap_u32 (in_t - in_share) in
  let usd :=
    f64_add
      (f64_div (f64_mul (f64_of_Z in_share) input_per_mtok_usd) (f64_of_Z 1000000))
      (f64_div (f64_mul (f64_of_Z out_share) output_per_mtok_usd) (f64_of_Z 1000000)) in
  {| usd := usd; ce_input_tokens := in_share; output_tokens_max := out_share |}.

(** A share [n * r] with [0 <= r <= 1] of an integer never exceeds it. *)
Lemma share_le w n r :
  0 ≤ w → 0 < n ≤ 2 ^ 53 → f64_le_pos r 1 0 →
  (∀ m e, r = S754_finite false m e → e ≤ 0) →
  0 ≤ f64_to_u w (f64_mul (f64_of_Z n) r) ≤ n.
Proof.
  intros Hw Hn Hr Hr0. split; [by apply f64_to_u_nonneg|].
  destruct (f64_of_Z_exact n Hn) as (m & e & -> & Hc & Hv).
  apply (f64_to_u_le _ _ (Zpos m) e); [done|lia|by rewrite Hv|].
  apply f64_mul_le_pos; [|done..].
  destruct Hc as (_ & He & ?). split; [lia|done].
Qed.

(** Accumulation loses nothing: appending a stream of chunks to a fresh
    accumulator gives the concatenation of their text deltas in order, the last
    finish reason reported, and in each usage field the sum of the reported
    usages modulo 2^32; the request id is untouched. *)
Theorem tokens_accumulate {Json} (t : Tokens) (cs : list (TokenChunk Json)) :
  t_text t = "" → t_usage t = TokenUsage_default → t_finish_reason t = None →
  let t' := foldl tokens_append t cs in
  t_text t' = concat_text cs ∧ t_request_id t' = t_request_id t ∧
  t_finish_reason t' = list.last (omap finish_reason cs) ∧
  input_tokens (t_usage t') = wrap_u32 (sum_u32 input_tokens cs) ∧
  output_tokens (t_usage t') = wrap_u32 (sum_u32 output_tokens cs) ∧
  reasoning_tokens (t_usage t') = wrap_u32 (sum_u32 reasoning_tokens cs) ∧
  cached_tokens (t_usage t') = wrap_u32 (sum_u32 cached_tokens cs).
Proof.
  intros Ht Hu Hf. cbv zeta. fold (tokens_of t cs).
  rewrite tokens_of_text, tokens_of_id, tokens_of_finish, Ht, Hf.
  rewrite !tokens_of_usage by (done || by rewrite Hu). rewrite Hu. cbn.
  split_and!; try done. by destruct (list.last _).
Qed.

(** The 80/20 cost split never underflows: for every token estimate a [u32]
    can hold, the truncated float share reserved for input is at most the
    estimate, so the two reserved budgets add up to it exactly. *)
Theorem cost_split_exact (input_rate output_rate : f64) (b : ExecuteBatch) :
  is_u 32 (estimated_tokens_field b) →
  let c := from_rates input_rate output_rate b in
  0 ≤ ce_input_tokens c ≤ estimated_tokens b ∧ 0 ≤ output_tokens_max c ∧
  ce_input_tokens c + output_tokens_max c = estimated_tokens b.
Proof.
  intros Hb. cbv zeta. unfold from_rates. cbn [ce_input_tokens output_tokens_max].
  assert (0 < estimated_tokens b < 2 ^ 32) as Hn by (unfold estimated_tokens, is_u in *; lia).
  pose proof (share_le 32 (estimated_tokens b) (f64_lit 8 10)) as Hs.
  destruct Hs as [H0 H1]; [lia|lia|vm_compute; repeat split; discriminate| |].
  - intros m e H. vm_compute in H. simplify_eq. done.
  - rewrite wrap_id by (unfold is_u; lia). lia.
Qed.

Definition example_chunks : list (TokenChunk unit) := [
  {| c_request_id := "r"; text_delta := "Hel"; tool_call_delta := None; usage := None;
     finish_reason := None |};
  {| c_request_id := "r"; text_delta := "lo"; tool_call_delta := None;
     usage := Some {| input_tokens := 3; output_tokens := 2; reasoning_tokens := 0; cached_tokens := 0 |};
     finish_reason := Some Fin_Stop |}].
Lemma tokens_accumulate_witness :
  t_text (foldl tokens_append Tokens_default example_chunks) = "Hello" ∧
  t_finish_reason (foldl tokens_append Tokens_default example_chunks) = Some Fin_Stop.
Proof.
  destruct (tokens_accumulate Tokens_default example_chunks eq_refl eq_refl eq_refl)
    as (-> & _ & -> & _). split; reflexivity.
Defined.
Lemma cost_split_exact_witness :
  let b := {| request_id := "r"; model := "m"; messages := []; sampling := SamplingParams_default;
              stream := false; estimated_tokens_field := 100 |} in
  is_u 32 100 ∧ ce_input_tokens (from_rates (f64_of_Z 1) (f64_of_Z 1) b) = 80 ∧
  output_tokens_max (from_rates (f64_of_Z 1) (f64_of_Z 1) b) = 20.
Proof.
  intros b. assert (is_u 32 100) as H by done. split; [done|].
  assert (ce_input_tokens (from_rates (f64_of_Z 1) (f64_of_Z 1) b) = 80) as E by (vm_compute; reflexivity).
  split; [exact E|].
  destruct (cost_split_exact (f64_of_Z 1) (f64_of_Z 1) b H) as (_ & _ & Hs).
  rewrite E in Hs. change (estimated_tokens b) with 100 in Hs. lia.
Defined.
