(* ===== verification/Text.v ===== *)
(** * Text: the UTF-8 strings of the local runtimes

    The operations of [str] the local runtimes use on text of any language: characters,
    [trim], [lines], [split], slicing at a byte, parsing of an unsigned integer; and the
    plain chat template that inference-runtime-ort/src/tokenizer.rs and
    inference-runtime-vllm/src/engine.rs share.  A string is its UTF-8 bytes. *)
From S2P Require Import Prelude Tokens.

(** ** Characters *)

(** A byte that continues a character. *)
Definition is_continuation (c : ascii) : bool :=
  let n := N_of_ascii c in ((128 <=? n) && (n <? 192))%N.
Definition continues (s : string) : bool :=
  match s with EmptyString => false | String c _ => is_continuation c end.
(** [s.chars()], each as the string of its bytes. *)
Fixpoint chars (s : string) : list string :=
  match s with
  | EmptyString => []
  | String c r =>
      match chars r with
      | x :: rest => if continues r then String c x :: rest else String c EmptyString :: x :: rest
      | [] => [String c EmptyString]
      end
  end.
Definition concat_str (l : list string) : string := foldr String.append "" l.
Lemma concat_chars s : concat_str (chars s) = s.
Proof.
  induction s as [|c r IH]; [done|]. cbn [chars]. destruct (chars r) as [|x rest].
  - cbn in IH. by subst r.
  - rewrite <-IH at 2. by destruct (continues r).
Qed.

(** [char::is_whitespace], by the character's UTF-8 bytes. *)
Definition is_whitespace (ch : string) : bool :=
  match string_bytes ch with
  | [b] => ((9 <=? b) && (b <=? 13)) || (b =? 32)
  | [194; b] => (b =? 133) || (b =? 160)
  | [225; 154; 128] => true
  | [226; 128; b] => ((128 <=? b) && (b <=? 138)) || (b =? 168) || (b =? 169) || (b =? 175)
  | [226; 129; 159] => true
  | [227; 128; 128] => true
  | _ => false
  end.
Fixpoint drop_ws (l : list string) : list string :=
  match l with x :: r => if is_whitespace x then drop_ws r else l | [] => [] end.
(** [str::trim]. *)
Definition str_trim (s : string) : string := concat_str (reverse (drop_ws (reverse (drop_ws (chars s))))).
(** [str::split_whitespace]. *)
Fixpoint words_of (l : list string) (word : string) : list string :=
  match l with
  | [] => if is_empty_str word then [] else [word]
  | ch :: r =>
      if is_whitespace ch then (if is_empty_str word then words_of r "" else word :: words_of r "")
      else words_of r (word +:+ ch)
  end.
Definition split_whitespace (s : string) : list string := words_of (chars s) "".

(** [str::split(c)] for an ASCII [c]: one piece more than separators. *)
Fixpoint split_char (c : ascii) (s : string) : string * list string :=
  match s with
  | EmptyString => ("", [])
  | String x r =>
      let '(p, ps) := split_char c r in
      if decide (x = c) then ("", p :: ps) else (String x p, ps)
  end.
Definition split_on (c : ascii) (s : string) : list string :=
  let '(p, ps) := split_char c s in p :: ps.
Definition newline_char : ascii := ascii_of_N 10.
Definition dot_char : ascii := ascii_of_N 46.
Fixpoint strip_cr (s : string) : string :=
  match s with
  | EmptyString => EmptyString
  | String c EmptyString => if (N_of_ascii c =? 13)%N then EmptyString else s
  | String c r => String c (strip_cr r)
  end.
(** [str::lines]: a carriage return goes with its line feed, a last empty line is none. *)
Fixpoint lines_of (pieces : list string) : list string :=
  match pieces with
  | [] => []
  | [last_] => if is_empty_str last_ then [] else [last_]
  | p :: r => strip_cr p :: lines_of r
  end.
Definition str_lines (s : string) : list string := lines_of (split_on newline_char s).

(** [&s[n..]]: [None] is the panic of a bound past the end or inside a character. *)
Fixpoint drop_bytes (n : nat) (s : string) : string :=
  match n, s with
  | S n', String _ r => drop_bytes n' r
  | _, _ => s
  end.
Definition str_from (s : string) (n : nat) : option string :=
  if (n <=? String.length s)%nat && negb (continues (drop_bytes n s)) then Some (drop_bytes n s) else None.
Lemma drop_bytes_app a b : drop_bytes (String.length a) (a +:+ b) = b.
Proof. induction a as [|c a IH]; [done|exact IH]. Qed.
Lemma length_append a b : String.length (a +:+ b) = (String.length a + String.length b)%nat.
Proof. induction a as [|c a IH]; [done|]. by apply (f_equal S). Qed.
Lemma str_from_app a b : continues b = false → str_from (a +:+ b) (String.length a) = Some b.
Proof.
  intros Hb. unfold str_from. rewrite drop_bytes_app, Hb, length_append.
  by rewrite (proj2 (Nat.leb_le _ _)) by lia.
Qed.

(** [str::parse] at an unsigned type of maximum [max]; the error is its text. *)
Fixpoint parse_uint_digits (max acc : Z) (s : string) : result string Z :=
  match s with
  | EmptyString => Ok acc
  | String c r =>
      let n := Z.of_N (N_of_ascii c) in
      if (48 <=? n) && (n <=? 57) then
        if acc * 10 + (n - 48) <=? max then parse_uint_digits max (acc * 10 + (n - 48)) r
        else Err "number too large to fit in target type"
      else Err "invalid digit found in string"
  end.
Definition parse_uint (max : Z) (s : string) : result string Z :=
  match s with
  | EmptyString => Err "cannot parse integer from empty string"
  | String c EmptyString => parse_uint_digits max 0 s
  | String c r => if (N_of_ascii c =? 43)%N then parse_uint_digits max 0 r else parse_uint_digits max 0 s
  end.

(** ** Paths *)

(** [Path::join] of a relative path. *)
Fixpoint ends_with_slash (s : string) : bool :=
  match s with
  | EmptyString => false
  | String c EmptyString => (N_of_ascii c =? 47)%N
  | String _ r => ends_with_slash r
  end.
Definition path_join (a b : string) : string :=
  if is_empty_str a || ends_with_slash a then a +:+ b else a +:+ "/" +:+ b.

(** ** The plain chat template *)

Definition nl : string := String newline_char EmptyString.
Fixpoint join (sep : string) (l : list string) : string :=
  match l with [] => "" | [x] => x | x :: r => x +:+ sep +:+ join sep r end.
Definition text_of_part (p : ContentPart) : option string :=
  match p with CP_Text t => Some t | _ => None end.
Definition message_text (m : Message) : string :=
  match content m with MC_Text s => s | MC_Parts parts => join nl (omap text_of_part parts) end.
Definition chat_role (r : Role) : string :=
  match r with
  | Role_System => "system" | Role_User => "user" | Role_Assistant => "assistant" | Role_Tool => "tool"
  end.
Definition render_message (m : Message) : string :=
  "<|" +:+ chat_role (role m) +:+ "|>" +:+ nl +:+ message_text m +:+ nl.

Example text_examples :
  str_trim " a b  " = "a b" ∧ str_lines ("a" +:+ nl +:+ "b" +:+ nl) = ["a"; "b"] ∧
  split_whitespace " Python  3.12.1" = ["Python"; "3.12.1"] ∧ split_on dot_char "3.12.1" = ["3"; "12"; "1"] ∧
  parse_uint U32_MAX "4294967296" = Err "number too large to fit in target type" ∧
  length (chars "aéß") = 3%nat ∧ str_from "é" 1 = None.
Proof. vm_compute. done. Qed.
