(* ===== verification/StrFacts.v ===== *)
(** * StrFacts: searching, splitting and trimming text

    The functions of [str] that the developer tooling and the Python bindings use beside those
    of [Prelude] and [Text] ([find] with slicing is [split_once]), and the lemmas that compute
    them on a text known by its pieces: a search skips a piece that cannot hold the start of
    what is searched, a split cuts between pieces, a trim removes the blanks around a core, and
    a printed number is read back. *)
From S2P Require Import Prelude Text.

(** ** Definitions *)

Fixpoint all_chars (f : ascii → bool) (s : string) : bool :=
  match s with EmptyString => true | String c r => f c && all_chars f r end.
Definition is_char (c d : ascii) : bool := (N_of_ascii c =? N_of_ascii d)%N.
(** No occurrence of the character. *)
Definition free_of (c : ascii) (s : string) : bool := all_chars (λ d, negb (is_char c d)) s.
Definition is_ascii (c : ascii) : bool := (N_of_ascii c <? 128)%N.
Definition is_blank (c : ascii) : bool :=
  let n := N_of_ascii c in ((9 <=? n) && (n <=? 13) || (n =? 32))%N.
(** [str::trim_start], [str::trim_end]. *)
Definition str_trim_start (s : string) : string := concat_str (drop_ws (chars s)).
Definition str_trim_end (s : string) : string := concat_str (reverse (drop_ws (reverse (chars s)))).
(** [str::trim_matches(c)] for an ASCII [c]. *)
Fixpoint drop_char (c : ascii) (s : string) : string :=
  match s with EmptyString => EmptyString | String d r => if is_char c d then drop_char c r else s end.
Fixpoint drop_char_end (c : ascii) (s : string) : string :=
  match s with
  | EmptyString => EmptyString
  | String d r =>
      match drop_char_end c r with
      | EmptyString => if is_char c d then EmptyString else String d EmptyString
      | r' => String d r'
      end
  end.
Definition trim_matches (c : ascii) (s : string) : string := drop_char_end c (drop_char c s).
(** [str::strip_prefix]. *)
Definition strip_prefix (p s : string) : option string :=
  if String.prefix p s then Some (drop_bytes (String.length p) s) else None.
(** [str::split_inclusive('\n')]: each piece keeps its line feed, no last empty piece. *)
Fixpoint split_inclusive (s : string) : list string :=
  match s with
  | EmptyString => []
  | String c r =>
      if is_char newline_char c then String c EmptyString :: split_inclusive r
      else match split_inclusive r with
           | [] => [String c EmptyString]
           | p :: ps => String c p :: ps
           end
  end.
(** [str::replace], left to right, for a non-empty needle; a round replaces one occurrence. *)
Fixpoint replace_fuel (fuel : nat) (needle replacement s : string) : string :=
  match fuel with
  | O => s
  | S fuel' =>
      match split_once needle s with
      | Some (a, b) => a +:+ replacement +:+ replace_fuel fuel' needle replacement b
      | None => s
      end
  end.
Definition str_replace (needle replacement s : string) : string :=
  replace_fuel (S (String.length s)) needle replacement s.

(** ** Characters *)

Lemma is_char_spec c d : is_char c d = true ↔ c = d.
Proof.
  unfold is_char. rewrite N.eqb_eq. split; [|by intros ->].
  intros H. by rewrite <-(Ascii.ascii_N_embedding c), H, Ascii.ascii_N_embedding.
Qed.
(** [String.append] does not simplify; its equation. *)
Lemma app_cons c a b : String c a +:+ b = String c (a +:+ b).
Proof. done. Qed.
Lemma app_nil b : "" +:+ b = b.
Proof. done. Qed.
Lemma all_chars_app f a b : all_chars f (a +:+ b) = all_chars f a && all_chars f b.
Proof. induction a as [|c a IH]; [done|]. rewrite app_cons. cbn. by rewrite <-andb_assoc, <-IH. Qed.
Lemma free_of_app c a b : free_of c (a +:+ b) = free_of c a && free_of c b.
Proof. apply all_chars_app. Qed.
Lemma all_chars_impl f g s : (∀ c, f c = true → g c = true) → all_chars f s = true → all_chars g s = true.
Proof.
  intros H. induction s as [|c s IH]; [done|]. cbn. intros [Hc Hs]%andb_true_iff.
  by rewrite (H c Hc), IH.
Qed.
Lemma prefix_head c k d s : is_char c d = false → String.prefix (String c k) (String d s) = false.
Proof.
  intros H. cbn. destruct (Ascii.ascii_dec c d) as [->|]; [|done].
  by rewrite (proj2 (is_char_spec d d)) in H.
Qed.
Lemma prefix_app k s : String.prefix k (k +:+ s) = true.
Proof. induction k as [|c k IH]; [by destruct s|]. rewrite app_cons. cbn. destruct (Ascii.ascii_dec c c); [exact IH|done]. Qed.
Lemma substring_all s : String.substring 0 (String.length s) s = s.
Proof. induction s as [|c s IH]; [done|]. cbn. by rewrite IH. Qed.
Lemma substring_0_ge n s : (String.length s ≤ n)%nat → String.substring 0 n s = s.
Proof.
  revert n. induction s as [|c s IH]; intros [|n]; cbn; try done; [lia|]. intros H. rewrite IH by lia. done.
Qed.
Lemma substring_app k s n : (String.length s ≤ n)%nat → String.substring (String.length k) n (k +:+ s) = s.
Proof. intros Hn. induction k as [|c k IH]; [by apply substring_0_ge|exact IH]. Qed.

(** ** Searching *)

Abbreviation before p := (λ '(a, b), (p +:+ a, b)) (only parsing).
Lemma split_once_hit k s : split_once k (k +:+ s) = Some ("", s).
Proof.
  assert (split_once k (k +:+ s) = if String.prefix k (k +:+ s)
    then Some ("", String.substring (String.length k) (String.length (k +:+ s)) (k +:+ s)) else None) as ->.
  { pose proof (prefix_app k s) as H. destruct (k +:+ s); cbn [split_once]; by rewrite H. }
  rewrite prefix_app, substring_app; [done|]. rewrite length_append. lia.
Qed.
(** A search steps over a character at which what is searched does not start. *)
Lemma split_once_step k c s : String.prefix k (String c s) = false →
  split_once k (String c s) = (λ '(a, b), (String c a, b)) <$> split_once k s.
Proof. intros H. cbn [split_once]. by rewrite H. Qed.
Lemma before_fmap_compose (p q : string) (o : option (string * string)) :
  (λ '(a, b), (p +:+ a, b)) <$> ((λ '(a, b), (q +:+ a, b)) <$> o) = (λ '(a, b), ((p +:+ q) +:+ a, b)) <$> o.
Proof. destruct o as [[a b]|]; [|done]. cbn. by rewrite string_app_assoc. Qed.
(** It skips a piece without its first character. *)
Lemma split_once_skip c k p s : free_of c p = true →
  split_once (String c k) (p +:+ s) = (λ '(a, b), (p +:+ a, b)) <$> split_once (String c k) s.
Proof.
  unfold free_of. induction p as [|d p IH]; intros H.
  - change ("" +:+ s) with s. by destruct (split_once _ s) as [[a b]|].
  - cbn [all_chars] in H. apply andb_true_iff in H as [Hd Hp]. apply negb_true_iff in Hd.
    rewrite app_cons.
    rewrite split_once_step by by apply prefix_head. rewrite IH by done.
    by destruct (split_once _ s) as [[a b]|].
Qed.
Lemma split_once_miss c k s : free_of c s = true → split_once (String c k) s = None.
Proof.
  intros H. rewrite <-(string_app_nil_r s), split_once_skip by done. done.
Qed.
Lemma split_once_first c p s : free_of c p = true → split_once (String c "") (p +:+ String c s) = Some (p, s).
Proof.
  intros H. rewrite split_once_skip by done. change (String c s) with (String c "" +:+ s).
  rewrite split_once_hit. cbn. by rewrite string_app_nil_r.
Qed.
Lemma prefix_inv k s : String.prefix k s = true → ∃ b, s = k +:+ b.
Proof.
  revert s. induction k as [|c k IH]; intros s; [by exists s|].
  destruct s as [|d s]; [done|]. cbn. destruct (Ascii.ascii_dec c d) as [->|]; [|done].
  intros [b ->]%IH. by exists b.
Qed.
Lemma split_once_app k s a b : split_once k s = Some (a, b) → s = a +:+ k +:+ b.
Proof.
  revert a. induction s as [|c s IH]; intros a.
  - cbn [split_once]. destruct k; [|done]. cbn. by intros [= <- <-].
  - destruct (String.prefix k (String c s)) eqn:Hp.
    + destruct (prefix_inv _ _ Hp) as [b' Hb]. rewrite Hb, split_once_hit. by intros [= <- <-].
    + rewrite split_once_step by done. destruct (split_once k s) as [[a' b']|]; [|done].
      intros [= <- <-]. by rewrite app_cons, <-(IH a' eq_refl).
Qed.
Lemma contains_split k s : contains k s = bool_decide (is_Some (split_once k s)).
Proof.
  induction s as [|c s IH]; cbn [contains split_once].
  - by destruct (String.prefix k "").
  - destruct (String.prefix k (String c s)); [done|]. cbn [orb]. rewrite IH.
    by destruct (split_once k s) as [[]|].
Qed.

(** ** Splitting *)

Lemma split_on_last c p : free_of c p = true → split_on c p = [p].
Proof.
  unfold split_on, free_of. induction p as [|d p IH]; [done|]. cbn. intros [Hd Hp]%andb_true_iff.
  apply negb_true_iff in Hd. specialize (IH Hp). destruct (split_char c p) as [q qs]. simplify_eq.
  rewrite decide_False; [done|]. intros ->. by rewrite (proj2 (is_char_spec c c)) in Hd.
Qed.
Lemma split_on_app c p s : free_of c p = true → split_on c (p +:+ String c s) = p :: split_on c s.
Proof.
  unfold split_on, free_of. induction p as [|d p IH]; intros H.
  - rewrite app_nil. cbn [split_char]. destruct (split_char c s). by rewrite decide_True.
  - cbn in H. apply andb_true_iff in H as [Hd Hp]. apply negb_true_iff in Hd. specialize (IH Hp).
    rewrite app_cons. cbn [split_char]. destruct (split_char c (p +:+ String c s)) as [q qs]. destruct (split_char c s) as [r rs]. simplify_eq.
    rewrite decide_False; [done|]. intros ->. by rewrite (proj2 (is_char_spec c c)) in Hd.
Qed.

(** ** Trimming *)

Lemma ascii_not_continuation c : is_ascii c = true → is_continuation c = false.
Proof. unfold is_ascii, is_continuation. rewrite N.ltb_lt. intros H. apply andb_false_iff. left. apply N.leb_gt. lia. Qed.
Lemma blank_ascii c : is_blank c = true → is_ascii c = true.
Proof.
  unfold is_blank, is_ascii. rewrite N.ltb_lt, orb_true_iff, andb_true_iff, !N.leb_le, N.eqb_eq. lia.
Qed.
Lemma whitespace_single c : is_ascii c = true → is_whitespace (String c "") = is_blank c.
Proof. by destruct c as [[] [] [] [] [] [] [] []]; vm_compute. Qed.
(** No white-space character of several bytes starts with an ASCII one. *)
Lemma whitespace_multi c d y : is_ascii c = true → is_whitespace (String c (String d y)) = false.
Proof. by destruct c as [[] [] [] [] [] [] [] []]. Qed.
Lemma continues_app a b : continues b = false → continues a = false → continues (a +:+ b) = false.
Proof. by destruct a. Qed.
Lemma chars_app a b : continues b = false → chars (a +:+ b) = chars a ++ chars b.
Proof.
  intros Hb. induction a as [|c a IH]; [done|]. rewrite app_cons. cbn [chars]. rewrite IH.
  destruct a as [|d a].
  - rewrite app_nil. cbn [chars app]. rewrite Hb. by destruct (chars b).
  - rewrite app_cons. assert (∃ x r, chars (String d a) = x :: r) as (x & r & Hx).
    { cbn. destruct (chars a); [by eexists _, _|]. case_match; by eexists _, _. }
    rewrite Hx. cbn [app continues]. by destruct (is_continuation d).
Qed.
Lemma chars_ascii s : all_chars is_ascii s = true → continues s = false ∧ concat_str (chars s) = s ∧
  Forall (λ x, ∃ c, x = String c "" ∧ is_ascii c = true) (chars s).
Proof.
  split; [|split; [apply concat_chars|]].
  - destruct s as [|c s]; [done|]. cbn in *. apply andb_true_iff in H as [H _]. by apply ascii_not_continuation.
  - revert H. induction s as [|c s IH]; [constructor|]. cbn. intros [Hc Hs]%andb_true_iff. specialize (IH Hs).
    assert (continues s = false) as Hk.
    { destruct s as [|d s']; [done|]. cbn in *. apply andb_true_iff in Hs as [H _]. by apply ascii_not_continuation. }
    destruct (chars s) as [|x rest]; [|rewrite Hk]; (constructor; [by eexists|done]).
Qed.
Lemma drop_ws_blanks w l : all_chars is_blank w = true → drop_ws (chars w ++ l) = drop_ws l.
Proof.
  intros Hw. assert (Forall (λ x, is_whitespace x = true) (chars w)) as Hf.
  { destruct (chars_ascii w) as (_ & _ & Hc); [by apply (all_chars_impl is_blank); [apply blank_ascii|]|].
    revert Hc Hw. generalize (concat_chars w). generalize (chars w) as l0. intros l0 <-. induction l0 as [|x l0 IH]; [constructor|].
    intros Hc%Forall_cons. destruct Hc as [(c & -> & Ha) Hc]. change (concat_str (String c "" :: l0)) with (String c (concat_str l0)).
    cbn [all_chars]. intros [Hb Hl]%andb_true_iff. constructor; [by rewrite whitespace_single|by apply IH]. }
  induction Hf as [|x l0 Hx Hl IH]; [done|]. cbn. by rewrite Hx.
Qed.
(** The first character of a text is not blank. *)
Definition starts_solid (s : string) : bool :=
  match s with EmptyString => false | String c _ => is_ascii c && negb (is_blank c) end.
(** Its last character is not. *)
Fixpoint ends_solid (s : string) : bool :=
  match s with
  | EmptyString => false
  | String c EmptyString => is_ascii c && negb (is_blank c)
  | String _ r => ends_solid r
  end.
Lemma ends_solid_app a b : ends_solid b = true → ends_solid (a +:+ b) = true.
Proof.
  intros Hb. induction a as [|c a IH]; [done|]. rewrite app_cons. cbn [ends_solid].
  destruct (a +:+ b) eqn:E; [|done]. by destruct a; [rewrite app_nil in E; subst b|].
Qed.
Lemma ends_solid_last s : ends_solid s = true → ∃ p c, s = p +:+ String c "" ∧ is_ascii c = true ∧ is_blank c = false.
Proof.
  induction s as [|c s IH]; [done|]. destruct s as [|d s].
  - cbn. intros [Ha Hb%negb_true_iff]%andb_true_iff. by exists "", c.
  - intros H. destruct (IH H) as (p & e & -> & He). by exists (String c p), e.
Qed.
Lemma drop_ws_start s l : starts_solid s = true → drop_ws (chars s ++ l) = chars s ++ l.
Proof.
  destruct s as [|c s]; [done|]. cbn [starts_solid]. intros [Ha Hb%negb_true_iff]%andb_true_iff.
  assert (∃ x r, chars (String c s) = x :: r ∧ is_whitespace x = false) as (x & r & -> & Hx); [|cbn; by rewrite Hx].
  cbn [chars]. destruct (chars s) as [|y rest] eqn:E.
  - eexists _, _. split; [done|]. by rewrite whitespace_single.
  - destruct (continues s) eqn:Hs; [|eexists _, _; split; [done|by rewrite whitespace_single]].
    eexists _, _. split; [done|].
    assert (y ≠ "") as Hy.
    { destruct s as [|d s]; [done|]. cbn in E. destruct (chars s); [by injection E as <-|]. case_match; by injection E as <-. }
    destruct y as [|d y]; [done|]. by apply whitespace_multi.
Qed.
Lemma starts_solid_continues s : starts_solid s = true → continues s = false.
Proof. destruct s as [|c s]; [done|]. cbn. intros [Ha _]%andb_true_iff. by apply ascii_not_continuation. Qed.
Lemma blanks_continue w : all_chars is_blank w = true → continues w = false.
Proof. destruct w as [|c w]; [done|]. cbn. intros [Hc _]%andb_true_iff. by apply ascii_not_continuation, blank_ascii. Qed.
Lemma trim_start_core w s : all_chars is_blank w = true → starts_solid s = true → str_trim_start (w +:+ s) = s.
Proof.
  intros Hw Hs. unfold str_trim_start. rewrite chars_app by by apply starts_solid_continues.
  rewrite drop_ws_blanks by done. rewrite <-(app_nil_r (chars s)), drop_ws_start by done.
  by rewrite app_nil_r, concat_chars.
Qed.
Lemma reverse_blank_chars w : all_chars is_blank w = true → Forall (λ x, is_whitespace x = true) (reverse (chars w)).
Proof.
  intros Hw. apply Forall_reverse. pose proof (drop_ws_blanks w [] Hw) as H. rewrite app_nil_r in H. cbn in H.
  clear Hw. induction (chars w) as [|x l IH]; [constructor|]. cbn in H.
  destruct (is_whitespace x) eqn:Hx; [|done]. constructor; [done|by apply IH].
Qed.
Lemma drop_ws_all l k : Forall (λ x, is_whitespace x = true) l → drop_ws (l ++ k) = drop_ws k.
Proof. intros H. induction H as [|x l Hx _ IH]; [done|]. cbn. by rewrite Hx. Qed.
Lemma trim_core w s v : all_chars is_blank w = true → starts_solid s = true → ends_solid s = true → all_chars is_blank v = true →
  str_trim (w +:+ s +:+ v) = s.
Proof.
  intros Hw Hs He Hv. unfold str_trim.
  rewrite chars_app by (apply continues_app; [by apply blanks_continue|by apply starts_solid_continues]).
  rewrite drop_ws_blanks by done. rewrite chars_app by by apply blanks_continue.
  rewrite drop_ws_start by done. rewrite reverse_app, drop_ws_all by by apply reverse_blank_chars.
  destruct (ends_solid_last s He) as (p & c & -> & Ha & Hb).
  rewrite chars_app by by apply ascii_not_continuation.
  change (chars (String c "")) with [String c ""]. rewrite reverse_snoc. cbn [drop_ws].
  rewrite whitespace_single, Hb by done. rewrite <-reverse_snoc, reverse_involutive.
  change [String c ""] with (chars (String c "")).
  rewrite <-chars_app by by apply ascii_not_continuation. apply concat_chars.
Qed.
Lemma trim_solid s : starts_solid s = true → ends_solid s = true → str_trim s = s.
Proof. intros Hs He. pose proof (trim_core "" s "" eq_refl Hs He eq_refl) as H. by rewrite string_app_nil_r in H. Qed.
Lemma drop_char_free c s : free_of c s = true → drop_char c s = s ∧ drop_char_end c s = s.
Proof.
  unfold free_of. induction s as [|d s IH]; [done|]. cbn. intros [Hd%negb_true_iff Hs]%andb_true_iff.
  destruct (IH Hs) as [_ ->]. rewrite Hd. split; [done|]. by destruct s.
Qed.
Lemma trim_matches_free c s : free_of c s = true → trim_matches c s = s.
Proof. intros H. unfold trim_matches. destruct (drop_char_free c s H) as [-> ->]. done. Qed.
Lemma trim_matches_wrapped c s : free_of c s = true → trim_matches c (String c (s +:+ String c "")) = s.
Proof.
  intros H. unfold trim_matches. cbn [drop_char]. rewrite (proj2 (is_char_spec c c)) by done.
  assert (drop_char_end c (s +:+ String c "") = s) as Hend.
  { unfold free_of in H. induction s as [|d s IH]; [rewrite app_nil; cbn; by rewrite (proj2 (is_char_spec c c))|].
    cbn in H. apply andb_true_iff in H as [Hd%negb_true_iff Hs]. rewrite app_cons. cbn [drop_char_end].
    rewrite (IH Hs), Hd. by destruct s. }
  destruct s as [|d s].
  - rewrite app_nil in *. cbn. by rewrite (proj2 (is_char_spec c c)).
  - rewrite app_cons in *. cbn [drop_char]. unfold free_of in H. cbn in H.
    apply andb_true_iff in H as [Hd%negb_true_iff _]. by rewrite Hd.
Qed.

(** ** Printed numbers *)

Definition is_digit (c : ascii) : bool := let n := N_of_ascii c in ((48 <=? n) && (n <=? 57))%N.
Lemma pretty_char_digit d : (d < 10)%N → Z.of_N (N_of_ascii (pretty_N_char d)) = 48 + Z.of_N d.
Proof.
  intros H. assert (d ∈ [0;1;2;3;4;5;6;7;8;9]%N) as Hin by (rewrite !elem_of_cons; lia).
  repeat (apply elem_of_cons in Hin as [->|Hin]; [done|]). by apply elem_of_nil in Hin.
Qed.
Lemma pretty_char_is_digit d : (d < 10)%N → is_digit (pretty_N_char d) = true.
Proof.
  intros H. pose proof (pretty_char_digit d H). unfold is_digit. rewrite andb_true_iff, !N.leb_le. lia.
Qed.
Lemma pretty_go_digits x s : all_chars is_digit s = true →
  all_chars is_digit (pretty_N_go x s) = true ∧ ((0 < x)%N → pretty_N_go x s ≠ "") ∧ (s ≠ "" → pretty_N_go x s ≠ "").
Proof.
  revert s. induction (N.lt_wf_0 x) as [x _ IH]; intros s Hs.
  destruct (decide (0 < x)%N) as [Hx|Hx].
  - rewrite pretty_N_go_step by done.
    destruct (IH (x / 10)%N (N.div_lt x 10 Hx eq_refl) (String (pretty_N_char (x mod 10)) s)) as (H1 & _ & H2).
    { cbn. by rewrite pretty_char_is_digit by by apply N.mod_lt. }
    split; [done|]. by split; intros _; apply H2.
  - replace x with 0%N by lia. rewrite pretty_N_go_0. split_and!; [done|lia|done].
Qed.
Lemma parse_digits_pretty max x s : Z.of_N x ≤ max →
  parse_uint_digits max 0 (pretty_N_go x s) = parse_uint_digits max (Z.of_N x) s.
Proof.
  revert s. induction (N.lt_wf_0 x) as [x _ IH]; intros s Hmax.
  destruct (decide (0 < x)%N) as [Hx|Hx]; [|replace x with 0%N by lia; by rewrite pretty_N_go_0].
  rewrite pretty_N_go_step by done. pose proof (N.div_lt x 10 Hx eq_refl) as Hlt.
  rewrite IH by (done || lia). cbn [parse_uint_digits].
  pose proof (N.mod_lt x 10 ltac:(done)) as Hm. rewrite pretty_char_digit by done.
  assert (0 ≤ Z.of_N (x mod 10) < 10) as Hr by (split; [apply N2Z.is_nonneg|by apply (N2Z.inj_lt _ 10)]).
  rewrite (proj2 (Z.leb_le 48 (48 + Z.of_N (x mod 10)))) by lia.
  rewrite (proj2 (Z.leb_le (48 + Z.of_N (x mod 10)) 57)) by lia. cbn [andb].
  replace (Z.of_N (x / 10) * 10 + (48 + Z.of_N (x mod 10) - 48)) with (Z.of_N x)
    by (pose proof (N.div_mod x 10 ltac:(done)); lia).
  by rewrite (proj2 (Z.leb_le _ _)) by done.
Qed.
(** A printed number is digits, at least one, and [parse] reads it back. *)
Lemma pretty_digits n : 0 ≤ n → all_chars is_digit (pretty n) = true ∧ pretty n ≠ "".
Proof.
  intros Hn. destruct n as [|p|p]; [done| |lia]. change (pretty (Zpos p)) with (pretty_N_go (Npos p) "").
  destruct (pretty_go_digits (Npos p) "" eq_refl) as (H1 & H2 & _). split; [done|]. by apply H2.
Qed.
Lemma parse_uint_digits_of max s : all_chars is_digit s = true → s ≠ "" → parse_uint max s = parse_uint_digits max 0 s.
Proof.
  destruct s as [|c [|d s]]; [done..|]. cbn [all_chars parse_uint]. intros [Hc _]%andb_true_iff _.
  destruct (N.eqb_spec (N_of_ascii c) 43) as [E|]; [|done]. unfold is_digit in Hc. by rewrite E in Hc.
Qed.
Lemma parse_uint_pretty max n : 0 ≤ n ≤ max → parse_uint max (pretty n) = Ok n.
Proof.
  intros [H0 Hn]. destruct (pretty_digits n H0) as [Hd Hne]. rewrite parse_uint_digits_of by done.
  destruct n as [|p|p]; [| |lia].
  { change (parse_uint_digits max 0 (pretty 0))
      with (if 0 <=? max then Ok 0 else Err "number too large to fit in target type" : result string Z).
    by rewrite (proj2 (Z.leb_le 0 max)). }
  change (pretty (Zpos p)) with (pretty_N_go (Npos p) ""). by rewrite parse_digits_pretty by (cbn; lia).
Qed.
Lemma digit_solid c : is_digit c = true → is_ascii c = true ∧ is_blank c = false.
Proof. unfold is_digit, is_ascii, is_blank. rewrite andb_true_iff, !N.leb_le, N.ltb_lt, orb_false_iff, andb_false_iff, !N.leb_gt, N.eqb_neq. lia. Qed.
Lemma digits_solid s : all_chars is_digit s = true → s ≠ "" → starts_solid s = true ∧ ends_solid s = true.
Proof.
  intros Hs Hne. split.
  - destruct s as [|c s]; [done|]. cbn in *. apply andb_true_iff in Hs as [Hc _]. by destruct (digit_solid c Hc) as [-> ->].
  - induction s as [|c s IH]; [done|]. cbn [all_chars] in Hs. apply andb_true_iff in Hs as [Hc Hs]. cbn [ends_solid].
    destruct s as [|d s]; [by destruct (digit_solid c Hc) as [-> ->]|by apply IH].
Qed.
Lemma digits_free c s : is_digit c = false → all_chars is_digit s = true → free_of c s = true.
Proof.
  intros Hc. apply all_chars_impl. intros d Hd. apply negb_true_iff. destruct (is_char c d) eqn:E; [|done].
  apply is_char_spec in E as ->. congruence.
Qed.

(** ** Occurrences *)

Lemma prefix_long k u t : (String.length k ≤ String.length u)%nat → String.prefix k (u +:+ t) = String.prefix k u.
Proof.
  revert u. induction k as [|c k IH]; intros [|d u] H; [by destruct t|done|cbn in H; lia|].
  rewrite app_cons. cbn in *. destruct (Ascii.ascii_dec c d); [apply IH; lia|done].
Qed.
Lemma prefix_mono k u t : String.prefix k u = true → String.prefix k (u +:+ t) = true.
Proof. intros [b ->]%prefix_inv. rewrite string_app_assoc. apply prefix_app. Qed.
(** What follows the first occurrence does not matter. *)
Lemma split_once_stable k s a b b' : split_once k s = Some (a, b) → split_once k (a +:+ k +:+ b') = Some (a, b').
Proof.
  revert a. induction s as [|c s IH]; intros a H.
  - cbn [split_once] in H. destruct k; [|done]. cbn in H. injection H as <- _. apply (split_once_hit "").
  - destruct (String.prefix k (String c s)) eqn:Hp.
    + destruct (prefix_inv _ _ Hp) as [t Ht]. rewrite Ht, split_once_hit in H. injection H as <- _.
      exact (split_once_hit k b').
    + rewrite split_once_step in H by done. destruct (split_once k s) as [[a0 b0]|] eqn:Hs; [|done].
      cbn in H. injection H as <- <-. specialize (IH a0 eq_refl). rewrite app_cons, split_once_step; [by rewrite IH|].
      apply split_once_app in Hs. subst s. change (String c (a0 +:+ k +:+ b0)) with (String c "" +:+ a0 +:+ k +:+ b0) in Hp.
      change (String c (a0 +:+ k +:+ b')) with (String c "" +:+ a0 +:+ k +:+ b').
      rewrite <-!string_app_assoc in *. rewrite prefix_long in Hp |- * by (rewrite !length_append; lia). done.
Qed.
Lemma contains_app_r k x y : contains k y = true → contains k (x +:+ y) = true.
Proof. intros H. induction x as [|c x IH]; [done|]. rewrite app_cons. cbn [contains]. by rewrite IH, orb_true_r. Qed.
Lemma contains_app_l k x y : contains k x = true → contains k (x +:+ y) = true.
Proof.
  induction x as [|c x IH]; cbn [contains].
  - rewrite orb_false_r. destruct k; [|done]. intros _. by destruct ("" +:+ y).
  - rewrite app_cons. intros [H|H]%orb_true_iff; cbn [contains]; [|by rewrite IH, orb_true_r].
    pose proof (prefix_mono k (String c x) y H) as Hm. rewrite app_cons in Hm. by rewrite Hm.
Qed.
Lemma contains_part k x y z : contains k (x +:+ y +:+ z) = false → contains k y = false.
Proof.
  intros H. apply not_true_is_false. intros Hy. apply (contains_app_l k y z), (contains_app_r k x) in Hy. congruence.
Qed.
Lemma contains_tail_false k x y : contains k (x +:+ y) = false → contains k y = false.
Proof. intros H. apply not_true_is_false. intros Hy. apply (contains_app_r k x) in Hy. congruence. Qed.
Lemma contains_head_false k x y : contains k (x +:+ y) = false → contains k x = false.
Proof. intros H. apply not_true_is_false. intros Hy. apply (contains_app_l k x y) in Hy. congruence. Qed.
Lemma contains_before k s a b : k ≠ "" → split_once k s = Some (a, b) → contains k a = false.
Proof.
  intros Hk. revert a. induction s as [|c s IH]; intros a H.
  - cbn [split_once] in H. by destruct k.
  - destruct (String.prefix k (String c s)) eqn:Hp.
    + destruct (prefix_inv _ _ Hp) as [t Ht]. rewrite Ht, split_once_hit in H. injection H as <- _. by destruct k.
    + rewrite split_once_step in H by done. destruct (split_once k s) as [[a0 b0]|] eqn:Hs; [|done].
      cbn in H. injection H as <- <-. cbn [contains]. rewrite (IH a0 eq_refl), orb_false_r.
      apply not_true_is_false. intros Hc. apply split_once_app in Hs. subst s.
      apply (prefix_mono k (String c a0) (k +:+ b0)) in Hc. rewrite app_cons in Hc. congruence.
Qed.
Lemma contains_prefix k s : contains k s = false → String.prefix k s = false.
Proof. destruct s; cbn [contains]; by intros [H _]%orb_false_iff. Qed.

(** ** Lines *)

Lemma split_on_glue c x y : split_on c (x +:+ String c y) = split_on c x ++ split_on c y.
Proof.
  unfold split_on. induction x as [|d x IH].
  - rewrite app_nil. cbn [split_char]. destruct (split_char c y). by rewrite decide_True.
  - rewrite app_cons. cbn [split_char]. destruct (split_char c (x +:+ String c y)) as [q qs], (split_char c x) as [r rs], (split_char c y) as [t ts].
    simplify_eq/=. destruct (decide (d = c)); simplify_eq/=; done.
Qed.
Lemma split_on_part c s p : p ∈ split_on c s → ∃ x z, s = x +:+ p +:+ z.
Proof.
  unfold split_on. revert p. induction s as [|d s IH]; intros p; cbn [split_char].
  - intros ->%list_elem_of_singleton. by exists "", "".
  - destruct (split_char c s) as [q qs] eqn:E. destruct (decide (d = c)).
    + intros [->|Hin]%elem_of_cons; [by exists "", (String d s)|].
      destruct (IH p Hin) as (x & z & ->). by exists (String d x), z.
    + intros [->|Hin]%elem_of_cons.
      * assert (∃ z, s = q +:+ z) as [z ->]; [|by exists "", z].
        clear IH. revert q qs E. induction s as [|e s IHs]; intros q qs E; cbn [split_char] in E; [simplify_eq; by exists ""|].
        destruct (split_char c s) as [q' qs'] eqn:E'. destruct (decide (e = c)); simplify_eq; [by eexists (String _ s)|].
        destruct (IHs _ _ eq_refl) as [z ->]. by exists z.
      * destruct (IH p ltac:(by right)) as (x & z & ->). by exists (String d x), z.
Qed.
Lemma strip_cr_part s : ∃ z, s = strip_cr s +:+ z.
Proof.
  induction s as [|c s [z Hz]]; [by exists ""|]. cbn [strip_cr]. destruct s as [|d s].
  - destruct (N_of_ascii c =? 13)%N; [by exists (String c "")|by exists ""].
  - exists z. rewrite app_cons. by rewrite <-Hz.
Qed.
Lemma concat_str_app l1 l2 : concat_str (l1 ++ l2) = concat_str l1 +:+ concat_str l2.
Proof.
  induction l1 as [|x l1 IH]; [done|]. change (x +:+ concat_str (l1 ++ l2) = (x +:+ concat_str l1) +:+ concat_str l2).
  by rewrite IH, string_app_assoc.
Qed.
Lemma trim_start_part s : ∃ x, s = x +:+ str_trim_start s.
Proof.
  unfold str_trim_start. assert (∀ l, ∃ l', l = l' ++ drop_ws l) as H.
  { intros l. induction l as [|x l [l' Hl]]; [by exists []|]. cbn. destruct (is_whitespace x); [|by exists []].
    exists (x :: l'). cbn. by rewrite <-Hl. }
  destruct (H (chars s)) as [l' Hl]. exists (concat_str l'). by rewrite <-concat_str_app, <-Hl, concat_chars.
Qed.
Lemma line_prefix k s : contains k s = false → ∀ l, l ∈ split_on newline_char s →
  strip_prefix k (str_trim_start (strip_cr l)) = None ∧ strip_prefix k (str_trim_start l) = None.
Proof.
  intros Hk l Hl. destruct (split_on_part _ _ _ Hl) as (x & z & ->). apply contains_part in Hk.
  unfold strip_prefix. destruct (strip_cr_part l) as [w Hw].
  destruct (trim_start_part l) as [u Hu], (trim_start_part (strip_cr l)) as [v Hv]. split.
  - rewrite contains_prefix; [done|]. rewrite Hw, Hv, string_app_assoc in Hk. by apply contains_part in Hk.
  - rewrite contains_prefix; [done|]. rewrite Hu, <-(string_app_nil_r (str_trim_start l)) in Hk. by apply contains_part in Hk.
Qed.
Lemma strip_cr_keeps s c : is_char (ascii_of_N 13) c = false → strip_cr (s +:+ String c "") = s +:+ String c "".
Proof.
  intros Hc. induction s as [|d s IH].
  - rewrite app_nil. change (is_char (ascii_of_N 13) c) with (13 =? N_of_ascii c)%N in Hc. rewrite N.eqb_sym in Hc.
    cbn [strip_cr]. by rewrite Hc.
  - rewrite app_cons. cbn [strip_cr]. destruct (s +:+ String c "") eqn:E; [by destruct s|]. by rewrite IH.
Qed.
Lemma lines_of_app l x r : lines_of (l ++ x :: r) = (strip_cr <$> l) ++ lines_of (x :: r).
Proof. induction l as [|y l IH]; [done|]. cbn [app fmap list_fmap]. rewrite <-IH. cbn [lines_of]. by destruct l. Qed.

(** A needle of two characters that differ. *)
Lemma pair_prefix (n b c : ascii) s : String.prefix (String n (String b "")) (String c s) = is_char n c && String.prefix (String b "") s.
Proof.
  cbn [String.prefix]. destruct (Ascii.ascii_dec n c) as [->|Hn]; [by rewrite (proj2 (is_char_spec c c))|].
  destruct (is_char n c) eqn:E; [|done]. by apply is_char_spec in E.
Qed.
Lemma single_prefix (b c : ascii) s : String.prefix (String b "") (String c s) = is_char b c.
Proof.
  cbn [String.prefix]. destruct (Ascii.ascii_dec b c) as [->|Hn]; [rewrite (proj2 (is_char_spec c c)) by done; by destruct s|].
  destruct (is_char b c) eqn:E; [|done]. by apply is_char_spec in E.
Qed.
Lemma pair_join n b x d y : is_char b d = false →
  contains (String n (String b "")) (x +:+ String d y) = contains (String n (String b "")) x || contains (String n (String b "")) (String d y).
Proof.
  intros Hd. induction x as [|c x IH]; [done|]. rewrite app_cons. cbn [contains]. rewrite IH, orb_assoc. f_equal. f_equal.
  rewrite !pair_prefix. f_equal. destruct x as [|e x]; [|by rewrite app_cons, !single_prefix].
  rewrite app_nil, single_prefix. by rewrite Hd.
Qed.
Lemma pair_fresh n b x t : is_char b n = false → contains (String n (String b "")) x = false →
  split_once (String n (String b "")) (x +:+ String n (String b "") +:+ t) = Some (x, t).
Proof.
  intros Hnb. induction x as [|c x IH]; [intros _; exact (split_once_hit (String n (String b "")) t)|].
  cbn [contains]. intros [Hp Hx]%orb_false_iff. rewrite app_cons, split_once_step; [by rewrite (IH Hx)|].
  rewrite pair_prefix in *. destruct (is_char n c); [|done]. cbn [andb] in *.
  destruct x as [|e x]; [by rewrite app_nil, app_cons, single_prefix|].
  by rewrite app_cons, single_prefix, <-(single_prefix b e x).
Qed.
Lemma split_once_none c s : split_once (String c "") s = None → free_of c s = true.
Proof.
  unfold free_of. induction s as [|d s IH]; [done|]. intros H.
  destruct (is_char c d) eqn:Ec.
  - apply is_char_spec in Ec as ->. exfalso. change (String d s) with (String d "" +:+ s) in H. by rewrite split_once_hit in H.
  - rewrite split_once_step in H by by apply prefix_head. cbn [all_chars]. rewrite Ec. apply IH.
    by destruct (split_once _ s) as [[]|].
Qed.
(** The text after the last separator. *)
Lemma last_piece c s w : last (split_on c s) = Some w → free_of c s = false → ∃ a, s = a +:+ String c w ∧ free_of c w = true.
Proof.
  revert w. induction s as [|d s IH]; intros w Hl Hf; [done|].
  destruct (free_of c s) eqn:Hs.
  - assert (d = c) as ->.
    { unfold free_of in *. cbn [all_chars] in Hf. rewrite Hs, andb_true_r in Hf. apply negb_false_iff, is_char_spec in Hf. done. }
    change (String c s) with ("" +:+ String c s) in Hl. rewrite split_on_glue, last_app, split_on_last in Hl by done.
    cbn in Hl. injection Hl as <-. by exists "".
  - destruct (IH w) as (a & -> & Hw); [|done|by exists (String d a)]. rewrite <-Hl. unfold split_on. cbn [split_char].
    unfold split_on in IH. destruct (split_char c s) as [q qs] eqn:E. destruct qs as [|q' qs].
    + exfalso. clear -E Hs. unfold free_of in Hs. revert q E. induction s as [|e s IHs]; intros q E; [done|]. cbn [split_char] in E.
      destruct (split_char c s) as [r rs] eqn:Er. destruct (decide (e = c)); [done|]. simplify_eq.
      cbn [all_chars] in Hs. destruct (is_char c e) eqn:Ee; [by apply is_char_spec in Ee|]. by eapply IHs.
    + by destruct (decide (d = c)).
Qed.

(** A needle without a character does not reach over it. *)
Lemma prefix_free k n x z : free_of n k = true → String.prefix k (x +:+ String n z) = String.prefix k x.
Proof.
  unfold free_of. revert x. induction k as [|c k IH]; intros x H; [by destruct x; [destruct n|]|].
  cbn [all_chars] in H. apply andb_true_iff in H as [Hc%negb_true_iff Hk]. destruct x as [|d x].
  - rewrite app_nil. apply prefix_head. destruct (is_char c n) eqn:E; [|done]. apply is_char_spec in E as ->.
    by rewrite (proj2 (is_char_spec n n)) in Hc.
  - rewrite app_cons. cbn [String.prefix]. destruct (Ascii.ascii_dec c d); [by apply IH|done].
Qed.
Lemma contains_join_free k n x z : k ≠ "" → free_of n k = true → contains k (x +:+ String n z) = contains k x || contains k z.
Proof.
  intros Hk Hf. induction x as [|c x IH].
  - pose proof (prefix_free k n "" z Hf) as H. rewrite app_nil in *. cbn [contains]. rewrite H. by destruct k.
  - pose proof (prefix_free k n (String c x) z Hf) as H. rewrite app_cons in *. cbn [contains]. by rewrite IH, H, orb_assoc.
Qed.
Lemma contains_skip c k x s : free_of c x = true → contains (String c k) (x +:+ s) = contains (String c k) s.
Proof.
  unfold free_of. induction x as [|d x IH]; [done|]. cbn [all_chars]. intros [Hd%negb_true_iff Hx]%andb_true_iff.
  rewrite app_cons. cbn [contains]. rewrite prefix_head by done. by apply IH.
Qed.
Lemma split_once_beyond k n x z h t : k ≠ "" → free_of n k = true → contains k x = false →
  split_once k (x +:+ String n z) = Some (h, t) → ∃ h', h = x +:+ String n h' ∧ split_once k z = Some (h', t).
Proof.
  intros Hk Hf. revert h. induction x as [|c x IH]; intros h Hx Hs.
  - pose proof (prefix_free k n "" z Hf) as H. rewrite app_nil in *. rewrite split_once_step in Hs by (rewrite H; by destruct k).
    destruct (split_once k z) as [[a b]|]; [|done]. cbn in Hs. injection Hs as <- <-. by exists a.
  - pose proof (prefix_free k n (String c x) z Hf) as H. cbn [contains] in Hx. apply orb_false_iff in Hx as [Hp Hx].
    rewrite app_cons in *. rewrite split_once_step in Hs by congruence.
    destruct (split_once k (x +:+ String n z)) as [[a b]|]; [|done]. cbn in Hs. injection Hs as <- <-.
    destruct (IH a Hx eq_refl) as (h' & -> & Hz). by exists h'.
Qed.
(** A replacement leaves the first character when the needle starts otherwise. *)
Lemma replace_head c d needle r s : is_char d c = false → ∃ s', str_replace (String d needle) r (String c s) = String c s'.
Proof.
  intros H. unfold str_replace. cbn [replace_fuel]. rewrite split_once_step by by apply prefix_head.
  destruct (split_once _ s) as [[a b]|]; cbn; [|by eexists]. rewrite app_cons. by eexists.
Qed.
Lemma split_inclusive_head c s : is_char newline_char c = false → ∃ p ps, split_inclusive (String c s) = String c p :: ps.
Proof.
  intros H. cbn [split_inclusive]. rewrite H. destruct (split_inclusive s); by eexists _, _.
Qed.
