(* ===== verification/LintAudit.v ===== *)
(** * LintAudit: the anti-pattern counter of the developer tooling

    Models the [audit] subcommand of [xtask/src/main.rs]: the scan of a source file, the walk of
    a crate, the table, the JSON baseline with its reader, and the regression check.  A
    directory is a tree; the files outside [crates/] are a map from path to text.  The counts
    are [usize] of at most the lines in memory, so their additions do not wrap. *)
From S2P Require Import Prelude Text StrFacts.

(** ** Counts *)

Record CrateCounts : Type := {
  n_files : Z; n_loc : Z; unwrap_used : Z; expect_used : Z; panic_macro : Z; todo_macro : Z;
  unimplemented_macro : Z; box_dyn_any : Z; placeholder_marker : Z; stub_comment : Z;
  placeholder_comment : Z; println_macro : Z; eprintln_macro : Z; dbg_macro : Z
}.
Definition counts_default : CrateCounts := {|
  n_files := 0; n_loc := 0; unwrap_used := 0; expect_used := 0; panic_macro := 0; todo_macro := 0;
  unimplemented_macro := 0; box_dyn_any := 0; placeholder_marker := 0; stub_comment := 0;
  placeholder_comment := 0; println_macro := 0; eprintln_macro := 0; dbg_macro := 0
|}.
Definition counts_add (c other : CrateCounts) : CrateCounts := {|
  n_files := n_files c + n_files other;
  n_loc := n_loc c + n_loc other;
  unwrap_used := unwrap_used c + unwrap_used other;
  expect_used := expect_used c + expect_used other;
  panic_macro := panic_macro c + panic_macro other;
  todo_macro := todo_macro c + todo_macro other;
  unimplemented_macro := unimplemented_macro c + unimplemented_macro other;
  box_dyn_any := box_dyn_any c + box_dyn_any other;
  placeholder_marker := placeholder_marker c + placeholder_marker other;
  stub_comment := stub_comment c + stub_comment other;
  placeholder_comment := placeholder_comment c + placeholder_comment other;
  println_macro := println_macro c + println_macro other;
  eprintln_macro := eprintln_macro c + eprintln_macro other;
  dbg_macro := dbg_macro c + dbg_macro other
|}.

(** ** Scanning a file *)

(** The names of a directory differ, so the map by name is its sorted list. *)
Abbreviation PerCrate := (list (string * CrateCounts)).

Section scan.
(** [char::is_alphanumeric] of a character outside ASCII. *)
Variable unicode_alphanumeric : string → bool.
Definition is_alphanumeric (ch : string) : bool :=
  match ch with
  | String c EmptyString =>
      let n := N_of_ascii c in
      ((48 <=? n) && (n <=? 57) || (65 <=? n) && (n <=? 90) || (97 <=? n) && (n <=? 122))%N
  | _ => unicode_alphanumeric ch
  end.
(** The first occurrence decides. *)
Definition contains_macro (line needle : string) : bool :=
  match split_once needle line with
  | Some (before_, _) =>
      match last (chars before_) with
      | None => true
      | Some c => negb (is_alphanumeric c) && negb (bool_decide (c = "_"))
      end
  | None => false
  end.

Definition I32_MAX : Z := 2147483647.
Record ScanState : Type := {
  in_test_module : bool; depth : Z; test_depth_start : Z; counts : CrateCounts
}.
Definition brace_step (st : ScanState) (ch : string) : ScanState :=
  if decide (ch = "{") then
    {| in_test_module := in_test_module st; depth := depth st + 1; test_depth_start := test_depth_start st; counts := counts st |}
  else if decide (ch = "}") then
    let closes := in_test_module st && (depth st - 1 <=? test_depth_start st) in
    {| in_test_module := if closes then false else in_test_module st; depth := depth st - 1;
       test_depth_start := if closes then I32_MAX else test_depth_start st; counts := counts st |}
  else st.
Definition one_if (b : bool) : Z := if b then 1 else 0.
(** What a line adds, given whether it is a comment and whether it is in a test module. *)
Definition line_counts (line : string) (is_comment in_test : bool) : CrateCounts :=
  let code b := one_if (negb is_comment && negb in_test && b) in
  let lower := to_ascii_lowercase line in {|
    n_files := 0; n_loc := 1;
    unwrap_used := code (contains ".unwrap(" line);
    expect_used := code (contains ".expect(" line);
    panic_macro := code (contains_macro line "panic!");
    todo_macro := code (contains_macro line "todo!");
    unimplemented_macro := code (contains_macro line "unimplemented!");
    box_dyn_any := code (contains "Box<dyn Any" line);
    placeholder_marker := one_if (contains "__placeholder__" line);
    stub_comment := one_if (is_comment && contains "// stub" lower);
    placeholder_comment := one_if (is_comment && contains "// placeholder" lower);
    println_macro := code (contains_macro line "println!");
    eprintln_macro := code (contains_macro line "eprintln!");
    dbg_macro := code (contains_macro line "dbg!")
  |}.
Definition scan_line (st : ScanState) (raw_line : string) : ScanState :=
  let line := str_trim_start raw_line in
  let is_comment := starts_with "//" line in
  let st := if starts_with "#[cfg(test)]" line
            then {| in_test_module := true; depth := depth st; test_depth_start := depth st; counts := counts st |}
            else st in
  let st := foldl brace_step st (chars raw_line) in
  {| in_test_module := in_test_module st; depth := depth st; test_depth_start := test_depth_start st;
     counts := counts_add (counts st) (line_counts line is_comment (in_test_module st)) |}.
Definition one_file : CrateCounts := {|
  n_files := 1; n_loc := 0; unwrap_used := 0; expect_used := 0; panic_macro := 0; todo_macro := 0;
  unimplemented_macro := 0; box_dyn_any := 0; placeholder_marker := 0; stub_comment := 0;
  placeholder_comment := 0; println_macro := 0; eprintln_macro := 0; dbg_macro := 0
|}.
Definition scan_file (text : string) (c : CrateCounts) : CrateCounts :=
  counts (foldl scan_line
    {| in_test_module := false; depth := 0; test_depth_start := I32_MAX; counts := counts_add c one_file |}
    (str_lines text)).

(** ** Walking a crate *)


(** A directory entry by its file name: a directory, with the error [read_dir] gives if it
    does, or a file with its extension and what [read_to_string] gives. *)
Inductive Entry : Type :=
  | E_Dir (file_name : string) (read_error : option string) (entries : list Entry)
  | E_File (file_name : string) (extension : option string) (text : result string string).
Definition entry_name (e : Entry) : string := match e with E_Dir name _ _ | E_File name _ _ => name end.
Definition is_dir (e : Entry) : bool := match e with E_Dir _ _ _ => true | E_File _ _ _ => false end.
Fixpoint walk_rs (e : Entry) (c : CrateCounts) : result string CrateCounts :=
  match e with
  | E_Dir _ (Some err) _ => Err err
  | E_Dir _ None entries =>
      (fix walk_entries entries c :=
         match entries with
         | [] => Ok c
         | e :: rest => let? c := walk_rs e c in walk_entries rest c
         end) entries c
  | E_File _ ext text =>
      if decide (ext = Some "rs") then let? t := text in Ok (scan_file t c) else Ok c
  end.
(** [dir.join(name)], when it is a directory. *)
Definition sub_dir (name : string) (e : Entry) : option Entry :=
  match e with
  | E_Dir _ _ entries => List.find (λ e, bool_decide (entry_name e = name) && is_dir e) entries
  | E_File _ _ _ => None
  end.
Definition audit_crate (crate_dir : Entry) : result string CrateCounts :=
  match sub_dir "src" crate_dir with
  | Some src => walk_rs src counts_default
  | None => Ok counts_default
  end.
Definition name_le (a b : Entry) : Prop := String.leb (entry_name a) (entry_name b) = true.
#[export] Instance name_le_dec a b : Decision (name_le a b) := decide (String.leb (entry_name a) (entry_name b) = true).
Definition collect_crate_dirs (crates_dir : list Entry) : list Entry :=
  merge_sort name_le (filter (λ e, is_dir e = true) crates_dir).
Fixpoint audit_crates (dirs : list Entry) : result string PerCrate :=
  match dirs with
  | [] => Ok []
  | dir :: rest =>
      let? counts := audit_crate dir in
      let? others := audit_crates rest in Ok ((entry_name dir, counts) :: others)
  end.

(** ** The JSON baseline *)

Definition kvs (c : CrateCounts) : list (string * Z) :=
  [("files", n_files c); ("loc", n_loc c); ("unwrap_used", unwrap_used c); ("expect_used", expect_used c);
   ("panic_macro", panic_macro c); ("todo_macro", todo_macro c); ("unimplemented_macro", unimplemented_macro c);
   ("box_dyn_any", box_dyn_any c); ("placeholder_marker", placeholder_marker c); ("stub_comment", stub_comment c);
   ("placeholder_comment", placeholder_comment c); ("println_macro", println_macro c);
   ("eprintln_macro", eprintln_macro c); ("dbg_macro", dbg_macro c)].
Definition comma_char : ascii := ascii_of_N 44.
Definition comma : string := String comma_char "".
(** The comma before every item but the first. *)
Definition separator (i : nat) : string := if (0 <? i)%nat then comma else "".
Definition kv_text (indent : string) (kv : string * Z) : string :=
  nl +:+ indent +:+ dquote +:+ fst kv +:+ dquote +:+ ": " +:+ pretty (snd kv).
Fixpoint write_kvs (i : nat) (indent : string) (l : list (string * Z)) : string :=
  match l with
  | [] => ""
  | kv :: rest => separator i +:+ kv_text indent kv +:+ write_kvs (S i) indent rest
  end.
Definition write_counts (c : CrateCounts) (indent : string) : string := write_kvs 0 indent (kvs c).
Definition crate_text (name : string) (c : CrateCounts) : string :=
  nl +:+ "    " +:+ dquote +:+ name +:+ dquote +:+ ": {" +:+ write_counts c "      " +:+ nl +:+ "    }".
Fixpoint write_crates (i : nat) (per_crate : PerCrate) : string :=
  match per_crate with
  | [] => ""
  | (name, c) :: rest => separator i +:+ crate_text name c +:+ write_crates (S i) rest
  end.
Definition audit_json (per_crate : PerCrate) (total : CrateCounts) : string :=
  "{" +:+ nl +:+ "  " +:+ dquote +:+ "crates" +:+ dquote +:+ ": {" +:+ write_crates 0 per_crate +:+
  nl +:+ "  }," +:+ nl +:+ "  " +:+ dquote +:+ "total" +:+ dquote +:+ ": {" +:+ write_counts total "    " +:+
  nl +:+ "  }" +:+ nl +:+ "}" +:+ nl.

Definition set_count (k : string) (v : Z) (c : CrateCounts) : CrateCounts :=
  let f name old := if decide (k = name) then v else old in {|
    n_files := f "files" (n_files c);
    n_loc := f "loc" (n_loc c);
    unwrap_used := f "unwrap_used" (unwrap_used c);
    expect_used := f "expect_used" (expect_used c);
    panic_macro := f "panic_macro" (panic_macro c);
    todo_macro := f "todo_macro" (todo_macro c);
    unimplemented_macro := f "unimplemented_macro" (unimplemented_macro c);
    box_dyn_any := f "box_dyn_any" (box_dyn_any c);
    placeholder_marker := f "placeholder_marker" (placeholder_marker c);
    stub_comment := f "stub_comment" (stub_comment c);
    placeholder_comment := f "placeholder_comment" (placeholder_comment c);
    println_macro := f "println_macro" (println_macro c);
    eprintln_macro := f "eprintln_macro" (eprintln_macro c);
    dbg_macro := f "dbg_macro" (dbg_macro c)
  |}.
Definition parse_token (c : CrateCounts) (token : string) : option CrateCounts :=
  match split_once ":" (str_trim token) with
  | Some (k, v) =>
      v ← result_ok (parse_uint U64_MAX (str_trim v));
      Some (set_count (trim_matches quote_char (str_trim k)) v c)
  | None => Some c
  end.
Fixpoint parse_tokens (c : CrateCounts) (tokens : list string) : option CrateCounts :=
  match tokens with
  | [] => Some c
  | token :: rest => c ← parse_token c token; parse_tokens c rest
  end.
Definition crate_key (crate_name : string) : string := dquote +:+ crate_name +:+ dquote +:+ ":".
Definition parse_object (after : string) : option CrateCounts :=
  '(_, opened) ← split_once "{" after;
  '(body, _) ← split_once "}" opened;
  parse_tokens counts_default (split_on comma_char body).
Definition parse_json_crate (text crate_name : string) : option CrateCounts :=
  '(_, after) ← split_once (crate_key crate_name) text; parse_object after.

(** ** The report and the check *)

Definition pad_left (width : nat) (s : string) : string := concat_str (replicate (width - length (chars s)) " ") +:+ s.
Definition pad_right (width : nat) (s : string) : string := s +:+ concat_str (replicate (width - length (chars s)) " ").
Definition column_widths : list nat := [5; 6; 6; 6; 5; 4; 6; 7; 5; 6; 7; 7; 6; 4]%nat.
Definition table_row (name : string) (cells : list string) : string :=
  pad_right 32 name +:+ concat_str (zip_with (λ w cell, " " +:+ pad_left w cell) column_widths cells).
Definition print_audit_table (per_crate : PerCrate) (total : CrateCounts) : list string :=
  table_row "crate" ["files"; "LOC"; "unwrap"; "expect"; "panic"; "todo"; "unimpl"; "Box<Any"; "PHldr"; "stub//";
                     "phldr//"; "println"; "eprint"; "dbg"] ::
  ((λ '(name, c), table_row name (pretty ∘ snd <$> kvs c)) <$> per_crate) ++
  [table_row "TOTAL" (pretty ∘ snd <$> kvs total)].

Definition metrics : list (string * (CrateCounts → Z)) :=
  [("unwrap_used", unwrap_used); ("expect_used", expect_used); ("panic_macro", panic_macro); ("todo_macro", todo_macro);
   ("unimplemented_macro", unimplemented_macro); ("box_dyn_any", box_dyn_any); ("placeholder_marker", placeholder_marker);
   ("stub_comment", stub_comment); ("placeholder_comment", placeholder_comment); ("println_macro", println_macro);
   ("eprintln_macro", eprintln_macro); ("dbg_macro", dbg_macro)].
Definition check_metric (out : list string) (crate_name metric : string) (current baseline : Z) : list string :=
  if baseline <? current
  then out ++ [crate_name +:+ ": " +:+ metric +:+ " " +:+ pretty baseline +:+ " -> " +:+ pretty current +:+
               " (+" +:+ pretty (current - baseline) +:+ ")"]
  else out.
Definition check_crate (baseline_text : string) (out : list string) (x : string * CrateCounts) : list string :=
  let baseline := default counts_default (parse_json_crate baseline_text (fst x)) in
  foldl (λ out m, check_metric out (fst x) (fst m) (snd m (snd x)) (snd m baseline)) out metrics.
Definition regressions (per_crate : PerCrate) (baseline_text : string) : list string :=
  foldl (check_crate baseline_text) [] per_crate.

(** The flags: whether to check, and where to write. *)
Fixpoint audit_flags (args : list string) (check_mode : bool) (json_out : option string) :
  result string (bool * option string) :=
  match args with
  | [] => Ok (check_mode, json_out)
  | a :: rest =>
      if decide (a = "--") then audit_flags rest check_mode json_out
      else if decide (a = "--check") then audit_flags rest true json_out
      else if decide (a = "--json") then
        match rest with
        | path :: rest => audit_flags rest check_mode (Some path)
        | [] => Err "--json requires a path argument"
        end
      else Err ("unknown audit flag: " +:+ a)
  end.
Definition baseline_path : string := "docs/reports/audit-baseline.json".
(** The workspace: [crates/] when it is a directory, and the other files. *)
Record Workspace : Type := {
  ws_crates : option (result string (list Entry));
  ws_files : gmap string string
}.
Definition ws_write (path text : string) (w : Workspace) : Workspace :=
  {| ws_crates := ws_crates w; ws_files := <[path := text]> (ws_files w) |}.
(** The error of creating the parent directory or of the write, if any. *)
Variable write_error : string → option string.
Definition audit_check (per_crate : PerCrate) (w : Workspace) : list string * result string unit :=
  match ws_files w !! baseline_path with
  | None => ([], Err ("--check requires " +:+ baseline_path +:+ "; run `cargo xtask audit --json " +:+ baseline_path +:+ "` first"))
  | Some baseline_text =>
      match regressions per_crate baseline_text with
      | [] => ([nl +:+ "audit: no regressions vs " +:+ baseline_path], Ok ())
      | rs => ((nl +:+ "audit regressions vs baseline:") :: (String.append "  " <$> rs),
               Err (pretty (Z.of_nat (length rs)) +:+ " audit regression(s)"))
      end
  end.
(** The workspace after, the lines printed, and the outcome. *)
Definition audit_run (per_crate : PerCrate) (check_mode : bool) (json_out : option string) (w : Workspace) :
  Workspace * list string * result string unit :=
  let total := foldl counts_add counts_default (snd <$> per_crate) in
  let table := print_audit_table per_crate total in
  match match json_out with
        | Some path => match write_error path with
                       | Some e => Err e
                       | None => Ok (ws_write path (audit_json per_crate total) w, table ++ [nl +:+ "wrote " +:+ path])
                       end
        | None => Ok (w, table)
        end with
  | Err e => (w, table, Err e)
  | Ok (w, printed) =>
      if check_mode then let '(more, r) := audit_check per_crate w in (w, printed ++ more, r) else (w, printed, Ok ())
  end.
Definition audit (args : list string) (w : Workspace) : Workspace * list string * result string unit :=
  match (let? flags := audit_flags args false None in
         let? entries := match ws_crates w with
                         | None => Err "no crates/ directory found (cwd must be workspace root)"
                         | Some entries => entries
                         end in
         let? per_crate := audit_crates (collect_crate_dirs entries) in Ok (flags, per_crate)) with
  | Err e => (w, [], Err e)
  | Ok ((check_mode, json_out), per_crate) => audit_run per_crate check_mode json_out w
  end.
End scan.

Definition sample : CrateCounts := scan_file (λ _, true)
  ("fn f() {" +:+ nl +:+ "  x.unwrap();" +:+ nl +:+ "  eprintln!(1); println!(2);" +:+ nl +:+ "}" +:+ nl +:+
   "#[cfg(test)]" +:+ nl +:+ "mod tests {" +:+ nl +:+ " x.unwrap()" +:+ nl +:+ "}") counts_default.
Example sample_counts : snd <$> kvs sample = [1; 8; 1; 0; 0; 0; 0; 0; 0; 0; 0; 0; 1; 0].
Proof. vm_compute. reflexivity. Qed.
Example sample_json : parse_json_crate (audit_json [("a", sample); ("b", counts_default)] sample) "a" = Some sample.
Proof. vm_compute. reflexivity. Qed.

(** ** Reading back what was written *)

(** A search for [key] runs over the piece [p] whatever follows. *)
Definition skips (key p : string) : Prop :=
  ∀ s, split_once key (p +:+ s) = (λ '(a, b), (p +:+ a, b)) <$> split_once key s.
Lemma skips_app key p q : skips key p → skips key q → skips key (p +:+ q).
Proof. intros Hp Hq s. by rewrite string_app_assoc, Hp, Hq, before_fmap_compose. Qed.
Lemma skips_free c k p : free_of c p = true → skips (String c k) p.
Proof. intros H s. by apply split_once_skip. Qed.

(** A crate's name as it must be for its key to be unambiguous. *)
Definition name_ok (name : string) : bool :=
  free_of quote_char name && match name with EmptyString => false | String c _ => negb (is_char (ascii_of_N 58) c) end.
Lemma prefix_quoted a b s t :
  free_of quote_char a = true → free_of quote_char b = true →
  String.prefix (a +:+ String quote_char s) (b +:+ String quote_char t) = true → a = b.
Proof.
  unfold free_of. revert b. induction a as [|c a IH]; intros [|d b]; cbn [all_chars]; rewrite ?app_nil, ?app_cons;
    [done|intros _ H|intros H _|intros [_ Ha]%andb_true_iff [_ Hb]%andb_true_iff].
  - apply andb_true_iff in H as [H%negb_true_iff _]. rewrite prefix_head by done. done.
  - apply andb_true_iff in H as [H%negb_true_iff _]. rewrite prefix_head; [done|].
    destruct (is_char c quote_char) eqn:E; [|done]. apply is_char_spec in E as ->.
    by rewrite (proj2 (is_char_spec quote_char quote_char)) in H.
  - cbn. destruct (Ascii.ascii_dec c d) as [->|]; [|done]. intros H. by rewrite (IH b Ha Hb H).
Qed.
Lemma skips_key name k : name_ok name = true → free_of quote_char k = true → k ≠ name →
  skips (crate_key name) (dquote +:+ k +:+ dquote +:+ ":").
Proof.
  intros [Hn Hh]%andb_true_iff Hk Hne s. unfold crate_key, dquote in *.
  rewrite !app_cons, !app_nil, !string_app_assoc, !app_cons, !app_nil.
  assert (∀ t, String.prefix (String quote_char (name +:+ String quote_char ":")) (String quote_char (k +:+ String quote_char t)) = false) as Hp.
  { intros t. apply not_true_is_false. cbn [String.prefix]. destruct (Ascii.ascii_dec _ _); [|done].
    intros H. apply prefix_quoted in H; [by subst|done..]. }
  rewrite split_once_step by done. rewrite split_once_skip by done.
  rewrite split_once_step; [rewrite (split_once_skip quote_char _ ":" s) by done|].
  - destruct (split_once _ s) as [[a b]|]; [|done]. cbn.
    by rewrite !app_cons, string_app_assoc, !app_cons.
  - destruct name as [|c name]; [done|]. apply negb_true_iff in Hh. rewrite app_cons.
    cbn [String.prefix]. destruct (Ascii.ascii_dec quote_char quote_char); [|done].
    destruct (Ascii.ascii_dec c (ascii_of_N 58)) as [->|Hc]; [done|].
    change (String.prefix (String c (name +:+ String quote_char ":")) (":" +:+ s) = false).
    apply prefix_head. destruct (is_char c _) eqn:E; [|done]. by apply is_char_spec in E.
Qed.
(** The keys of the counts. *)
Definition key_ok (k : string) : bool :=
  free_of quote_char k && free_of (ascii_of_N 58) k && free_of comma_char k && free_of (ascii_of_N 125) k.
Lemma kvs_keys_ok c : Forall (λ kv, key_ok (fst kv) = true) (kvs c).
Proof. repeat constructor. Qed.
Lemma skips_kv name indent kv : name_ok name = true → all_chars is_blank indent = true → key_ok (fst kv) = true → fst kv ≠ name →
  0 ≤ snd kv → skips (crate_key name) (kv_text indent kv).
Proof.
  intros Hn Hi Hk Hne Hv. unfold kv_text. destruct kv as [k v]; cbn [fst snd] in *.
  assert (free_of quote_char indent = true) as Hiq.
  { revert Hi. apply all_chars_impl. intros c Hc. apply negb_true_iff. destruct (is_char quote_char c) eqn:E; [|done].
    by apply is_char_spec in E as <-. }
  unfold key_ok in Hk. rewrite !andb_true_iff in Hk. destruct Hk as [[[Hkq _] _] _].
  assert (nl +:+ indent +:+ dquote +:+ k +:+ dquote +:+ ": " +:+ pretty v =
    (nl +:+ indent) +:+ (dquote +:+ k +:+ dquote +:+ ":") +:+ (" " +:+ pretty v)) as -> by by rewrite !string_app_assoc.
  apply skips_app; [apply skips_free; rewrite free_of_app; by rewrite Hiq|].
  apply skips_app; [by apply skips_key|]. apply skips_free. rewrite free_of_app.
  apply digits_free; [done|by apply pretty_digits].
Qed.
Lemma separator_free c i : is_char c comma_char = false → free_of c (separator i) = true.
Proof. intros H. unfold separator. destruct (0 <? i)%nat; [|done]. change (negb (is_char c comma_char) && true = true). by rewrite H. Qed.
Lemma skips_kvs name indent l i : name_ok name = true → all_chars is_blank indent = true →
  Forall (λ kv, key_ok (fst kv) = true ∧ fst kv ≠ name ∧ 0 ≤ snd kv) l →
  skips (crate_key name) (write_kvs i indent l).
Proof.
  intros Hn Hi Hl. revert i. induction Hl as [|kv l (Hk & Hne & Hv) _ IH]; intros i; [by apply skips_free|].
  cbn [write_kvs]. apply skips_app; [apply skips_free; by apply separator_free|].
  apply skips_app; [by apply skips_kv|apply IH].
Qed.
Definition counts_u64 (c : CrateCounts) : Prop := Forall (λ kv, 0 ≤ snd kv ≤ U64_MAX) (kvs c).
Definition reserved : list string := "crates" :: (fst <$> kvs counts_default).
Lemma skips_crate name other c : name_ok name = true → name ∉ reserved → free_of quote_char other = true → other ≠ name →
  counts_u64 c → skips (crate_key name) (crate_text other c).
Proof.
  intros Hn Hr Ho Hne Hc. unfold crate_text.
  assert (∀ w, nl +:+ "    " +:+ dquote +:+ other +:+ dquote +:+ ": {" +:+ w =
    (nl +:+ "    ") +:+ (dquote +:+ other +:+ dquote +:+ ":") +:+ " {" +:+ w) as -> by (intros w; by rewrite !string_app_assoc).
  apply skips_app; [by apply skips_free|]. apply skips_app; [by apply skips_key|].
  apply skips_app; [by apply skips_free|]. apply skips_app; [|by apply skips_free].
  apply skips_kvs; [done..|]. apply Forall_forall. intros kv Hkv. unfold counts_u64 in Hc. rewrite Forall_forall in Hc.
  pose proof (kvs_keys_ok c) as Hk. rewrite Forall_forall in Hk. split_and!; [by apply Hk| |by apply Hc].
  intros Hx. apply Hr. right. rewrite <-Hx. change (fst <$> kvs counts_default) with (fst <$> kvs c).
  by apply list_elem_of_fmap_2.
Qed.
Lemma parse_kv c indent k v w : key_ok k = true → all_chars is_blank indent = true → all_chars is_blank w = true → 0 ≤ v ≤ U64_MAX →
  parse_token c (kv_text indent (k, v) +:+ w) = Some (set_count k v c).
Proof.
  intros Hk Hi Hw Hv. unfold key_ok in Hk. rewrite !andb_true_iff in Hk. destruct Hk as [[[Hq Hc] _] _].
  destruct (pretty_digits v ltac:(lia)) as [Hd Hne]. destruct (digits_solid _ Hd Hne) as [Hs He].
  set (core := dquote +:+ k +:+ dquote +:+ ":" +:+ " " +:+ pretty v).
  assert (kv_text indent (k, v) +:+ w = (nl +:+ indent) +:+ core +:+ w) as ->.
  { unfold kv_text, core. cbn [fst snd]. by rewrite !string_app_assoc. }
  unfold parse_token. rewrite trim_core; [|by rewrite all_chars_app|done| |done].
  2: { unfold core. repeat apply ends_solid_app. done. }
  assert (core = (dquote +:+ k +:+ dquote) +:+ String (ascii_of_N 58) (" " +:+ pretty v)) as ->.
  { unfold core. rewrite !string_app_assoc. done. }
  rewrite (split_once_first (ascii_of_N 58)) by (rewrite !free_of_app; by rewrite Hc).
  rewrite <-(string_app_nil_r (pretty v)), (trim_core " " (pretty v) "") by done.
  rewrite parse_uint_pretty by done. cbn [result_ok mbind option_bind].
  rewrite trim_solid; [|done|by repeat apply ends_solid_app].
  change (dquote +:+ k +:+ dquote) with (String quote_char (k +:+ String quote_char "")).
  by rewrite trim_matches_wrapped.
Qed.
Lemma kv_no_comma indent kv : key_ok (fst kv) = true → all_chars is_blank indent = true → 0 ≤ snd kv →
  ∀ c, c = comma_char ∨ c = ascii_of_N 125 → free_of c (kv_text indent kv) = true.
Proof.
  intros Hk Hi Hv c Hc. unfold key_ok in Hk. rewrite !andb_true_iff in Hk. destruct Hk as [[_ H1] H2].
  unfold kv_text. rewrite !free_of_app, !andb_true_iff.
  assert (free_of c indent = true) as Hci.
  { revert Hi. apply all_chars_impl. intros d Hd. apply negb_true_iff. destruct (is_char c d) eqn:E; [|done].
    apply is_char_spec in E as ->. by destruct Hc as [->| ->]. }
  assert (free_of c (pretty (snd kv)) = true) as Hp.
  { apply digits_free; [by destruct Hc as [->| ->]|by apply pretty_digits]. }
  by destruct Hc as [->| ->].
Qed.
(** The tokens of a written list set its counts in order. *)
Lemma parse_kvs c indent l w : all_chars is_blank indent = true → all_chars is_blank w = true → l ≠ [] →
  Forall (λ kv, key_ok (fst kv) = true ∧ 0 ≤ snd kv ≤ U64_MAX) l →
  parse_tokens c (split_on comma_char (write_kvs 0 indent l +:+ w)) = Some (foldl (λ c kv, set_count (fst kv) (snd kv) c) c l).
Proof.
  intros Hi Hw Hne Hl. destruct l as [|kv l]; [done|]. clear Hne. cbn [write_kvs]. change (separator 0) with "". rewrite app_nil.
  generalize 0%nat as i. revert c kv Hl. induction l as [|kv' l IH]; intros c kv Hl i.
  - apply Forall_singleton in Hl as [Hk Hv]. cbn [write_kvs]. rewrite string_app_nil_r, split_on_last.
    + cbn [parse_tokens foldl]. destruct kv as [k v]. by rewrite parse_kv.
    + rewrite free_of_app, (kv_no_comma _ _ Hk Hi) by (lia || by left). cbn [andb].
      revert Hw. apply all_chars_impl. intros d Hd. apply negb_true_iff. destruct (is_char comma_char d) eqn:E; [|done].
      by apply is_char_spec in E as <-.
  - apply Forall_cons in Hl as [[Hk Hv] Hl]. cbn [write_kvs].
    change (separator (S i)) with (String comma_char ""). rewrite !string_app_assoc, app_cons, app_nil.
    rewrite split_on_app by (apply kv_no_comma; [done..|lia|by left]). cbn [parse_tokens].
    destruct kv as [k v]. pose proof (parse_kv c indent k v "" Hk Hi eq_refl Hv) as Hp.
    rewrite string_app_nil_r in Hp. rewrite Hp. cbn [mbind option_bind].
    rewrite <-string_app_assoc. rewrite IH by done. done.
Qed.
Lemma set_counts c : foldl (λ c kv, set_count (fst kv) (snd kv) c) counts_default (kvs c) = c.
Proof. destruct c. reflexivity. Qed.
Lemma counts_closing indent c : all_chars is_blank indent = true → counts_u64 c → free_of (ascii_of_N 125) (write_counts c indent) = true.
Proof.
  intros Hi Hc. unfold write_counts. assert (Forall (λ kv, key_ok (fst kv) = true ∧ 0 ≤ snd kv) (kvs c)) as Hl.
  { apply Forall_and. split; [apply kvs_keys_ok|]. eapply Forall_impl; [exact Hc|]. cbn. lia. }
  generalize 0%nat as i. induction Hl as [|kv l [Hk Hv] _ IH]; intros i; [done|]. cbn [write_kvs].
  rewrite !free_of_app, separator_free, (kv_no_comma _ _ Hk Hi Hv), IH by (done || by right). done.
Qed.

(** The crates of a baseline: names that are keys of their own, counts of a [usize]. *)
Definition crate_ok (x : string * CrateCounts) : Prop :=
  name_ok (fst x) = true ∧ (fst x ∉ "total" :: reserved) ∧ counts_u64 (snd x).
Definition baseline_ok (m : PerCrate) : Prop := NoDup (fst <$> m) ∧ Forall crate_ok m.
Lemma skips_crates name i m : name_ok name = true → name ∉ reserved → Forall crate_ok m → name ∉ fst <$> m →
  skips (crate_key name) (write_crates i m).
Proof.
  intros Hn Hr Hm. revert i. induction Hm as [|[other c] m (Ho & _ & Hc) _ IH]; intros i Hin; [by apply skips_free|].
  cbn [write_crates]. rewrite fmap_cons, not_elem_of_cons in Hin. destruct Hin as [Hne Hin].
  apply andb_true_iff in Ho as [Ho _].
  apply skips_app; [apply skips_free; by apply separator_free|].
  apply skips_app; [by apply skips_crate|by apply IH].
Qed.
Lemma skips_header name : name_ok name = true → name ∉ reserved →
  skips (crate_key name) ("{" +:+ nl +:+ "  " +:+ dquote +:+ "crates" +:+ dquote +:+ ": {").
Proof.
  intros Hn Hr. assert ("{" +:+ nl +:+ "  " +:+ dquote +:+ "crates" +:+ dquote +:+ ": {" =
    ("{" +:+ nl +:+ "  ") +:+ (dquote +:+ "crates" +:+ dquote +:+ ":") +:+ " {") as -> by done.
  apply skips_app; [by apply skips_free|]. apply skips_app; [|by apply skips_free].
  apply skips_key; [done..|]. intros <-. apply Hr. by left.
Qed.
Lemma audit_json_pieces m total : audit_json m total =
  ("{" +:+ nl +:+ "  " +:+ dquote +:+ "crates" +:+ dquote +:+ ": {") +:+ write_crates 0 m +:+
  (nl +:+ "  }," +:+ nl +:+ "  ") +:+ (dquote +:+ "total" +:+ dquote +:+ ":") +:+ " {" +:+ write_counts total "    " +:+
  (nl +:+ "  }" +:+ nl +:+ "}" +:+ nl).
Proof. unfold audit_json. by rewrite !string_app_assoc. Qed.
Lemma write_crates_app i m1 x m2 : write_crates i (m1 ++ x :: m2) =
  write_crates i m1 +:+ separator (i + length m1) +:+ crate_text (fst x) (snd x) +:+ write_crates (S (i + length m1)) m2.
Proof.
  revert i. induction m1 as [|[name c] m1 IH]; intros i.
  - destruct x as [name c]. cbn [app write_crates length]. by rewrite Nat.add_0_r.
  - cbn [app write_crates length]. rewrite IH, !string_app_assoc. by rewrite Nat.add_succ_r.
Qed.
Lemma parse_object_text c rest : counts_u64 c →
  parse_object (" {" +:+ write_counts c "      " +:+ nl +:+ "    }" +:+ rest) = Some c.
Proof.
  intros Hc. unfold parse_object.
  assert (∀ w, " {" +:+ w = " " +:+ String (ascii_of_N 123) w) as -> by done.
  rewrite (split_once_first (ascii_of_N 123)) by done. cbn [mbind option_bind].
  assert (write_counts c "      " +:+ nl +:+ "    }" +:+ rest =
    (write_counts c "      " +:+ nl +:+ "    ") +:+ String (ascii_of_N 125) rest) as -> by by rewrite !string_app_assoc.
  rewrite (split_once_first (ascii_of_N 125)) by (rewrite free_of_app, counts_closing by done; done).
  cbn [mbind option_bind]. unfold write_counts. rewrite parse_kvs; [by rewrite set_counts|done..|].
  apply Forall_and. split; [apply kvs_keys_ok|exact Hc].
Qed.
Lemma skips_find key p s : skips key p → split_once key (p +:+ key +:+ s) = Some (p, s).
Proof. intros H. rewrite H, split_once_hit. cbn. by rewrite string_app_nil_r. Qed.
(** The counts of a crate in a baseline. *)
Definition counts_of (m : PerCrate) (name : string) : option CrateCounts :=
  snd <$> List.find (λ x, bool_decide (fst x = name)) m.
Lemma counts_of_split m name c : NoDup (fst <$> m) → counts_of m name = Some c ↔ ∃ m1 m2, m = m1 ++ (name, c) :: m2 ∧ name ∉ fst <$> m1.
Proof.
  unfold counts_of. induction m as [|[n d] m IH]; intros Hnd.
  { split; [done|]. intros (m1 & m2 & H & _). by destruct m1. }
  rewrite fmap_cons in Hnd. apply NoDup_cons in Hnd as [Hn Hnd]. cbn [List.find]. case_bool_decide as Heq; cbn in Heq.
  - subst n. cbn. split; [intros [= ->]; exists [], m; split; [done|apply not_elem_of_nil]|].
    intros (m1 & m2 & H & Hin). destruct m1 as [|x m1]; [by simplify_eq/=|]. exfalso. simplify_eq/=. apply Hin. by left.
  - rewrite (IH Hnd). split.
    + intros (m1 & m2 & -> & Hin). exists ((n, d) :: m1), m2. split; [done|]. rewrite fmap_cons, not_elem_of_cons. split; [|done].
      intros ->. by apply Heq.
    + intros (m1 & m2 & H & Hin). destruct m1 as [|x m1]; [by simplify_eq/=|]. simplify_eq/=. exists m1, m2. split; [done|].
      intros Hx. apply Hin. by right.
Qed.
Lemma counts_of_None m name : counts_of m name = None → name ∉ fst <$> m.
Proof.
  unfold counts_of. intros H Hin. apply list_elem_of_fmap in Hin as ([n c] & -> & Hin). cbn in H.
  destruct (List.find _ m) as [x|] eqn:E; [done|]. apply List.find_none with (x := (n, c)) in E; [|by apply list_elem_of_In].
  by apply bool_decide_eq_false in E.
Qed.
Lemma audit_roundtrip_gen (m : PerCrate) (total : CrateCounts) (name : string) :
  baseline_ok m → counts_u64 total → name_ok name = true → name ∉ "total" :: reserved →
  parse_json_crate (audit_json m total) name = counts_of m name.
Proof.
  intros [Hnd Hm] Ht Hn Hr0. pose proof Hr0 as [Htot Hr]%not_elem_of_cons.
  unfold parse_json_crate. rewrite audit_json_pieces.
  set (header := "{" +:+ nl +:+ "  " +:+ dquote +:+ "crates" +:+ dquote +:+ ": {").
  destruct (counts_of m name) as [c|] eqn:Hc.
  - apply counts_of_split in Hc as (m1 & m2 & -> & Hin); [|done].
    apply Forall_app in Hm as [Hm1 [(_ & _ & Hcc) _]%Forall_cons]. cbn [snd] in Hcc.
    rewrite write_crates_app. cbn [fst snd]. unfold crate_text. set (tail := _ +:+ _ +:+ " {" +:+ write_counts total _ +:+ _).
    set (pre := header +:+ write_crates 0 m1 +:+ separator (0 + length m1) +:+ nl +:+ "    ").
    assert (skips (crate_key name) pre) as Hpre.
    { unfold pre. apply skips_app; [by apply skips_header|]. apply skips_app; [by apply skips_crates|].
      apply skips_app; [apply skips_free; by apply separator_free|by apply skips_free]. }
    match goal with |- context [split_once _ ?t] =>
      assert (t = pre +:+ crate_key name +:+ " {" +:+ write_counts c "      " +:+ nl +:+ "    }" +:+
        write_crates (S (0 + length m1)) m2 +:+ tail) as ->
    end.
    { unfold pre, crate_key. rewrite !string_app_assoc. done. }
    rewrite skips_find by done. cbn [mbind option_bind]. by apply parse_object_text.
  - apply counts_of_None in Hc. set (text := header +:+ _).
    assert (skips (crate_key name) text) as Hs.
    { unfold text. apply skips_app; [by apply skips_header|]. apply skips_app; [by apply skips_crates|].
      apply skips_app; [by apply skips_free|]. apply skips_app; [by apply skips_key|].
      apply skips_app; [by apply skips_free|]. apply skips_app; [|by apply skips_free].
      apply skips_kvs; [done..|]. apply Forall_forall. intros kv Hkv. unfold counts_u64 in Ht. rewrite Forall_forall in Ht.
      pose proof (kvs_keys_ok total) as Hk. rewrite Forall_forall in Hk. split_and!; [by apply Hk| |by apply Ht].
      intros Hx. apply Hr. right. rewrite <-Hx. change (fst <$> kvs counts_default) with (fst <$> kvs total).
      by apply list_elem_of_fmap_2. }
    specialize (Hs ""). rewrite string_app_nil_r in Hs. by rewrite Hs.
Qed.

(** [C26] The baseline file is read as it was written: for any crates with distinct names that
    cannot be taken for another key, [parse_json_crate] of [audit_json] gives each crate the
    very counts that were written, wherever it is in the file, and finds nothing for a crate
    that was not there, so the check compares it with zeros. *)
Theorem audit_roundtrip (m : PerCrate) (total : CrateCounts) (name : string) :
  baseline_ok m → counts_u64 total → name_ok name = true → name ∉ "total" :: reserved →
  parse_json_crate (audit_json m total) name = counts_of m name.
Proof. apply audit_roundtrip_gen. Qed.

Definition demo_baseline : PerCrate := [("inference", sample); ("inference-cli", counts_default)].
Lemma demo_baseline_ok : baseline_ok demo_baseline ∧ counts_u64 sample.
Proof.
  split; [split; [apply (bool_decide_eq_true_1 _); vm_compute; reflexivity|]|].
  - repeat constructor; try (by vm_compute); try (apply (bool_decide_eq_true_1 _); vm_compute; reflexivity).
  - repeat constructor; by vm_compute.
Qed.
Lemma audit_roundtrip_witness :
  parse_json_crate (audit_json demo_baseline sample) "inference-cli" = Some counts_default ∧
  parse_json_crate (audit_json demo_baseline sample) "xtask" = None.
Proof.
  destruct demo_baseline_ok as [Hb Hs].
  split; (rewrite audit_roundtrip; [reflexivity|exact Hb|exact Hs|reflexivity|apply (bool_decide_eq_true_1 _); vm_compute; reflexivity]).
Defined.

(** ** What a scan depends on *)

Lemma counts_add_assoc a b c : counts_add (counts_add a b) c = counts_add a (counts_add b c).
Proof. unfold counts_add. cbn. f_equal; lia. Qed.
Lemma counts_add_comm a b : counts_add a b = counts_add b a.
Proof. unfold counts_add. f_equal; lia. Qed.
Lemma counts_add_0 c : counts_add counts_default c = c.
Proof. by destruct c. Qed.

Section walk.
Variable unicode_alphanumeric : string → bool.
Abbreviation scan := (scan_file unicode_alphanumeric).
Abbreviation walk := (walk_rs unicode_alphanumeric).
Definition add_counts (d : CrateCounts) (st : ScanState) : ScanState := {|
  in_test_module := in_test_module st; depth := depth st; test_depth_start := test_depth_start st;
  counts := counts_add d (counts st)
|}.
Lemma brace_step_add d st chs : foldl brace_step (add_counts d st) chs = add_counts d (foldl brace_step st chs).
Proof.
  revert st. induction chs as [|ch chs IH]; intros st; [done|]. cbn [foldl]. rewrite <-IH. f_equal.
  unfold brace_step. by destruct (decide (ch = "{")), (decide (ch = "}")).
Qed.
Lemma scan_line_add d st line :
  scan_line unicode_alphanumeric (add_counts d st) line = add_counts d (scan_line unicode_alphanumeric st line).
Proof.
  unfold scan_line. destruct (starts_with "#[cfg(test)]" _).
  - change {| in_test_module := true; depth := depth (add_counts d st); test_depth_start := depth (add_counts d st);
              counts := counts (add_counts d st) |}
      with (add_counts d {| in_test_module := true; depth := depth st; test_depth_start := depth st; counts := counts st |}).
    rewrite brace_step_add. unfold add_counts. cbn. by rewrite counts_add_assoc.
  - rewrite brace_step_add. unfold add_counts. cbn. by rewrite counts_add_assoc.
Qed.
(** A scan only adds: what it adds does not depend on the counts before. *)
Lemma scan_file_adds text c : scan text c = counts_add c (scan text counts_default).
Proof.
  unfold scan_file. rewrite counts_add_0.
  assert (∀ lines st, foldl (scan_line unicode_alphanumeric) (add_counts c st) lines =
    add_counts c (foldl (scan_line unicode_alphanumeric) st lines)) as H.
  { intros lines. induction lines as [|l lines IH]; intros st; [done|]. cbn [foldl]. by rewrite scan_line_add, IH. }
  exact (f_equal counts (H (str_lines text) {| in_test_module := false; depth := 0; test_depth_start := I32_MAX; counts := one_file |})).
Qed.
(** The readings of the Rust files of a tree, in the order of the walk. *)
Fixpoint rs_texts (e : Entry) : list (result string string) :=
  match e with
  | E_Dir _ (Some err) _ => [Err err]
  | E_Dir _ None entries => concat (rs_texts <$> entries)
  | E_File _ ext text => if decide (ext = Some "rs") then [text] else []
  end.
Fixpoint scan_all (texts : list (result string string)) (c : CrateCounts) : result string CrateCounts :=
  match texts with
  | [] => Ok c
  | t :: rest => let? text := t in scan_all rest (scan text c)
  end.
Lemma scan_all_app l1 l2 c : scan_all (l1 ++ l2) c = let? c := scan_all l1 c in scan_all l2 c.
Proof. revert c. induction l1 as [|[t|e] l1 IH]; intros c; [done| |done]. cbn. apply IH. Qed.
Lemma walk_scans e c : walk e c = scan_all (rs_texts e) c.
Proof.
  revert e c. fix IH 1. intros [name [err|] entries|name ext text] c.
  - done.
  - cbn [walk_rs rs_texts]. revert c. induction entries as [|e entries IHes]; intros c; [done|].
    cbn [fmap list_fmap concat]. rewrite scan_all_app, <-IH. destruct (walk e c) as [c'|err]; [|done]. apply IHes.
  - cbn. destruct (decide _); [|done]. by destruct text.
Qed.
Lemma scan_all_ok texts c : scan_all (Ok <$> texts) c = Ok (foldr (λ t c, counts_add c (scan t counts_default)) c (reverse texts)).
Proof.
  revert c. induction texts as [|t texts IH]; intros c; [done|]. cbn [fmap list_fmap scan_all].
  rewrite IH, reverse_cons, foldr_app. cbn. by rewrite <-scan_file_adds.
Qed.
(** The audit does not depend on how a crate is laid out: two trees with the same readable
    Rust files, whatever their directories and the order [read_dir] gives, get the same counts,
    the sum of the counts of their files, added to what was counted before. *)
Theorem audit_layout_independent (e1 e2 : Entry) (t1 t2 : list string) (c : CrateCounts) :
  rs_texts e1 = Ok <$> t1 → rs_texts e2 = Ok <$> t2 → t1 ≡ₚ t2 →
  walk e1 c = walk e2 c ∧
  walk e1 c = Ok (foldr (λ t c, counts_add c (scan t counts_default)) c t1).
Proof.
  intros H1 H2 Hp. rewrite !walk_scans, H1, H2, !scan_all_ok.
  assert (∀ a b : list string, a ≡ₚ b →
    foldr (λ t c, counts_add c (scan t counts_default)) c a = foldr (λ t c, counts_add c (scan t counts_default)) c b) as Hf.
  { intros a b Hab. apply (foldr_permutation (=) (λ t c, counts_add c (scan t counts_default)) c a b); [|done].
    intros j1 a1 j2 a2 b' _ _ _. by rewrite !counts_add_assoc, (counts_add_comm (scan a1 _)). }
  split; f_equal; apply Hf; by rewrite !reverse_Permutation || rewrite reverse_Permutation.
Qed.
End walk.
Lemma audit_layout_independent_witness :
  walk_rs (λ _, true) (E_Dir "src" None [E_File "a.rs" (Some "rs") (Ok "x.unwrap()"); E_Dir "m" None [E_File "b.rs" (Some "rs") (Ok "y")]]) counts_default =
  walk_rs (λ _, true) (E_Dir "src" None [E_File "b.rs" (Some "rs") (Ok "y"); E_File "notes.md" (Some "md") (Err "?"); E_File "a.rs" (Some "rs") (Ok "x.unwrap()")]) counts_default.
Proof.
  refine (proj1 (audit_layout_independent (λ _, true) _ _ ["x.unwrap()"; "y"] ["y"; "x.unwrap()"] _ _ _ _)); [reflexivity..|].
  apply Permutation_swap.
Defined.

(** ** The gate *)

Lemma foldl_grows {A} (f : list string → A → list string) l out :
  (∀ out x, f out x = out ++ f [] x) → foldl f out l = out ++ foldl f [] l.
Proof.
  intros Hf. revert out. induction l as [|x l IH]; intros out; [by rewrite app_nil_r|].
  cbn [foldl]. rewrite (IH (f out x)), (IH (f [] x)), (Hf out x). by rewrite app_assoc.
Qed.
Lemma foldl_nothing {A} (f : list string → A → list string) l :
  (∀ out x, f out x = out ++ f [] x) → foldl f [] l = [] ↔ Forall (λ x, f [] x = []) l.
Proof.
  intros Hf. induction l as [|x l IH]; [by split|]. cbn [foldl]. rewrite foldl_grows, Forall_cons by done.
  rewrite <-IH. split; [|by intros [-> ->]]. by intros [? ?]%app_eq_nil.
Qed.
Lemma check_metric_grows out name metric a b : check_metric out name metric a b = out ++ check_metric [] name metric a b.
Proof. unfold check_metric. destruct (b <? a); [done|by rewrite app_nil_r]. Qed.
(** No metric is above its baseline. *)
Definition no_worse (c baseline : CrateCounts) : Prop := Forall (λ m, snd m c ≤ snd m baseline) metrics.
Lemma check_crate_grows text out x : check_crate text out x = out ++ check_crate text [] x.
Proof. unfold check_crate. apply foldl_grows. intros. apply check_metric_grows. Qed.
Lemma check_crate_nothing text x :
  check_crate text [] x = [] ↔ no_worse (snd x) (default counts_default (parse_json_crate text (fst x))).
Proof.
  unfold check_crate, no_worse. rewrite foldl_nothing by (intros; apply check_metric_grows).
  apply Forall_iff. intros [metric f]. cbn. unfold check_metric.
  destruct (Z.ltb_spec (f (default counts_default (parse_json_crate text (fst x)))) (f (snd x))); split; (done || lia).
Qed.

Section gate.
Variable unicode_alphanumeric : string → bool.
Variable write_error : string → option string.
Abbreviation audit := (audit unicode_alphanumeric write_error).
Abbreviation audit_entries := (λ entries, audit_crates unicode_alphanumeric (collect_crate_dirs entries)).
(** [C25] The gate is exact.  After [audit --json] has written the baseline of a workspace, the
    next [audit --check], whatever has happened to the crates since, succeeds if and only if no
    metric of any crate it finds is above that crate's count at the time of the baseline, a
    crate that was not there then being allowed nothing; and the check changes no file.  (For
    crate names without a quote, not starting with a colon and none of the report's own words,
    distinct in the baseline; counts and totals of 64 bits; a baseline that can be written.) *)
Theorem audit_gate (w : Workspace) (before_ after : list Entry) (m m' : PerCrate) :
  ws_crates w = Some (Ok before_) → audit_entries before_ = Ok m → baseline_ok m →
  counts_u64 (foldl counts_add counts_default (snd <$> m)) →
  write_error baseline_path = None →
  audit_entries after = Ok m' → Forall crate_ok m' →
  let w1 := fst (fst (audit ["--json"; baseline_path] w)) in
  let w2 := {| ws_crates := Some (Ok after); ws_files := ws_files w1 |} in
  fst (fst (audit ["--check"] w2)) = w2 ∧
  (snd (audit ["--check"] w2) = Ok () ↔
   ∀ name c, (name, c) ∈ m' → no_worse c (default counts_default (counts_of m name))).
Proof.
  intros Hw Hm Hb Ht Hwr Hm' Hok w1.
  assert (ws_files w1 !! baseline_path = Some (audit_json m (foldl counts_add counts_default (snd <$> m)))) as Hf.
  { unfold w1, LintAudit.audit. change (audit_flags ["--json"; baseline_path] false None) with (Ok (false, Some baseline_path) : result string _).
    rewrite Hw, Hm. unfold audit_run. rewrite Hwr. cbn. by rewrite lookup_insert_eq. }
  generalize dependent w1. intros w1 Hf w2. unfold w2, LintAudit.audit.
  change (audit_flags ["--check"] false None) with (Ok (true, None) : result string (bool * option string)).
  cbn [ws_crates]. rewrite Hm'. unfold audit_run, audit_check. cbn [ws_files]. rewrite Hf.
  assert (regressions m' (audit_json m (foldl counts_add counts_default (snd <$> m))) = [] ↔
    ∀ name c, (name, c) ∈ m' → no_worse c (default counts_default (counts_of m name))) as Hreg.
  { unfold regressions. rewrite foldl_nothing by apply check_crate_grows. rewrite !Forall_forall in *. split.
    - intros H name c Hin. specialize (H _ Hin). apply check_crate_nothing in H. cbn in H.
      destruct (Hok _ Hin) as (Hn & Hr & _). destruct Hb as [Hnd Hms].
      by rewrite audit_roundtrip_gen in H.
    - intros H [name c] Hin. apply check_crate_nothing. cbn.
      destruct (Hok _ Hin) as (Hn & Hr & _). rewrite audit_roundtrip_gen by done. by apply H. }
  destruct (regressions m' _) as [|r rs]; (split; [done|]); cbn [snd].
  - split; [by intros _; apply Hreg|done].
  - split; [done|]. intros H. apply Hreg in H. done.
Qed.
End gate.
Definition demo_tree (text : string) : list Entry :=
  [E_Dir "inference" None [E_Dir "src" None [E_File "lib.rs" (Some "rs") (Ok text)]]; E_File "README.md" (Some "md") (Ok "")].
Definition demo_workspace : Workspace := {| ws_crates := Some (Ok (demo_tree "x.unwrap()")); ws_files := ∅ |}.
Definition demo_gate (after : string) : result string unit :=
  let w1 := fst (fst (audit (λ _, true) (λ _, None) ["--json"; baseline_path] demo_workspace)) in
  snd (audit (λ _, true) (λ _, None) ["--check"] {| ws_crates := Some (Ok (demo_tree after)); ws_files := ws_files w1 |}).
Lemma audit_gate_witness : demo_gate "y" = Ok () ∧ demo_gate ("x.unwrap()" +:+ nl +:+ "y.unwrap()") ≠ Ok ().
Proof.
  assert (∀ c, Forall (λ kv, 0 ≤ snd kv) (kvs c) → Forall (λ kv, snd kv <= 10) (kvs c) → counts_u64 c) as Hu.
  { intros c H0 H1. apply Forall_and. split; [exact H0|]. eapply Forall_impl; [exact H1|]. cbn. unfold U64_MAX. lia. }
  assert (∀ text c, audit_crates (λ _, true) (collect_crate_dirs (demo_tree text)) = Ok [("inference", c)] → counts_u64 c →
    demo_gate text = Ok () ↔ ∀ name d, (name, d) ∈ [("inference", c)] → no_worse d (default counts_default
      (counts_of [("inference", scan_file (λ _, true) "x.unwrap()" counts_default)] name))) as Hg.
  { intros text c Hc Hcu.
    refine (proj2 (audit_gate (λ _, true) (λ _, None) demo_workspace (demo_tree "x.unwrap()") (demo_tree text)
      [("inference", scan_file (λ _, true) "x.unwrap()" counts_default)] _ eq_refl _ _ _ eq_refl Hc _)).
    - vm_compute. reflexivity.
    - split; [apply (bool_decide_eq_true_1 _); vm_compute; reflexivity|]. apply Forall_singleton. split_and!;
        [reflexivity|apply (bool_decide_eq_true_1 _); vm_compute; reflexivity|apply Hu; repeat constructor; by vm_compute].
    - apply Hu; repeat constructor; by vm_compute.
    - apply Forall_singleton. split_and!; [reflexivity|apply (bool_decide_eq_true_1 _); vm_compute; reflexivity|exact Hcu]. }
  split.
  - apply (Hg "y" (scan_file (λ _, true) "y" counts_default)); [vm_compute; reflexivity|apply Hu; repeat constructor; by vm_compute|].
    intros name d Hin. apply list_elem_of_singleton in Hin as [= -> ->]. repeat constructor; by vm_compute.
  - set (text := "x.unwrap()" +:+ nl +:+ "y.unwrap()"). intros H.
    assert (audit_crates (λ _, true) (collect_crate_dirs (demo_tree text)) =
      Ok [("inference", scan_file (λ _, true) text counts_default)]) as Hc by (vm_compute; reflexivity).
    assert (counts_u64 (scan_file (λ _, true) text counts_default)) as Hcu by (apply Hu; repeat constructor; by vm_compute).
    pose proof (proj1 (Hg text _ Hc Hcu) H "inference" _ (list_elem_of_here _ _)) as Hn.
    apply Forall_cons in Hn as [Hn _]. vm_compute in Hn. by apply Hn.
Defined.

(** ** Where the scan miscounts *)

(** [#[cfg(test)]] before an item without braces of its own hides the code up to the end of the
    next block: here a function's [unwrap]. *)
Example cfg_test_use_hides_next_item :
  unwrap_used (scan_file (λ _, true)
    ("#[cfg(test)]" +:+ nl +:+ "use std::fmt;" +:+ nl +:+ "fn f() {" +:+ nl +:+ "  x.unwrap();" +:+ nl +:+ "}") counts_default) = 0.
Proof. vm_compute. reflexivity. Qed.
(** Only the first occurrence of a macro's name is looked at. *)
Lemma println_after_eprintln (alnum : string → bool) (a b : string) :
  free_of (ascii_of_N 112) a = true → contains_macro alnum (a +:+ "eprintln!" +:+ b) "println!" = false.
Proof.
  intros Ha. unfold contains_macro.
  assert (a +:+ "eprintln!" +:+ b = (a +:+ "e") +:+ "println!" +:+ b) as -> by by rewrite string_app_assoc.
  rewrite (split_once_skip (ascii_of_N 112) "rintln!") by (by rewrite free_of_app, Ha).
  rewrite split_once_hit. cbn. rewrite string_app_nil_r, chars_app by done. cbn. by rewrite last_snoc.
Qed.
