(* ===== verification/Xtask.v ===== *)
(** * Xtask: the developer commands

    Models the rest of [xtask/src/main.rs]: the command table, the [cargo] matrices, the release
    gates [verify] and [verify-audio], the version bump (semantic versions, the workspace
    version in [Cargo.toml], the pins of the internal dependencies) and the release checklist.
    [LintAudit] has the [audit] command.  Files are those of the workspace; spawning [cargo] is a
    parameter.  [None] is the overflow panic of [+= 1]. *)
From S2P Require Import Prelude Text StrFacts LintAudit.

(** ** Versions *)

Inductive BumpKind : Type := Patch | Minor | Major | Pre (id : string).
Definition checked_succ (x : Z) : option Z := if x <? U64_MAX then Some (x + 1) else None.
Definition format_version (major minor patch : Z) : string := pretty major +:+ "." +:+ pretty minor +:+ "." +:+ pretty patch.
Definition parse_part (context part : string) : result string Z := map_err (λ _, context) (parse_uint U64_MAX part).
Definition parse_core (current : string) : result string (Z * Z * Z) :=
  let core := match split_once "-" current with Some (c, _) => c | None => current end in
  match split_on dot_char core with
  | [major; minor; patch] =>
      let? major := parse_part "major" major in
      let? minor := parse_part "minor" minor in
      let? patch := parse_part "patch" patch in Ok (major, minor, patch)
  | _ => Err ("version `" +:+ current +:+ "` is not MAJOR.MINOR.PATCH")
  end.
Definition semver_bump (current : string) (kind : BumpKind) : option (result string string) :=
  match parse_core current with
  | Err e => Some (Err e)
  | Ok (major, minor, patch) =>
      match kind with
      | Patch => patch ← checked_succ patch; Some (Ok (format_version major minor patch))
      | Minor => minor ← checked_succ minor; Some (Ok (format_version major minor 0))
      | Major => major ← checked_succ major; Some (Ok (format_version major 0 0))
      | Pre id => Some (Ok (format_version major minor patch +:+ "-" +:+ id))
      end
  end.

(** ** The manifest *)

Definition package_header : string := "[workspace.package]".
Definition deps_header : string := "[workspace.dependencies]".
Definition table_start : string := String newline_char "[".
Definition up_to (sep s : string) : string := match split_once sep s with Some (a, _) => a | None => s end.
Fixpoint version_of_lines (lines : list string) : result string string :=
  match lines with
  | [] => Err "no version key in [workspace.package]"
  | line :: rest =>
      match strip_prefix "version" (str_trim_start line) with
      | Some r =>
          let after_eq := match split_once "=" r with Some (_, v) => str_trim v | None => "" end in
          Ok (trim_matches (ascii_of_N 39) (trim_matches quote_char after_eq))
      | None => version_of_lines rest
      end
  end.
Definition read_version (path text : string) : result string string :=
  match split_once package_header text with
  | None => Err ("no [workspace.package] block in " +:+ path)
  | Some (_, after) => version_of_lines (str_lines (up_to table_start (package_header +:+ after)))
  end.
Definition version_line (version : string) : string := "version       = " +:+ dquote +:+ version +:+ dquote.
(** What is left of the line found, from its end on. *)
Definition from_line_end (s : string) : string :=
  match split_once nl s with Some (_, b) => nl +:+ b | None => "" end.
Definition write_version (text version : string) : result string string :=
  match split_once package_header text with
  | None => Err "no [workspace.package] block"
  | Some (head, after) =>
      match split_once "version" (package_header +:+ after) with
      | None => Err "no version line"
      | Some (a, b) => Ok (head +:+ a +:+ version_line version +:+ from_line_end ("version" +:+ b))
      end
  end.
Definition pin (version : string) : string := "version = " +:+ dquote +:+ version +:+ dquote.
Definition internal_path : string := "path = " +:+ dquote +:+ "crates/".
Definition bump_line (prev next line : string) : string :=
  if contains internal_path line && contains (pin prev) line then str_replace (pin prev) (pin next) line else line.
Definition write_deps (text prev next : string) : string :=
  match split_once deps_header text with
  | None => text
  | Some (head, after) =>
      let '(block, tail_) := match split_once table_start after with
                             | Some (a, b) => (a +:+ nl, "[" +:+ b)
                             | None => (after, "")
                             end in
      head +:+ concat_str (bump_line prev next <$> split_inclusive (deps_header +:+ block)) +:+ tail_
  end.

(** ** Running commands *)

Inductive XEvent : Type :=
  | Printed (line : string)
  | Cargo (args : list string).

Section commands.
(** Running [cargo] with arguments: an error to spawn it, or the text of a status that is not
    success; and the output of [cargo tree]. *)
Variable spawn : list string → result string (option string).
Variable cargo_tree : list string → result string (result string string).
Variable write_error : string → option string.
Variable unicode_alphanumeric : string → bool.
Abbreviation Outcome := (Workspace * list XEvent * result string unit)%type.

Definition joined (args : list string) : string := join " " args.
Definition cargo (args : list string) : result string unit :=
  match spawn args with
  | Err _ => Err ("spawning `cargo " +:+ joined args +:+ "`")
  | Ok None => Ok ()
  | Ok (Some status) => Err ("`cargo " +:+ joined args +:+ "` failed: " +:+ status)
  end.
(** In order, up to the first failure. *)
Fixpoint cargo_all (steps : list (list string)) : list XEvent * result string unit :=
  match steps with
  | [] => ([], Ok ())
  | args :: rest =>
      match cargo args with
      | Err e => ([Cargo args], Err e)
      | Ok _ => let '(ev, r) := cargo_all rest in (Cargo args :: ev, r)
      end
  end.
Definition build_matrix : list (list string) :=
  [["build"; "--workspace"]; ["build"; "-p"; "atomr-infer"; "--features"; "remote-only"];
   ["build"; "-p"; "atomr-infer"; "--features"; "candle,openai,anthropic,pipeline"]].
Definition test_matrix : list (list string) := [["test"; "--workspace"]; ["test"; "-p"; "inference-remote-core"]].
Definition remote_only_build : list (list string) :=
  [["build"; "-p"; "inference-cli"; "--no-default-features"; "--features"; "remote-only"]].

Fixpoint labelled_steps (steps : list (string * list string)) : list XEvent * result string unit :=
  match steps with
  | [] => ([], Ok ())
  | (label, args) :: rest =>
      let ev := [Printed ("==> " +:+ label); Cargo args] in
      match spawn args with
      | Err _ => (ev, Err ("spawning `" +:+ label +:+ "`"))
      | Ok (Some status) => (ev, Err (label +:+ " failed: " +:+ status))
      | Ok None => let '(more, r) := labelled_steps rest in (ev ++ more, r)
      end
  end.
Definition verify_steps : list (string * list string) :=
  [("cargo build --workspace", ["build"; "--workspace"]);
   ("cargo test --workspace --quiet", ["test"; "--workspace"; "--quiet"]);
   ("cargo clippy --workspace --all-targets -- -D warnings",
    ["clippy"; "--workspace"; "--all-targets"; "--"; "-D"; "warnings"]);
   ("cargo build -p atomr-infer --no-default-features --features remote-only",
    ["build"; "-p"; "atomr-infer"; "--no-default-features"; "--features"; "remote-only"])].
Definition verify_audio_steps : list (string * list string) :=
  [("cargo build -p atomr-infer --features audio-all", ["build"; "-p"; "atomr-infer"; "--features"; "audio-all"]);
   ("cargo test -p atomr-infer-core", ["test"; "-p"; "atomr-infer-core"]);
   ("cargo test -p atomr-infer-testkit --test audio_dispatch",
    ["test"; "-p"; "atomr-infer-testkit"; "--test"; "audio_dispatch"]);
   ("cargo build -p atomr-infer --features audio2face", ["build"; "-p"; "atomr-infer"; "--features"; "audio2face"])].
Definition tree_args : list string := ["tree"; "-p"; "atomr-infer"; "--no-default-features"; "--features"; "remote-only"].
Definition is_leak (line : string) : bool :=
  contains "cudarc" line || contains "atomr-accel" line || contains "candle" line || contains "pyo3" line.
(** The last gate: no GPU crate in the dependency tree of the remote-only build. *)
Definition check_tree : list XEvent * result string unit :=
  match cargo_tree tree_args with
  | Err _ => ([Cargo tree_args], Err "spawning cargo tree")
  | Ok (Err stderr) => ([Cargo tree_args], Err ("cargo tree failed: " +:+ stderr))
  | Ok (Ok tree) =>
      match filter (λ l, is_leak l = true) (str_lines tree) with
      | [] => ([Cargo tree_args; Printed (nl +:+ "verify: OK")], Ok ())
      | leaks => (Cargo tree_args :: Printed (nl +:+ "remote-only invariant violated — GPU deps in dep graph:") ::
                    ((λ l, Printed ("  " +:+ l)) <$> leaks),
                  Err ("remote-only build leaked " +:+ pretty (Z.of_nat (length leaks)) +:+ " GPU dep line(s)"))
      end
  end.
Definition verify (w : Workspace) : Outcome :=
  match labelled_steps verify_steps with
  | (ev, Err e) => (w, ev, Err e)
  | (ev, Ok _) =>
      let ev := ev ++ [Printed "==> cargo xtask audit --check"] in
      match audit unicode_alphanumeric write_error ["--check"] w with
      | (w, lines, Err e) => (w, ev ++ (Printed <$> lines), Err e)
      | (w, lines, Ok _) =>
          let '(more, r) := check_tree in
          (w, ev ++ (Printed <$> lines) ++
              Printed "==> remote-only invariant: cargo tree | grep -Ec 'cudarc|atomr-accel|candle|pyo3' == 0" :: more, r)
      end
  end.
Definition verify_audio (w : Workspace) : Outcome :=
  match labelled_steps verify_audio_steps with
  | (ev, Err e) => (w, ev, Err e)
  | (ev, Ok _) => (w, ev ++ [Printed (nl +:+ "verify-audio: OK")], Ok ())
  end.

(** ** The bump *)

Definition cargo_toml : string := "Cargo.toml".
Definition read_to_string (path : string) (w : Workspace) : result string string :=
  match ws_files w !! path with Some text => Ok text | None => Err "No such file or directory (os error 2)" end.
Definition fs_write (path text : string) (w : Workspace) : result string Workspace :=
  match write_error path with Some e => Err e | None => Ok (ws_write path text w) end.
Definition read_workspace_version (path : string) (w : Workspace) : result string string :=
  let? text := read_to_string path w in read_version path text.
Definition write_workspace_version (path version : string) (w : Workspace) : result string Workspace :=
  let? text := read_to_string path w in
  let? out := write_version text version in fs_write path out w.
Definition write_workspace_deps_versions (path prev next : string) (w : Workspace) : result string Workspace :=
  let? text := read_to_string path w in
  if contains deps_header text then fs_write path (write_deps text prev next) w else Ok w.
Definition next_version (args : list string) (current : string) : option (result string string) :=
  match args with
  | [] => Some (Err "usage: bump <patch|minor|major> | bump --pre <id> | bump --set <version>")
  | arg :: rest =>
      if decide (arg = "patch") then semver_bump current Patch
      else if decide (arg = "minor") then semver_bump current Minor
      else if decide (arg = "major") then semver_bump current Major
      else if decide (arg = "--pre") then
        match rest with id :: _ => semver_bump current (Pre id) | [] => Some (Err "--pre requires <id>") end
      else if decide (arg = "--set") then
        Some match rest with version :: _ => Ok version | [] => Err "--set requires <version>" end
      else Some (Err ("unknown bump arg: " +:+ arg))
  end.
Definition update_args : list string := ["update"; "--workspace"].
(** The status of [cargo update] is ignored. *)
Definition bump (args : list string) (w : Workspace) : option Outcome :=
  match args, read_workspace_version cargo_toml w with
  | [], _ => Some (w, [], Err "usage: bump <patch|minor|major> | bump --pre <id> | bump --set <version>")
  | _, Err e => Some (w, [], Err e)
  | _, Ok current =>
      next ← next_version args current;
      Some match next with
           | Err e => (w, [], Err e)
           | Ok next =>
               let ev := [Printed (current +:+ " -> " +:+ next)] in
               match write_workspace_version cargo_toml next w with
               | Err e => (w, ev, Err e)
               | Ok w =>
                   match write_workspace_deps_versions cargo_toml current next w with
                   | Err e => (w, ev, Err e)
                   | Ok w => (w, ev ++ [Cargo update_args; Printed ("ATOMR_INFER_NEW_VERSION=" +:+ next)], Ok ())
                   end
               end
           end
  end.

(** ** Release checklist, dispatch *)

Definition publishable_now : list string :=
  ["inference-core"; "inference-remote-core"; "inference-runtime"; "inference-runtime-openai"; "inference-runtime-anthropic";
   "inference-runtime-gemini"; "inference-runtime-litellm"; "inference-python-bridge"; "inference-runtime-vllm";
   "inference-runtime-tensorrt"; "inference-runtime-ort"; "inference-runtime-candle"; "inference-runtime-cudarc";
   "inference-runtime-mistralrs"; "inference-pipeline"; "inference-testkit"; "inference-cli"; "atomr-infer"].
Definition gated_until_upstream : list (string * string) := [].
Definition release_checklist (w : Workspace) : Outcome :=
  match read_workspace_version cargo_toml w with
  | Err e => (w, [], Err e)
  | Ok current =>
      (w, Printed <$>
          (["atomr-infer release checklist (workspace version: " +:+ current +:+ ")" +:+ nl;
            "Publishable now (" +:+ pretty (Z.of_nat (length publishable_now)) +:+ "):"] ++
           (String.append "  - " <$> publishable_now) ++
           [""; "Gated until upstream publishes (" +:+ pretty (Z.of_nat (length gated_until_upstream)) +:+ "):"] ++
           ((λ '(c, reason), "  - " +:+ c +:+ "  — " +:+ reason) <$> gated_until_upstream) ++
           [""; join nl
              ["release.yml uses ATOMR_INFER_PUBLISH_ALLOWLIST (repo var) to control the";
               "publish set. Default = the 'publishable now' list above. Once `atomr` and";
               "`atomr-accel` ship to crates.io, set ATOMR_INFER_PUBLISH_ALLOWLIST=" +:+ dquote +:+ dquote +:+ " to";
               "publish the full workspace in dep order."]]), Ok ())
  end.
Definition print_help : list string :=
  ["atomr-infer xtask"; ""; "USAGE:"; "  cargo xtask <subcommand>"; ""; "SUBCOMMANDS:";
   "  build               cargo build across the documented feature matrix";
   "  test                cargo test across the documented feature matrix";
   "  remote-only         build inference-cli with no GPU/Python deps";
   "  verify              1.0-rc gate (build + test + clippy + audit + remote-only)";
   "  verify-audio        cargo test --workspace --features audio-all (fakes only)";
   "  audit [--check] [--json <out>]"; "                      count anti-pattern sentinels per crate";
   "  bump <patch|minor|major|--pre <id>|--set <ver>>";
   "                      bump workspace version + internal pins, refresh Cargo.lock";
   "  release-checklist   list publishable vs gated crates"; "  help                print this help"].
Definition xtask_main (args : list string) (w : Workspace) : option Outcome :=
  let run steps := let '(ev, r) := cargo_all steps in Some (w, ev, r) in
  let cmd := default "help" (head args) in
  let rest := tail args in
  if decide (cmd = "build") then run build_matrix
  else if decide (cmd = "test") then run test_matrix
  else if decide (cmd = "remote-only") then run remote_only_build
  else if decide (cmd = "verify") then Some (verify w)
  else if decide (cmd = "verify-audio") then Some (verify_audio w)
  else if decide (cmd = "audit") then
    let '(w, lines, r) := audit unicode_alphanumeric write_error rest w in Some (w, Printed <$> lines, r)
  else if decide (cmd = "bump") then bump rest w
  else if decide (cmd = "release-checklist") then Some (release_checklist w)
  else if bool_decide (cmd = "help") || bool_decide (cmd = "-h") || bool_decide (cmd = "--help")
    then Some (w, Printed <$> print_help, Ok ())
  else Some (w, [], Err ("unknown xtask subcommand: " +:+ cmd)).
End commands.

Definition demo_manifest : string :=
  join nl ["[workspace]"; "[workspace.package]"; "version       = " +:+ dquote +:+ "0.9.0" +:+ dquote; "edition = " +:+ dquote +:+ "2021" +:+ dquote; "";
           "[workspace.dependencies]"; "tokio = { version = " +:+ dquote +:+ "0.9.0" +:+ dquote +:+ " }";
           "core = { path = " +:+ dquote +:+ "crates/inference-core" +:+ dquote +:+ ", " +:+ pin "0.9.0" +:+ " }"; "[profile]"].
Example demo_read : read_version cargo_toml demo_manifest = Ok "0.9.0". Proof. vm_compute. reflexivity. Qed.
Example demo_bump : (v ← result_ok (write_version demo_manifest "1.0.0"); Some (read_version cargo_toml (write_deps v "0.9.0" "1.0.0"))) = Some (Ok "1.0.0").
Proof. vm_compute. reflexivity. Qed.
Example demo_deps : str_lines (write_deps demo_manifest "0.9.0" "1.0.0") !! 7%nat =
  Some ("core = { path = " +:+ dquote +:+ "crates/inference-core" +:+ dquote +:+ ", " +:+ pin "1.0.0" +:+ " }").
Proof. vm_compute. reflexivity. Qed.
Example demo_semver : semver_bump "0.9.3-rc1" Minor = Some (Ok "0.10.0"). Proof. vm_compute. reflexivity. Qed.

(** ** Versions: what a bump gives *)

Lemma parse_part_pretty context n : 0 ≤ n ≤ U64_MAX → parse_part context (pretty n) = Ok n.
Proof. intros H. unfold parse_part. by rewrite parse_uint_pretty. Qed.
Lemma parse_core_format a b c s : 0 ≤ a ≤ U64_MAX → 0 ≤ b ≤ U64_MAX → 0 ≤ c ≤ U64_MAX → s = "" ∨ (∃ id, s = "-" +:+ id) →
  parse_core (format_version a b c +:+ s) = Ok (a, b, c).
Proof.
  intros Ha Hb Hc Hs. destruct (pretty_digits a ltac:(lia)) as [Da _], (pretty_digits b ltac:(lia)) as [Db _], (pretty_digits c ltac:(lia)) as [Dc _].
  assert (free_of (ascii_of_N 45) (format_version a b c) = true) as Hm.
  { unfold format_version. rewrite !free_of_app.
    by rewrite (digits_free _ (pretty a)), (digits_free _ (pretty b)), (digits_free _ (pretty c)). }
  unfold parse_core. assert (match split_once "-" (format_version a b c +:+ s) with Some (x, _) => x | None => format_version a b c +:+ s end =
    format_version a b c) as ->.
  { destruct Hs as [->|[id ->]].
    - rewrite string_app_nil_r. by rewrite (split_once_miss (ascii_of_N 45)).
    - change ("-" +:+ id) with (String (ascii_of_N 45) id). by rewrite (split_once_first (ascii_of_N 45)). }
  unfold format_version. assert (∀ x, "." +:+ x = String dot_char x) as -> by done.
  assert (∀ x, "." +:+ x = String dot_char x) as -> by done.
  rewrite !split_on_app, split_on_last by (by apply digits_free).
  by rewrite !parse_part_pretty.
Qed.
Lemma parse_uint_range max s n : 0 ≤ max → parse_uint max s = Ok n → 0 ≤ n ≤ max.
Proof.
  intros H0. assert (∀ s acc, 0 ≤ acc ≤ max → ∀ n, parse_uint_digits max acc s = Ok n → 0 ≤ n ≤ max) as Hd.
  { clear s n. intros s. induction s as [|c s IH]; intros acc Ha n; cbn [parse_uint_digits]; [by intros [= <-]|].
    destruct (Z.leb_spec 48 (Z.of_N (N_of_ascii c))), (Z.leb_spec (Z.of_N (N_of_ascii c)) 57); try done. cbn [andb].
    destruct (Z.leb_spec (acc * 10 + (Z.of_N (N_of_ascii c) - 48)) max); [|done]. apply IH. lia. }
  unfold parse_uint. destruct s as [|c [|d s]]; [done|apply Hd; lia|]. destruct (_ =? _)%N; apply Hd; lia.
Qed.
Lemma parse_core_range v a b c : parse_core v = Ok (a, b, c) → 0 ≤ a ≤ U64_MAX ∧ 0 ≤ b ≤ U64_MAX ∧ 0 ≤ c ≤ U64_MAX.
Proof.
  unfold parse_core. destruct (split_on _ _) as [|x [|y [|z [|]]]]; try done. unfold parse_part.
  destruct (parse_uint U64_MAX x) as [x'|] eqn:Hx, (parse_uint U64_MAX y) as [y'|] eqn:Hy, (parse_uint U64_MAX z) as [z'|] eqn:Hz; try done.
  cbn. intros [= <- <- <-]. assert (0 ≤ U64_MAX) as H0 by (unfold U64_MAX; lia).
  by pose proof (parse_uint_range _ _ _ H0 Hx); pose proof (parse_uint_range _ _ _ H0 Hy); pose proof (parse_uint_range _ _ _ H0 Hz).
Qed.
Definition version_lt (v w : Z * Z * Z) : Prop :=
  let '(a, b, c) := v in let '(a', b', c') := w in a < a' ∨ (a = a' ∧ (b < b' ∨ (b = b' ∧ c < c'))).
(** A bump is a step of the version order: on a version of three numbers it raises the
    chosen part by one, clears the parts after it, drops a pre-release, and the text it prints
    reads back as just that triple, later than the one before; [--pre] keeps the triple and
    appends its identifier.  Any other text is an error, and the overflow of the chosen part is
    the only panic. *)
Theorem semver_bump_spec (current : string) (kind : BumpKind) :
  match parse_core current with
  | Err e => semver_bump current kind = Some (Err e)
  | Ok (a, b, c) =>
      let part := match kind with Patch => c | Minor => b | Major => a | Pre _ => 0 end in
      let next := match kind with Patch => (a, b, c + 1) | Minor => (a, b + 1, 0) | Major => (a + 1, 0, 0) | Pre _ => (a, b, c) end in
      (semver_bump current kind = None ↔ part = U64_MAX) ∧
      (part ≠ U64_MAX → ∃ text, semver_bump current kind = Some (Ok text) ∧ parse_core text = Ok next ∧
         match kind with
         | Pre id => text = format_version a b c +:+ "-" +:+ id
         | _ => version_lt (a, b, c) next ∧ let '(x, y, z) := next in text = format_version x y z
         end)
  end.
Proof.
  destruct (parse_core current) as [[[a b] c]|e] eqn:Hp; unfold semver_bump; rewrite Hp; [|done].
  destruct (parse_core_range _ _ _ _ Hp) as (Ha & Hb & Hc).
  assert (∀ x y z, 0 ≤ x ≤ U64_MAX → 0 ≤ y ≤ U64_MAX → 0 ≤ z ≤ U64_MAX → parse_core (format_version x y z) = Ok (x, y, z)) as Hf.
  { intros x y z Hx Hy Hz. rewrite <-(string_app_nil_r (format_version x y z)). apply parse_core_format; auto. }
  unfold checked_succ. destruct kind as [| | |id]; cbv zeta.
  1-3: match goal with |- context [?x <? U64_MAX] => destruct (Z.ltb_spec x U64_MAX) end; cbn [mbind option_bind];
    (split; [split; intros ?; (done || lia || (exfalso; lia))|]); intros Hne; [|exfalso; lia]; eexists; (split; [done|]);
    (split; [apply Hf; unfold U64_MAX in *; lia|]); (split; [cbn; lia|done]).
  split; [done|]. intros _. eexists. split; [done|]. split; [|done]. apply parse_core_format; try done. right. by eexists.
Qed.

(** ** The manifest: a version written is the version read *)

(** Whether the text ends in the blanks that start a line. *)
Definition at_line_start (a : string) : bool :=
  match last (split_on newline_char a) with Some w => all_chars is_blank w | None => false end.
(** A manifest as the tool expects it: in the package table the first occurrence of [version]
    starts a line after the header's, and the dependency table comes after. *)
Definition manifest_ok (text : string) : bool :=
  match split_once package_header text with
  | None => false
  | Some (p, after) =>
      match split_once table_start (package_header +:+ after) with
      | None => false
      | Some (block, _) =>
          negb (contains deps_header (p +:+ block)) &&
          match split_once "version" block with
          | None => false
          | Some (a, _) => starts_with package_header a && contains nl a && at_line_start a
          end
      end
  end.
Definition version_ok (v : string) : bool :=
  free_of quote_char v && free_of (ascii_of_N 39) v && free_of (ascii_of_N 91) v && free_of newline_char v.
Example demo_manifest_ok : manifest_ok demo_manifest = true. Proof. vm_compute. reflexivity. Qed.

Lemma from_line_end_app s t : from_line_end (s +:+ table_start +:+ t) = from_line_end s +:+ table_start +:+ t.
Proof.
  unfold from_line_end. destruct (split_once nl s) as [[a b]|] eqn:E.
  - pose proof (split_once_app _ _ _ _ E) as ->. rewrite !string_app_assoc.
    rewrite (split_once_stable nl _ _ _ (b +:+ table_start +:+ t) E). done.
  - assert (free_of newline_char s = true) as Hf by by apply split_once_none.
    change (table_start +:+ t) with (String newline_char ("[" +:+ t)). by rewrite (split_once_first newline_char).
Qed.
Lemma version_skips l r : Forall (λ x, strip_prefix "version" (str_trim_start x) = None) l →
  version_of_lines (l ++ r) = version_of_lines r.
Proof. intros H. induction H as [|x l Hx _ IH]; [done|]. cbn [app version_of_lines]. by rewrite Hx. Qed.
Lemma version_line_read w v rest : all_chars is_blank w = true → version_ok v = true →
  version_of_lines ((w +:+ version_line v) :: rest) = Ok v.
Proof.
  intros Hw Hv. unfold version_ok in Hv. rewrite !andb_true_iff in Hv. destruct Hv as [[[Hq Ha] _] _].
  cbn [version_of_lines]. rewrite trim_start_core by done. unfold version_line.
  change (strip_prefix "version" _) with (Some ("       = " +:+ dquote +:+ v +:+ dquote)).
  cbv iota beta. assert ("       = " +:+ dquote +:+ v +:+ dquote = "       " +:+ String (ascii_of_N 61) (" " +:+ dquote +:+ v +:+ dquote)) as -> by done.
  rewrite (split_once_first (ascii_of_N 61)) by done.
  assert (str_trim (" " +:+ dquote +:+ v +:+ dquote) = dquote +:+ v +:+ dquote) as ->.
  { pose proof (trim_core " " (dquote +:+ v +:+ dquote) "" eq_refl eq_refl) as H. rewrite string_app_nil_r in H.
    apply H; [|done]. by repeat apply ends_solid_app. }
  change (dquote +:+ v +:+ dquote) with (String quote_char (v +:+ String quote_char "")).
  by rewrite trim_matches_wrapped, trim_matches_free.
Qed.
Lemma read_version_pieces path p block c : split_once package_header (p +:+ block +:+ table_start +:+ c) = Some (p, drop_bytes (String.length package_header) (block +:+ table_start +:+ c)) →
  contains table_start block = false → String.prefix package_header block = true →
  read_version path (p +:+ block +:+ table_start +:+ c) = version_of_lines (str_lines block).
Proof.
  intros Hs Hb [b ->]%prefix_inv. unfold read_version. rewrite Hs. rewrite string_app_assoc, drop_bytes_app.
  unfold up_to. rewrite <-string_app_assoc. unfold table_start in *. by rewrite pair_fresh.
Qed.
(** The lines of a block around the version's. *)
Lemma block_version a w v y : contains "version" a = false → all_chars is_blank w = true → free_of newline_char w = true →
  version_ok v = true → y = "" ∨ (∃ y', y = nl +:+ y') →
  version_of_lines (str_lines (a +:+ nl +:+ w +:+ version_line v +:+ y)) = Ok v.
Proof.
  intros Ha Hw Hfw Hv Hy. unfold str_lines.
  assert (a +:+ nl +:+ w +:+ version_line v +:+ y = a +:+ String newline_char (w +:+ version_line v +:+ y)) as -> by done.
  rewrite split_on_glue. assert (free_of newline_char (w +:+ version_line v) = true) as Hfree.
  { unfold version_ok in Hv. rewrite !andb_true_iff in Hv. destruct Hv as [_ Hn].
    unfold version_line. rewrite !free_of_app. by rewrite Hfw, Hn. }
  assert (∃ l, split_on newline_char (w +:+ version_line v +:+ y) = (w +:+ version_line v) :: l) as [l ->].
  { rewrite <-string_app_assoc. destruct Hy as [->|[y' ->]].
    - rewrite string_app_nil_r, split_on_last by done. by eexists.
    - unfold nl. rewrite app_cons, app_nil, split_on_app by done. by eexists. }
  rewrite lines_of_app, version_skips.
  - destruct l as [|x l]; cbn [lines_of].
    + destruct (is_empty_str _) eqn:E; [|by apply version_line_read]. exfalso. by destruct w.
    + assert (strip_cr (w +:+ version_line v) = w +:+ version_line v) as ->; [|by apply version_line_read].
      unfold version_line. rewrite <-!string_app_assoc. by apply strip_cr_keeps.
  - apply Forall_fmap, Forall_forall. intros x Hx.
    exact (proj1 (line_prefix "version" a Ha x Hx)).
Qed.
(** The line of a key and what follows it. *)
Lemma version_written b : ∃ line y, b = line +:+ y ∧ free_of newline_char line = true ∧
  (y = "" ∨ ∃ y', y = nl +:+ y') ∧ from_line_end ("version" +:+ b) = y.
Proof.
  unfold from_line_end, nl. rewrite (split_once_skip newline_char) by done.
  destruct (split_once (String newline_char "") b) as [[l r]|] eqn:E.
  - exists l, (String newline_char r). pose proof (split_once_app _ _ _ _ E) as ->. rewrite app_cons, app_nil.
    split_and!; [done| |right; by exists r|done].
    apply (contains_before (String newline_char "")) in E; [|done]. clear -E. unfold free_of.
    induction l as [|c l IH]; [done|]. cbn [contains] in E. apply orb_false_iff in E as [Hp Hl].
    cbn [all_chars]. rewrite single_prefix in Hp. by rewrite Hp, IH.
  - exists b, "". rewrite string_app_nil_r. split_and!; [done|by apply split_once_none|by left|done].
Qed.
(** The block with its new version: what a search finds in it. *)
Section block.
Variables (p a b line y c : string) (version : string).
Hypothesis Hv : version_ok version = true.
Hypothesis Hb : b = line +:+ y.
Hypothesis Hy : y = "" ∨ ∃ y', y = nl +:+ y'.
Hypothesis Htab : contains table_start (a +:+ "version" +:+ b) = false.
Hypothesis Hdep : contains deps_header (p +:+ a +:+ "version" +:+ b) = false.
Let block1 : string := a +:+ version_line version +:+ y.
Lemma version_line_free : free_of newline_char (version_line version) = true ∧ free_of (ascii_of_N 91) (version_line version) = true.
Proof.
  unfold version_ok in Hv. rewrite !andb_true_iff in Hv. destruct Hv as [[[_ _] Hbr] Hn].
  unfold version_line. rewrite !free_of_app. by rewrite Hbr, Hn.
Qed.
Lemma block1_no_table : contains table_start block1 = false.
Proof.
  unfold block1, table_start in *.
  assert (version_line version +:+ y = String (ascii_of_N 118) ("ersion       = " +:+ dquote +:+ version +:+ dquote +:+ y)) as E
    by (unfold version_line; by rewrite !string_app_assoc).
  rewrite E, (pair_join newline_char) by done. rewrite <-E. apply orb_false_iff. split.
  - by apply contains_head_false in Htab.
  - rewrite contains_skip by apply version_line_free.
    rewrite Hb in Htab. by do 3 apply contains_tail_false in Htab.
Qed.
Lemma block1_no_deps : contains deps_header (p +:+ block1) = false.
Proof.
  unfold block1.
  assert (p +:+ a +:+ version_line version +:+ y = (p +:+ a) +:+ String (ascii_of_N 118) ("ersion       = " +:+ dquote +:+ version +:+ dquote +:+ y)) as E
    by (unfold version_line; by rewrite !string_app_assoc).
  rewrite E, (contains_join_free deps_header) by done.
  assert (p +:+ a +:+ "version" +:+ b = (p +:+ a) +:+ String (ascii_of_N 118) ("ersion" +:+ b)) as E2 by by rewrite string_app_assoc.
  rewrite E2, (contains_join_free deps_header) in Hdep by done. apply orb_false_iff in Hdep as [Hd1 Hd2].
  rewrite Hd1. cbn [orb]. destruct version_line_free as [_ Hf]. unfold version_line in Hf. rewrite !free_of_app in Hf.
  assert ("ersion       = " +:+ dquote +:+ version +:+ dquote +:+ y = ("ersion       = " +:+ dquote +:+ version +:+ dquote) +:+ y) as ->
    by by rewrite !string_app_assoc.
  change deps_header with (String (ascii_of_N 91) "workspace.dependencies]") in *. rewrite contains_skip.
  - rewrite Hb in Hd2. by do 2 apply contains_tail_false in Hd2.
  - rewrite !free_of_app. rewrite !andb_true_iff in Hf. by destruct Hf as (_ & -> & -> & _).
Qed.
End block.
Lemma last_line_start a : contains nl a = true → at_line_start a = true →
  ∃ a0 w, a = a0 +:+ nl +:+ w ∧ all_chars is_blank w = true ∧ free_of newline_char w = true.
Proof.
  intros Hc Hl. unfold at_line_start in Hl. destruct (last (split_on newline_char a)) as [w|] eqn:Hw; [|done].
  destruct (last_piece newline_char a w Hw) as (a0 & -> & Hf); [|by exists a0, w].
  apply not_true_is_false. intros Hf. rewrite contains_split in Hc. apply bool_decide_eq_true in Hc as [x Hx].
  unfold nl in Hx. by rewrite split_once_miss in Hx.
Qed.
(** Rewriting the pins leaves everything up to the start of the next table. *)
Lemma write_deps_tail prev next x c : contains deps_header x = false →
  ∃ c', write_deps (x +:+ table_start +:+ c) prev next = x +:+ table_start +:+ c'.
Proof.
  intros Hx. unfold write_deps. assert (x +:+ table_start +:+ c = x +:+ String newline_char ("[" +:+ c)) as -> by done.
  destruct (split_once deps_header _) as [[h t]|] eqn:E; [|by exists c].
  apply split_once_beyond in E as (h' & -> & E); [|done..].
  destruct (match split_once table_start t with Some (a, b) => (a +:+ nl, "[" +:+ b) | None => (t, "") end) as [block tail_].
  rewrite string_app_assoc, app_cons. destruct h' as [|d h'].
  - assert (∃ z, concat_str (bump_line prev next <$> split_inclusive (deps_header +:+ block)) = "[" +:+ z) as [z ->].
    { change (deps_header +:+ block) with (String (ascii_of_N 91) ("workspace.dependencies]" +:+ block)).
      destruct (split_inclusive_head (ascii_of_N 91) ("workspace.dependencies]" +:+ block)) as (q & qs & ->); [done|].
      cbn [fmap list_fmap]. unfold bump_line at 1. destruct (_ && _).
      - destruct (replace_head (ascii_of_N 91) (ascii_of_N 118) ("ersion = " +:+ dquote +:+ prev +:+ dquote) (pin next) q) as [q' Hq]; [done|].
        change (String (ascii_of_N 118) _) with (pin prev) in Hq. rewrite Hq. by eexists.
      - by eexists. }
    exists (z +:+ tail_). done.
  - assert (d = ascii_of_N 91) as ->.
    { apply split_once_app in E. by injection E. }
    eexists. done.
Qed.
(** The version the tool writes is the version it reads, and nothing else of the manifest
    moves: on a manifest of the expected shape, writing a version (of any characters but quotes,
    brackets and line feeds) succeeds; the new text is the old with one line replaced by
    [version       = "v"] from where [version] stood; and reading it, also after the pins of the
    dependency table were rewritten, gives exactly that version. *)
Theorem version_roundtrip (path text version prev : string) :
  manifest_ok text = true → version_ok version = true →
  ∃ a line rest text', write_version text version = Ok text' ∧
    text = a +:+ "version" +:+ line +:+ rest ∧ free_of newline_char line = true ∧
    text' = a +:+ version_line version +:+ rest ∧
    read_version path text' = Ok version ∧
    read_version path (write_deps text' prev version) = Ok version.
Proof.
  intros Hm Hv. unfold manifest_ok in Hm.
  destruct (split_once package_header text) as [[p after]|] eqn:Hp; [|done].
  destruct (split_once table_start (package_header +:+ after)) as [[block c]|] eqn:Ht; [|done].
  apply andb_true_iff in Hm as [Hd%negb_true_iff Hm].
  destruct (split_once "version" block) as [[a b]|] eqn:Hb; [|done]. rewrite !andb_true_iff in Hm. destruct Hm as [[Hpre Hnl] Hls].
  pose proof (split_once_app _ _ _ _ Hp) as Etext. pose proof (split_once_app _ _ _ _ Ht) as Eblock.
  pose proof (split_once_app _ _ _ _ Hb) as Eb. pose proof (contains_before table_start _ _ _ ltac:(done) Ht) as Htab.
  destruct (version_written b) as (line & y & Hline & Hfree & Hy & Hend). rewrite Eb in Htab, Hd.
  set (block1 := a +:+ version_line version +:+ y).
  pose proof (block1_no_table a b line y version Hv Hline Htab) as Htab1. fold block1 in Htab1.
  pose proof (block1_no_deps p a b line y version Hv Hline Hd) as Hdep1. fold block1 in Hdep1.
  assert (write_version text version = Ok (p +:+ block1 +:+ table_start +:+ c)) as Hw.
  { unfold write_version. rewrite Hp, Eblock.
    pose proof (split_once_stable _ _ _ _ (b +:+ table_start +:+ c) Hb) as Hs.
    rewrite Eb, !string_app_assoc, Hs. f_equal. unfold block1.
    rewrite <-(string_app_assoc "version" b), from_line_end_app, Hend. by rewrite !string_app_assoc. }
  assert (∀ c', read_version path (p +:+ block1 +:+ table_start +:+ c') = Ok version) as Hr.
  { intros c'. rewrite read_version_pieces; [| |done|by apply prefix_mono].
    - destruct (prefix_inv _ _ Hpre) as [a1 Ha1].
      apply last_line_start in Hls as (a0 & w & -> & Hw0 & Hw1); [|done].
      apply contains_before in Hb; [|done]. apply contains_head_false in Hb.
      unfold block1. rewrite !string_app_assoc. by apply block_version.
    - destruct (prefix_inv _ _ Hpre) as [a1 Ha1]. unfold block1. rewrite Ha1, !string_app_assoc, drop_bytes_app.
      by apply (split_once_stable _ _ _ _ _ Hp). }
  exists (p +:+ a), line, (y +:+ table_start +:+ c), (p +:+ block1 +:+ table_start +:+ c).
  split_and!; [done| |done| |done|].
  - rewrite Etext, Eblock, Eb, Hline. by rewrite !string_app_assoc.
  - unfold block1. by rewrite !string_app_assoc.
  - destruct (write_deps_tail prev version (p +:+ block1) c Hdep1) as [c' Hc'].
    rewrite !string_app_assoc in Hc'. by rewrite Hc'.
Qed.
Lemma version_roundtrip_witness :
  ∃ text', write_version demo_manifest "1.0.0-rc.1" = Ok text' ∧
    read_version cargo_toml (write_deps text' "0.9.0" "1.0.0-rc.1") = Ok "1.0.0-rc.1".
Proof.
  destruct (version_roundtrip cargo_toml demo_manifest "1.0.0-rc.1" "0.9.0") as (a & line & rest & text' & Hw & _ & _ & _ & _ & Hr);
    [vm_compute; reflexivity..|]. by exists text'.
Defined.
(** With [rust-version] first in the table, the bump overwrites that line instead and leaves the
    version as it was. *)
Definition rust_version_first : string :=
  join nl ["[workspace.package]"; "rust-version = " +:+ dquote +:+ "1.78" +:+ dquote; "version = " +:+ dquote +:+ "0.9.0" +:+ dquote; ""; "[profile]"].
Example bump_clobbers_rust_version :
  write_version rust_version_first "1.0.0" =
    Ok (join nl ["[workspace.package]"; "rust-" +:+ version_line "1.0.0"; "version = " +:+ dquote +:+ "0.9.0" +:+ dquote; ""; "[profile]"]) ∧
  (v ← result_ok (write_version rust_version_first "1.0.0"); result_ok (read_version cargo_toml v)) = Some "0.9.0".
Proof. split; vm_compute; reflexivity. Qed.

(** ** The release gate *)

Section gates.
Context (spawn : list string → result string (option string)) (cargo_tree : list string → result string (result string string))
  (write_error : string → option string) (unicode_alphanumeric : string → bool).
Lemma labelled_steps_ok steps ev : labelled_steps spawn steps = (ev, Ok ()) →
  Forall (λ s, spawn (snd s) = Ok None) steps ∧ ev = concat ((λ '(label, args), [Printed ("==> " +:+ label); Cargo args]) <$> steps).
Proof.
  revert ev. induction steps as [|[label args] steps IH]; intros ev; cbn [labelled_steps]; [by intros [= <-]|].
  destruct (spawn args) as [[st|]|] eqn:Hs; try done. destruct (labelled_steps spawn steps) as [more r] eqn:E.
  intros [= <- ->]. destruct (IH _ eq_refl) as [Hf ->]. split; [by constructor|done].
Qed.
(** A release passes [verify] only if each cargo step succeeded, in order, the audit found no
    regression and the tree of the remote-only build names no GPU crate. *)
Lemma verify_gate w w' ev : verify spawn cargo_tree write_error unicode_alphanumeric w = (w', ev, Ok ()) →
  w' = w ∧ Forall (λ s, spawn (snd s) = Ok None) verify_steps ∧
  snd (audit unicode_alphanumeric write_error ["--check"] w) = Ok () ∧
  ∃ tree, cargo_tree tree_args = Ok (Ok tree) ∧ Forall (λ l, is_leak l = false) (str_lines tree).
Proof.
  unfold verify. destruct (labelled_steps spawn verify_steps) as [ev0 [u|e]] eqn:Hl; [|done].
  destruct u. destruct (labelled_steps_ok _ _ Hl) as [Hf _].
  destruct (audit _ _ _ w) as [[w1 lines] [u|e]] eqn:Ha; [|done].
  assert (w1 = w) as ->.
  { unfold audit in Ha. change (audit_flags ["--check"] false None) with (Ok (true, None) : result string (bool * option string)) in Ha.
    destruct (ws_crates w) as [[entries|]|]; [|by simplify_eq..].
    destruct (audit_crates _ _) as [m|]; [|by simplify_eq]. unfold audit_run in Ha.
    destruct (audit_check m w). by simplify_eq. }
  destruct (check_tree cargo_tree) as [more r] eqn:Ht. intros [= <- _ ->]. split_and!; [done|done|by destruct u|].
  unfold check_tree in Ht. destruct (cargo_tree tree_args) as [[tree|]|]; [|done..]. exists tree. split; [done|].
  destruct (filter _ _) as [|x l] eqn:Hfl; [|done]. apply Forall_forall. intros x Hx.
  apply not_true_is_false. intros Hleak. assert (x ∈ filter (λ l, is_leak l = true) (str_lines tree)) as Hin by by apply list_elem_of_filter.
  rewrite Hfl in Hin. by apply elem_of_nil in Hin.
Qed.
End gates.
