(* ===== verification/Deployment.v ===== *)
(** * Deployments and default runtime selection

    Models [inference-core/src/deployment.rs] (the value object, its policies
    and defaults, [effective_runtime], [validate]) and
    [inference-core/src/registry.rs] ([infer_runtime]). *)
From Stdlib Require Import SpecFloat.
From S2P Require Import Prelude F64 Runtime.

(** ** Policies (deployment.rs) *)

Inductive CapacityPolicy : Type := Cap_Reject | Cap_Queue | Cap_Fallback.
#[global] Instance CapacityPolicy_eq_dec : EqDecision CapacityPolicy.
Proof. solve_decision. Defined.

Record Serving : Type := { max_concurrent : Z; on_capacity_exhausted : CapacityPolicy }.
Definition Serving_default : Serving :=
  {| max_concurrent := 32; on_capacity_exhausted := Cap_Queue |}.

Record Replica : Type := {
  r_deployment : string;
  r_replica_index : Z;
  r_node : option string;
  r_gpu_indices : list Z
}.

Record RateLimits : Type := {
  requests_per_minute : option Z;
  tokens_per_minute : option Z;
  concurrent_requests : option Z;
  strict : bool
}.
Definition RateLimits_default : RateLimits := {|
  requests_per_minute := None; tokens_per_minute := None; concurrent_requests := None; strict := false
|}.

Record RetryPolicy : Type := {
  max_retries : Z;
  initial_backoff : Duration;
  max_backoff : Duration;
  backoff_multiplier : f64;
  jitter : JitterKind;
  respect_retry_after : bool
}.
Definition RetryPolicy_default : RetryPolicy := {|
  max_retries := 3;
  initial_backoff := from_millis 1000;
  max_backoff := from_millis 60000;
  backoff_multiplier := f64_of_Z 2;
  jitter := Jitter_Equal;
  respect_retry_after := true
|}.

Record Timeouts : Type := { request_timeout : Duration; read_timeout : Duration }.
Definition Timeouts_default : Timeouts :=
  {| request_timeout := from_millis 30000; read_timeout := from_millis 10000 |}.

Inductive BudgetAction : Type := BA_Reject | BA_Warn | BA_Throttle.
Record Budget : Type := {
  max_spend_per_hour_usd : option f64;
  max_spend_per_day_usd : option f64;
  on_exceeded : BudgetAction
}.

Inductive DeploymentValidationError : Type :=
  | EmptyName
  | EmptyModel
  | ZeroReplicas
  | RateLimitTooHigh (msg : string).
Definition validation_error_to_string (e : DeploymentValidationError) : string :=
  match e with
  | EmptyName => "deployment name must not be empty"
  | EmptyModel => "deployment model must not be empty"
  | ZeroReplicas => "deployment must have at least one replica"
  | RateLimitTooHigh m => "rate limits exceed known provider tier: " +:+ m
  end.

(** ** Default runtime selection (registry.rs) *)

Definition matches_any (model : string) (prefixes : list string) : bool :=
  existsb (λ p, starts_with p model) prefixes.

Definition openai_prefixes : list string :=
  ["gpt-4"; "gpt-4o"; "gpt-4-turbo"; "gpt-3.5"; "o1-"; "o3-"; "chatgpt-"].

Definition infer_runtime (model : string) : RuntimeKind :=
  let m := to_ascii_lowercase model in
  if matches_any m openai_prefixes then RK_OpenAi
  else if starts_with "claude-" m || starts_with "anthropic/" m then RK_Anthropic
  else if starts_with "gemini-" m || starts_with "google/gemini" m then RK_Gemini
  else if contains "via-litellm" m || starts_with "litellm/" m then RK_LiteLlm
  else if contains "mistral" m then RK_MistralRs
  else RK_Vllm.

(** ** The value object (deployment.rs) *)

Section deployment.
Context {Json : Type}.

Record Deployment : Type := {
  d_name : string;
  d_model : string;
  d_runtime : option RuntimeKind;
  d_runtime_config : option (RuntimeConfig Json);
  d_gpus : option Z;
  d_replicas : Z;
  d_serving : Serving;
  d_budget : option Budget;
  d_idempotent : bool
}.

Definition effective_runtime (d : Deployment) : RuntimeKind :=
  match d_runtime d with
  | Some k => k
  | None =>
      match d_runtime_config d with
      | Some c => runtime_kind c
      | None => infer_runtime (d_model d)
      end
  end.

Definition validate (d : Deployment) : result DeploymentValidationError unit :=
  if is_empty_str (d_name d) then Err EmptyName
  else if is_empty_str (d_model d) then Err EmptyModel
  else if d_replicas d =? 0 then Err ZeroReplicas
  else Ok ().

Lemma validate_ok d :
  validate d = Ok () ↔ d_name d ≠ "" ∧ d_model d ≠ "" ∧ d_replicas d ≠ 0.
Proof.
  unfold validate.
  destruct (d_name d), (d_model d); simpl; try naive_solver.
  destruct (Z.eqb_spec (d_replicas d) 0); naive_solver.
Qed.
End deployment.
Arguments Deployment Json : clear implicits.

(** ** Lemmas on model names *)

Lemma ascii_lower_idemp c : ascii_lower (ascii_lower c) = ascii_lower c.
Proof. destruct c as [[] [] [] [] [] [] [] []]; vm_compute; reflexivity. Qed.
Lemma to_ascii_lowercase_idemp s :
  to_ascii_lowercase (to_ascii_lowercase s) = to_ascii_lowercase s.
Proof. induction s as [|c s IH]; simpl; [done|]. by rewrite ascii_lower_idemp, IH. Qed.

Lemma infer_runtime_case s : infer_runtime (to_ascii_lowercase s) = infer_runtime s.
Proof. unfold infer_runtime. by rewrite to_ascii_lowercase_idemp. Qed.

(** [infer_runtime] never answers a kind whose transport is unknown. *)
Lemma infer_runtime_transport m :
  transport_of_runtime (infer_runtime m) ≠ TK_UnknownTransport ∧
  is_audio (infer_runtime m) = false.
Proof. unfold infer_runtime. by repeat case_match. Qed.

(** The model name decides the default runtime in the documented precedence
    (remote families first, then LiteLLM, then Mistral, vLLM otherwise),
    insensitively to ASCII case; the answer is one of six kinds, each of which
    placement can host. *)
Theorem infer_runtime_spec (m : string) :
  let l := to_ascii_lowercase m in
  let openai := matches_any l openai_prefixes in
  let anthropic := starts_with "claude-" l || starts_with "anthropic/" l in
  let gemini := starts_with "gemini-" l || starts_with "google/gemini" l in
  let litellm := contains "via-litellm" l || starts_with "litellm/" l in
  (infer_runtime m = RK_OpenAi ↔ openai = true) ∧
  (infer_runtime m = RK_Anthropic ↔ openai = false ∧ anthropic = true) ∧
  (infer_runtime m = RK_Gemini ↔ openai = false ∧ anthropic = false ∧ gemini = true) ∧
  (infer_runtime m = RK_LiteLlm ↔
     openai = false ∧ anthropic = false ∧ gemini = false ∧ litellm = true) ∧
  (is_local (infer_runtime m) = true ↔
     openai = false ∧ anthropic = false ∧ gemini = false ∧ litellm = false) ∧
  infer_runtime (to_ascii_lowercase m) = infer_runtime m ∧
  transport_of_runtime (infer_runtime m) ≠ TK_UnknownTransport.
Proof.
  intros l openai anthropic gemini litellm.
  split_and!; [..|apply infer_runtime_case|apply infer_runtime_transport];
    unfold infer_runtime; fold l; fold openai anthropic gemini litellm;
    destruct openai, anthropic, gemini, litellm, (contains "mistral" l); simpl; naive_solver.
Qed.
