(* ===== verification/Audio.v ===== *)
(** * Audio types and their base64 wire form

    Models [inference-core/src/audio.rs]: formats and parameters with their
    validity tests, payloads, options, batches, chunks, realtime messages, and
    the two serde adapters ([bytes_b64] with its own base64 codec, and
    [weights_52]).  URLs and channel ends come from other crates: their types are
    parameters.  Bytes are integers in [0, 255]. *)
From Stdlib Require Import SpecFloat.
From S2P Require Import Prelude F64 Runtime Tokens.

Abbreviation Bytes := (list Z) (only parsing).

Inductive AudioFormat : Type :=
  | AF_Pcm16Le | AF_Pcm24Le | AF_PcmF32Le | AF_OggOpus | AF_Mp3 | AF_Flac | AF_Wav.
#[global] Instance AudioFormat_eq_dec : EqDecision AudioFormat.
Proof. solve_decision. Defined.

(** [<AudioFormat as Debug>]. *)
Definition debug_AudioFormat (f : AudioFormat) : string :=
  match f with
  | AF_Pcm16Le => "Pcm16Le" | AF_Pcm24Le => "Pcm24Le" | AF_PcmF32Le => "PcmF32Le"
  | AF_OggOpus => "OggOpus" | AF_Mp3 => "Mp3" | AF_Flac => "Flac" | AF_Wav => "Wav"
  end.
Definition is_pcm (f : AudioFormat) : bool :=
  match f with AF_Pcm16Le | AF_Pcm24Le | AF_PcmF32Le => true | _ => false end.
Definition requires_decode (f : AudioFormat) : bool :=
  negb (is_pcm f) && negb (bool_decide (f = AF_Wav)).

Record AudioParams : Type := { sample_rate_hz : Z; channels : Z; format : AudioFormat }.
#[global] Instance AudioParams_eq_dec : EqDecision AudioParams.
Proof. solve_decision. Defined.
Definition params_is_valid (p : AudioParams) : bool :=
  ((8000 <=? sample_rate_hz p) && (sample_rate_hz p <=? 96000)) &&
  ((1 <=? channels p) && (channels p <=? 8)).

Record WordTiming : Type := {
  wt_text : string; wt_start_ms : Z; wt_end_ms : Z; wt_confidence : option f32
}.
(** A NaN confidence is not in the range. *)
Definition word_is_valid (w : WordTiming) : bool :=
  (wt_start_ms w <=? wt_end_ms w) &&
  match wt_confidence w with
  | None => true
  | Some c => SFleb (S754_zero false) c && SFleb c (S754_finite false 8388608 (-23))
  end.

Record Viseme : Type := { v_id : Z; v_start_ms : Z; v_end_ms : Z; v_weight : f32 }.
Record AlignmentDelta : Type := { al_words : list WordTiming; al_visemes : list Viseme }.
Definition AlignmentDelta_default : AlignmentDelta := {| al_words := []; al_visemes := [] |}.

(** ** Options *)

Record TranscribeOptions : Type := {
  to_language : option string;
  interim_results : bool;
  word_timestamps : bool;
  diarize : bool;
  to_prompt : option string;
  to_temperature : option f32
}.
Definition TranscribeOptions_default : TranscribeOptions := {|
  to_language := None; interim_results := false; word_timestamps := false; diarize := false;
  to_prompt := None; to_temperature := None
|}.
Record SynthOptions : Type := {
  so_speed : option f32;
  so_pitch_semitones : option f32;
  so_sample_rate_hz : option Z;
  so_format : option AudioFormat;
  so_emotion : option string;
  so_language : option string
}.
Definition SynthOptions_default : SynthOptions := {|
  so_speed := None; so_pitch_semitones := None; so_sample_rate_hz := None; so_format := None;
  so_emotion := None; so_language := None
|}.
Record A2FOptions : Type := {
  a2f_fps : option Z; a2f_emotion : option string;
  a2f_smoothing_ms : option Z; a2f_strength : option f32
}.
Inductive AudioOptions : Type :=
  | AO_Transcribe (o : TranscribeOptions)
  | AO_Audio2Face (o : A2FOptions).

(** ** Payloads, batches, chunks *)

Section audio.
Context {Url Receiver Sender : Type}.

Inductive AudioPayload : Type :=
  | AP_Bytes (data : Bytes) (params : AudioParams)
  | AP_Path (path : string) (params : AudioParams)
  | AP_Url (url : Url) (params : AudioParams).
Definition payload_params (p : AudioPayload) : AudioParams :=
  match p with AP_Bytes _ q | AP_Path _ q | AP_Url _ q => q end.

Inductive AudioInput : Type :=
  | AI_Static (p : AudioPayload)
  | AI_Stream (params : AudioParams) (rx : Receiver).
Definition input_params (i : AudioInput) : AudioParams :=
  match i with AI_Static p => payload_params p | AI_Stream q _ => q end.

Inductive VoiceRef : Type :=
  | VR_Named (name : string) | VR_Id (id : string) | VR_ClonedFrom (p : AudioPayload).

Record AudioBatch : Type := {
  ab_request_id : string; ab_model : string; ab_input : AudioInput; ab_stream : bool;
  ab_options : AudioOptions; ab_estimated_units : Z
}.
Record SpeechBatch : Type := {
  sb_request_id : string; sb_model : string; sb_text : string; sb_voice : VoiceRef;
  sb_options : SynthOptions; sb_stream : bool; sb_emit_alignment : bool;
  sb_estimated_characters : Z
}.
Record RealtimeBatch : Type := {
  rb_request_id : string; rb_model : string; rb_voice : VoiceRef; rb_options : SynthOptions;
  rb_inbound : Receiver; rb_outbound : Sender
}.

Record TranscriptChunk : Type := {
  tc_request_id : string; tc_is_final : bool; tc_text : string;
  tc_start_ms : Z; tc_end_ms : Z; tc_speaker_id : option string;
  tc_words : list WordTiming; tc_usage : option CostEstimate
}.
Record SpeechChunk : Type := {
  sc_request_id : string; sc_is_final : bool; sc_audio_pcm_chunk : Bytes;
  sc_params : AudioParams; sc_alignment : option AlignmentDelta; sc_usage : option CostEstimate
}.
Record BlendshapeChunk : Type := {
  bc_request_id : string; bc_is_final : bool; bc_timestamp_ms : Z; bc_weights : list f32
}.

Inductive RealtimeIn : Type :=
  | RI_AudioFrame (pcm : Bytes) (params : AudioParams)
  | RI_Text (t : string) | RI_Commit | RI_Interrupt | RI_Close.
Inductive TranscriptRole : Type := TR_User | TR_Assistant.
Inductive RealtimeOut : Type :=
  | RO_AudioFrame (pcm : Bytes) (params : AudioParams)
  | RO_Transcript (role : TranscriptRole) (text : string) (is_final : bool)
  | RO_Alignment (d : AlignmentDelta)
  | RO_Error (e : InferenceError)
  | RO_Done.
End audio.
Arguments AudioPayload Url : clear implicits.
Arguments AudioInput Url Receiver : clear implicits.
Arguments VoiceRef Url : clear implicits.
Arguments AudioBatch Url Receiver : clear implicits.
Arguments SpeechBatch Url : clear implicits.
Arguments RealtimeBatch Url Receiver Sender : clear implicits.

(** [weights_52::deserialize], after the JSON array was read as [Vec<f32>]. *)
Definition weights_52_deserialize (v : list f32) : result string (list f32) :=
  if decide (length v = 52%nat) then Ok v
  else Err ("expected 52 blendshape weights, got " +:+ pretty (length v)).

(** ** base64 (RFC 4648 section 4) *)

Definition b64_TABLE : string :=
  "ABCDEFGHIJKLMNOPQRSTUVWXYZabcdefghijklmnopqrstuvwxyz0123456789+/".
Definition b64_char (n : Z) : ascii :=
  default quote_char (String.get (Z.to_nat n) b64_TABLE).
Definition sextet (n k : Z) : ascii := b64_char (Z.land (Z.shiftr n k) 63).

Fixpoint b64_encode (input : Bytes) : string :=
  match input with
  | c0 :: c1 :: c2 :: rest =>
      let n := Z.lor (Z.lor (Z.shiftl c0 16) (Z.shiftl c1 8)) c2 in
      String (sextet n 18) (String (sextet n 12) (String (sextet n 6) (String (sextet n 0)
        (b64_encode rest))))
  | [c0] =>
      let n := Z.shiftl c0 16 in
      String (sextet n 18) (String (sextet n 12) "==")
  | [c0; c1] =>
      let n := Z.lor (Z.shiftl c0 16) (Z.shiftl c1 8) in
      String (sextet n 18) (String (sextet n 12) (String (sextet n 6) "="))
  | [] => ""
  end.

Definition pad_char : ascii := ascii_of_N 61.
(** [str::trim_end_matches(c)]. *)
Fixpoint trim_end_matches (c : ascii) (s : string) : string :=
  match s with
  | EmptyString => EmptyString
  | String x r =>
      match trim_end_matches c r with
      | EmptyString => if decide (x = c) then EmptyString else String x EmptyString
      | r' => String x r'
      end
  end.

(** The [match c] of the decoder; arithmetic on [u8]. *)
Definition b64_value (a : ascii) : option Z :=
  let c := Z.of_N (N_of_ascii a) in
  if (65 <=? c) && (c <=? 90) then Some (c - 65)
  else if (97 <=? c) && (c <=? 122) then Some (c - 97 + 26)
  else if (48 <=? c) && (c <=? 57) then Some (c - 48 + 52)
  else if c =? 43 then Some 62
  else if c =? 47 then Some 63
  else None.

Fixpoint b64_decode_loop (s : string) (buf bits : Z) (out : Bytes) : result string Bytes :=
  match s with
  | EmptyString => Ok out
  | String c r =>
      match b64_value c with
      | None => Err "invalid base64 character"
      | Some v =>
          let buf := wrap_u32 (Z.lor (wrap_u32 (Z.shiftl buf 6)) v) in
          let bits := bits + 6 in
          if 8 <=? bits then
            let bits := bits - 8 in
            b64_decode_loop r (Z.land buf (Z.shiftl 1 bits - 1)) bits
              (out ++ [wrap_u8 (Z.shiftr buf bits)])
          else b64_decode_loop r buf bits out
      end
  end.
Definition b64_decode (input : string) : result string Bytes :=
  b64_decode_loop (trim_end_matches pad_char input) 0 0 [].

(** [bytes_b64]: the string a [Bytes] field travels as. *)
Definition bytes_b64_serialize (b : Bytes) : string := b64_encode b.
Definition bytes_b64_deserialize (s : string) : result string Bytes := b64_decode s.

Lemma lor_shiftl_add a b k : 0 ≤ k → 0 ≤ b < 2 ^ k → Z.lor (Z.shiftl a k) b = a * 2 ^ k + b.
Proof.
  intros Hk Hb.
  assert (Z.land (Z.shiftl a k) b = 0) as Hl.
  { apply Z.bits_inj'. intros n Hn. rewrite Z.land_spec, Z.bits_0.
    destruct (Z.ltb_spec n k); [by rewrite Z.shiftl_spec_low by lia|].
    rewrite <-(Z.mod_small b (2 ^ k)), Z.mod_pow2_bits_high by lia. by rewrite andb_false_r. }
  rewrite <-Z.lxor_lor, <-Z.add_nocarry_lxor, Z.shiftl_mul_pow2 by done. done.
Qed.
Lemma land_ones_mod a k : 0 ≤ k → Z.land a (2 ^ k - 1) = a `mod` 2 ^ k.
Proof. intros. rewrite <-Z.land_ones, Z.ones_equiv by lia. by rewrite Z.sub_1_r. Qed.
Lemma shiftr_div a k : 0 ≤ k → Z.shiftr a k = a `div` 2 ^ k.
Proof. apply Z.shiftr_div_pow2. Qed.

(** The decoder's table inverts the encoder's. *)
Lemma b64_value_char n : 0 ≤ n < 64 → b64_value (b64_char n) = Some n.
Proof.
  intros Hn.
  assert (∀ i, (i < 64)%nat → b64_value (b64_char (Z.of_nat i)) = Some (Z.of_nat i)) as H.
  { assert (forallb (λ i, bool_decide (b64_value (b64_char (Z.of_nat i)) = Some (Z.of_nat i)))
      (seq 0 64) = true) as Hall by (vm_compute; reflexivity).
    rewrite forallb_forall in Hall. intros i Hi.
    specialize (Hall i ltac:(apply in_seq; lia)). by apply bool_decide_eq_true in Hall. }
  specialize (H (Z.to_nat n) ltac:(lia)). by rewrite Z2Nat.id in H by lia.
Qed.
Lemma sextet_eq n k : 0 ≤ k → sextet n k = b64_char ((n `div` 2 ^ k) `mod` 64).
Proof.
  intros. unfold sextet. rewrite shiftr_div by done. by rewrite (land_ones_mod _ 6).
Qed.

(** One character: arithmetic form of the decoder's step. *)
Lemma b64_decode_step v r buf bits out :
  0 ≤ v < 64 → 0 ≤ bits < 8 → 0 ≤ buf < 2 ^ bits →
  b64_decode_loop (String (b64_char v) r) buf bits out =
  if 8 <=? bits + 6 then
    b64_decode_loop r ((buf * 64 + v) `mod` 2 ^ (bits - 2)) (bits - 2)
      (out ++ [((buf * 64 + v) `div` 2 ^ (bits - 2)) `mod` 256])
  else b64_decode_loop r (buf * 64 + v) (bits + 6) out.
Proof.
  intros Hv Hb Hbuf. cbn [b64_decode_loop]. rewrite b64_value_char by done.
  assert (2 ^ bits ≤ 2 ^ 7) by (apply Z.pow_le_mono_r; lia).
  assert (wrap_u32 (Z.lor (wrap_u32 (Z.shiftl buf 6)) v) = buf * 64 + v) as ->.
  { rewrite (wrap_id 32 (Z.shiftl buf 6)).
    - rewrite lor_shiftl_add by lia. apply wrap_id. unfold is_u. lia.
    - rewrite Z.shiftl_mul_pow2 by lia. unfold is_u. lia. }
  destruct (Z.leb_spec 8 (bits + 6)); [|done].
  replace (bits + 6 - 8) with (bits - 2) by lia.
  rewrite shiftr_div by lia. rewrite (Z.shiftl_mul_pow2 1), Z.mul_1_l, land_ones_mod by lia. done.
Qed.

(** The four states of the decoder between the characters of a group. *)
Lemma b64_step0 v r out : 0 ≤ v < 64 →
  b64_decode_loop (String (b64_char v) r) 0 0 out = b64_decode_loop r v 6 out.
Proof. intros. by rewrite b64_decode_step by (change (2 ^ 0) with 1; lia). Qed.
Lemma b64_step6 v r buf out : 0 ≤ v < 64 → 0 ≤ buf < 64 →
  b64_decode_loop (String (b64_char v) r) buf 6 out =
  b64_decode_loop r ((buf * 64 + v) `mod` 16) 4 (out ++ [((buf * 64 + v) `div` 16) `mod` 256]).
Proof. intros. by rewrite b64_decode_step by (change (2 ^ 6) with 64; lia). Qed.
Lemma b64_step4 v r buf out : 0 ≤ v < 64 → 0 ≤ buf < 16 →
  b64_decode_loop (String (b64_char v) r) buf 4 out =
  b64_decode_loop r ((buf * 64 + v) `mod` 4) 2 (out ++ [((buf * 64 + v) `div` 4) `mod` 256]).
Proof. intros. by rewrite b64_decode_step by (change (2 ^ 4) with 16; lia). Qed.
Lemma b64_step2 v r buf out : 0 ≤ v < 64 → 0 ≤ buf < 4 →
  b64_decode_loop (String (b64_char v) r) buf 2 out =
  b64_decode_loop r 0 0 (out ++ [(buf * 64 + v) `mod` 256]).
Proof.
  intros. rewrite b64_decode_step by (change (2 ^ 2) with 4; lia).
  change (2 - 2) with 0. change (2 ^ 0) with 1. by rewrite Z.mod_1_r, Z.div_1_r.
Qed.

Definition bytes_ok (b : Bytes) : Prop := Forall (is_u 8) b.

(** The encoder's output without its padding. *)
Fixpoint b64_body (input : Bytes) : string :=
  match input with
  | c0 :: c1 :: c2 :: rest =>
      let n := Z.lor (Z.lor (Z.shiftl c0 16) (Z.shiftl c1 8)) c2 in
      String (sextet n 18) (String (sextet n 12) (String (sextet n 6) (String (sextet n 0)
        (b64_body rest))))
  | [c0] =>
      let n := Z.shiftl c0 16 in String (sextet n 18) (String (sextet n 12) "")
  | [c0; c1] =>
      let n := Z.lor (Z.shiftl c0 16) (Z.shiftl c1 8) in
      String (sextet n 18) (String (sextet n 12) (String (sextet n 6) ""))
  | [] => ""
  end.

Lemma list_ind3 {A} (P : list A → Prop) :
  P [] → (∀ a, P [a]) → (∀ a b, P [a; b]) → (∀ a b c l, P l → P (a :: b :: c :: l)) → ∀ l, P l.
Proof.
  intros H0 H1 H2 H3. fix IH 1. intros [|a [|b [|c l]]]; [done..|]. by apply H3.
Qed.

Lemma b64_char_not_pad n : 0 ≤ n < 64 → b64_char n ≠ pad_char.
Proof. intros Hn E. pose proof (b64_value_char n Hn) as H. by rewrite E in H. Qed.
Lemma sextet_not_pad n k : 0 ≤ k → sextet n k ≠ pad_char.
Proof. intros. rewrite sextet_eq by done. apply b64_char_not_pad. apply Z.mod_pos_bound. lia. Qed.

Lemma trim_b64_encode input : trim_end_matches pad_char (b64_encode input) = b64_body input.
Proof.
  assert (∀ x s, x ≠ pad_char → trim_end_matches pad_char (String x s) =
    String x (trim_end_matches pad_char s)) as Hs.
  { intros x s Hx. cbn [trim_end_matches]. destruct (trim_end_matches pad_char s); [|done]. by rewrite decide_False. }
  induction input as [|a|a b|a b c l IH] using list_ind3; cbn [b64_encode b64_body];
    [done|rewrite !Hs by (by apply sextet_not_pad); try done..].
  by rewrite IH.
Qed.

Ltac b64_norm :=
  change (2 ^ 18) with 262144 in *; change (2 ^ 16) with 65536 in *;
  change (2 ^ 12) with 4096 in *; change (2 ^ 8) with 256 in *; change (2 ^ 6) with 64 in *;
  change (2 ^ 0) with 1 in *.
Ltac b64_lia := unfold is_u in *; b64_norm; Z.to_euclidean_division_equations; lia.

Lemma b64_decode_body input out :
  bytes_ok input → b64_decode_loop (b64_body input) 0 0 out = Ok (out ++ input).
Proof.
  revert out. induction input as [|a|a b|a b c l IH] using list_ind3; intros out Hok;
    cbn [b64_body].
  - by rewrite app_nil_r.
  - apply Forall_cons in Hok as [Ha _]. rewrite !sextet_eq, !Z.shiftl_mul_pow2 by lia.
    rewrite b64_step0, b64_step6 by b64_lia. cbn [b64_decode_loop]. repeat f_equal; b64_lia.
  - apply Forall_cons in Hok as [Ha [Hb _]%Forall_cons].
    rewrite !sextet_eq, (lor_shiftl_add a), (Z.shiftl_mul_pow2 b)
      by (rewrite ?Z.shiftl_mul_pow2; b64_lia).
    rewrite b64_step0, b64_step6, b64_step4 by b64_lia. cbn [b64_decode_loop].
    rewrite <-app_assoc. cbn [app]. repeat f_equal; b64_lia.
  - apply Forall_cons in Hok as [Ha [Hb [Hc Hl]%Forall_cons]%Forall_cons].
    rewrite <-Z.lor_assoc, (lor_shiftl_add b), (lor_shiftl_add a) by b64_lia.
    rewrite !sextet_eq by lia. rewrite b64_step0, b64_step6, b64_step4, b64_step2 by b64_lia.
    rewrite IH by done. rewrite <-!app_assoc. cbn [app]. repeat f_equal; b64_lia.
Qed.

Lemma string_length_b64 input :
  String.length (b64_encode input) = (4 * ((length input + 2) / 3))%nat.
Proof.
  induction input as [|a|a b|a b c l IH] using list_ind3; [done..|].
  cbn [b64_encode String.length length]. rewrite IH.
  replace (S (S (S (length l))) + 2)%nat with ((length l + 2) + 1 * 3)%nat by lia.
  rewrite Nat.div_add by lia. lia.
Qed.

(** [C34] base64 round trip: every byte sequence a payload can hold encodes to a
    string of four characters per started group of three bytes, and decoding
    that string, padding and all, gives the bytes back. *)
Theorem base64_roundtrip (input : Bytes) :
  bytes_ok input →
  bytes_b64_deserialize (bytes_b64_serialize input) = Ok input ∧
  String.length (bytes_b64_serialize input) = (4 * ((length input + 2) / 3))%nat.
Proof.
  intros Hok. unfold bytes_b64_deserialize, bytes_b64_serialize, b64_decode.
  rewrite trim_b64_encode, b64_decode_body by done. split; [done|apply string_length_b64].
Qed.

Lemma base64_roundtrip_witness :
  bytes_ok [1; 2; 3; 4; 255] ∧
  bytes_b64_serialize [1; 2; 3; 4; 255] = "AQIDBP8=" ∧
  bytes_b64_deserialize "AQIDBP8=" = Ok [1; 2; 3; 4; 255].
Proof.
  assert (bytes_ok [1; 2; 3; 4; 255]) as H by (repeat constructor; done).
  split; [done|]. split; [reflexivity|]. apply (base64_roundtrip [1; 2; 3; 4; 255] H).
Defined.
