(* ===== verification/Runner.v ===== *)
(** * Runner interfaces

    Models [inference-core/src/runner.rs]: the traits every runtime backend
    implements, as type classes with the source's default methods, the sources of
    weights and the causes of a session rebuild.  A stream is the list of the
    items it will yield; a CUDA context is an opaque parameter. *)
From Stdlib Require Import SpecFloat.
From S2P Require Import Prelude F64 Runtime Deployment Tokens Audio.

Inductive WeightSource : Type :=
  | WS_HuggingFace (repo : string) (revision : option string)
  | WS_LocalPath (path : string)
  | WS_RuntimeManaged.
Inductive SessionRebuildCause : Type :=
  | SRC_CudaContextPoisoned | SRC_RemoteAuthFailure | SRC_RemoteConfigChange | SRC_Manual.
#[global] Instance SessionRebuildCause_eq_dec : EqDecision SessionRebuildCause.
Proof. solve_decision. Defined.

(** [RunHandle] and its audio siblings wrap the stream. *)
Record RunHandle (Item : Type) : Type := { rh_inner : list (InferenceResult Item) }.
Arguments rh_inner {Item} _.
Definition streaming {Item} (inner : list (InferenceResult Item)) : RunHandle Item :=
  {| rh_inner := inner |}.
Definition into_stream {Item} (h : RunHandle Item) : list (InferenceResult Item) := rh_inner h.

Definition AudioRunHandle : Type := RunHandle TranscriptChunk.
Definition SpeechRunHandle : Type := RunHandle SpeechChunk.
Definition A2FRunHandle : Type := RunHandle BlendshapeChunk.

(** What all five traits share. *)
Class RunnerBase (R : Type) : Type := {
  runner_kind : R → RuntimeKind;
  runner_transport : R → TransportKind;
  rebuild_session : R → SessionRebuildCause → R * InferenceResult unit;
  rate_limits : R → option RateLimits
}.
(** The trait's default for [rate_limits]. *)
Definition rate_limits_default {R} (r : R) : option RateLimits := None.

Class ModelRunner (Json R Ctx : Type) `{!RunnerBase R} : Type := {
  execute : R → ExecuteBatch → R * InferenceResult (RunHandle (TokenChunk Json));
  load_weights : R → option Ctx → WeightSource → R * InferenceResult unit;
  estimate_cost_usd : R → ExecuteBatch → f64
}.
Definition load_weights_default {R Ctx} (r : R) (_ : option Ctx) (_ : WeightSource) :
  R * InferenceResult unit := (r, Ok ()).
Definition estimate_cost_usd_default {R} (r : R) (_ : ExecuteBatch) : f64 := S754_zero false.
Definition gil_pinned `{!RunnerBase R} (r : R) : bool :=
  match runner_kind r with RK_Vllm | RK_Python _ => true | _ => false end.

Class AudioRunner (Url Receiver R : Type) `{!RunnerBase R} : Type :=
  execute_audio : R → AudioBatch Url Receiver → R * InferenceResult AudioRunHandle.
Class SpeechRunner (Url R : Type) `{!RunnerBase R} : Type :=
  speak : R → SpeechBatch Url → R * InferenceResult SpeechRunHandle.
Class A2FRunner (Url Receiver R : Type) `{!RunnerBase R} : Type :=
  execute_audio2face :
    R → AudioBatch Url Receiver → R * InferenceResult A2FRunHandle.

(** A backend built on first use, as the local runtimes keep it in a
    [tokio::sync::OnceCell]: [get_or_try_init], and what [rebuild_session] leaves. *)
Section lazy_cell.
Context {T : Type}.
Definition get_or_try_init (init : InferenceResult T) (cell : option T) : option T * InferenceResult T :=
  match cell with
  | Some t => (cell, Ok t)
  | None => match init with Ok t => (Some t, Ok t) | Err e => (None, Err e) end
  end.
Definition reset_cell (cause : SessionRebuildCause) (cell : option T) : option T :=
  match cause with SRC_CudaContextPoisoned | SRC_Manual => None | _ => cell end.

Lemma get_or_try_init_ok init cell c t : get_or_try_init init cell = (c, Ok t) →
  c = Some t ∧ ∀ s, cell = Some s → t = s.
Proof. unfold get_or_try_init. intros H. destruct cell; [|destruct init]; simplify_eq; split; congruence. Qed.

(** A history of uses, each with what building would give then, and of rebuilds. *)
Inductive CellEvent : Type := CE_Use (init : InferenceResult T) | CE_Rebuild (cause : SessionRebuildCause).
Definition cell_step (cell : option T) (e : CellEvent) : option T :=
  match e with CE_Use init => fst (get_or_try_init init cell) | CE_Rebuild cause => reset_cell cause cell end.
(** The uses since the last rebuild that discards. *)
Fixpoint uses_since_reset (acc : list (InferenceResult T)) (es : list CellEvent) : list (InferenceResult T) :=
  match es with
  | [] => acc
  | CE_Use init :: r => uses_since_reset (acc ++ [init]) r
  | CE_Rebuild (SRC_CudaContextPoisoned | SRC_Manual) :: r => uses_since_reset [] r
  | CE_Rebuild _ :: r => uses_since_reset acc r
  end.
(** The cell holds the first backend that was built since the last discarding rebuild. *)
Lemma cell_history (es : list CellEvent) : 
  foldl cell_step None es = head (omap result_ok (uses_since_reset [] es)).
Proof.
  assert (∀ acc, foldl cell_step (head (omap result_ok acc)) es = head (omap result_ok (uses_since_reset acc es)))
    as H; [|exact (H [])].
  induction es as [|[init|cause] es IH]; intros acc; [done| |]; cbn [foldl uses_since_reset cell_step].
  - rewrite <-IH. f_equal. rewrite omap_app. destruct (omap result_ok acc) as [|t l]; [|done].
    by destruct init.
  - destruct cause; cbn [reset_cell]; first [apply (IH []) | apply IH].
Qed.
End lazy_cell.

(** A realtime session handle: the request and whether [cancel] aborted it. *)
Record RealtimeSession : Type := { rs_request_id : string; rs_cancelled : bool }.
Definition RealtimeSession_new (id : string) : RealtimeSession :=
  {| rs_request_id := id; rs_cancelled := false |}.
Definition session_cancel (s : RealtimeSession) : RealtimeSession :=
  {| rs_request_id := rs_request_id s; rs_cancelled := true |}.
Class RealtimeRunner (Url Receiver Sender R : Type) `{!RunnerBase R} : Type :=
  open_session : R → RealtimeBatch Url Receiver Sender → R * InferenceResult RealtimeSession.

Definition lift_internal {E} (to_string : E → string) (err : E) : InferenceError :=
  Internal (to_string err).

(** Every runtime the source pins to the Python GIL is a local GPU runtime. *)
Lemma gil_pinned_local `{!RunnerBase R} (r : R) :
  gil_pinned r = true → transport_of_runtime (runner_kind r) = TK_LocalGpu.
Proof. unfold gil_pinned. by destruct (runner_kind r). Qed.
