(* ===== verification/Session.v ===== *)
(** * Remote session

    Models [inference-remote-core/src/session.rs]: the credential provider, the
    shared snapshot every worker reads, and its rebuild; and [build_client] of [http.rs]
    over [reqwest]'s builder, an interface.  In the session, building a client and reading a
    credential are calls on the outside world: each may answer differently, or fail, every
    time, and changes the world it is made in.  A rebuild stores at its very end, so a worker that
    loads the snapshot meanwhile comes before it in the order of events. *)
From S2P Require Import Prelude Runtime Deployment Runner.

(** ** The HTTP client (http.rs)

    [reqwest]'s builder is an interface: its setters and [build]. *)
Class ClientBuilder (Builder Client ReqwestError : Type) : Type := {
  client_builder : Builder;
  set_user_agent : string → Builder → Builder;
  set_pool_idle_timeout : option Duration → Builder → Builder;
  set_pool_max_idle_per_host : Z → Builder → Builder;
  set_connect_timeout : Duration → Builder → Builder;
  set_timeout : Duration → Builder → Builder;
  set_read_timeout : Duration → Builder → Builder;
  builder_build : Builder → result ReqwestError Client
}.
(** [DisablePriorKnowledge]: a no-op. *)
Definition http2_prior_knowledge_disabled {Builder : Type} (b : Builder) : Builder := b.
Definition http_build_client {Builder Client ReqwestError} `{!ClientBuilder Builder Client ReqwestError}
    (timeouts : Timeouts) (user_agent : string) : result ReqwestError Client :=
  builder_build
    (set_read_timeout (read_timeout timeouts)
    (set_timeout (request_timeout timeouts)
    (set_connect_timeout (from_secs 5)
    (set_pool_max_idle_per_host 64
    (set_pool_idle_timeout (Some (from_secs 90))
    (http2_prior_knowledge_disabled
    (set_user_agent user_agent client_builder))))))).

(** A builder that records the calls, for what the client is configured with. *)
Inductive ClientSetting : Type :=
  | CSet_UserAgent (s : string) | CSet_PoolIdle (d : option Duration) | CSet_MaxIdle (n : Z)
  | CSet_Connect (d : Duration) | CSet_Timeout (d : Duration) | CSet_Read (d : Duration).
Definition recording_builder : ClientBuilder (list ClientSetting) (list ClientSetting) Empty_set := {|
  client_builder := [];
  set_user_agent s l := l ++ [CSet_UserAgent s]; set_pool_idle_timeout d l := l ++ [CSet_PoolIdle d];
  set_pool_max_idle_per_host n l := l ++ [CSet_MaxIdle n]; set_connect_timeout d l := l ++ [CSet_Connect d];
  set_timeout d l := l ++ [CSet_Timeout d]; set_read_timeout d l := l ++ [CSet_Read d];
  builder_build l := Ok l
|}.
(** The deployment's two timeouts reach the client, the others are fixed. *)
Example client_configured (t : Timeouts) (ua : string) :
  http_build_client (ClientBuilder0 := recording_builder) t ua =
  Ok [CSet_UserAgent ua; CSet_PoolIdle (Some (from_secs 90)); CSet_MaxIdle 64; CSet_Connect (from_secs 5);
      CSet_Timeout (request_timeout t); CSet_Read (read_timeout t)].
Proof. done. Qed.

Section session.
Context {Client ReqwestError Outside SecretString : Type}.
(** [http::build_client(&timeouts, &user_agent)]: one call. *)
Variable build_client : Timeouts → string → Outside → Outside * result ReqwestError Client.
(** [<reqwest::Error as Display>]. *)
Variable display_error : ReqwestError → string.
(** The one method of [CredentialProvider]. *)
Class CredentialProvider := token : Outside → Outside * InferenceResult SecretString.

Record SessionConfig : Type := {
  user_agent : string;
  sc_timeouts : Timeouts
}.
Record SessionSnapshot : Type := { client : Client; credential : SecretString }.
(** The actor; [ss_snapshot] is the [ArcSwap] cell that workers share. *)
Record RemoteSessionActor : Type := {
  ss_config : SessionConfig;
  ss_snapshot : SessionSnapshot
}.

Context {CP : CredentialProvider}.

(** [build_snapshot]: the client first; the credential is read only if that works. *)
Definition build_snapshot (config : SessionConfig) (w : Outside) : Outside * InferenceResult SessionSnapshot :=
  let '(w, r) := build_client (sc_timeouts config) (user_agent config) w in
  match r with
  | Err e => (w, Err (Internal ("build http client: " +:+ display_error e)))
  | Ok c =>
      let '(w, r) := token w in
      (w, match r with
          | Ok k => Ok {| client := c; credential := k |}
          | Err e => Err e
          end)
  end.

Definition bootstrap (config : SessionConfig) (w : Outside) : Outside * InferenceResult RemoteSessionActor :=
  match build_snapshot config w with
  | (w, Ok snap) => (w, Ok {| ss_config := config; ss_snapshot := snap |})
  | (w, Err e) => (w, Err e)
  end.

(** [self.snapshot.store(snap)]. *)
Definition store (snap : SessionSnapshot) (s : RemoteSessionActor) : RemoteSessionActor :=
  {| ss_config := ss_config s; ss_snapshot := snap |}.
(** [rebuild(cause)]: the cause is only logged. *)
Definition rebuild (cause : SessionRebuildCause) (s : RemoteSessionActor) (w : Outside) :
  RemoteSessionActor * Outside * InferenceResult unit :=
  match build_snapshot (ss_config s) w with
  | (w, Ok snap) => (store snap s, w, Ok ())
  | (w, Err e) => (s, w, Err e)
  end.

Definition session_handle := rebuild.

(** What happens to a session: a rebuild request, a worker that loads the snapshot to start
    a request with. *)
Inductive SessionEvent : Type := SE_Rebuild (cause : SessionRebuildCause) | SE_Load.
Inductive SessionOutput : Type := SO_Reply (r : InferenceResult unit) | SO_Loaded (snap : SessionSnapshot).
Definition session_event_step (e : SessionEvent) (s : RemoteSessionActor) (w : Outside) :
  RemoteSessionActor * Outside * SessionOutput :=
  match e with
  | SE_Rebuild cause => let '(s, w, r) := session_handle cause s w in (s, w, SO_Reply r)
  | SE_Load => (s, w, SO_Loaded (ss_snapshot s))
  end.
Fixpoint session_run (events : list SessionEvent) (s : RemoteSessionActor) (w : Outside) :
  RemoteSessionActor * Outside * list SessionOutput :=
  match events with
  | [] => (s, w, [])
  | e :: r =>
      let '(s, w, o) := session_event_step e s w in
      let '(s, w, os) := session_run r s w in (s, w, o :: os)
  end.

(** ** What a session promises

    One attempt at a snapshot, by the calls it makes and what they answer. *)
Inductive Attempt (config : SessionConfig) (w : Outside) : Outside → InferenceResult SessionSnapshot → Prop :=
  | At_built w1 w2 c k :
      build_client (sc_timeouts config) (user_agent config) w = (w1, Ok c) → token w1 = (w2, Ok k) →
      Attempt config w w2 (Ok {| client := c; credential := k |})
  | At_no_client w1 e :
      build_client (sc_timeouts config) (user_agent config) w = (w1, Err e) →
      Attempt config w w1 (Err (Internal ("build http client: " +:+ display_error e)))
  | At_no_credential w1 w2 c e :
      build_client (sc_timeouts config) (user_agent config) w = (w1, Ok c) → token w1 = (w2, Err e) →
      Attempt config w w2 (Err e).
(** A history of the session from a world and the snapshot in force: the outputs, and the
    snapshot at the end.  A request for a rebuild makes one attempt; a success is in force
    from then on, a failure changes nothing; a worker gets what is in force. *)
Inductive Served (config : SessionConfig) :
    Outside → SessionSnapshot → list SessionEvent → list SessionOutput → Outside → SessionSnapshot → Prop :=
  | Sv_nil w cur : Served config w cur [] [] w cur
  | Sv_rebuilt w w1 w2 cur snap last cause es os :
      Attempt config w w1 (Ok snap) → Served config w1 snap es os w2 last →
      Served config w cur (SE_Rebuild cause :: es) (SO_Reply (Ok ()) :: os) w2 last
  | Sv_kept w w1 w2 cur e last cause es os :
      Attempt config w w1 (Err e) → Served config w1 cur es os w2 last →
      Served config w cur (SE_Rebuild cause :: es) (SO_Reply (Err e) :: os) w2 last
  | Sv_load w w2 cur last es os :
      Served config w cur es os w2 last →
      Served config w cur (SE_Load :: es) (SO_Loaded cur :: os) w2 last.

Lemma build_snapshot_attempt config w :
  let '(w', r) := build_snapshot config w in Attempt config w w' r.
Proof.
  unfold build_snapshot. destruct (build_client _ _ w) as [w1 [c|e]] eqn:Eb; [|by econstructor].
  destruct (token w1) as [w2 [k|e]] eqn:Et; by econstructor.
Qed.
Lemma session_run_served config es : ∀ s w,
  ss_config s = config →
  let '(s', w', os) := session_run es s w in
  ss_config s' = config ∧ Served config w (ss_snapshot s) es os w' (ss_snapshot s').
Proof.
  induction es as [|e es IH]; intros s w Hc; cbn [session_run]; [split; [done|constructor]|].
  destruct e as [cause|]; cbn [session_event_step].
  - unfold session_handle, rebuild. rewrite Hc. pose proof (build_snapshot_attempt config w) as Ha.
    destruct (build_snapshot config w) as [w1 [snap|e]].
    + specialize (IH (store snap s) w1 Hc). destruct (session_run es _ w1) as [[s' w'] os].
      destruct IH as [? IH]. split; [done|]. by eapply Sv_rebuilt.
    + specialize (IH s w1 Hc). destruct (session_run es _ w1) as [[s' w'] os].
      destruct IH as [? IH]. split; [done|]. by eapply Sv_kept.
  - specialize (IH s w Hc). destruct (session_run es _ w) as [[s' w'] os].
    destruct IH as [? IH]. split; [done|]. by constructor.
Qed.
(** A history without a success leaves the snapshot in force alone, and every worker has it. *)
Lemma served_all_failed config w cur es os w' last :
  Served config w cur es os w' last → (∀ r, SO_Reply r ∈ os → is_ok r = false) →
  last = cur ∧ ∀ snap, SO_Loaded snap ∈ os → snap = cur.
Proof.
  intros H. induction H as [w cur|w w1 w2 cur snap last c es os _ _ _|w w1 w2 cur e last c es os _ _ IH|w w2 cur last es os _ IH];
    intros Hf.
  - set_solver.
  - specialize (Hf (Ok ()) ltac:(by left)). done.
  - destruct IH as [-> IH]; [set_solver|]. split; [done|]. set_solver.
  - destruct IH as [-> IH]; [set_solver|]. split; [done|]. set_solver.
Qed.

(** [C39] Session rebuilds never lose the working session, whatever the HTTP library and the
    credential source answer, call by call.  A session is bootstrapped from one attempt;
    after that each rebuild makes exactly one attempt, a new client from the deployment's
    configuration and then, only if that worked, a freshly read credential: when both succeed the
    request is answered Ok and that very pair is what every worker loads from then on; when
    either fails its error is the answer and the workers keep the snapshot they had, to the
    end if every rebuild fails. *)
Theorem session_rebuild_safe (config : SessionConfig) (w0 w1 : Outside) (s : RemoteSessionActor)
    (events : list SessionEvent) :
  bootstrap config w0 = (w1, Ok s) →
  let '(s', w', outputs) := session_run events s w1 in
  Attempt config w0 w1 (Ok (ss_snapshot s)) ∧
  Served config w1 (ss_snapshot s) events outputs w' (ss_snapshot s') ∧
  ((∀ r, SO_Reply r ∈ outputs → is_ok r = false) →
   ss_snapshot s' = ss_snapshot s ∧ ∀ snap, SO_Loaded snap ∈ outputs → snap = ss_snapshot s).
Proof.
  unfold bootstrap. pose proof (build_snapshot_attempt config w0) as Ha.
  destruct (build_snapshot config w0) as [w' [snap|e]]; intros [= <- <-].
  pose proof (session_run_served config events {| ss_config := config; ss_snapshot := snap |} w' eq_refl) as H.
  destruct (session_run events _ w') as [[s' w2] os]. destruct H as [_ H].
  split; [done|]. split; [done|]. by eapply served_all_failed.
Qed.
End session.
Arguments CredentialProvider : clear implicits.
Arguments SO_Reply {_ _} _. Arguments SO_Loaded {_ _} _.

(** [StaticApiKey]: always the same key. *)
Definition StaticApiKey_token {W S : Type} (key : S) : CredentialProvider W S := λ w, (w, Ok key).

(** A world that numbers the clients it makes and hands out the keys of a rotation; the second
    client fails. *)
Definition rotating_client (t : Timeouts) (ua : string) (w : nat * list string) :
  (nat * list string) * result unit (string * nat) :=
  ((S (fst w), snd w), if (fst w =? 1)%nat then Err () else Ok (ua, fst w)).
Definition rotating_token : CredentialProvider (nat * list string) string := λ w,
  match snd w with
  | [] => (w, Err (Unauthorized "no key"))
  | k :: r => ((fst w, r), Ok k)
  end.
Definition rotating_config : SessionConfig := {| user_agent := "ua"; sc_timeouts := Timeouts_default |}.
Definition rotating_events : list SessionEvent :=
  [SE_Load; SE_Rebuild SRC_Manual; SE_Load; SE_Rebuild SRC_RemoteAuthFailure; SE_Load; SE_Rebuild SRC_Manual;
   SE_Load].
(** Four attempts: built, no client, built with the new key, no key left. *)
Lemma session_rebuild_safe_witness :
  ∃ s w1, bootstrap (CP:=rotating_token) rotating_client (λ _, "e") rotating_config (0%nat, ["old"; "new"]) = (w1, Ok s) ∧
  let '(s', w', outputs) := session_run (CP:=rotating_token) rotating_client (λ _, "e") rotating_events s w1 in
  outputs = [SO_Loaded {| client := ("ua", 0%nat); credential := "old" |};
             SO_Reply (Err (Internal "build http client: e"));
             SO_Loaded {| client := ("ua", 0%nat); credential := "old" |};
             SO_Reply (Ok ());
             SO_Loaded {| client := ("ua", 2%nat); credential := "new" |};
             SO_Reply (Err (Unauthorized "no key"));
             SO_Loaded {| client := ("ua", 2%nat); credential := "new" |}] ∧
  Served (CP:=rotating_token) rotating_client (λ _, "e") rotating_config w1 (ss_snapshot s) rotating_events outputs w' (ss_snapshot s').
Proof.
  do 2 eexists. split; [reflexivity|].
  pose proof (session_rebuild_safe (CP:=rotating_token) rotating_client (λ _, "e") rotating_config
    (0%nat, ["old"; "new"]) _ _ rotating_events eq_refl) as (_ & H & _).
  split; [reflexivity|exact H].
Defined.
