(* ===== verification/Backoff.v ===== *)
(** * Back-off and retry decisions

    Models [inference-remote-core/src/backoff.rs] ([BackoffPolicy],
    [compute_backoff], [pseudo_random_01]) on binary64 floats and
    [inference-remote-core/src/retry.rs] ([RetryEngine::decide]). *)
From Stdlib Require Import SpecFloat.
From S2P Require Import Prelude F64 Runtime Deployment.

(** ** backoff.rs *)

Record BackoffPolicy : Type := {
  bp_initial : Duration;
  bp_max : Duration;
  bp_multiplier : f64;
  bp_jitter : JitterKind
}.
(** [impl From<&RetryPolicy> for BackoffPolicy]. *)
Definition backoff_of_retry (p : RetryPolicy) : BackoffPolicy := {|
  bp_initial := initial_backoff p;
  bp_max := max_backoff p;
  bp_multiplier := backoff_multiplier p;
  bp_jitter := jitter p
|}.

Definition pseudo_random_01 (seed : Z) : f64 :=
  f64_div (f64_of_Z (wrap_u32 (seed * 2654435761) `mod` 10000)) (f64_lit 10000 1).

Definition compute_backoff (policy : BackoffPolicy) (attempt : Z) : Duration :=
  let base_ms :=
    f64_mul (f64_of_Z (as_millis (bp_initial policy)))
            (f64_powi (bp_multiplier policy) (as_i32 attempt)) in
  let capped := f64_min base_ms (f64_of_Z (as_millis (bp_max policy))) in
  let with_jitter :=
    match bp_jitter policy with
    | Jitter_None => capped
    | Jitter_Equal =>
        f64_add (f64_mul capped (f64_lit 1 2))
                (f64_mul (f64_mul capped (pseudo_random_01 attempt)) (f64_lit 1 2))
    | Jitter_Full => f64_mul capped (pseudo_random_01 attempt)
    end in
  from_millis (f64_to_u 64 (f64_max with_jitter (f64_of_Z 0))).

Example backoff_grows_and_caps :
  let p := {| bp_initial := from_millis 100; bp_max := from_millis 2000;
              bp_multiplier := f64_of_Z 2; bp_jitter := Jitter_None |} in
  compute_backoff p 0 = from_millis 100 ∧ compute_backoff p 1 = from_millis 200 ∧
  compute_backoff p 2 = from_millis 400 ∧ compute_backoff p 10 = from_millis 2000.
Proof. vm_compute. done. Qed.
Example backoff_jittered :
  let p j := {| bp_initial := from_millis 100; bp_max := from_millis 2000;
              bp_multiplier := f64_of_Z 2; bp_jitter := j |} in
  compute_backoff (p Jitter_Full) 3 = from_millis 798 ∧
  compute_backoff (p Jitter_Equal) 3 = from_millis 799.
Proof. vm_compute. done. Qed.

(** ** The delay bound *)

(** The pseudo-random factor, over its 10000 possible values. *)
Definition unit_check (n : nat) : bool :=
  match f64_div (f64_of_Z (Z.of_nat n)) (f64_lit 10000 1) with
  | S754_zero _ => true
  | S754_finite false m e =>
      (-1074 <=? e) && (e <=? 0) && (Zpos m <=? 2 ^ (- e))
  | _ => false
  end.
Lemma unit_check_all : forallb unit_check (seq 0 (Z.to_nat 10000)) = true.
Proof. vm_compute. done. Qed.

Lemma pseudo_random_unit seed :
  f64_le_pos (pseudo_random_01 seed) 1 0 ∧
  (∀ m e, pseudo_random_01 seed = S754_finite false m e → e ≤ 0).
Proof.
  pose proof unit_check_all as H. rewrite forallb_forall in H.
  unfold pseudo_random_01. set (x := _ `mod` 10000).
  assert (0 ≤ x < 10000) as Hx by (apply Z.mod_pos_bound; lia). clearbody x.
  specialize (H (Z.to_nat x)). rewrite in_seq in H. specialize (H ltac:(lia)).
  unfold unit_check in H. rewrite Z2Nat.id in H by lia.
  destruct (f64_div _ _) as [s| | |[] m e]; simplify_eq; [done|].
  apply andb_true_iff in H as [[H1 H2]%andb_true_iff H3].
  apply Z.leb_le in H1, H2, H3. split; [split; [lia|]|intros; by simplify_eq].
  assert (2 ^ (0 + 4096) = 2 ^ (- e) * 2 ^ (e + 4096)) as ->
    by (rewrite <-Z.pow_add_r by lia; f_equal; lia).
  rewrite Z.mul_1_l. apply Z.mul_le_mono_nonneg_r; [apply Z.pow_nonneg; lia|done].
Qed.

(** Jitter keeps a non-positive value non-positive ... *)
Definition with_jitter (j : JitterKind) (capped : f64) (attempt : Z) : f64 :=
  match j with
  | Jitter_None => capped
  | Jitter_Equal =>
      f64_add (f64_mul capped (f64_lit 1 2))
              (f64_mul (f64_mul capped (pseudo_random_01 attempt)) (f64_lit 1 2))
  | Jitter_Full => f64_mul capped (pseudo_random_01 attempt)
  end.

Lemma f64_mul_nonpos x r m e :
  f64_nonpos x = true → f64_le_pos r m e → f64_nonpos (f64_mul x r) = true.
Proof.
  destruct x as [|[]| |[]], r as [| | |[]]; try done.
  intros _ _. apply round_aux_neg.
Qed.
Lemma f64_add_nonpos x y :
  f64_nonpos x = true → f64_nonpos y = true → f64_nonpos (f64_add x y) = true.
Proof.
  destruct x as [[]|[]| |[] mx ex], y as [[]|[]| |[] my ey]; try done.
  intros _ _. unfold f64_add. cbn [SFadd cond_Zopp].
  destruct (shl_align mx _ _) as [ah ?], (shl_align my _ _) as [aq ?]. cbn [fst Z.opp].
  replace (- Zpos ah + - Zpos aq) with (Zneg (ah + aq)) by done.
  unfold binary_normalize, binary_round. case_match. apply round_aux_neg.
Qed.

Lemma with_jitter_nonpos j x a :
  f64_nonpos x = true → f64_nonpos (with_jitter j x a) = true.
Proof.
  intros Hx. destruct (pseudo_random_unit a) as [Hr _].
  assert (f64_le_pos (f64_lit 1 2) 1 0) as Hh by (vm_compute; split; done).
  destruct j; simpl; eauto using f64_mul_nonpos, f64_add_nonpos.
Qed.

(** ... and a positive one within the cap; the half-jitter form needs the two
    halves of a normal float, and vanishes below [2^-1021]. *)
Lemma half_unit : f64_le_pos (f64_lit 1 2) 1 0 ∧ (∀ m e, f64_lit 1 2 = S754_finite false m e → e ≤ 0).
Proof. split; [vm_compute; by split|]. vm_compute. intros. by simplify_eq. Qed.

Lemma half_le x m e :
  f64_le_pos x m e → canonical m (e - 1) → e ≤ 971 →
  f64_le_pos (f64_mul x (f64_lit 1 2)) m (e - 1).
Proof.
  destruct x as [s| | |[] mx ex]; try done.
  intros [He Hx] Hc Hemax.
  change (f64_lit 1 2) with (S754_finite false 4503599627370496 (-53)).
  unfold f64_mul. cbn [SFmul xorb]. pose proof Hc as (? & ? & ?).
  apply round_aux_le; [lia..|done|].
  rewrite Pos2Z.inj_mul. change (Zpos 4503599627370496) with (2 ^ 52).
  rewrite <-Z.mul_assoc, <-Z.pow_add_r by lia.
  assert (∀ k, -4000 ≤ k → 2 ^ (k + 4096) = 2 * 2 ^ (k - 1 + 4096)) as Hdbl.
  { intros k Hk. rewrite <-Z.pow_succ_r by lia. f_equal. lia. }
  rewrite (Hdbl ex), (Hdbl e) in Hx by lia.
  replace (52 + (ex + -53 + 4096)) with (ex - 1 + 4096) by lia. lia.
Qed.

(** A positive canonical [x <= M]: every jitter form stays below [M], or below
    [2^-1020] when [x] is subnormal. *)
Lemma with_jitter_pos j mx ex a :
  canonical (Zpos mx) ex → -1074 ≤ ex →
  f64_le_pos (with_jitter j (S754_finite false mx ex) a) (Zpos mx) ex ∨
  f64_le_pos (with_jitter j (S754_finite false mx ex) a) (2 ^ 52) (-1072).
Proof.
  intros Hc Hex. destruct (pseudo_random_unit a) as [Hr Hr0].
  set (x := S754_finite false mx ex). pose proof Hc as (Hm & Hce & Hmax).
  assert (f64_le_pos x (Zpos mx) ex) as Hx by (split; [lia|done]).
  assert (f64_le_pos (f64_mul x (pseudo_random_01 a)) (Zpos mx) ex) as Hp
    by by apply f64_mul_le_pos.
  destruct j; cbn [with_jitter]; [by left| |by left].
  destruct half_unit as [Hh Hh0].
  destruct (Z_lt_le_dec (-1074) ex) as [Hn|Hs].
  - left. assert (canonical (Zpos mx) (ex - 1)) as Hc1 by (unfold canonical; lia).
    apply (f64_add_le_pos _ _ (Zpos mx) (ex - 1)); [lia|..|lia|done|].
    + by apply half_le.
    + by apply half_le.
    + assert (2 ^ (ex + 4096) = 2 * 2 ^ (ex - 1 + 4096)) as ->
        by (rewrite <-Z.pow_succ_r by lia; f_equal; lia). lia.
  - right. apply (f64_add_le_pos _ _ (Zpos mx) ex); [lia|..|lia| |].
    + by apply f64_mul_le_pos.
    + by apply f64_mul_le_pos.
    + unfold canonical. split_and!; done || lia.
    + replace ex with (-1074) by lia.
      pose proof (Zdigits2_bounds (Zpos mx) ltac:(lia)) as [_ B].
      assert (2 ^ Zdigits2 (Zpos mx) ≤ 2 ^ 53) by (apply Z.pow_le_mono_r; lia).
      change (-1074 + 4096) with 3022. change (-1072 + 4096) with 3024.
      assert (2 ^ 52 * 2 ^ 3024 = 2 * (2 ^ 53 * 2 ^ 3022)) as -> by by vm_compute.
      apply Z.mul_le_mono_nonneg_l; [lia|].
      apply Z.mul_le_mono_nonneg_r; [by apply Z.pow_nonneg|lia].
Qed.

Lemma compute_backoff_eq p a :
  compute_backoff p a =
  from_millis (f64_to_u 64 (f64_max (with_jitter (bp_jitter p)
    (f64_min (f64_mul (f64_of_Z (as_millis (bp_initial p)))
                      (f64_powi (bp_multiplier p) (as_i32 a)))
             (f64_of_Z (as_millis (bp_max p)))) a) (f64_of_Z 0))).
Proof. done. Qed.

(** The cap: [min(base, max)] is non-positive, or positive and at most [max]. *)
Lemma capped_cases base m e :
  f64_valid base → canonical (Zpos m) e →
  let c := f64_min base (S754_finite false m e) in
  f64_nonpos c = true ∨
  ∃ mx ex, c = S754_finite false mx ex ∧ canonical (Zpos mx) ex ∧
    Zpos mx * 2 ^ (ex + 4096) ≤ Zpos m * 2 ^ (e + 4096).
Proof.
  intros Hv Hc c. unfold c, f64_min.
  destruct base as [s|[]| |[] mb eb]; cbn [f64_is_nan];
    [by left|by left|right; by exists m, e|right; by exists m, e|by left|right].
  destruct (SFltb (S754_finite false m e) (S754_finite false mb eb)) eqn:E; [by exists m, e|].
  pose proof (valid_canonical _ _ _ Hv). exists mb, eb. split_and!; [done..|].
  by apply f64_ltb_false_le.
Qed.

Lemma capped_zero base s :
  f64_nonpos (f64_min base (S754_zero s)) = true.
Proof. by destruct base as [?|[]| |[] ? ?]. Qed.

Lemma max_zero_nonpos w x : f64_nonpos x = true → f64_to_u w (f64_max x (f64_of_Z 0)) = 0.
Proof. by destruct x as [[]|[]| |[] ? ?]. Qed.
Lemma max_zero_le w x m e z :
  0 ≤ w → 0 ≤ z → m * 2 ^ (e + 4096) ≤ z * 2 ^ 4096 → f64_le_pos x m e →
  f64_to_u w (f64_max x (f64_of_Z 0)) ≤ z.
Proof.
  intros Hw Hz Hle Hx. apply (f64_to_u_le _ _ m e); [done..|].
  by destruct x as [[]|[]| |[] ? ?].
Qed.

Lemma f64_of_Z_small_valid z : 0 ≤ z ≤ 2 ^ 53 → f64_valid (f64_of_Z z).
Proof.
  intros Hz. destruct (Z.eq_dec z 0) as [->|]; [done|].
  destruct (f64_of_Z_exact z ltac:(lia)) as (m & e & -> & (? & ? & ?) & _).
  unfold f64_valid. cbn. unfold bounded, canonical_mantissa, fexp, emin.
  apply andb_true_iff. rewrite Z.eqb_eq, Z.leb_le. unfold Zdigits2 in *. lia.
Qed.

(** [C18] Whatever the multiplier, the attempt number and the jitter kind, the
    computed delay is non-negative and never exceeds the policy's maximum
    (durations below [2^53] ms are exact as floats, and this is not needed of
    the products the formula rounds). *)
Theorem compute_backoff_bounded (p : BackoffPolicy) (attempt : Z) :
  f64_valid (bp_multiplier p) →
  0 ≤ as_millis (bp_initial p) ≤ 2 ^ 53 →
  0 ≤ as_millis (bp_max p) ≤ 2 ^ 53 →
  0 ≤ compute_backoff p attempt ≤ bp_max p.
Proof.
  intros Hmul Hi Hm. rewrite compute_backoff_eq. unfold from_millis.
  set (base := f64_mul _ _).
  assert (f64_valid base) as Hb by (unfold base; auto using f64_of_Z_small_valid with rust).
  clearbody base. set (M := as_millis (bp_max p)) in *.
  set (r := f64_to_u _ _). assert (0 ≤ r ≤ M) as Hr.
  { split; [by apply f64_to_u_nonneg|]. subst r.
    assert (f64_nonpos (f64_min base (f64_of_Z M)) = true → 
      f64_to_u 64 (f64_max (with_jitter (bp_jitter p) (f64_min base (f64_of_Z M)) attempt)
        (f64_of_Z 0)) ≤ M) as Hneg.
    { intros Hn. rewrite max_zero_nonpos by by apply with_jitter_nonpos. lia. }
    destruct (Z.eq_dec M 0) as [HM|HM]; [apply Hneg; rewrite HM; apply capped_zero|].
    destruct (f64_of_Z_exact M ltac:(lia)) as (m & e & HE & Hc & Hv). rewrite HE in *.
    destruct (capped_cases base m e Hb Hc) as [Hn|(mx & ex & -> & Hcx & Hle)]; [auto|].
    destruct (with_jitter_pos (bp_jitter p) mx ex attempt Hcx) as [Hj|Hj];
      [unfold canonical in Hcx; lia|..].
    - apply (max_zero_le _ _ (Zpos mx) ex); [lia..|done].
    - apply (max_zero_le _ _ (2 ^ 52) (-1072)); [lia..| |done].
      trans (1 * 2 ^ 4096); [done|]. apply Z.mul_le_mono_nonneg_r; [done|lia]. }
  unfold M, as_millis, ns_per_ms in Hr |- *.
  pose proof (Z.mul_div_le (bp_max p) 1000000). lia.
Qed.

Lemma compute_backoff_bounded_witness :
  (f64_valid (backoff_multiplier RetryPolicy_default) ∧
   0 ≤ as_millis (initial_backoff RetryPolicy_default) ≤ 2 ^ 53 ∧
   0 ≤ as_millis (max_backoff RetryPolicy_default) ≤ 2 ^ 53) ∧
  0 ≤ compute_backoff (backoff_of_retry RetryPolicy_default) 7 ≤ from_millis 60000.
Proof.
  split; [vm_compute; split_and!; done|].
  apply (compute_backoff_bounded (backoff_of_retry RetryPolicy_default) 7);
    vm_compute; by split_and?.
Defined.

(** ** retry.rs *)

(** [Attempt(u32)]: zero-based index of the attempt that failed. *)
Abbreviation Attempt := Z (only parsing).

Inductive RetryDecision : Type :=
  | Retry (after : Duration)
  | GiveUp.
#[global] Instance RetryDecision_eq_dec : EqDecision RetryDecision.
Proof. solve_decision. Defined.

Record RetryEngine : Type := {
  re_policy : RetryPolicy;
  re_backoff : BackoffPolicy;
  re_idempotent : bool
}.
Definition RetryEngine_new (policy : RetryPolicy) (idempotent : bool) : RetryEngine := {|
  re_policy := policy;
  re_backoff := backoff_of_retry policy;
  re_idempotent := idempotent
|}.

Definition decide_retry (e : RetryEngine) (attempt : Attempt) (err : InferenceError) : RetryDecision :=
  if negb (re_idempotent e) then GiveUp
  else if max_retries (re_policy e) <=? attempt then GiveUp
  else if negb (is_retryable err) then GiveUp
  else
    match err with
    | RateLimited _ (Some server_ra) =>
        if respect_retry_after (re_policy e) then Retry server_ra
        else Retry (compute_backoff (re_backoff e) attempt)
    | _ => Retry (compute_backoff (re_backoff e) attempt)
    end.

(** A failed attempt is retried exactly when the deployment is idempotent,
    attempts remain and the error is one of the four retryable kinds; the delay
    is the server's [Retry-After] when the policy respects it and the 429
    carries one, and the computed back-off otherwise. *)
Theorem decide_retry_spec (policy : RetryPolicy) (idem : bool) (attempt : Attempt)
    (err : InferenceError) (d : Duration) :
  decide_retry (RetryEngine_new policy idem) attempt err = Retry d ↔
    idem = true ∧ attempt < max_retries policy ∧ is_retryable err = true ∧
    d = match err with
        | RateLimited _ (Some ra) =>
            if respect_retry_after policy then ra
            else compute_backoff (backoff_of_retry policy) attempt
        | _ => compute_backoff (backoff_of_retry policy) attempt
        end.
Proof.
  unfold decide_retry. cbn [RetryEngine_new re_policy re_backoff re_idempotent].
  destruct idem; cbn [negb]; [|naive_solver].
  destruct (Z.leb_spec (max_retries policy) attempt); [split; [done|lia]|].
  destruct err as [p [ra|]| | | | | | | | | | | | | | | |]; cbn [is_retryable negb];
    try (split; [intros; by simplify_eq|intros (_ & _ & _ & ->); done]);
    try (split; [done|by intros (_ & _ & ? & _)]).
  destruct (respect_retry_after policy); 
    (split; [intros; by simplify_eq|intros (_ & _ & _ & ->); done]).
Qed.

Lemma decide_retry_bound policy idem attempt err d :
  decide_retry (RetryEngine_new policy idem) attempt err = Retry d → attempt < max_retries policy.
Proof.
  unfold decide_retry. cbn [RetryEngine_new re_policy re_backoff re_idempotent].
  destruct idem; cbn [negb]; [|done]. destruct (Z.leb_spec (max_retries policy) attempt); [done|lia].
Qed.
