(* ===== verification/Classify.v ===== *)
(** * HTTP status classification and [Retry-After]

    Models [inference-remote-core/src/classify.rs].  [chrono]'s RFC 2822 date
    parser and the wall clock are parameters. *)
From S2P Require Import Prelude Runtime.

Definition classify_http_status (provider : ProviderKind) (status : Z)
    (retry_after : option Duration) (body : option string) : InferenceError :=
  if status =? 429 then RateLimited provider retry_after
  else if status =? 400 then BadRequest (default "bad request" body)
  else if status =? 401 then Unauthorized (default "unauthorized" body)
  else if status =? 403 then Forbidden (default "forbidden" body)
  else if (500 <=? status) && (status <? 600) then ServerError status body
  else Internal ("unexpected status " +:+ pretty status +:+ ": " +:+ debug_option debug_str body).

(** ** [str::trim] and [str::parse::<u64>] *)

Definition is_ascii_whitespace (c : ascii) : bool :=
  let n := N_of_ascii c in ((9 <=? n) && (n <=? 13) || (n =? 32))%N.
Fixpoint trim_start (s : string) : string :=
  match s with
  | EmptyString => EmptyString
  | String c r => if is_ascii_whitespace c then trim_start r else s
  end.
Fixpoint trim_end (s : string) : string :=
  match s with
  | EmptyString => EmptyString
  | String c r =>
      let r' := trim_end r in
      if is_empty_str r' && is_ascii_whitespace c then EmptyString else String c r'
  end.
Definition trim (s : string) : string := trim_end (trim_start s).

Definition digit_val (c : ascii) : option Z :=
  let n := N_of_ascii c in
  if ((48 <=? n) && (n <=? 57))%N then Some (Z.of_N n - 48) else None.
Fixpoint parse_digits (acc : Z) (s : string) : option Z :=
  match s with
  | EmptyString => Some acc
  | String c r =>
      d ← digit_val c;
      if acc * 10 + d <=? U64_MAX then parse_digits (acc * 10 + d) r else None
  end.
Definition parse_u64 (s : string) : option Z :=
  match s with
  | EmptyString => None
  | String c r =>
      if (N_of_ascii c =? 43)%N
      then match r with EmptyString => None | _ => parse_digits 0 r end
      else parse_digits 0 s
  end.

Section retry_after.
(** [chrono::DateTime::parse_from_rfc2822(s).ok()] as a Unix timestamp. *)
Variable parse_rfc2822 : string → option Z.

Definition parse_retry_after (now : Z) (value : option string) : option Duration :=
  v ← value;
  match parse_u64 (trim v) with
  | Some secs => Some (from_secs secs)
  | None =>
      t ← parse_rfc2822 (trim v);
      if now <? t then Some (from_secs (wrap_u64 (t - now))) else None
  end.
End retry_after.

(** ** Decimal round trip *)

Lemma digit_val_pretty d :
  (d < 10)%N → digit_val (pretty_N_char d) = Some (Z.of_N d).
Proof.
  intros Hd. assert (d ∈ [0;1;2;3;4;5;6;7;8;9]%N) as Hin.
  { rewrite !elem_of_cons. lia. }
  repeat (apply elem_of_cons in Hin as [->|Hin]; [done|]). by apply elem_of_nil in Hin.
Qed.

Fixpoint all_digits (s : string) : bool :=
  match s with
  | EmptyString => true
  | String c r => bool_decide (is_Some (digit_val c)) && all_digits r
  end.

Lemma digit_not_whitespace c : is_Some (digit_val c) → is_ascii_whitespace c = false.
Proof.
  unfold digit_val, is_ascii_whitespace. cbv zeta. set (n := Ascii.N_of_ascii c).
  destruct (_ && _)%N eqn:E; [|by intros []]. intros _.
  apply andb_true_iff in E as [E1%N.leb_le E2%N.leb_le].
  apply orb_false_iff. rewrite andb_false_iff, !N.leb_gt, N.eqb_neq. lia.
Qed.
Lemma digit_not_plus c : is_Some (digit_val c) → (Ascii.N_of_ascii c =? 43)%N = false.
Proof.
  unfold digit_val. cbv zeta. set (n := Ascii.N_of_ascii c).
  destruct (_ && _)%N eqn:E; [|by intros []]. intros _.
  apply andb_true_iff in E as [E1%N.leb_le E2%N.leb_le]. apply N.eqb_neq. lia.
Qed.

Lemma trim_digits s : all_digits s = true → trim s = s.
Proof.
  intros H. unfold trim.
  assert (trim_start s = s) as ->.
  { destruct s as [|c r]; simpl in *; [done|].
    apply andb_true_iff in H as [Hc%bool_decide_eq_true _].
    by rewrite digit_not_whitespace. }
  induction s as [|c r IH]; simpl in *; [done|].
  apply andb_true_iff in H as [Hc%bool_decide_eq_true Hr].
  by rewrite IH, digit_not_whitespace, andb_false_r.
Qed.
Lemma parse_u64_digits s : all_digits s = true → s ≠ "" → parse_u64 s = parse_digits 0 s.
Proof.
  destruct s as [|c r]; simpl; [done|]. intros [Hc%bool_decide_eq_true _]%andb_true_iff _.
  by rewrite digit_not_plus.
Qed.

Lemma pretty_N_go_digits x s :
  all_digits s = true →
  all_digits (pretty_N_go x s) = true ∧ (s ≠ "" ∨ (0 < x)%N → pretty_N_go x s ≠ "").
Proof.
  revert s. induction (N.lt_wf_0 x) as [x _ IH]; intros s Hs.
  destruct (decide (0 < x)%N) as [Hx|Hx].
  - rewrite pretty_N_go_step by done.
    destruct (IH (x / 10)%N (N.div_lt x 10 Hx eq_refl)
      (String (pretty_N_char (x mod 10)) s)) as [H1 H2].
    { simpl. rewrite Hs, andb_true_r. apply bool_decide_eq_true.
      rewrite digit_val_pretty; [by eexists|]. by apply N.mod_lt. }
    split; [done|]. intros _. apply H2. by left.
  - replace x with 0%N by lia. rewrite pretty_N_go_0. split; [done|]. intros [?|?]; [done|lia].
Qed.

Lemma parse_pretty_go x s :
  Z.of_N x ≤ U64_MAX → parse_digits 0 (pretty_N_go x s) = parse_digits (Z.of_N x) s.
Proof.
  revert s. induction (N.lt_wf_0 x) as [x _ IH]; intros s Hmax.
  destruct (decide (0 < x)%N) as [Hx|Hx]; [|replace x with 0%N by lia; by rewrite pretty_N_go_0].
  rewrite pretty_N_go_step by done. pose proof (N.div_lt x 10 Hx eq_refl) as Hlt.
  rewrite IH by (done || lia). cbn [parse_digits].
  rewrite digit_val_pretty by by apply N.mod_lt. cbn [mbind option_bind].
  replace (Z.of_N (x / 10) * 10 + Z.of_N (x mod 10)) with (Z.of_N x)
    by (pose proof (N.div_mod x 10 ltac:(done)); lia).
  by rewrite (proj2 (Z.leb_le _ _)) by done.
Qed.

Lemma parse_u64_pretty n : 0 ≤ n ≤ U64_MAX → parse_u64 (trim (pretty n)) = Some n.
Proof.
  intros Hn. destruct n as [|p|p]; [done| |lia].
  change (pretty (Zpos p)) with (pretty_N_go (Npos p) "").
  destruct (pretty_N_go_digits (Npos p) "" eq_refl) as [Hd Hne].
  rewrite trim_digits, parse_u64_digits by (done || apply Hne; right; lia).
  rewrite parse_pretty_go by (cbn; lia). done.
Qed.

(** Every delta-seconds [Retry-After] header a [u64] can express is read
    back exactly, whatever the date parser and the clock say; a header that is
    neither a number nor a date in the future gives no delay. *)
Theorem parse_retry_after_spec (parse_date : string → option Z) (now n : Z) (v : string) :
  (0 ≤ n ≤ U64_MAX →
   parse_retry_after parse_date now (Some (pretty n)) = Some (from_secs n)) ∧
  (∀ d, parse_retry_after parse_date now (Some v) = Some d →
     (∃ s, parse_u64 (trim v) = Some s ∧ d = from_secs s) ∨
     (∃ t, parse_date (trim v) = Some t ∧ now < t ∧ d = from_secs (wrap_u64 (t - now)))) ∧
  parse_retry_after parse_date now None = None.
Proof.
  split_and!; [intros Hn|intros d|done]; unfold parse_retry_after; cbn [mbind option_bind].
  - by rewrite parse_u64_pretty.
  - destruct (parse_u64 (trim v)) as [s|]; [intros; simplify_eq; eauto|].
    destruct (parse_date (trim v)) as [t|]; cbn [mbind option_bind]; [|done].
    destruct (Z.ltb_spec now t); intros; simplify_eq; eauto 10.
Qed.

(** A classified status is retryable exactly for 429 and 5xx, counts
    against the circuit breaker exactly for 5xx, and a 429 keeps the server's
    [Retry-After]. *)
Theorem classify_http_status_spec (p : ProviderKind) (s : Z) (ra : option Duration)
    (body : option string) :
  let e := classify_http_status p s ra body in
  (is_retryable e = true ↔ s = 429 ∨ 500 ≤ s < 600) ∧
  (counts_as_circuit_failure e = true ↔ 500 ≤ s < 600) ∧
  (s = 429 → e = RateLimited p ra) ∧
  (500 ≤ s < 600 → e = ServerError s body).
Proof.
  unfold classify_http_status.
  destruct (Z.eqb_spec s 429); [|destruct (Z.eqb_spec s 400); [|destruct (Z.eqb_spec s 401);
    [|destruct (Z.eqb_spec s 403); [|destruct (Z.leb_spec 500 s), (Z.ltb_spec s 600)]]]];
    simpl; split_and!; try split; intros; done || lia.
Qed.
