(* ===== verification/CircuitBreaker.v ===== *)
(** * Circuit breaker

    Models [inference-remote-core/src/circuit_breaker.rs]: the shared
    [CircuitBreakerHandle] (atomics and forced-open slot), its actor wrapper,
    and [run].  Every clock reading the code takes is an argument, in the order
    the code takes it; instants are nanoseconds since the process origin. *)
From S2P Require Import Prelude Runtime.

Inductive CircuitState : Type := CS_Closed | CS_Open | CS_HalfOpen.
#[global] Instance CircuitState_eq_dec : EqDecision CircuitState.
Proof. solve_decision. Defined.

Record CircuitBreakerHandle : Type := {
  cb_provider : ProviderKind;
  cb_config : CircuitBreakerConfig;
  cb_failures : Z;                          (* AtomicU32 *)
  cb_opened_at_ns : Z;                      (* AtomicU64; 0 is "not open" *)
  cb_epoch : Instant;
  cb_forced_open_until : option Instant
}.

Definition cb_new (provider : ProviderKind) (config : CircuitBreakerConfig) (now : Instant) :
  CircuitBreakerHandle := {|
  cb_provider := provider;
  cb_config := config;
  cb_failures := 0;
  cb_opened_at_ns := 0;
  cb_epoch := now;
  cb_forced_open_until := None
|}.

(** [self.epoch.elapsed().as_nanos() as u64]. *)
Definition elapsed_ns (h : CircuitBreakerHandle) (now : Instant) : Z :=
  wrap_u64 (duration_since now (cb_epoch h)).

Definition cb_state (h : CircuitBreakerHandle) (now1 now2 : Instant) : CircuitState :=
  let tripped :=
    if cb_opened_at_ns h =? 0 then CS_Closed
    else if wrap_u64 (open_duration (cb_config h))
              <=? saturating_sub (elapsed_ns h now2) (cb_opened_at_ns h)
         then CS_HalfOpen else CS_Open in
  match cb_forced_open_until h with
  | Some until => if now1 <? until then CS_Open else tripped
  | None => tripped
  end.

(** [x as i64] of a [u64]. *)
Definition as_i64 (x : Z) : Z :=
  let y := wrap 64 x in if y <? 2 ^ 63 then y else y - 2 ^ 64.
(** [i64::saturating_sub]. *)
Definition i64_saturating_sub (a b : Z) : Z :=
  Z.max (- 2 ^ 63) (Z.min (2 ^ 63 - 1) (a - b)).

(** [check]: [utc_ms] is [chrono::Utc::now().timestamp_millis()]. *)
Definition cb_check (h : CircuitBreakerHandle) (now1 now2 : Instant) (utc_ms : Z) (now3 : Instant) :
  InferenceResult unit :=
  match cb_state h now1 now2 with
  | CS_Closed | CS_HalfOpen => Ok ()
  | CS_Open =>
      let opened_at_unix_ms :=
        wrap_u64 (i64_saturating_sub utc_ms
          (Z.quot (as_i64 (saturating_sub (elapsed_ns h now3) (cb_opened_at_ns h))) 1000000)) in
      let retry_at_unix_ms :=
        saturating_add 64 opened_at_unix_ms (wrap_u64 (as_millis (open_duration (cb_config h)))) in
      Err (CircuitOpen (cb_provider h) opened_at_unix_ms retry_at_unix_ms)
  end.

Definition set_counters (h : CircuitBreakerHandle) (failures opened : Z) : CircuitBreakerHandle := {|
  cb_provider := cb_provider h;
  cb_config := cb_config h;
  cb_failures := failures;
  cb_opened_at_ns := opened;
  cb_epoch := cb_epoch h;
  cb_forced_open_until := cb_forced_open_until h
|}.

Definition record_success (h : CircuitBreakerHandle) : CircuitBreakerHandle := set_counters h 0 0.

Definition record_failure (h : CircuitBreakerHandle) (now : Instant) : CircuitBreakerHandle :=
  let stored := wrap_u32 (cb_failures h + 1) in
  let n := wrap_u32 (cb_failures h + 1) in
  if (failure_threshold (cb_config h) <=? n) && (cb_opened_at_ns h =? 0)
  then set_counters h stored (elapsed_ns h now)
  else set_counters h stored (cb_opened_at_ns h).

(** The clock readings of one [run]: the three of [check], the wall clock, and
    the one [record_failure] takes. *)
Record RunClock : Type := {
  rc_now1 : Instant; rc_now2 : Instant; rc_utc_ms : Z; rc_now3 : Instant; rc_now4 : Instant
}.

(** [run(f)]: the gate, the call, the bookkeeping.  [f] is the awaited outcome;
    it is only consulted when the gate lets the call through. *)
Definition cb_run {T} (h : CircuitBreakerHandle) (c : RunClock) (f : unit → InferenceResult T) :
  CircuitBreakerHandle * InferenceResult T :=
  match cb_check h (rc_now1 c) (rc_now2 c) (rc_utc_ms c) (rc_now3 c) with
  | Err e => (h, Err e)
  | Ok _ =>
      match f () with
      | Ok v => (record_success h, Ok v)
      | Err e =>
          ((if counts_as_circuit_failure e then record_failure h (rc_now4 c) else h), Err e)
      end
  end.

Definition force_open (h : CircuitBreakerHandle) (now : Instant) (duration : Duration) :
  CircuitBreakerHandle := {|
  cb_provider := cb_provider h;
  cb_config := cb_config h;
  cb_failures := cb_failures h;
  cb_opened_at_ns := cb_opened_at_ns h;
  cb_epoch := cb_epoch h;
  cb_forced_open_until := Some (now + duration)
|}.

(** ** The actor wrapper *)

Inductive CircuitBreakerMsg : Type := CB_Check | CB_GetState | CB_ForceOpen (duration : Duration).
Inductive CircuitBreakerReply : Type :=
  | CBR_Check (r : InferenceResult unit)
  | CBR_State (s : CircuitState).

Definition cb_handle (h : CircuitBreakerHandle) (c : RunClock) (msg : CircuitBreakerMsg) :
  CircuitBreakerHandle * option CircuitBreakerReply :=
  match msg with
  | CB_Check => (h, Some (CBR_Check (cb_check h (rc_now1 c) (rc_now2 c) (rc_utc_ms c) (rc_now3 c))))
  | CB_GetState => (h, Some (CBR_State (cb_state h (rc_now1 c) (rc_now2 c))))
  | CB_ForceOpen d => (force_open h (rc_now1 c) d, None)
  end.

(** ** Abstract specification

    What the counters stand for: closed with a failure count, or tripped since an
    instant; and how one outcome changes that. *)

Inductive BreakerSpec : Type := SClosed (failures : Z) | STripped (since : Z).

Definition spec_success (_ : BreakerSpec) : BreakerSpec := SClosed 0.
Definition spec_failure (threshold now : Z) (s : BreakerSpec) : BreakerSpec :=
  match s with
  | SClosed n => if threshold <=? n + 1 then STripped now else SClosed (n + 1)
  | STripped since => STripped since
  end.
Definition spec_state (open_for now : Z) (s : BreakerSpec) : CircuitState :=
  match s with
  | SClosed _ => CS_Closed
  | STripped since => if open_for <=? now - since then CS_HalfOpen else CS_Open
  end.

Definition abstract (h : CircuitBreakerHandle) : BreakerSpec :=
  if cb_opened_at_ns h =? 0 then SClosed (cb_failures h)
  else STripped (cb_epoch h + cb_opened_at_ns h).

(** The clock and counter ranges under which no cast of the code wraps. *)
Definition in_range (h : CircuitBreakerHandle) (now : Instant) : Prop :=
  cb_epoch h < now ∧ now - cb_epoch h < 2 ^ 64 ∧
  0 ≤ cb_failures h < 2 ^ 32 - 1 ∧ 0 ≤ cb_opened_at_ns h ≤ now - cb_epoch h ∧
  0 ≤ open_duration (cb_config h) < 2 ^ 64 ∧ cb_forced_open_until h = None.

Lemma elapsed_in_range h now : in_range h now → elapsed_ns h now = now - cb_epoch h.
Proof.
  intros (? & ? & _). unfold elapsed_ns, duration_since, saturating_sub.
  rewrite wrap_id; unfold is_u; lia.
Qed.

Lemma abstract_state h now1 now2 :
  in_range h now2 →
  cb_state h now1 now2 = spec_state (open_duration (cb_config h)) now2 (abstract h).
Proof.
  intros Hr. pose proof (elapsed_in_range h now2 Hr) as He.
  destruct Hr as (? & ? & ? & ? & ? & Hf). unfold cb_state, abstract. rewrite Hf.
  destruct (Z.eqb_spec (cb_opened_at_ns h) 0); [done|]. cbn [spec_state].
  rewrite He. unfold saturating_sub. rewrite wrap_id by (unfold is_u; lia).
  rewrite Z.max_r by lia. by replace (now2 - _ - _) with (now2 - (cb_epoch h + cb_opened_at_ns h)) by lia.
Qed.

Lemma abstract_success h : abstract (record_success h) = spec_success (abstract h).
Proof. done. Qed.

Lemma abstract_failure h now :
  in_range h now →
  abstract (record_failure h now) = spec_failure (failure_threshold (cb_config h)) now (abstract h).
Proof.
  intros Hr. pose proof (elapsed_in_range h now Hr) as He.
  destruct Hr as (? & ? & ? & ? & ? & Hf). unfold record_failure, abstract.
  rewrite wrap_id by (unfold is_u; lia).
  destruct (Z.eqb_spec (cb_opened_at_ns h) 0) as [E|E]; cbn [spec_failure].
  - rewrite andb_true_r. destruct (failure_threshold _ <=? _); cbn; [|by rewrite E].
    rewrite He. rewrite (proj2 (Z.eqb_neq _ _)) by lia. f_equal. lia.
  - rewrite andb_false_r. cbn. by rewrite (proj2 (Z.eqb_neq _ _)).
Qed.

Lemma check_closed h c :
  cb_state h (rc_now1 c) (rc_now2 c) ≠ CS_Open →
  cb_check h (rc_now1 c) (rc_now2 c) (rc_utc_ms c) (rc_now3 c) = Ok ().
Proof. unfold cb_check. by destruct (cb_state _ _ _). Qed.

(** One [run], while no clock or counter cast wraps and no operator override is set.
    Tripped and inside the open window: the call is not made, the state is untouched and
    the caller gets [CircuitOpen].  Otherwise the callee's result is returned, a success
    resets, a countable failure counts (and trips at the threshold), and an uncounted
    error changes nothing. *)
Lemma cb_run_step {T} (h : CircuitBreakerHandle) (c : RunClock) (f : unit → InferenceResult T) :
  in_range h (rc_now2 c) → in_range h (rc_now4 c) →
  let s := abstract h in
  let '(h', r) := cb_run h c f in
  match spec_state (open_duration (cb_config h)) (rc_now2 c) s with
  | CS_Open => h' = h ∧ ∃ o t, r = Err (CircuitOpen (cb_provider h) o t)
  | _ =>
      r = f () ∧
      abstract h' =
        match f () with
        | Ok _ => spec_success s
        | Err e =>
            if counts_as_circuit_failure e
            then spec_failure (failure_threshold (cb_config h)) (rc_now4 c) s
            else s
        end
  end.
Proof.
  intros H2 H4 s. subst s. rewrite <-(abstract_state h (rc_now1 c) _ H2).
  unfold cb_run. destruct (cb_state _ _ _) eqn:E.
  - rewrite check_closed by by rewrite E. destruct (f ()) as [v|e]; [done|].
    by destruct (counts_as_circuit_failure e); rewrite ?abstract_failure.
  - unfold cb_check. rewrite E. eauto.
  - rewrite check_closed by by rewrite E. destruct (f ()) as [v|e]; [done|].
    by destruct (counts_as_circuit_failure e); rewrite ?abstract_failure.
Qed.

Definition example_config : CircuitBreakerConfig :=
  {| failure_threshold := 2; open_duration := from_millis 30; half_open_max_probes := 1 |}.
Definition example_clock (t : Instant) : RunClock :=
  {| rc_now1 := t; rc_now2 := t; rc_utc_ms := 0; rc_now3 := t; rc_now4 := t |}.

(** ** Tripping *)

(** The breaker after failures recorded at the given instants. *)
Definition fail_at (h : CircuitBreakerHandle) (ts : list Instant) : CircuitBreakerHandle :=
  foldl record_failure h ts.

Lemma fail_at_const h ts :
  cb_config (fail_at h ts) = cb_config h ∧ cb_epoch (fail_at h ts) = cb_epoch h ∧
  cb_forced_open_until (fail_at h ts) = cb_forced_open_until h.
Proof.
  unfold fail_at. revert h. induction ts as [|t ts IH]; intros h; [done|]. simpl.
  destruct (IH (record_failure h t)) as (-> & -> & ->).
  unfold record_failure. by destruct (_ && _).
Qed.

Lemma record_failure_in_range h t :
  in_range h t → cb_failures h + 1 < 2 ^ 32 - 1 →
  (∀ t', t ≤ t' → t' - cb_epoch h < 2 ^ 64 → in_range (record_failure h t) t') ∧
  cb_failures (record_failure h t) = cb_failures h + 1.
Proof.
  intros Hr Hf. pose proof (elapsed_in_range h t Hr) as He.
  destruct Hr as (? & ? & ? & ? & ? & ?).
  unfold record_failure. rewrite wrap_id by (unfold is_u; lia).
  destruct (_ && _); unfold in_range; cbn; (split; [intros t' ??; split_and!; lia || done|done]).
Qed.

Lemma fail_at_tripped h ts since :
  Forall (in_range h) ts → Sorted Z.le ts → cb_failures h + Z.of_nat (length ts) < 2 ^ 32 - 1 →
  abstract h = STripped since → abstract (fail_at h ts) = STripped since.
Proof.
  unfold fail_at. revert h. induction ts as [|t ts IH]; intros h Hr Hs Hlen Ha; [done|]. simpl in *.
  apply Forall_cons in Hr as [Ht Hts]. apply Sorted_StronglySorted in Hs as [Hs Hle]%StronglySorted_inv; [|intros ???; lia].
  destruct (record_failure_in_range h t Ht ltac:(lia)) as [Hr' Hf'].
  apply IH; [|by apply StronglySorted_Sorted|lia|].
  - rewrite Forall_forall in Hle, Hts |- *. intros x Hx. apply Hr'; [by apply Hle|].
    by destruct (Hts x Hx) as (? & ? & _).
  - rewrite abstract_failure, Ha by done. done.
Qed.

(** From a fresh breaker, [k] countable failures leave it closed while [k]
    is below the threshold; the failure that reaches the threshold trips it, and
    further failures do not move the instant it tripped at. *)
Theorem breaker_trips_at_threshold (p : ProviderKind) (cfg : CircuitBreakerConfig)
    (epoch : Instant) (ts : list Instant) :
  let h := cb_new p cfg epoch in
  Forall (in_range h) ts → Sorted Z.le ts →
  Z.of_nat (length ts) < 2 ^ 32 - 1 → 1 ≤ failure_threshold cfg →
  abstract (fail_at h ts) =
    match ts !! Z.to_nat (failure_threshold cfg - 1) with
    | None => SClosed (Z.of_nat (length ts))
    | Some t => STripped t
    end.
Proof.
  intros h Hr Hs Hlen Hthr.
  enough (∀ ts h, Forall (in_range h) ts → Sorted Z.le ts →
    cb_failures h + Z.of_nat (length ts) < 2 ^ 32 - 1 →
    cb_opened_at_ns h = 0 → cb_config h = cfg → cb_failures h < failure_threshold cfg →
    abstract (fail_at h ts) =
      match ts !! Z.to_nat (failure_threshold cfg - 1 - cb_failures h) with
      | None => SClosed (cb_failures h + Z.of_nat (length ts))
      | Some t => STripped t
      end) as Hgen.
  { rewrite (Hgen ts h) by (done || (cbn; lia)). cbn. by rewrite Z.sub_0_r. }
  clear. intros ts. induction ts as [|t ts IH]; intros h Hr Hs Hlen Ho Hcfg Hf.
  { cbn [fail_at foldl lookup list_lookup length]. unfold abstract. rewrite Ho. cbn. f_equal. lia. }
  apply Forall_cons in Hr as [Ht Hts].
  apply Sorted_StronglySorted in Hs as [Hs Hle]%StronglySorted_inv; [|intros ???; lia].
  cbn [length] in Hlen.
  destruct (record_failure_in_range h t Ht ltac:(destruct Ht as (?&?&?&_); lia)) as [Hr' Hf'].
  assert (Forall (in_range (record_failure h t)) ts) as Hts'.
  { rewrite Forall_forall in Hle, Hts |- *. intros x Hx. apply Hr'; [by apply Hle|].
    by destruct (Hts x Hx) as (? & ? & _). }
  pose proof (abstract_failure h t Ht) as Ha.
  assert (abstract h = SClosed (cb_failures h)) as E by (unfold abstract; by rewrite Ho).
  rewrite E, Hcfg in Ha. cbn [spec_failure] in Ha.
  change (fail_at h (t :: ts)) with (fail_at (record_failure h t) ts).
  destruct (Z.leb_spec (failure_threshold cfg) (cb_failures h + 1)).
  - replace (Z.to_nat (failure_threshold cfg - 1 - cb_failures h)) with 0%nat by lia.
    apply fail_at_tripped; [done|by apply StronglySorted_Sorted|lia|done].
  - replace (Z.to_nat (failure_threshold cfg - 1 - cb_failures h))
      with (S (Z.to_nat (failure_threshold cfg - 1 - cb_failures (record_failure h t)))) by lia.
    cbn [lookup list_lookup length].
    rewrite IH; [| done|by apply StronglySorted_Sorted|lia|..|lia].
    + rewrite Hf'. destruct (ts !! _); [done|]. f_equal. lia.
    + unfold abstract in Ha. by destruct (Z.eqb_spec (cb_opened_at_ns (record_failure h t)) 0).
    + unfold record_failure. by destruct (_ && _).
Qed.

Lemma breaker_trips_at_threshold_witness :
  let h := cb_new PK_OpenAi example_config 0 in
  (Forall (in_range h) [5; 6; 7] ∧ Sorted Z.le [5; 6; 7]) ∧
  abstract (fail_at h [5; 6; 7]) = STripped 6.
Proof.
  intros h.
  assert (Forall (in_range h) [5; 6; 7]) as H.
  { repeat apply Forall_cons_2; [vm_compute; split_and!; done..|apply Forall_nil_2]. }
  assert (Sorted Z.le [5; 6; 7]) as Hs by (repeat constructor; lia).
  split; [by split|].
  by apply (breaker_trips_at_threshold PK_OpenAi example_config 0 [5; 6; 7] H Hs).
Defined.

(** ** The documented breaker

    docs/architecture.md, section 3.5: closed, requests pass; open, they fail fast for the
    configured duration; half-open, one probe is let through, closes the circuit if it
    succeeds and returns it to open if it fails.  It opens after the threshold of
    consecutive failures; errors that say nothing of the provider's health change
    nothing ([counts_as_circuit_failure]). *)

Section documented.
Context {T : Type}.
(** A call: its clock readings, and what the provider would answer it. *)
Record CbCall : Type := { cl_clock : RunClock; cl_result : InferenceResult T }.
Variable cfg : CircuitBreakerConfig.

(** [None]: the call fails fast. *)
Definition documented (c : CbCall) (s : BreakerSpec) : BreakerSpec * option (InferenceResult T) :=
  let now := rc_now4 (cl_clock c) in
  match spec_state (open_duration cfg) (rc_now2 (cl_clock c)) s, cl_result c with
  | CS_Open, _ => (s, None)
  | _, Ok v => (SClosed 0, Some (Ok v))
  | CS_HalfOpen, Err e => (if counts_as_circuit_failure e then STripped now else s, Some (Err e))
  | CS_Closed, Err e =>
      (match s with
       | SClosed n =>
           if counts_as_circuit_failure e
           then if failure_threshold cfg <=? n + 1 then STripped now else SClosed (n + 1)
           else s
       | STripped _ => s
       end, Some (Err e))
  end.
Fixpoint documented_calls (calls : list CbCall) (s : BreakerSpec) : BreakerSpec * list (option (InferenceResult T)) :=
  match calls with
  | [] => (s, [])
  | c :: r => let '(s1, a) := documented c s in let '(s2, l) := documented_calls r s1 in (s2, a :: l)
  end.
(** No probe of the documented breaker fails. *)
Fixpoint probes_pass (calls : list CbCall) (s : BreakerSpec) : Prop :=
  match calls with
  | [] => True
  | c :: r =>
      (spec_state (open_duration cfg) (rc_now2 (cl_clock c)) s = CS_HalfOpen →
       ∀ e, cl_result c = Err e → counts_as_circuit_failure e = false) ∧
      probes_pass r (fst (documented c s))
  end.
(** The code, one call after the other. *)
Fixpoint cb_calls (calls : list CbCall) (h : CircuitBreakerHandle) : CircuitBreakerHandle * list (InferenceResult T) :=
  match calls with
  | [] => (h, [])
  | c :: r =>
      let '(h1, a) := cb_run h (cl_clock c) (λ _, cl_result c) in
      let '(h2, l) := cb_calls r h1 in (h2, a :: l)
  end.
(** The clock moves forward from [lo], less than 2^64 ns after the breaker was made. *)
Fixpoint timely (epoch lo : Instant) (calls : list CbCall) : Prop :=
  match calls with
  | [] => True
  | c :: r =>
      lo ≤ rc_now2 (cl_clock c) ≤ rc_now4 (cl_clock c) ∧ rc_now4 (cl_clock c) - epoch < 2 ^ 64 ∧
      timely epoch (rc_now4 (cl_clock c)) r
  end.
Definition answer_ok (p : ProviderKind) (d : option (InferenceResult T)) (r : InferenceResult T) : Prop :=
  match d with
  | None => ∃ opened_ms retry_ms, r = Err (CircuitOpen p opened_ms retry_ms)
  | Some v => r = v
  end.

Lemma in_range_later h lo now :
  in_range h lo → lo ≤ now → now - cb_epoch h < 2 ^ 64 → in_range h now.
Proof. unfold in_range. intros (? & ? & ? & ? & ? & ?) ? ?. split_and!; lia || done. Qed.
Lemma cb_run_in_range h c (f : unit → InferenceResult T) :
  in_range h (rc_now4 c) → cb_failures h + 1 < 2 ^ 32 - 1 →
  let h' := fst (cb_run h c f) in
  in_range h' (rc_now4 c) ∧ cb_failures h' ≤ cb_failures h + 1 ∧ cb_config h' = cb_config h ∧
  cb_epoch h' = cb_epoch h ∧ cb_provider h' = cb_provider h.
Proof.
  intros Hr Hf. cbv zeta. unfold cb_run. pose proof Hr as (? & ? & ? & ? & ? & ?).
  destruct (cb_check _ _ _ _ _); [|cbn; split_and!; lia || done]. destruct (f ()) as [v|e]; cbn.
  - split_and!; try done; [|lia]. unfold in_range. cbn. split_and!; lia || done.
  - destruct (counts_as_circuit_failure e); [|split_and!; lia || done].
    destruct (record_failure_in_range h (rc_now4 c) Hr Hf) as [Hin Hfs]. split_and!; [apply Hin; lia|lia|..];
      unfold record_failure; by destruct (_ && _).
Qed.
(** A call that is no failed probe does to the code what it does to the documentation. *)
Lemma cb_run_documented h c :
  in_range h (rc_now2 (cl_clock c)) → in_range h (rc_now4 (cl_clock c)) → cb_config h = cfg →
  (spec_state (open_duration cfg) (rc_now2 (cl_clock c)) (abstract h) = CS_HalfOpen →
   ∀ e, cl_result c = Err e → counts_as_circuit_failure e = false) →
  let '(h', r) := cb_run h (cl_clock c) (λ _, cl_result c) in
  let '(s', d) := documented c (abstract h) in
  abstract h' = s' ∧ answer_ok (cb_provider h) d r.
Proof.
  intros H2 H4 Hcfg Hp. pose proof (cb_run_step h (cl_clock c) (λ _, cl_result c) H2 H4) as H.
  cbv zeta in H. rewrite Hcfg in H. destruct (cb_run _ _ _) as [h' r]. unfold documented.
  destruct (spec_state _ _ _) eqn:Es.
  - destruct H as [-> ->]. destruct (cl_result c) as [v|e]; [done|]. split; [|done].
    destruct (abstract h) as [n|t]; cbn; [|by destruct (counts_as_circuit_failure e)].
    by destruct (counts_as_circuit_failure e).
  - destruct H as [-> H]. by destruct (cl_result c).
  - destruct H as [-> ->]. destruct (cl_result c) as [v|e]; [done|]. split; [|done].
    by rewrite (Hp eq_refl e eq_refl).
Qed.

(** [C7] Refinement of the documented breaker, as far as the code implements it: for calls
    made one after another on a fresh breaker, in which no half-open probe fails, the code
    answers every call as the documented breaker does - the provider's result where it
    lets the call through, [CircuitOpen] where it fails fast - and ends in the same state.
    A failed probe is excluded because there the two part: the documentation returns the
    circuit to open, the code leaves it half-open for good, see [half_open_never_reopens]
    (and the failure threshold has no window, as section 12.2 of the document wants). *)
Theorem breaker_follows_docs (p : ProviderKind) (epoch : Instant) (calls : list CbCall) :
  0 ≤ open_duration cfg < 2 ^ 64 → Z.of_nat (length calls) < 2 ^ 32 - 1 →
  timely epoch (epoch + 1) calls → probes_pass calls (SClosed 0) →
  let '(h, answers) := cb_calls calls (cb_new p cfg epoch) in
  let '(s, documented_answers) := documented_calls calls (SClosed 0) in
  abstract h = s ∧ Forall2 (answer_ok p) documented_answers answers.
Proof.
  intros Hopen Hlen Ht Hp.
  assert (∀ calls h lo, in_range h lo → cb_config h = cfg → cb_epoch h = epoch → cb_provider h = p →
    cb_failures h + Z.of_nat (length calls) < 2 ^ 32 - 1 → timely epoch lo calls →
    probes_pass calls (abstract h) →
    let '(h', answers) := cb_calls calls h in
    let '(s, l) := documented_calls calls (abstract h) in
    abstract h' = s ∧ Forall2 (answer_ok p) l answers) as Hgen.
  { clear. induction calls as [|c calls IH]; intros h lo Hr Hcfg He Hpr Hlen Ht Hp; [done|].
    cbn [length] in Hlen. destruct Ht as ([Ht1 Ht2] & Ht3 & Ht). destruct Hp as [Hp1 Hp].
    assert (in_range h (rc_now2 (cl_clock c))) as H2 by (apply (in_range_later h lo); rewrite ?He; done || lia).
    assert (in_range h (rc_now4 (cl_clock c))) as H4 by (apply (in_range_later h lo); rewrite ?He; done || lia).
    pose proof (cb_run_documented h c H2 H4 Hcfg Hp1) as Hs.
    pose proof (cb_run_in_range h (cl_clock c) (λ _, cl_result c) H4 ltac:(lia)) as (Hr' & Hf' & Hc' & He' & Hpr').
    cbn [cb_calls documented_calls]. destruct (cb_run _ _ _) as [h1 r]. cbn [fst] in *.
    destruct (documented c (abstract h)) as [s1 d]. destruct Hs as [<- Hs].
    specialize (IH h1 (rc_now4 (cl_clock c)) Hr'). rewrite Hc', He', Hpr' in IH.
    specialize (IH Hcfg He Hpr ltac:(lia) Ht Hp).
    destruct (cb_calls calls h1) as [h2 l]. destruct (documented_calls calls _) as [s2 l2].
    destruct IH as [<- IH]. split; [done|]. constructor; [by rewrite <-Hpr|done]. }
  apply (Hgen calls (cb_new p cfg epoch) (epoch + 1)); try done.
  unfold in_range. cbn. split_and!; lia || done.
Qed.
End documented.
Arguments CbCall T : clear implicits.

(** Two failures open the breaker, a call in the window fails fast, the probe after it
    succeeds and closes it. *)
Lemma breaker_follows_docs_witness :
  let call (t : Instant) (r : InferenceResult unit) : CbCall unit := {| cl_clock := example_clock t; cl_result := r |} in
  let down := Err (ServerError 503 None) in
  let calls := [call 5 down; call 6 down; call 7 (Ok ()); call (from_millis 40) (Ok ())] in
  let '(h, answers) := cb_calls calls (cb_new PK_OpenAi example_config 0) in
  abstract h = SClosed 0 ∧
  Forall2 (answer_ok PK_OpenAi) [Some down; Some down; None; Some (Ok ())] answers.
Proof.
  intros call down calls.
  exact (breaker_follows_docs example_config PK_OpenAi 0 calls
    ltac:(split; done) ltac:(done) ltac:(repeat split; done)
    ltac:(repeat split; cbn; intros; simplify_eq; done)).
Defined.

(** ** Probing *)

(** A half-open breaker never re-opens on its own: a failed probe leaves it
    half-open at every later instant, so every later call goes through whatever
    [half_open_max_probes] says, until a call succeeds. *)
Theorem half_open_never_reopens {T} (h : CircuitBreakerHandle) (c : RunClock) (e : InferenceError)
    (c' : RunClock) (f : unit → InferenceResult T) :
  in_range h (rc_now2 c) → in_range h (rc_now4 c) →
  cb_state h (rc_now1 c) (rc_now2 c) = CS_HalfOpen →
  rc_now2 c ≤ rc_now4 c ≤ rc_now2 c' → rc_now2 c' - cb_epoch h < 2 ^ 64 →
  let h' := fst (cb_run h c (λ _, Err (A:=T) e)) in
  cb_state h' (rc_now1 c') (rc_now2 c') = CS_HalfOpen ∧
  snd (cb_run h' c' f) = f ().
Proof.
  intros H2 H4 Hs Ht Hw h'.
  assert (cb_opened_at_ns h ≠ 0) as Hne.
  { intros E. rewrite (abstract_state _ _ _ H2) in Hs. unfold abstract in Hs.
    by rewrite E in Hs. }
  assert (h' = h ∨ h' = set_counters h (cb_failures h + 1) (cb_opened_at_ns h)) as Hh'.
  { unfold h', cb_run. rewrite check_closed by by rewrite Hs. cbn [fst].
    destruct (counts_as_circuit_failure e); [right|by left].
    unfold record_failure. rewrite (proj2 (Z.eqb_neq (cb_opened_at_ns h) 0)), andb_false_r by done.
    destruct H4 as (?&?&?&_). by rewrite wrap_id by (unfold is_u; lia). }
  assert (cb_state h' (rc_now1 c') (rc_now2 c') = CS_HalfOpen) as Hst.
  { assert (in_range h (rc_now2 c')) as H2' 
      by (unfold in_range in *; naive_solver lia).
    assert (cb_state h' (rc_now1 c') (rc_now2 c') = cb_state h (rc_now1 c') (rc_now2 c')) as ->
      by by destruct Hh' as [->| ->].
    rewrite (abstract_state _ _ _ H2') . rewrite (abstract_state _ _ _ H2) in Hs.
    unfold abstract in *. rewrite (proj2 (Z.eqb_neq _ _)) in * by done. cbn [spec_state] in *.
    destruct (Z.leb_spec (open_duration (cb_config h)) (rc_now2 c - (cb_epoch h + cb_opened_at_ns h)));
      [|done]. by rewrite (proj2 (Z.leb_le _ _)) by lia. }
  split; [done|]. unfold cb_run. rewrite check_closed by by rewrite Hst.
  destruct (f ()) as [v|e']; [done|]. done.
Qed.

Lemma half_open_never_reopens_witness :
  let cfg := {| failure_threshold := 1; open_duration := 10; half_open_max_probes := 1 |} in
  let h := record_failure (cb_new PK_Anthropic cfg 0) 5 in
  (cb_state h 20 20 = CS_HalfOpen) ∧
  cb_state (fst (cb_run h (example_clock 20) (λ _, Err (A:=unit) (Timeout 3)))) 21 21 = CS_HalfOpen.
Proof.
  intros cfg h. assert (cb_state h 20 20 = CS_HalfOpen) as Hs by reflexivity.
  split; [exact Hs|].
  apply (half_open_never_reopens h (example_clock 20) (Timeout 3) (example_clock 21)
           (λ _, Ok ())); vm_compute; split_and?; done.
Defined.

(** An operator's [ForceOpen] rejects every call until it expires, and then
    leaves the breaker as if it had never been forced. *)
Theorem force_open_overrides (h : CircuitBreakerHandle) (now d now1 now2 utc now3 : Z) :
  let h' := force_open h now d in
  (now1 < now + d →
     cb_state h' now1 now2 = CS_Open ∧ is_ok (cb_check h' now1 now2 utc now3) = false) ∧
  (now + d ≤ now1 → cb_forced_open_until h = None →
     cb_state h' now1 now2 = cb_state h now1 now2).
Proof.
  intros h'. split.
  - intros Hlt. assert (cb_state h' now1 now2 = CS_Open) as E.
    { unfold cb_state, h'. cbn. by rewrite (proj2 (Z.ltb_lt _ _)). }
    split; [done|]. unfold cb_check. by rewrite E.
  - intros Hle Hn. unfold cb_state, h'. cbn. rewrite Hn, (proj2 (Z.ltb_ge _ _)) by done. done.
Qed.
