(* ===== verification/RateLimit.v ===== *)
(** * Rate limiter

    Models [inference-remote-core/src/rate_limit.rs]: the fixed 60-second window,
    permit acquisition, CRDT delta merging, the read-only handle and the two actor
    wrappers.  The [GCounter] CRDT is third-party code: its operations are the
    class [GCounterOps], its documented growth laws the class [GCounterLaws]. *)
From S2P Require Import Prelude Runtime Deployment.

(** ** The CRDT interface *)

Class GCounterOps (C D : Type) : Type := {
  gc_new : C;
  gc_increment : string → Z → C → C;
  gc_merge_delta : D → C → C;
  gc_value : C → Z
}.
(** What [atomr_distributed_data::GCounter] documents: a fresh counter is zero,
    an increment adds, a merge never decreases. *)
Class GCounterLaws (C D : Type) `{GCounterOps C D} : Prop := {
  gc_value_new : gc_value gc_new = 0;
  gc_value_increment node n c : 0 ≤ n → gc_value (gc_increment node n c) = gc_value c + n;
  gc_value_merge d c : gc_value c ≤ gc_value (gc_merge_delta d c)
}.

(** ** State *)

Record Window : Type := {
  started_at : option Instant;
  w_requests : Z;
  w_tokens : Z
}.
Definition Window_default : Window := {| started_at := None; w_requests := 0; w_tokens := 0 |}.

Record Permit : Type := { p_requests : Z; p_tokens : Z }.

Section limiter.
Context {C D : Type} `{GCounterOps C D}.

Record RateLimiterActor : Type := {
  rl_node_id : string;
  rl_limits : RateLimits;
  rl_requests_counter : C;
  rl_tokens_counter : C;
  rl_window : Window
}.

Definition limiter_new (node_id : string) (limits : RateLimits) : RateLimiterActor := {|
  rl_node_id := node_id;
  rl_limits := limits;
  rl_requests_counter := gc_new;
  rl_tokens_counter := gc_new;
  rl_window := Window_default
|}.

(** [RateLimiterHandle::snapshot], through the shared window. *)
Definition snapshot (a : RateLimiterActor) : Z * Z :=
  (w_requests (rl_window a), w_tokens (rl_window a)).

Definition merge_remote_delta_requests (d : D) (a : RateLimiterActor) : RateLimiterActor := {|
  rl_node_id := rl_node_id a;
  rl_limits := rl_limits a;
  rl_requests_counter := gc_merge_delta d (rl_requests_counter a);
  rl_tokens_counter := rl_tokens_counter a;
  rl_window := rl_window a
|}.
Definition merge_remote_delta_tokens (d : D) (a : RateLimiterActor) : RateLimiterActor := {|
  rl_node_id := rl_node_id a;
  rl_limits := rl_limits a;
  rl_requests_counter := rl_requests_counter a;
  rl_tokens_counter := gc_merge_delta d (rl_tokens_counter a);
  rl_window := rl_window a
|}.

(** ** Operations; [now1] is read by [elapsed()], [now2] by the reset. *)

Definition needs_reset (a : RateLimiterActor) (now1 : Instant) : bool :=
  match started_at (rl_window a) with
  | Some started => from_secs 60 <=? duration_since now1 started
  | None => true
  end.
Definition rotate_window_if_needed (now1 now2 : Instant) (a : RateLimiterActor) : RateLimiterActor :=
  if needs_reset a now1
  then {| rl_node_id := rl_node_id a;
          rl_limits := rl_limits a;
          rl_requests_counter := gc_new;
          rl_tokens_counter := gc_new;
          rl_window := {| started_at := Some now2; w_requests := 0; w_tokens := 0 |} |}
  else a.

Definition limit_reached (what : string) (spent limit : Z) : InferenceError :=
  Backpressure (what +:+ "-per-minute limit reached (" +:+ pretty spent +:+ "/" +:+ pretty limit +:+ ")").

(** [w.spent + cost as u64 > limit], for an optional limit. *)
Definition over_limit (limit : option Z) (spent cost : Z) : option Z :=
  match limit with
  | Some l => if l <? wrap_u64 (spent + cost) then Some l else None
  | None => None
  end.

Definition acquire (now1 now2 : Instant) (requests tokens : Z) (a0 : RateLimiterActor) :
  RateLimiterActor * InferenceResult Permit :=
  let a := rotate_window_if_needed now1 now2 a0 in
  let w := rl_window a in
  match over_limit (requests_per_minute (rl_limits a)) (w_requests w) requests with
  | Some rpm => (a, Err (limit_reached "requests" (w_requests w) rpm))
  | None =>
      match over_limit (tokens_per_minute (rl_limits a)) (w_tokens w) tokens with
      | Some tpm => (a, Err (limit_reached "tokens" (w_tokens w) tpm))
      | None =>
          ({| rl_node_id := rl_node_id a;
              rl_limits := rl_limits a;
              rl_requests_counter := gc_increment (rl_node_id a) requests (rl_requests_counter a);
              rl_tokens_counter := gc_increment (rl_node_id a) tokens (rl_tokens_counter a);
              rl_window :=
                {| started_at := started_at w;
                   w_requests := wrap_u64 (w_requests w + requests);
                   w_tokens := wrap_u64 (w_tokens w + tokens) |} |},
           Ok {| p_requests := requests; p_tokens := tokens |})
      end
  end.

(** ** The actors: one message, its reply; [StrictRateLimiterActor] wraps the
    same state and calls the same [acquire]. *)

Record AcquirePermit : Type := { ap_requests : Z; ap_tokens : Z }.

Definition limiter_handle (now1 now2 : Instant) (msg : AcquirePermit) (a : RateLimiterActor) :
  RateLimiterActor * InferenceResult Permit :=
  acquire now1 now2 (ap_requests msg) (ap_tokens msg) a.

Record StrictRateLimiterActor : Type := { strict_inner : RateLimiterActor }.
Definition strict_handle (now1 now2 : Instant) (msg : AcquirePermit) (s : StrictRateLimiterActor) :
  StrictRateLimiterActor * InferenceResult Permit :=
  let '(inner, r) := acquire now1 now2 (ap_requests msg) (ap_tokens msg) (strict_inner s) in
  ({| strict_inner := inner |}, r).

(** ** Invariant: the window never holds more than its limits *)

Definition below (limit : option Z) (spent : Z) : Prop :=
  match limit with Some l => spent ≤ l | None => True end.
#[export] Instance below_dec limit spent : Decision (below limit spent).
Proof. unfold below. destruct limit; apply _. Defined.
Definition limits_ok (l : RateLimits) : Prop :=
  (∀ x, requests_per_minute l = Some x → is_u 64 x) ∧
  (∀ x, tokens_per_minute l = Some x → is_u 64 x).
Definition window_ok (a : RateLimiterActor) : Prop :=
  is_u 64 (w_requests (rl_window a)) ∧ is_u 64 (w_tokens (rl_window a)) ∧
  below (requests_per_minute (rl_limits a)) (w_requests (rl_window a)) ∧
  below (tokens_per_minute (rl_limits a)) (w_tokens (rl_window a)).

Lemma rotate_limits n1 n2 a : rl_limits (rotate_window_if_needed n1 n2 a) = rl_limits a.
Proof. unfold rotate_window_if_needed. by case_match. Qed.
Lemma acquire_limits n1 n2 r t a : rl_limits (fst (acquire n1 n2 r t a)) = rl_limits a.
Proof. unfold acquire. by repeat case_match; cbn; rewrite rotate_limits. Qed.
Lemma rotate_ok n1 n2 a :
  limits_ok (rl_limits a) → window_ok a → window_ok (rotate_window_if_needed n1 n2 a).
Proof.
  intros [Hr Ht] Hw. unfold rotate_window_if_needed. destruct (needs_reset a n1); [|done].
  unfold window_ok; cbn. unfold below, is_u in *. split_and!; try lia.
  - destruct (requests_per_minute _) as [x|]; [|done]. by destruct (Hr x eq_refl).
  - destruct (tokens_per_minute _) as [x|]; [|done]. by destruct (Ht x eq_refl).
Qed.
Lemma over_limit_None limit spent cost :
  over_limit limit spent cost = None → below limit (wrap_u64 (spent + cost)).
Proof. unfold over_limit, below. destruct limit; [|done]. by destruct (Z.ltb_spec z (wrap_u64 (spent + cost))). Qed.

Lemma acquire_ok n1 n2 r t a :
  limits_ok (rl_limits a) → window_ok a → window_ok (fst (acquire n1 n2 r t a)).
Proof.
  intros Hl Hw. pose proof (rotate_ok n1 n2 a Hl Hw) as Hrot. unfold acquire.
  destruct (over_limit _ _ r) eqn:E1; [done|]. destruct (over_limit _ _ t) eqn:E2; [done|].
  cbn. unfold window_ok. cbn. split_and!; [apply wrap_range; lia..| |];
    by apply over_limit_None.
Qed.

Lemma new_ok node l : limits_ok l → window_ok (limiter_new node l).
Proof.
  intros [Hr Ht]. unfold window_ok, below, is_u; cbn. split_and!; try lia.
  - destruct (requests_per_minute l) as [x|]; [|done]. by destruct (Hr x eq_refl).
  - destruct (tokens_per_minute l) as [x|]; [|done]. by destruct (Ht x eq_refl).
Qed.

(** ** Functional behaviour *)

(** Costs are [u32] and limits leave room for one cost below [2^64]. *)
Definition cost_ok (n : Z) : Prop := 0 ≤ n < 2 ^ 32.
Definition limits_small (l : RateLimits) : Prop :=
  (∀ x, requests_per_minute l = Some x → 0 ≤ x ≤ 2 ^ 63) ∧
  (∀ x, tokens_per_minute l = Some x → 0 ≤ x ≤ 2 ^ 63).

Lemma over_limit_spec limit spent cost :
  0 ≤ spent → spent + cost < 2 ^ 64 → 0 ≤ cost →
  (over_limit limit spent cost = None ↔ below limit (spent + cost)).
Proof.
  intros. unfold over_limit, below. destruct limit as [l|]; [|done].
  rewrite wrap_id by (unfold is_u; lia).
  destruct (Z.ltb_spec l (spent + cost)); split; done || lia.
Qed.

(** A permit is granted exactly when both costs fit under the (rotated)
    window's limits; a grant adds both costs, a refusal is a [Backpressure] that
    leaves the window as it was, so a request refused on tokens spends no
    request. *)
Theorem acquire_spec (n1 n2 r t : Z) (a : RateLimiterActor) :
  cost_ok r → cost_ok t →
  let w := rl_window (rotate_window_if_needed n1 n2 a) in
  0 ≤ w_requests w < 2 ^ 63 → 0 ≤ w_tokens w < 2 ^ 63 →
  let '(a', res) := acquire n1 n2 r t a in
  if decide (below (requests_per_minute (rl_limits a)) (w_requests w + r) ∧
             below (tokens_per_minute (rl_limits a)) (w_tokens w + t))
  then res = Ok {| p_requests := r; p_tokens := t |} ∧
       rl_window a' = {| started_at := started_at w;
                         w_requests := w_requests w + r; w_tokens := w_tokens w + t |}
  else rl_window a' = w ∧ ∃ m, res = Err (Backpressure m).
Proof.
  intros [Hr1 Hr2] [Ht1 Ht2] w Hwr Hwt. unfold acquire. rewrite rotate_limits. fold w.
  destruct (over_limit (requests_per_minute _) _ r) eqn:E1.
  { rewrite decide_False; [by split; [|eexists]|].
    intros [Hb _]. apply over_limit_spec in Hb; [congruence|lia..]. }
  destruct (over_limit (tokens_per_minute _) _ t) eqn:E2.
  { rewrite decide_False; [by split; [|eexists]|].
    intros [_ Hb]. apply over_limit_spec in Hb; [congruence|lia..]. }
  apply over_limit_spec in E1, E2; [|lia..]. rewrite decide_True by done.
  cbn. by rewrite !wrap_id by (unfold is_u; lia).
Qed.

(** ** One window *)

Record Acquisition : Type := {
  aq_now1 : Instant; aq_now2 : Instant; aq_requests : Z; aq_tokens : Z
}.
Definition acquire_step (a : RateLimiterActor) (q : Acquisition) : RateLimiterActor :=
  fst (acquire (aq_now1 q) (aq_now2 q) (aq_requests q) (aq_tokens q) a).
Fixpoint granted (a : RateLimiterActor) (qs : list Acquisition) : Z :=
  match qs with
  | [] => 0
  | q :: qs =>
      match snd (acquire (aq_now1 q) (aq_now2 q) (aq_requests q) (aq_tokens q) a) with
      | Ok p => p_requests p
      | Err _ => 0
      end + granted (acquire_step a q) qs
  end.
(** The request falls in the window that started at [s]. *)
Definition within (s : Instant) (q : Acquisition) : Prop :=
  duration_since (aq_now1 q) s < from_secs 60 ∧ cost_ok (aq_requests q) ∧ cost_ok (aq_tokens q).

Lemma rotate_within a s q :
  started_at (rl_window a) = Some s → within s q →
  rotate_window_if_needed (aq_now1 q) (aq_now2 q) a = a.
Proof.
  intros Hs [Hq _]. unfold rotate_window_if_needed, needs_reset. rewrite Hs.
  by rewrite (proj2 (Z.leb_gt _ _)).
Qed.

Lemma acquire_step_within a s q :
  started_at (rl_window a) = Some s → within s q → started_at (rl_window (acquire_step a q)) = Some s.
Proof.
  intros Hs Hq. unfold acquire_step, acquire. rewrite (rotate_within _ _ _ Hs Hq).
  by repeat case_match.
Qed.

Lemma window_sum a s qs L :
  requests_per_minute (rl_limits a) = Some L → L ≤ 2 ^ 63 → 0 ≤ w_requests (rl_window a) ≤ L →
  started_at (rl_window a) = Some s → Forall (within s) qs →
  w_requests (rl_window a) + granted a qs ≤ L.
Proof.
  intros HL HLmax. revert a HL. induction qs as [|q qs IH]; intros a HL Hw Hs Hq; simpl; [lia|].
  apply Forall_cons in Hq as [Hq Hqs].
  pose proof (acquire_step_within a s q Hs Hq) as Hs'.
  assert (requests_per_minute (rl_limits (acquire_step a q)) = Some L) as HL'.
  { unfold acquire_step. by rewrite acquire_limits. }
  specialize (IH (acquire_step a q) HL'). unfold acquire_step in *.
  destruct Hq as (Hd & [Hr1 Hr2] & [Ht1 Ht2]).
  unfold acquire in *. rewrite (rotate_within a s q Hs) in * by done. rewrite HL in *.
  destruct (over_limit (Some L) _ _) eqn:E1; [cbn in *; specialize (IH Hw Hs Hqs); lia|].
  apply over_limit_spec in E1; [|lia..]. cbn [below] in E1.
  destruct (over_limit (tokens_per_minute _) _ _) eqn:E2;
    [cbn in *; specialize (IH Hw Hs Hqs); lia|].
  cbn -[granted] in *. rewrite wrap_id in IH by (unfold is_u; lia).
  specialize (IH ltac:(lia) Hs Hqs). rewrite wrap_id in * by (unfold is_u; lia). lia.
Qed.

(** [C8] Safety of the budget: a limiter whose first request opens a window
    grants at most [requests_per_minute] requests to that window, whatever is
    asked for, in whatever order and size. *)
Theorem window_budget (node : string) (limits : RateLimits) (L : Z) (q0 : Acquisition)
    (qs : list Acquisition) :
  requests_per_minute limits = Some L → 0 ≤ L ≤ 2 ^ 63 →
  cost_ok (aq_requests q0) → cost_ok (aq_tokens q0) → Forall (within (aq_now2 q0)) qs →
  granted (limiter_new node limits) (q0 :: qs) ≤ L.
Proof.
  intros HL HLm Hr Ht Hqs.
  set (a := rotate_window_if_needed (aq_now1 q0) (aq_now2 q0) (limiter_new node limits)).
  assert (started_at (rl_window a) = Some (aq_now2 q0)) as Hs by done.
  assert (acquire (aq_now1 q0) (aq_now2 q0) (aq_requests q0) (aq_tokens q0) (limiter_new node limits)
    = acquire (aq_now2 q0) (aq_now2 q0) (aq_requests q0) (aq_tokens q0) a) as E.
  { unfold acquire.
    assert (rotate_window_if_needed (aq_now2 q0) (aq_now2 q0) a = a) as ->; [|done].
    unfold rotate_window_if_needed, needs_reset. rewrite Hs.
    by rewrite (proj2 (Z.leb_gt _ _)) by (unfold duration_since, saturating_sub, from_secs, ns_per_s; lia). }
  pose proof (window_sum a (aq_now2 q0)
    ({| aq_now1 := aq_now2 q0; aq_now2 := aq_now2 q0;
        aq_requests := aq_requests q0; aq_tokens := aq_tokens q0 |} :: qs) L HL) as Hsum.
  cbn [granted acquire_step aq_now1 aq_now2 aq_requests aq_tokens] in *.
  unfold acquire_step in *. cbn [aq_now1 aq_now2 aq_requests aq_tokens] in *. rewrite E.
  assert (w_requests (rl_window a) = 0) as Hw0 by done. rewrite Hw0 in Hsum.
  apply Hsum; [lia..|done|]. constructor; [|done]. split; [|done].
  unfold duration_since, saturating_sub, from_secs, ns_per_s; cbn; lia.
Qed.

(** The replicated counters are written and never read: merging any delta
    from another node, into either counter, changes neither the answer to any
    later request nor the window it is answered from. *)
Theorem cluster_spend_ignored (d d' : D) (n1 n2 r t : Z) (a : RateLimiterActor) :
  let a' := merge_remote_delta_requests d (merge_remote_delta_tokens d' a) in
  snd (acquire n1 n2 r t a') = snd (acquire n1 n2 r t a) ∧
  rl_window (fst (acquire n1 n2 r t a')) = rl_window (fst (acquire n1 n2 r t a)).
Proof.
  intros a'. unfold acquire, rotate_window_if_needed.
  change (needs_reset a' n1) with (needs_reset a n1).
  destruct (needs_reset a n1); cbn; by repeat case_match.
Qed.

(** The counters a node publishes cover its own window: they are exact without
    gossip, and only grow with it. *)
Definition published (a : RateLimiterActor) : Prop :=
  w_requests (rl_window a) ≤ gc_value (rl_requests_counter a) ∧
  w_tokens (rl_window a) ≤ gc_value (rl_tokens_counter a).

Context `{!GCounterLaws C D}.

(** What a node publishes always covers what it granted in its window: the
    invariant holds of a fresh limiter and survives every request, rotation and
    merge. *)
Theorem published_invariant (node : string) (l : RateLimits) (d : D) (n1 n2 r t : Z)
    (a : RateLimiterActor) :
  published (limiter_new node l) ∧
  (published a → published (merge_remote_delta_requests d a) ∧
                 published (merge_remote_delta_tokens d a)) ∧
  (published a → 0 ≤ r → 0 ≤ t → 0 ≤ w_requests (rl_window a) → 0 ≤ w_tokens (rl_window a) →
   published (fst (acquire n1 n2 r t a))).
Proof.
  unfold published. split; [|split].
  - cbn. rewrite !gc_value_new. lia.
  - cbn. intros H12. pose proof (gc_value_merge d (rl_requests_counter a)).
    pose proof (gc_value_merge d (rl_tokens_counter a)). lia.
  - intros Hp Hr Ht Hw1 Hw2. 
    assert (published (rotate_window_if_needed n1 n2 a) ∧
      0 ≤ w_requests (rl_window (rotate_window_if_needed n1 n2 a)) ∧
      0 ≤ w_tokens (rl_window (rotate_window_if_needed n1 n2 a))) as ([H1 H2] & H3 & H4).
    { unfold rotate_window_if_needed, published. destruct (needs_reset a n1); [|done].
      cbn. rewrite !gc_value_new. lia. }
    unfold acquire. destruct (over_limit _ _ r); [done|]. destruct (over_limit _ _ t); [done|].
    cbn. rewrite !gc_value_increment by done. unfold wrap.
    pose proof (Z.mod_le (w_requests (rl_window (rotate_window_if_needed n1 n2 a)) + r) (2 ^ 64)).
    pose proof (Z.mod_le (w_tokens (rl_window (rotate_window_if_needed n1 n2 a)) + t) (2 ^ 64)).
    lia.
Qed.
End limiter.
Arguments RateLimiterActor C : clear implicits.
Arguments StrictRateLimiterActor C : clear implicits.

(** ** A concrete counter, for the witnesses *)

#[export] Instance sum_counter : GCounterOps Z Z := {|
  gc_new := 0; gc_increment _ n c := c + n; gc_merge_delta d c := Z.max d c; gc_value c := c
|}.
#[export] Instance sum_counter_laws : GCounterLaws Z Z.
Proof. split; [done|done|]. intros d c. cbn. lia. Qed.

Definition example_limits : RateLimits := {|
  requests_per_minute := Some 2; tokens_per_minute := Some 100;
  concurrent_requests := None; strict := false
|}.

Lemma acquire_spec_witness :
  (cost_ok 1 ∧ cost_ok 10) ∧
  snd (acquire (C:=Z) 0 0 1 10 (limiter_new (C:=Z) (D:=Z) "a" example_limits)) =
    Ok {| p_requests := 1; p_tokens := 10 |}.
Proof.
  assert (cost_ok 1) as H1 by (unfold cost_ok; lia).
  assert (cost_ok 10) as H2 by (unfold cost_ok; lia).
  split; [done|].
  pose proof (acquire_spec (C:=Z) 0 0 1 10 (limiter_new "a" example_limits) H1 H2
    ltac:(vm_compute; done) ltac:(vm_compute; done)) as A.
  exact (proj1 A).
Defined.

Lemma window_budget_witness :
  let q t := {| aq_now1 := t; aq_now2 := t; aq_requests := 1; aq_tokens := 5 |} in
  Forall (within 3) [q 4; q 5] ∧
  granted (limiter_new (C:=Z) (D:=Z) "a" example_limits) [q 3; q 4; q 5] ≤ 2.
Proof.
  intros q. assert (Forall (within 3) [q 4; q 5]) as H.
  { repeat constructor; vm_compute; done. }
  split; [done|].
  apply (window_budget (C:=Z) "a" example_limits 2 (q 3) [q 4; q 5]);
    [done|lia|vm_compute; done|vm_compute; done|exact H].
Defined.
