(* ===== verification/Queue.v ===== *)
(** * Bounded priority queue

    Models [inference-remote-core/src/queue.rs].  The standard library's
    [BinaryHeap] is a list from which [pop] removes a greatest element of the
    request order; arrival numbers make that element unique. *)
From S2P Require Import Prelude Tokens.

Inductive Priority : Type := Prio_Background | Prio_Normal | Prio_High | Prio_Critical.
#[global] Instance Priority_eq_dec : EqDecision Priority.
Proof. solve_decision. Defined.

(** [#[derive(PartialOrd, Ord)]]: declaration order. *)
Definition priority_rank (p : Priority) : Z :=
  match p with
  | Prio_Background => 0 | Prio_Normal => 1 | Prio_High => 2 | Prio_Critical => 3
  end.
Definition priority_cmp (p q : Priority) : comparison := priority_rank p ?= priority_rank q.

(** [std::collections::BinaryHeap::pop], for an [Ord] given by [cmp]. *)
Section heap.
Context {A : Type} (cmp : A → A → comparison).

Fixpoint heap_pop (l : list A) : option (A * list A) :=
  match l with
  | [] => None
  | x :: r =>
      match heap_pop r with
      | None => Some (x, [])
      | Some (y, r') =>
          match cmp x y with Lt => Some (y, x :: r') | _ => Some (x, r) end
      end
  end.

Lemma heap_pop_None l : heap_pop l = None ↔ l = [].
Proof. destruct l as [|x r]; simpl; [done|]. by repeat case_match. Qed.
Lemma heap_pop_perm l x r : heap_pop l = Some (x, r) → l ≡ₚ x :: r.
Proof.
  revert x r. induction l as [|y l IH]; intros x r; simpl; [done|].
  destruct (heap_pop l) as [[z r']|] eqn:E.
  - specialize (IH z r' eq_refl). destruct (cmp y z); intros; simplify_eq; [done| |done].
    rewrite IH. apply Permutation_swap.
  - apply heap_pop_None in E as ->. by intros; simplify_eq.
Qed.
Lemma heap_pop_length l x r : heap_pop l = Some (x, r) → length l = S (length r).
Proof. intros H%heap_pop_perm. by rewrite H. Qed.
End heap.

Section queue.
Context {Output : Type}.

Record PriorityRequest : Type := {
  priority : Priority;
  arrival_seq : Z;
  pr_batch : ExecuteBatch;
  pr_output : Output
}.

(** [impl PartialEq for PriorityRequest]: the batch and the channel do not count. *)
Definition request_eq (a b : PriorityRequest) : bool :=
  bool_decide (priority a = priority b) && (arrival_seq a =? arrival_seq b).
(** [impl Ord for PriorityRequest]: priority first, then older first. *)
Definition request_cmp (a b : PriorityRequest) : comparison :=
  match priority_cmp (priority a) (priority b) with
  | Eq => arrival_seq b ?= arrival_seq a
  | c => c
  end.

Record RequestQueue : Type := {
  q_inner : list PriorityRequest;
  q_capacity : Z;
  q_next_seq : Z
}.

Definition queue_new (capacity : Z) : RequestQueue :=
  {| q_inner := []; q_capacity := capacity; q_next_seq := 0 |}.
Definition queue_len (q : RequestQueue) : Z := Z.of_nat (length (q_inner q)).
Definition queue_is_empty (q : RequestQueue) : bool :=
  match q_inner q with [] => true | _ => false end.
Definition queue_is_full (q : RequestQueue) : bool := q_capacity q <=? queue_len q.

Definition with_seq (r : PriorityRequest) (n : Z) : PriorityRequest := {|
  priority := priority r; arrival_seq := n; pr_batch := pr_batch r; pr_output := pr_output r
|}.

Definition queue_push (req : PriorityRequest) (q : RequestQueue) :
  RequestQueue * result PriorityRequest unit :=
  if queue_is_full q then (q, Err req)
  else ({| q_inner := q_inner q ++ [with_seq req (q_next_seq q)];
           q_capacity := q_capacity q;
           q_next_seq := wrap_u64 (q_next_seq q + 1) |}, Ok ()).

Definition queue_pop (q : RequestQueue) : RequestQueue * option PriorityRequest :=
  match heap_pop request_cmp (q_inner q) with
  | None => (q, None)
  | Some (x, rest) =>
      ({| q_inner := rest; q_capacity := q_capacity q; q_next_seq := q_next_seq q |}, Some x)
  end.

(** ** Invariant: bounded, and queued requests carry increasing arrival numbers *)

Definition queue_ok (q : RequestQueue) : Prop :=
  0 ≤ queue_len q ≤ q_capacity q ∧
  Sorted (λ a b, arrival_seq a < arrival_seq b) (q_inner q) ∧
  Forall (λ a, 0 ≤ arrival_seq a < q_next_seq q) (q_inner q).

Lemma queue_new_ok c : 0 ≤ c → queue_ok (queue_new c).
Proof. intros. unfold queue_ok, queue_len; cbn. split_and!; [lia..|constructor|constructor]. Qed.

Lemma sorted_seq_strong (l : list PriorityRequest) :
  Sorted (λ a b, arrival_seq a < arrival_seq b) l →
  StronglySorted (λ a b, arrival_seq a < arrival_seq b) l.
Proof. apply Sorted_StronglySorted. intros x y z. lia. Qed.

Lemma queue_push_ok r q :
  queue_ok q → 0 ≤ q_next_seq q → q_next_seq q + 1 < 2 ^ 64 → queue_ok (fst (queue_push r q)).
Proof.
  intros (Hlen & Hs & Hf) Hn Hw. unfold queue_push, queue_is_full.
  destruct (Z.leb_spec (q_capacity q) (queue_len q)); [done|]. cbn.
  unfold queue_ok, queue_len in *. cbn. rewrite length_app, wrap_id by (unfold is_u; lia). cbn.
  split; [lia|]. split.
  - apply StronglySorted_Sorted. apply StronglySorted_app_2; [|by apply sorted_seq_strong|repeat constructor].
    intros x y Hx Hy. apply list_elem_of_singleton in Hy as ->. cbn.
    rewrite Forall_forall in Hf. specialize (Hf x Hx). cbn in Hf. lia.
  - apply Forall_app_snoc; [|cbn; lia]. eapply Forall_impl; [exact Hf|]. cbn. lia.
Qed.

(** The popped element is the first of the highest class present. *)
Definition class_of (p : Priority) (l : list PriorityRequest) : list PriorityRequest :=
  filter (λ r, priority r = p) l.
Definition by_class (l : list PriorityRequest) : list PriorityRequest :=
  class_of Prio_Critical l ++ class_of Prio_High l ++ class_of Prio_Normal l ++
  class_of Prio_Background l.

Lemma heap_pop_sorted l x r :
  StronglySorted (λ a b, arrival_seq a < arrival_seq b) l →
  heap_pop request_cmp l = Some (x, r) →
  ∃ l1 l2, l = l1 ++ x :: l2 ∧ r = l1 ++ l2 ∧
    (∀ y, y ∈ l1 → priority_rank (priority y) < priority_rank (priority x)) ∧
    (∀ y, y ∈ l2 → priority_rank (priority y) ≤ priority_rank (priority x)).
Proof.
  revert x r. induction l as [|z l IH]; intros x r Hs; cbn; [done|].
  apply StronglySorted_inv in Hs as [Hs Hz].
  destruct (heap_pop request_cmp l) as [[y r']|] eqn:E.
  - destruct (IH y r' Hs eq_refl) as (l1 & l2 & -> & -> & H1 & H2).
    assert (arrival_seq z < arrival_seq y) as Hlt.
    { rewrite Forall_forall in Hz. apply Hz. set_solver. }
    unfold request_cmp, priority_cmp.
    destruct (Z.compare_spec (priority_rank (priority z)) (priority_rank (priority y))) as [Hc|Hc|Hc].
    + destruct (Z.compare_spec (arrival_seq y) (arrival_seq z)); [lia|lia|].
      intros; simplify_eq. exists [], (l1 ++ y :: l2). split_and!; [done..|set_solver|].
      intros w [Hw|[->|Hw]%elem_of_cons]%elem_of_app; [|lia|]; rewrite Hc; [apply H1 in Hw; lia|by apply H2].
    + intros; simplify_eq. exists (z :: l1), l2. split_and!; [done..| |done].
      intros w [->|Hw]%elem_of_cons; [done|by apply H1].
    + intros; simplify_eq. exists [], (l1 ++ y :: l2). split_and!; [done..|set_solver|].
      intros w [Hw|[->|Hw]%elem_of_cons]%elem_of_app; [apply H1 in Hw; lia|lia|apply H2 in Hw; lia].
  - apply heap_pop_None in E as ->. intros; simplify_eq. exists [], []. set_solver.
Qed.

Lemma queue_pop_ok q : queue_ok q → queue_ok (fst (queue_pop q)).
Proof.
  intros (Hlen & Hs & Hf). unfold queue_pop.
  destruct (heap_pop _ _) as [[x r]|] eqn:E; [|done]. cbn.
  pose proof (sorted_seq_strong _ Hs) as Hss.
  destruct (heap_pop_sorted _ _ _ Hss E) as (l1 & l2 & Hl & -> & _).
  pose proof (heap_pop_length _ _ _ _ E) as Hn.
  unfold queue_ok, queue_len in *. cbn. rewrite Hn in Hlen. split; [lia|]. rewrite Hl in Hss, Hf.
  split.
  - apply StronglySorted_Sorted. apply StronglySorted_app in Hss as (Hx & H1 & H2).
    apply StronglySorted_inv in H2 as [H2 _].
    apply StronglySorted_app_2; [|done|done]. intros. apply Hx; set_solver.
  - apply Forall_app in Hf as [? [_ ?]%Forall_cons]. by apply Forall_app.
Qed.
#[local] Hint Resolve queue_new_ok queue_push_ok queue_pop_ok : rust.

(** [push] refuses exactly when the queue is full, giving the request back
    untouched; otherwise it stores it with the next arrival number.  Both
    operations keep the queue within its capacity. *)
Theorem queue_push_spec (r : PriorityRequest) (q : RequestQueue) :
  queue_ok q → 0 ≤ q_next_seq q → q_next_seq q + 1 < 2 ^ 64 →
  let '(q', res) := queue_push r q in
  queue_ok q' ∧ queue_ok (fst (queue_pop q)) ∧
  if decide (queue_len q = q_capacity q)
  then res = Err r ∧ q' = q
  else res = Ok () ∧ queue_len q' = queue_len q + 1 ∧
       q_inner q' = q_inner q ++ [with_seq r (q_next_seq q)].
Proof.
  intros Hq H0 Hw. pose proof (queue_push_ok r q Hq H0 Hw) as Hok.
  pose proof (queue_pop_ok q Hq) as Hpop. pose proof Hq as (Hlen & _).
  unfold queue_push, queue_is_full in *.
  destruct (Z.leb_spec (q_capacity q) (queue_len q)).
  - rewrite decide_True by lia. done.
  - rewrite decide_False by lia. do 3 (split; [done|]). split; [|done].
    unfold queue_len. cbn. rewrite length_app. cbn. lia.
Qed.

(** ** Draining *)

Fixpoint queue_drain (fuel : nat) (q : RequestQueue) : list PriorityRequest :=
  match fuel with
  | O => []
  | S fuel' =>
      match queue_pop q with
      | (_, None) => []
      | (q', Some x) => x :: queue_drain fuel' q'
      end
  end.

Lemma class_of_app p l1 l2 : class_of p (l1 ++ l2) = class_of p l1 ++ class_of p l2.
Proof. apply filter_app. Qed.
Lemma class_of_cons p x l :
  class_of p (x :: l) = if decide (priority x = p) then x :: class_of p l else class_of p l.
Proof. unfold class_of. by rewrite list.filter_cons. Qed.
Lemma class_of_nil p l : (∀ y, y ∈ l → priority y ≠ p) → class_of p l = [].
Proof.
  induction l as [|y l IH]; intros H; [done|]. rewrite class_of_cons, decide_False; set_solver.
Qed.

(** Removing the first element of the highest class present peels [by_class]. *)
Lemma by_class_step l1 x l2 :
  (∀ y, y ∈ l1 → priority_rank (priority y) < priority_rank (priority x)) →
  (∀ y, y ∈ l2 → priority_rank (priority y) ≤ priority_rank (priority x)) →
  by_class (l1 ++ x :: l2) = x :: by_class (l1 ++ l2).
Proof.
  intros H1 H2.
  assert (∀ p, priority_rank (priority x) < priority_rank p → class_of p l1 = [] ∧ class_of p l2 = [])
    as Hhi.
  { intros p Hp. split; apply class_of_nil; intros y Hy <-.
    - specialize (H1 y Hy). lia.
    - specialize (H2 y Hy). lia. }
  assert (class_of (priority x) l1 = []) as Hx.
  { apply class_of_nil. intros y Hy E. specialize (H1 y Hy). rewrite E in H1. lia. }
  unfold by_class. rewrite !class_of_app, !class_of_cons.
  destruct (priority x) eqn:E;
    repeat match goal with
    | |- context [class_of ?p l1] =>
        let G := fresh in assert (class_of p l1 = [] ∧ class_of p l2 = []) as G by (apply Hhi; done);
        destruct G as [-> ->]
    end; rewrite ?Hx;
    repeat (rewrite decide_False by done); rewrite decide_True by done;
    repeat (rewrite decide_False by done); by rewrite ?app_nil_l.
Qed.

Lemma drain_by_class n q :
  queue_ok q → (length (q_inner q) ≤ n)%nat → queue_drain n q = by_class (q_inner q).
Proof.
  revert q. induction n as [|n IH]; intros q Hok Hn; cbn.
  - destruct (q_inner q); [done|cbn in Hn; lia].
  - pose proof (queue_pop_ok q Hok) as Hok'. destruct Hok as (_ & Hs & _).
    unfold queue_pop in *. destruct (heap_pop _ _) as [[x r]|] eqn:E.
    + destruct (heap_pop_sorted _ _ _ (sorted_seq_strong _ Hs) E) as (l1 & l2 & Hl & -> & H1 & H2).
      rewrite Hl, by_class_step by done. f_equal. rewrite IH; [done|done|].
      apply heap_pop_length in E. cbn. lia.
    + by apply heap_pop_None in E as ->.
Qed.

(** Pushing a whole list. *)
Definition push_all (rs : list PriorityRequest) (q : RequestQueue) : RequestQueue :=
  foldl (λ q r, fst (queue_push r q)) q rs.

Lemma push_all_spec rs q :
  queue_ok q → 0 ≤ q_next_seq q → q_next_seq q + Z.of_nat (length rs) < 2 ^ 64 →
  queue_len q + Z.of_nat (length rs) ≤ q_capacity q →
  queue_ok (push_all rs q) ∧
  ∃ ns, length ns = length rs ∧
    q_inner (push_all rs q) = q_inner q ++ zip_with with_seq rs ns.
Proof.
  unfold push_all. revert q. induction rs as [|r rs IH]; intros q Hok H0 Hw Hc; cbn [foldl].
  - split; [done|]. exists []. by rewrite app_nil_r.
  - cbn [length] in *. 
    pose proof (queue_push_ok r q Hok H0 ltac:(lia)) as Hok'.
    assert (queue_push r q = ({| q_inner := q_inner q ++ [with_seq r (q_next_seq q)];
      q_capacity := q_capacity q; q_next_seq := q_next_seq q + 1 |}, Ok ())) as E.
    { unfold queue_push, queue_is_full. rewrite (proj2 (Z.leb_gt _ _)) by lia.
      by rewrite wrap_id by (unfold is_u; lia). }
    rewrite E in *. cbn [fst] in *.
    destruct (IH _ Hok') as (Hok'' & ns & Hlen & Heq);
      [cbn; lia|cbn; lia|unfold queue_len in *; cbn; rewrite length_app; cbn; lia|].
    split; [done|]. exists (q_next_seq q :: ns). split; [cbn; lia|].
    rewrite Heq. cbn. by rewrite <-app_assoc.
Qed.

Lemma class_of_zip p rs ns :
  length ns = length rs →
  pr_batch <$> class_of p (zip_with with_seq rs ns) = pr_batch <$> class_of p rs.
Proof.
  revert ns. induction rs as [|r rs IH]; intros [|n ns] Hl; try done. cbn [zip_with].
  rewrite !class_of_cons. cbn [priority with_seq].
  case_decide; cbn [fmap list_fmap]; [|by apply IH; cbn in Hl; lia].
  f_equal. apply IH. cbn in Hl. lia.
Qed.

(** [C9] Scheduling order: requests pushed into an empty queue that can hold
    them come out Critical first, then High, Normal and Background, and within
    one class exactly in the order they were pushed. *)
Theorem queue_priority_fifo (rs : list PriorityRequest) (capacity : Z) :
  Z.of_nat (length rs) ≤ capacity → Z.of_nat (length rs) < 2 ^ 64 →
  pr_batch <$> queue_drain (length rs) (push_all rs (queue_new capacity)) =
  pr_batch <$> by_class rs.
Proof.
  intros Hc Hw.
  destruct (push_all_spec rs (queue_new capacity)) as (Hok & ns & Hlen & Heq);
    [apply queue_new_ok; lia|done|cbn [queue_new q_next_seq]; lia
    |unfold queue_len; cbn [queue_new q_inner q_capacity length]; lia|].
  cbn [queue_new q_inner app] in Heq.
  rewrite drain_by_class; [|done|].
  - rewrite Heq. unfold by_class. rewrite !fmap_app, !class_of_zip by done. done.
  - rewrite Heq, length_zip_with. lia.
Qed.

(** What [Eq], [PartialOrd] and [Ord] require of the three implementations: a total order,
    antisymmetric and transitive, whose [Equal] is [==]. *)
Theorem request_ord_lawful (a b c : PriorityRequest) :
  (request_eq a b = true ↔ request_cmp a b = Eq) ∧
  request_cmp b a = CompOpp (request_cmp a b) ∧
  (request_cmp a b = Lt → request_cmp b c = Lt → request_cmp a c = Lt) ∧
  (request_cmp a b = Eq → request_cmp b c = request_cmp a c).
Proof.
  unfold request_eq, request_cmp, priority_cmp.
  destruct a as [pa sa ? ?], b as [pb sb ? ?], c as [pc sc ? ?]; cbn.
  assert (∀ p q, priority_rank p = priority_rank q ↔ p = q) as Hinj by (by intros [] []).
  rewrite andb_true_iff, bool_decide_eq_true, Z.eqb_eq, <-Hinj.
  destruct (Z.compare_spec (priority_rank pa) (priority_rank pb)), (Z.compare_spec (priority_rank pb) (priority_rank pa)),
    (Z.compare_spec (priority_rank pb) (priority_rank pc)), (Z.compare_spec (priority_rank pa) (priority_rank pc)); try lia;
    (destruct (Z.compare_spec sb sa), (Z.compare_spec sa sb); try lia); subst; cbn;
    try (destruct (Z.compare_spec sc sb), (Z.compare_spec sc sa); try lia);
    split_and!; try split; intros; try done; try lia; f_equal; lia.
Qed.
End queue.
Arguments PriorityRequest Output : clear implicits.
Arguments RequestQueue Output : clear implicits.

(** ** Witnesses *)

Definition example_batch (id : string) : ExecuteBatch := {|
  request_id := id; model := "m"; messages := []; sampling := SamplingParams_default;
  stream := false; estimated_tokens_field := 1
|}.
Definition example_request (id : string) (p : Priority) : PriorityRequest unit :=
  {| priority := p; arrival_seq := 0; pr_batch := example_batch id; pr_output := () |}.

Lemma queue_push_spec_witness :
  queue_ok (queue_new (Output:=unit) 1) ∧
  queue_ok (fst (queue_push (example_request "a" Prio_High) (queue_new 1))).
Proof.
  assert (queue_ok (queue_new (Output:=unit) 1)) as H by (by apply queue_new_ok).
  split; [done|].
  apply (queue_push_spec (example_request "a" Prio_High) (queue_new 1) H); [done|done].
Defined.

Lemma queue_priority_fifo_witness :
  let rs := [example_request "n1" Prio_Normal; example_request "n2" Prio_Normal;
             example_request "h" Prio_High] in
  request_id ∘ pr_batch <$> queue_drain 3 (push_all rs (queue_new 8)) = ["h"; "n1"; "n2"].
Proof.
  intros rs.
  assert (pr_batch <$> queue_drain 3 (push_all rs (queue_new 8)) = pr_batch <$> by_class rs) as E
    by (apply (queue_priority_fifo rs 8); done).
  rewrite list_fmap_compose, E. reflexivity.
Defined.
