(* ===== verification/Worker.v ===== *)
(** * Remote worker

    Models [inference-remote-core/src/worker.rs]: permit and breaker gates, the
    retry loop, the stream pump, and dispatch with its terminal chunk and idle
    signal.  The runner is a trait object supplied by provider crates: its state
    and [execute] are parameters.  A stream is the finite list of items it
    yields before [None].  Two environments are parameters as well: the breaker's
    answer before each attempt (other workers and the clock change it) and
    whether the receiver is still there at each send. *)
From S2P Require Import Prelude F64 Runtime Deployment Tokens Backoff Queue.

Section worker.
Context {Json Runner : Type}.
Abbreviation Item := (InferenceResult (TokenChunk Json)).
Variable runner_execute : Runner → ExecuteBatch → Runner * InferenceResult (list Item).
Variable breaker_check : nat → InferenceResult unit.
Variable receiver_alive : nat → bool.

(** What the request's output channel and the timer observe. *)
Record Trace : Type := {
  tr_sent : list Item;            (* items the receiver got, oldest first *)
  tr_sends : nat;                 (* sends attempted *)
  tr_sleeps : list Duration;
  tr_executes : nat               (* calls of [execute] *)
}.
Definition Trace_empty : Trace :=
  {| tr_sent := []; tr_sends := 0; tr_sleeps := []; tr_executes := 0 |}.

(** [output.send(item).await]: the new trace, and whether it was delivered. *)
Definition send (item : Item) (t : Trace) : Trace * bool :=
  if receiver_alive (tr_sends t)
  then ({| tr_sent := tr_sent t ++ [item]; tr_sends := S (tr_sends t);
           tr_sleeps := tr_sleeps t; tr_executes := tr_executes t |}, true)
  else ({| tr_sent := tr_sent t; tr_sends := S (tr_sends t);
           tr_sleeps := tr_sleeps t; tr_executes := tr_executes t |}, false).
Definition sleep (d : Duration) (t : Trace) : Trace :=
  {| tr_sent := tr_sent t; tr_sends := tr_sends t;
     tr_sleeps := tr_sleeps t ++ [d]; tr_executes := tr_executes t |}.
Definition count_execute (t : Trace) : Trace :=
  {| tr_sent := tr_sent t; tr_sends := tr_sends t;
     tr_sleeps := tr_sleeps t; tr_executes := S (tr_executes t) |}.

(** [acquire_permit]: builds a request nobody receives and answers [Ok]. *)
Definition acquire_permit (batch : ExecuteBatch) : InferenceResult unit := Ok ().

(** [while let Some(item) = stream.next().await]. *)
Inductive PumpEnd : Type := PumpDone | PumpCancelled | PumpFailed (e : InferenceError).
Fixpoint pump (items : list Item) (t : Trace) : Trace * PumpEnd :=
  match items with
  | [] => (t, PumpDone)
  | Ok chunk :: rest =>
      let '(t', delivered) := send (Ok chunk) t in
      if delivered then pump rest t' else (t', PumpCancelled)
  | Err err :: _ => (t, PumpFailed err)
  end.

(** The ['outer] loop; [None] only when the fuel runs out. *)
Fixpoint execute_with_retries (fuel : nat) (engine : RetryEngine) (batch : ExecuteBatch)
    (attempt : Attempt) (r : Runner) (t : Trace) : option (Runner * Trace * InferenceResult unit) :=
  match fuel with
  | O => None
  | S fuel' =>
      match acquire_permit batch with
      | Err e => Some (r, t, Err e)
      | Ok _ =>
          match breaker_check (tr_executes t) with
          | Err e => Some (r, t, Err e)
          | Ok _ =>
              let '(r', res) := runner_execute r batch in
              let t1 := count_execute t in
              match res with
              | Ok items =>
                  match pump items t1 with
                  | (t2, PumpDone) | (t2, PumpCancelled) => Some (r', t2, Ok ())
                  | (t2, PumpFailed err) =>
                      match decide_retry engine attempt err with
                      | Retry d =>
                          execute_with_retries fuel' engine batch (attempt + 1) r' (sleep d t2)
                      | GiveUp => Some (r', t2, Err err)
                      end
                  end
              | Err err =>
                  match decide_retry engine attempt err with
                  | Retry d =>
                      execute_with_retries fuel' engine batch (attempt + 1) r' (sleep d t1)
                  | GiveUp => Some (r', t1, Err err)
                  end
              end
          end
      end
  end.

(** Fuel for a policy: one attempt more than its retries. *)
Definition retry_fuel (engine : RetryEngine) : nat :=
  S (Z.to_nat (max_retries (re_policy engine))).

(** [dispatch]: the final error becomes one terminal chunk, then idle. *)
Definition dispatch {O} (engine : RetryEngine) (req : PriorityRequest O) (r : Runner) :
  option (Runner * Trace * nat) :=
  '(r', t, res) ← execute_with_retries (retry_fuel engine) engine (pr_batch req) 0 r Trace_empty;
  let t' := match res with Err e => fst (send (Err e) t) | Ok _ => t end in
  Some (r', t', 1%nat (* idle signals sent *)).

(** The mailbox: [Dispatch] and [Shutdown]; the flag is [ctx.stop_self()]. *)
Inductive RemoteWorkerMsg (O : Type) : Type := RWM_Dispatch (req : PriorityRequest O) | RWM_Shutdown.
Arguments RWM_Dispatch {O}. Arguments RWM_Shutdown {O}.
Record WorkerEffects : Type := { we_trace : option Trace; we_idle : nat; we_stop : bool }.
Definition remote_worker_handle {O} (engine : RetryEngine) (msg : RemoteWorkerMsg O) (r : Runner) :
  option (Runner * WorkerEffects) :=
  match msg with
  | RWM_Dispatch req =>
      '(r', t, idles) ← dispatch engine req r;
      Some (r', {| we_trace := Some t; we_idle := idles; we_stop := false |})
  | RWM_Shutdown => Some (r, {| we_trace := None; we_idle := 0; we_stop := true |})
  end.

(** ** Lemmas *)

Lemma send_sent item t :
  ∃ cs, tr_sent (fst (send item t)) = tr_sent t ++ cs ∧ (cs = [item] ∨ cs = []) ∧
    tr_executes (fst (send item t)) = tr_executes t ∧ tr_sleeps (fst (send item t)) = tr_sleeps t.
Proof.
  unfold send. case_match; cbn; [by exists [item]; eauto|].
  exists []. rewrite app_nil_r. eauto.
Qed.

(** The pump only appends successful chunks of the stream, in stream order. *)
Lemma pump_spec items t :
  let t' := fst (pump items t) in
  tr_executes t' = tr_executes t ∧ tr_sleeps t' = tr_sleeps t ∧
  ∃ cs, tr_sent t' = tr_sent t ++ (Ok <$> cs) ∧ (Ok <$> cs) `prefix_of` items.
Proof.
  revert t. induction items as [|[c|err] items IH]; intros t; simpl.
  - split_and!; [done..|]. exists []. split; [by rewrite app_nil_r|done].
  - unfold send. destruct (receiver_alive (tr_sends t)); cbn [fst].
    + match goal with |- context [pump items ?t1] =>
        destruct (IH t1) as (-> & -> & cs & Hs & Hp) end.
      split_and!; [done..|]. exists (c :: cs). cbn [fmap list_fmap].
      rewrite Hs. cbn [tr_sent]. rewrite <-app_assoc. split; [done|by apply prefix_cons].
    + split_and!; [done..|]. exists []. rewrite app_nil_r. split; [done|apply prefix_nil].
  - split_and!; [done..|]. exists []. rewrite app_nil_r. split; [done|apply prefix_nil].
Qed.

Lemma pump_sent_ok items t :
  Forall (λ i, is_ok i = true) (tr_sent t) →
  Forall (λ i, is_ok i = true) (tr_sent (fst (pump items t))).
Proof.
  intros Ht. destruct (pump_spec items t) as (_ & _ & cs & -> & _).
  apply Forall_app_2; [done|]. apply Forall_fmap, Forall_true. done.
Qed.

Section retries.
Variables (policy : RetryPolicy) (idem : bool) (batch : ExecuteBatch).
Let engine := RetryEngine_new policy idem.

(** Enough fuel: the attempts left, plus the current one. *)
Lemma execute_total fuel attempt r t :
  max_retries policy - attempt < Z.of_nat fuel → 0 ≤ max_retries policy - attempt →
  is_Some (execute_with_retries fuel engine batch attempt r t).
Proof.
  revert attempt r t. induction fuel as [|fuel IH]; intros attempt r t Hf Ha; [lia|]. simpl.
  destruct (breaker_check _); [|done]. destruct (runner_execute r batch) as [r' [items|err]].
  - destruct (pump items _) as [t2 [| |err]]; [done..|].
    destruct (decide_retry engine attempt err) eqn:E; [|done].
    apply decide_retry_bound in E. apply IH; lia.
  - destruct (decide_retry engine attempt err) eqn:E; [|done].
    apply decide_retry_bound in E. apply IH; lia.
Qed.

(** One attempt per unit of budget, one sleep between consecutive attempts, and
    only successful chunks on the channel. *)
Lemma execute_bounds fuel attempt r t r' t' res :
  execute_with_retries fuel engine batch attempt r t = Some (r', t', res) →
  attempt ≤ max_retries policy → length (tr_sleeps t) = tr_executes t →
  Forall (λ i, is_ok i = true) (tr_sent t) →
  (tr_executes t' ≤ tr_executes t + Z.to_nat (max_retries policy - attempt) + 1)%nat ∧
  (tr_executes t' - 1 ≤ length (tr_sleeps t') ≤ tr_executes t')%nat ∧
  Forall (λ i, is_ok i = true) (tr_sent t').
Proof.
  revert attempt r t. induction fuel as [|fuel IH]; intros attempt r t; [done|]. simpl.
  intros Hex Ha Hl Hok.
  destruct (breaker_check _); [|simplify_eq; split_and!; [lia..|done]].
  destruct (runner_execute r batch) as [r1 [items|err]].
  - pose proof (pump_spec items (count_execute t)) as (Hn & Hs & _).
    pose proof (pump_sent_ok items (count_execute t) Hok) as Hok2.
    destruct (pump items _) as [t2 e] eqn:Ep; cbn [fst count_execute tr_executes tr_sleeps] in *.
    destruct e as [| |err]; [simplify_eq; rewrite Hn, Hs; split_and!; [lia..|done]..|].
    destruct (decide_retry engine attempt err) eqn:E.
    + apply decide_retry_bound in E.
      apply IH in Hex as (? & ? & ?);
        [|lia|cbn; rewrite length_app, Hs, Hn; cbn; lia|done]. cbn in *.
      split_and!; [lia..|done].
    + simplify_eq. rewrite Hn, Hs. split_and!; [lia..|done].
  - destruct (decide_retry engine attempt err) eqn:E.
    + apply decide_retry_bound in E.
      apply IH in Hex as (? & ? & ?); [|lia|cbn; rewrite length_app; cbn; lia|done]. cbn in *.
      split_and!; [lia..|done].
    + simplify_eq. cbn. split_and!; [lia..|done].
Qed.
End retries.

(** A dispatch ends, within its budget. *)
Lemma dispatch_total {O} (policy : RetryPolicy) (idem : bool) (req : PriorityRequest O) (r : Runner) :
  0 ≤ max_retries policy → is_Some (dispatch (RetryEngine_new policy idem) req r).
Proof.
  intros Hm. unfold dispatch, retry_fuel. cbn [RetryEngine_new re_policy].
  destruct (execute_total policy idem (pr_batch req) (S (Z.to_nat (max_retries policy))) 0 r Trace_empty
    ltac:(lia) ltac:(lia)) as [[[r' t'] res] ->]. done.
Qed.
(** What the client of a request that was dispatched has: chunks, then at most one error. *)
Definition well_answered (policy : RetryPolicy) (t : Trace) : Prop :=
  (tr_executes t ≤ Z.to_nat (max_retries policy) + 1)%nat ∧ (length (tr_sleeps t) ≤ tr_executes t)%nat ∧
  ∃ chunks last, tr_sent t = (Ok <$> chunks) ++ last ∧ (last = [] ∨ ∃ e, last = [Err e]).
Lemma dispatch_bounds {O} (policy : RetryPolicy) (idem : bool) (req : PriorityRequest O) (r r' : Runner) t n :
  0 ≤ max_retries policy → dispatch (RetryEngine_new policy idem) req r = Some (r', t, n) →
  n = 1%nat ∧ well_answered policy t.
Proof.
  intros Hm. unfold dispatch.
  destruct (execute_with_retries _ _ _ _ _ _) as [[[r1 t1] res]|] eqn:E; [|done].
  apply execute_bounds in E as (Hn & Hl & Hok); [|lia|done|constructor].
  rewrite Z.sub_0_r in Hn. cbn in Hn. cbn [mbind option_bind]. intros [= <- <- <-]. split; [done|].
  assert (∃ chunks, tr_sent t1 = Ok <$> chunks) as [chunks Hc].
  { clear -Hok. induction (tr_sent t1) as [|[c|e] l IH]; [by exists []| |].
    - apply Forall_cons in Hok as [_ Hok]. destruct (IH Hok) as [cs ->]. by exists (c :: cs).
    - by apply Forall_cons in Hok as [? _]. }
  unfold well_answered. destruct res as [[]|e].
  - split_and!; [lia..|]. exists chunks, []. rewrite app_nil_r. eauto.
  - destruct (send_sent (Err e) t1) as (cs & Hs & Hcs & -> & ->). split_and!; [lia..|].
    exists chunks, cs. rewrite Hs, Hc. split; [done|]. destruct Hcs; eauto.
Qed.

(** While the receiver is there, the end of the answer is definite: the last attempt's whole
    stream, or the error the last attempt ended in. *)
Definition definite (batch : ExecuteBatch) (t : Trace) : Prop :=
  ∃ pre, (∃ r0 r1 cs, runner_execute r0 batch = (r1, Ok (Ok <$> cs)) ∧ tr_sent t = pre ++ (Ok <$> cs)) ∨
         (∃ e, tr_sent t = pre ++ [Err e]).
Lemma pump_whole items t :
  (∀ n, receiver_alive n = true) →
  match pump items t with
  | (t', PumpDone) => ∃ cs, items = Ok <$> cs ∧ tr_sent t' = tr_sent t ++ (Ok <$> cs)
  | (_, PumpCancelled) => False
  | (_, PumpFailed _) => True
  end.
Proof.
  intros Hr. revert t. induction items as [|[c|e] items IH]; intros t; cbn [pump]; [|unfold send; rewrite Hr|done].
  - exists []. by rewrite app_nil_r.
  - match goal with |- context [pump items ?t1] => specialize (IH t1) end.
    destruct (pump items _) as [t' []]; [|done..]. destruct IH as (cs & -> & Hs).
    exists (c :: cs). split; [done|]. cbn in Hs. by rewrite Hs, <-app_assoc.
Qed.
Lemma execute_definite fuel engine batch attempt r t r' t' :
  (∀ n, receiver_alive n = true) →
  execute_with_retries fuel engine batch attempt r t = Some (r', t', Ok ()) → definite batch t'.
Proof.
  intros Hr. revert attempt r t. induction fuel as [|fuel IH]; intros attempt r t; [done|]. cbn.
  destruct (breaker_check _); [|done]. destruct (runner_execute r batch) as [r1 [items|err]] eqn:He.
  - pose proof (pump_whole items (count_execute t) Hr) as Hp.
    destruct (pump items _) as [t2 [| |err]]; [|done|].
    + intros [= <- <-]. destruct Hp as (cs & -> & Hs). exists (tr_sent t). left. by eauto 6.
    + case_match; [apply IH|done].
  - case_match; [apply IH|done].
Qed.
Lemma dispatch_definite {O} engine (req : PriorityRequest O) r r' t n :
  (∀ n, receiver_alive n = true) → dispatch engine req r = Some (r', t, n) → definite (pr_batch req) t.
Proof.
  intros Hr. unfold dispatch.
  destruct (execute_with_retries _ _ _ _ _ _) as [[[r1 t1] [[]|e]]|] eqn:E; [| |done]; cbn [mbind option_bind].
  - intros [= <- <- <-]. by apply (execute_definite _ _ _ _ _ _ _ _ Hr E).
  - intros [= <- <- <-]. exists (tr_sent t1). right. exists e. unfold send. by rewrite Hr.
Qed.

End worker.

(** ** A scripted runner: the list of answers it will give *)

Section script.
Context {Json : Type}.
Abbreviation Item := (InferenceResult (TokenChunk Json)).
Definition Script : Type := list (InferenceResult (list Item)).
Definition script_execute (s : Script) (b : ExecuteBatch) : Script * InferenceResult (list Item) :=
  match s with [] => ([], Ok []) | a :: s' => (s', a) end.

Lemma pump_alive (cs : list (TokenChunk Json)) tail t :
  pump (λ _, true) ((Ok <$> cs) ++ tail) t =
  pump (λ _, true) tail
    {| tr_sent := tr_sent t ++ (Ok <$> cs); tr_sends := (tr_sends t + length cs)%nat;
       tr_sleeps := tr_sleeps t; tr_executes := tr_executes t |}.
Proof.
  revert t. induction cs as [|c cs IH]; intros t; cbn [fmap list_fmap app].
  - destruct t. cbn. by rewrite app_nil_r, Nat.add_0_r.
  - cbn [pump send]. rewrite IH. cbn [tr_sent tr_sends tr_sleeps tr_executes].
    rewrite <-app_assoc. cbn. do 2 f_equal. lia.
Qed.

(** A retry after a partial stream replays it: the chunks delivered before
    a retryable mid-stream error stay delivered, and the whole stream of the next
    attempt follows, so a client sees the regenerated prefix twice. *)
Theorem retry_replays_stream {O} (policy : RetryPolicy) (req : PriorityRequest O)
    (cs1 cs2 : list (TokenChunk Json)) (err : InferenceError) :
  is_retryable err = true → 1 ≤ max_retries policy →
  ∃ t, dispatch script_execute (λ _, Ok ()) (λ _, true) (RetryEngine_new policy true) req
         [Ok ((Ok <$> cs1) ++ [Err err]); Ok (Ok <$> cs2)] = Some ([], t, 1%nat) ∧
    tr_sent t = Ok <$> cs1 ++ cs2 ∧ tr_executes t = 2%nat.
Proof.
  intros He Hm. unfold dispatch, retry_fuel. cbn [RetryEngine_new re_policy].
  replace (Z.to_nat (max_retries policy)) with (S (Z.to_nat (max_retries policy - 1))) by lia.
  assert (∃ d, decide_retry (RetryEngine_new policy true) 0 err = Retry d) as [d Hd].
  { unfold decide_retry. cbn [RetryEngine_new re_policy re_idempotent negb].
    rewrite (proj2 (Z.leb_gt _ _)), He by lia. cbn [negb]. by repeat case_match; eauto. }
  cbn [execute_with_retries acquire_permit script_execute]. rewrite pump_alive. cbn [pump].
  change {| re_policy := policy; re_backoff := _; re_idempotent := true |}
    with (RetryEngine_new policy true). rewrite Hd.
  rewrite <-(app_nil_r (Ok <$> cs2)), pump_alive. cbn [pump mbind option_bind].
  eexists. split; [done|]. cbn. by rewrite fmap_app.
Qed.
End script.

Definition example_chunk (s : string) : TokenChunk unit := {|
  c_request_id := "r"; text_delta := s; tool_call_delta := None; usage := None; finish_reason := None
|}.
Lemma retry_replays_stream_witness :
  is_retryable (ServerError 503 None) = true ∧
  ∃ t, dispatch script_execute (λ _, Ok ()) (λ _, true) (RetryEngine_new RetryPolicy_default true)
         (example_request "a" Prio_Normal)
         [Ok [Ok (example_chunk "Hel"); Err (ServerError 503 None)];
          Ok [Ok (example_chunk "Hello")]] = Some ([], t, 1%nat).
Proof.
  split; [done|].
  destruct (retry_replays_stream RetryPolicy_default (example_request "a" Prio_Normal)
    [example_chunk "Hel"] [example_chunk "Hello"] (ServerError 503 None) eq_refl ltac:(done))
    as (t & E & _).
  by exists t.
Defined.
