(* ===== verification/Engine.v ===== *)
(** * Remote engine

    Models [inference-remote-core/src/engine.rs]: the per-replica actor that owns
    the bounded priority queue and the worker pool.  Sends (a worker's mailbox,
    a request's admission channel) are the events a step emits; whether the actor
    system can spawn worker [i] is a parameter of [pre_start].  The second half
    closes the loop with the workers' mailboxes and the forwarded idle signals. *)
From S2P Require Import Prelude Runtime Deployment Tokens Queue.

Record RemoteEngineConfig : Type := {
  queue_capacity : Z;
  worker_count : Z;
  rec_on_capacity_exhausted : CapacityPolicy
}.
Definition RemoteEngineConfig_default : RemoteEngineConfig :=
  {| queue_capacity := 1024; worker_count := 8; rec_on_capacity_exhausted := Cap_Queue |}.

Record EngineMetrics : Type := {
  queued : Z; in_flight : Z; completed : Z; rejected_backpressure : Z
}.
Definition EngineMetrics_default : EngineMetrics :=
  {| queued := 0; in_flight := 0; completed := 0; rejected_backpressure := 0 |}.

Section engine.
Context {Output : Type}.

Record AddRequest : Type := {
  ar_priority : Priority; ar_batch : ExecuteBatch; ar_output : Output
}.
Inductive EngineMsg : Type := Add (r : AddRequest) | WorkerIdle.

Record WorkerEntry : Type := { addr : nat; idle : bool }.

Record RemoteEngineCoreActor : Type := {
  e_config : RemoteEngineConfig;
  e_queue : RequestQueue Output;
  e_workers : list WorkerEntry;
  e_metrics : EngineMetrics;
  e_factory : bool;                   (* the slot factory is still there *)
  e_worker_count : Z
}.

(** What leaves the actor: a request told to a worker, an admission answered. *)
Inductive EngineEvent : Type :=
  | Ev_tell (a : nat) (r : PriorityRequest Output)
  | Ev_admission (r : AddRequest) (res : InferenceResult unit).

Definition engine_new (config : RemoteEngineConfig) : RemoteEngineCoreActor := {|
  e_config := config;
  e_queue := queue_new (queue_capacity config);
  e_workers := [];
  e_metrics := EngineMetrics_default;
  e_factory := true;
  e_worker_count := worker_count config
|}.

Definition metrics_handle (e : RemoteEngineCoreActor) : EngineMetrics := e_metrics e.

Definition set_queue_metrics (e : RemoteEngineCoreActor) (q : RequestQueue Output)
    (ws : list WorkerEntry) (m : EngineMetrics) : RemoteEngineCoreActor := {|
  e_config := e_config e; e_queue := q; e_workers := ws; e_metrics := m;
  e_factory := e_factory e; e_worker_count := e_worker_count e
|}.

Definition enqueue (req : AddRequest) (e : RemoteEngineCoreActor) :
  RemoteEngineCoreActor * list EngineEvent :=
  let priority_request :=
    {| priority := ar_priority req; arrival_seq := 0; pr_batch := ar_batch req;
       pr_output := ar_output req |} in
  let m := e_metrics e in
  match queue_push priority_request (e_queue e) with
  | (q, Ok _) =>
      (set_queue_metrics e q (e_workers e)
         {| queued := wrap_u64 (queued m + 1); in_flight := in_flight m;
            completed := completed m; rejected_backpressure := rejected_backpressure m |},
       [Ev_admission req (Ok ())])
  | (q, Err _) =>
      (set_queue_metrics e q (e_workers e)
         {| queued := queued m; in_flight := in_flight m; completed := completed m;
            rejected_backpressure := wrap_u64 (rejected_backpressure m + 1) |},
       [Ev_admission req (Err (Backpressure "engine queue full"))])
  end.

(** [while !queue.is_empty()]; every round pops, so the queue's length is fuel. *)
Fixpoint try_dispatch_loop (fuel : nat) (e : RemoteEngineCoreActor) :
  RemoteEngineCoreActor * list EngineEvent :=
  match fuel with
  | O => (e, [])
  | S fuel' =>
      if queue_is_empty (e_queue e) then (e, [])
      else
        match position idle (e_workers e) with
        | None => (e, [])
        | Some idx =>
            match queue_pop (e_queue e), e_workers e !! idx with
            | (q, Some req), Some w =>
                let m := e_metrics e in
                let e1 := set_queue_metrics e q
                  (<[idx := {| addr := addr w; idle := false |}]> (e_workers e))
                  {| queued := saturating_sub (queued m) 1;
                     in_flight := wrap_u64 (in_flight m + 1);
                     completed := completed m;
                     rejected_backpressure := rejected_backpressure m |} in
                let '(e2, evs) := try_dispatch_loop fuel' e1 in
                (e2, Ev_tell (addr w) req :: evs)
            | _, _ => (e, [])
            end
        end
  end.
Definition try_dispatch (e : RemoteEngineCoreActor) : RemoteEngineCoreActor * list EngineEvent :=
  try_dispatch_loop (length (q_inner (e_queue e))) e.

(** The [WorkerIdle] arm: the first busy entry becomes idle. *)
Definition mark_idle (e : RemoteEngineCoreActor) : RemoteEngineCoreActor :=
  match position (λ w, negb (idle w)) (e_workers e) with
  | None => e
  | Some idx =>
      match e_workers e !! idx with
      | None => e
      | Some w =>
          let m := e_metrics e in
          set_queue_metrics e (e_queue e)
            (<[idx := {| addr := addr w; idle := true |}]> (e_workers e))
            {| queued := queued m; in_flight := saturating_sub (in_flight m) 1;
               completed := wrap_u64 (completed m + 1);
               rejected_backpressure := rejected_backpressure m |}
      end
  end.

Definition engine_handle (msg : EngineMsg) (e : RemoteEngineCoreActor) :
  RemoteEngineCoreActor * list EngineEvent :=
  match msg with
  | Add req =>
      let '(e1, evs1) := enqueue req e in
      let '(e2, evs2) := try_dispatch e1 in (e2, evs1 ++ evs2)
  | WorkerIdle => try_dispatch (mark_idle e)
  end.

(** [pre_start]: without a factory it only logs. *)
Definition pre_start (spawn : nat → bool) (e : RemoteEngineCoreActor) : RemoteEngineCoreActor :=
  if e_factory e then
    {| e_config := e_config e; e_queue := e_queue e;
       e_workers := e_workers e ++
         ((λ i, {| addr := i; idle := true |}) <$>
          List.filter spawn (seq 0 (Z.to_nat (e_worker_count e))));
       e_metrics := e_metrics e; e_factory := false; e_worker_count := e_worker_count e |}
  else e.

Fixpoint engine_run (msgs : list EngineMsg) (e : RemoteEngineCoreActor) :
  RemoteEngineCoreActor * list EngineEvent :=
  match msgs with
  | [] => (e, [])
  | m :: r =>
      let '(e1, evs1) := engine_handle m e in
      let '(e2, evs2) := engine_run r e1 in (e2, evs1 ++ evs2)
  end.

(** ** Invariant *)

Definition busy (e : RemoteEngineCoreActor) : nat := count_if (λ w, negb (idle w)) (e_workers e).
Definition queue_size (e : RemoteEngineCoreActor) : nat := length (q_inner (e_queue e)).

(** The counters mean what they say, and the queue respects its capacity. *)
Definition engine_ok (e : RemoteEngineCoreActor) : Prop :=
  queued (e_metrics e) = Z.of_nat (queue_size e) ∧
  in_flight (e_metrics e) = Z.of_nat (busy e) ∧
  Z.of_nat (queue_size e) ≤ q_capacity (e_queue e) < 2 ^ 64 ∧
  Z.of_nat (length (e_workers e)) < 2 ^ 32.
(** No request waits while a worker is marked idle. *)
Definition work_conserving (e : RemoteEngineCoreActor) : Prop :=
  queue_size e = 0%nat ∨ busy e = length (e_workers e).

Lemma count_position (l : list WorkerEntry) :
  position idle l = None → count_if (λ w, negb (idle w)) l = length l.
Proof.
  induction l as [|[a []] l IH]; simpl; [done|done|]. intros H%fmap_None. by rewrite IH.
Qed.
Lemma busy_insert (l : list WorkerEntry) i w b :
  l !! i = Some w → idle w = negb b →
  (count_if (λ w, negb (idle w)) (<[i := {| addr := addr w; idle := b |}]> l) + (if b then 1 else 0) =
   count_if (λ w, negb (idle w)) l + (if b then 0 else 1))%nat.
Proof.
  intros Hl Hw. pose proof (count_if_insert (λ w, negb (idle w)) l i w
    {| addr := addr w; idle := b |} Hl) as H. cbn in H. rewrite Hw in H. destruct b; cbn in H; lia.
Qed.

(** A request as its client knows it: the batch, and the channel its answer goes to. *)
Definition job (r : PriorityRequest Output) : ExecuteBatch * Output := (pr_batch r, pr_output r).
Definition dispatched (evs : list EngineEvent) : list (ExecuteBatch * Output) :=
  omap (λ ev, match ev with Ev_tell _ r => Some (job r) | _ => None end) evs.
Definition accepted (evs : list EngineEvent) : list (ExecuteBatch * Output) :=
  omap (λ ev, match ev with Ev_admission r (Ok _) => Some (ar_batch r, ar_output r) | _ => None end) evs.
Definition waiting (e : RemoteEngineCoreActor) : list (ExecuteBatch * Output) :=
  job <$> q_inner (e_queue e).

Lemma accepted_app a b : accepted (a ++ b) = accepted a ++ accepted b.
Proof. apply omap_app. Qed.
Lemma dispatched_app a b : dispatched (a ++ b) = dispatched a ++ dispatched b.
Proof. apply omap_app. Qed.

Lemma queue_is_empty_spec (q : RequestQueue Output) :
  queue_is_empty q = true ↔ length (q_inner q) = 0%nat.
Proof. unfold queue_is_empty. by destruct (q_inner q). Qed.

Lemma enqueue_spec req e :
  engine_ok e →
  let '(e', evs) := enqueue req e in
  engine_ok e' ∧ e_workers e' = e_workers e ∧ dispatched evs = [] ∧
  completed (e_metrics e') = completed (e_metrics e) ∧
  waiting e' = waiting e ++ accepted evs ∧
  (evs = [Ev_admission req (Ok ())] ∨
   evs = [Ev_admission req (Err (Backpressure "engine queue full"))] ∧ e_queue e' = e_queue e ∧
   Z.of_nat (queue_size e) = q_capacity (e_queue e)).
Proof.
  intros (Hq & Hi & Hc & Hw). unfold enqueue, queue_push, queue_is_full.
  destruct (Z.leb_spec (q_capacity (e_queue e)) (queue_len (e_queue e))) as [Hf|Hf];
    unfold engine_ok, waiting, busy, queue_size, queue_len in *; cbn.
  - split_and!; [lia..|done|done|done|by rewrite app_nil_r|]. right. split_and!; [done..|lia].
  - rewrite length_app, fmap_app. cbn. unfold wrap. rewrite Z.mod_small by lia.
    split_and!; [lia..|done|done|done|done|]. by left.
Qed.

Lemma try_dispatch_loop_spec fuel e :
  engine_ok e → (queue_size e ≤ fuel)%nat →
  let '(e', evs) := try_dispatch_loop fuel e in
  engine_ok e' ∧ work_conserving e' ∧ accepted evs = [] ∧
  dispatched evs ++ waiting e' ≡ₚ waiting e ∧
  busy e' = (busy e + length (dispatched evs))%nat ∧
  completed (e_metrics e') = completed (e_metrics e) ∧
  length (e_workers e') = length (e_workers e).
Proof.
  revert e. induction fuel as [|fuel IH]; intros e Hok Hf; cbn [try_dispatch_loop].
  { split_and!; [done|left; lia|done|done|cbn; lia|done|done]. }
  destruct (queue_is_empty (e_queue e)) eqn:Eq.
  { apply queue_is_empty_spec in Eq. split_and!; [done|by left|done|done|cbn; lia|done|done]. }
  destruct (position idle (e_workers e)) as [idx|] eqn:Ep.
  2: { split_and!; [done|right; by apply count_position|done|done|cbn; lia|done|done]. }
  apply position_Some in Ep as (w & Hw & Hidle). rewrite Hw. unfold queue_pop.
  destruct (heap_pop request_cmp (q_inner (e_queue e))) as [[req rest]|] eqn:Eh.
  2: { apply heap_pop_None in Eh. apply not_true_iff_false in Eq. exfalso. apply Eq.
       apply queue_is_empty_spec. by rewrite Eh. }
  pose proof (heap_pop_length _ _ _ _ Eh) as Hlen. pose proof (heap_pop_perm _ _ _ _ Eh) as Hperm.
  pose proof (busy_insert _ _ _ false Hw Hidle) as Hb. rewrite Nat.add_0_r in Hb.
  destruct Hok as (Hq & Hi & Hc & Hn). unfold queue_size in *.
  match goal with |- context [try_dispatch_loop fuel ?e1] => specialize (IH e1) end.
  destruct (try_dispatch_loop fuel _) as [e2 evs].
  destruct IH as (Hok2 & Hwc & Hacc & Hp & Hb2 & Hcomp & Hl2).
  { unfold engine_ok, busy, queue_size, saturating_sub, wrap in *. cbn. rewrite length_insert.
    pose proof (count_if_le_length (λ w, negb (idle w)) (e_workers e)).
    rewrite Z.mod_small by lia. split_and!; lia. }
  { unfold queue_size. cbn. lia. }
  unfold busy in *. cbn in Hp, Hb2, Hcomp, Hl2. rewrite length_insert in Hl2.
  change (dispatched (Ev_tell (addr w) req :: evs)) with (job req :: dispatched evs).
  split_and!; [done|done|done| |cbn [length]; lia|done|done].
  cbn [app]. rewrite Hp. unfold waiting. by rewrite Hperm.
Qed.

Lemma mark_idle_spec e :
  engine_ok e →
  let e' := mark_idle e in
  engine_ok e' ∧ waiting e' = waiting e ∧ length (e_workers e') = length (e_workers e) ∧
  busy e' = pred (busy e) ∧ (busy e ≠ 0%nat → completed (e_metrics e') = wrap_u64 (completed (e_metrics e) + 1)).
Proof.
  intros Hok. unfold mark_idle. destruct (position _ _) as [idx|] eqn:Ep.
  - apply position_Some in Ep as (w & Hw & Hbusy). rewrite Hw.
    apply negb_true_iff in Hbusy.
    pose proof (busy_insert _ _ _ true Hw Hbusy) as Hb.
    destruct Hok as (Hq & Hi & Hc & Hn).
    unfold engine_ok, busy, queue_size, waiting, saturating_sub in *. cbn. rewrite length_insert.
    split_and!; lia || done.
  - assert (busy e = 0%nat) as Hb0.
    { apply count_if_none. intros w Hw. by apply (position_None _ _ _ Ep). }
    rewrite Hb0. split_and!; done.
Qed.

Lemma engine_handle_spec msg e :
  engine_ok e →
  let '(e', evs) := engine_handle msg e in
  engine_ok e' ∧ work_conserving e' ∧ length (e_workers e') = length (e_workers e) ∧
  accepted evs ++ waiting e ≡ₚ dispatched evs ++ waiting e' ∧
  (busy e' + match msg with WorkerIdle => min 1 (busy e) | _ => 0 end =
   busy e + length (dispatched evs))%nat.
Proof.
  intros Hok. unfold engine_handle, try_dispatch. destruct msg as [req|].
  - pose proof (enqueue_spec req e Hok) as H. destruct (enqueue req e) as [e1 evs1].
    destruct H as (Hok1 & Hw & Hd & _ & Hwait & _).
    pose proof (try_dispatch_loop_spec (length (q_inner (e_queue e1))) e1 Hok1 ltac:(done)) as H.
    destruct (try_dispatch_loop _ e1) as [e2 evs2].
    destruct H as (Hok2 & Hwc & Hacc & Hp & Hb & _ & Hl).
    unfold busy in *. rewrite Hw in *. rewrite accepted_app, dispatched_app, Hd, Hacc, app_nil_r.
    split_and!; [done|done|done| |cbn [app]; lia].
    cbn [app]. rewrite Hp, Hwait. apply Permutation_app_comm.
  - destruct (mark_idle_spec e Hok) as (Hok1 & Hwait & Hl1 & Hb1 & _).
    pose proof (try_dispatch_loop_spec (length (q_inner (e_queue (mark_idle e)))) _ Hok1 ltac:(done)) as H.
    destruct (try_dispatch_loop _ (mark_idle e)) as [e2 evs2].
    destruct H as (Hok2 & Hwc & Hacc & Hp & Hb & _ & Hl).
    rewrite Hacc, Hp, Hwait. split_and!; [done|done|lia|done|lia].
Qed.

Lemma engine_run_spec msgs e :
  engine_ok e →
  let '(e', evs) := engine_run msgs e in
  engine_ok e' ∧ (work_conserving e → work_conserving e') ∧
  accepted evs ++ waiting e ≡ₚ dispatched evs ++ waiting e'.
Proof.
  revert e. induction msgs as [|m msgs IH]; intros e Hok; cbn [engine_run]; [done|].
  pose proof (engine_handle_spec m e Hok) as H. destruct (engine_handle m e) as [e1 evs1].
  destruct H as (Hok1 & Hwc & _ & Hp & _). specialize (IH e1 Hok1).
  destruct (engine_run msgs e1) as [e2 evs2]. destruct IH as (Hok2 & Hwc2 & Hp2).
  rewrite accepted_app, dispatched_app. split_and!; [done|auto|].
  rewrite <-!app_assoc, <-Hp2, !(Permutation_app_swap_app _ (accepted evs2)). by rewrite Hp.
Qed.

(** A started engine: [new] then [pre_start]. *)
Definition started (config : RemoteEngineConfig) (spawn : nat → bool) : RemoteEngineCoreActor :=
  pre_start spawn (engine_new config).

Lemma busy_fresh (l : list nat) :
  count_if (λ w, negb (idle w)) ((λ i, {| addr := i; idle := true |}) <$> l) = 0%nat.
Proof. by induction l. Qed.
Lemma filter_length_le {A} (f : A → bool) l : (length (List.filter f l) ≤ length l)%nat.
Proof. induction l as [|x l IH]; cbn; [done|]. case_match; cbn; lia. Qed.

Lemma started_ok config spawn :
  0 ≤ queue_capacity config < 2 ^ 64 → 0 ≤ worker_count config < 2 ^ 32 →
  engine_ok (started config spawn) ∧ work_conserving (started config spawn).
Proof.
  intros Hc Hw. unfold engine_ok, work_conserving, busy, queue_size, started. cbn.
  rewrite busy_fresh, length_fmap.
  pose proof (filter_length_le spawn (seq 0 (Z.to_nat (worker_count config)))) as Hl.
  rewrite length_seq in Hl. split_and!; [done|done|lia|lia|lia|by left].
Qed.

(** [C1] The remote engine loses and duplicates nothing: over any sequence of
    requests and idle signals, the requests it admitted, each with its own output channel,
    are exactly the ones it handed to workers plus the ones still queued; the queue never exceeds its
    capacity, [queued] and [in_flight] count the queue and the busy workers, and
    no request waits while some worker is marked idle. *)
Theorem engine_conserves (config : RemoteEngineConfig) (spawn : nat → bool)
    (msgs : list EngineMsg) :
  0 ≤ queue_capacity config < 2 ^ 64 → 0 ≤ worker_count config < 2 ^ 32 →
  let '(e, evs) := engine_run msgs (started config spawn) in
  accepted evs ≡ₚ dispatched evs ++ waiting e ∧ engine_ok e ∧ work_conserving e.
Proof.
  intros Hc Hw. destruct (started_ok config spawn Hc Hw) as [Hok Hwc].
  pose proof (engine_run_spec msgs _ Hok) as H. destruct (engine_run _ _) as [e evs].
  destruct H as (? & ? & Hp). cbn in Hp. rewrite app_nil_r in Hp. auto.
Qed.

(** ** Engine, workers and idle signals together *)

(** Mailboxes by worker address, oldest first: the head is the running request. *)
Record System : Type := {
  sys_engine : RemoteEngineCoreActor;
  sys_mail : list (list (PriorityRequest Output));
  sys_signals : nat                       (* idle signals on their way *)
}.
Inductive SystemEvent : Type :=
  | SE_Add (r : AddRequest)     (* an upstream actor adds a request *)
  | SE_Finish (a : nat)         (* worker [a] ends its running request *)
  | SE_Signal.                  (* the forwarder delivers an idle signal *)

Definition deliver_event (mail : list (list (PriorityRequest Output))) (ev : EngineEvent) :
  list (list (PriorityRequest Output)) :=
  match ev with Ev_tell a r => alter (λ l, l ++ [r]) a mail | Ev_admission _ _ => mail end.
Definition deliver (evs : list EngineEvent) (mail : list (list (PriorityRequest Output))) :=
  foldl deliver_event mail evs.

Definition system_step (ev : SystemEvent) (s : System) : System :=
  match ev with
  | SE_Add r =>
      let '(e, evs) := engine_handle (Add r) (sys_engine s) in
      {| sys_engine := e; sys_mail := deliver evs (sys_mail s); sys_signals := sys_signals s |}
  | SE_Finish a =>
      match sys_mail s !! a with
      | Some (_ :: rest) =>
          {| sys_engine := sys_engine s; sys_mail := <[a := rest]> (sys_mail s);
             sys_signals := S (sys_signals s) |}
      | _ => s
      end
  | SE_Signal =>
      match sys_signals s with
      | O => s
      | S n =>
          let '(e, evs) := engine_handle WorkerIdle (sys_engine s) in
          {| sys_engine := e; sys_mail := deliver evs (sys_mail s); sys_signals := n |}
      end
  end.
Definition system_run (evs : list SystemEvent) (s : System) : System :=
  foldl (λ s ev, system_step ev s) s evs.
Definition system_new (config : RemoteEngineConfig) : System := {|
  sys_engine := started config (λ _, true);
  sys_mail := replicate (Z.to_nat (worker_count config)) [];
  sys_signals := 0
|}.

(** Requests in the workers' hands: running or waiting in a mailbox. *)
Definition jobs (mail : list (list (PriorityRequest Output))) : nat :=
  sum_list_with length mail.

Lemma jobs_alter mail a r :
  (a < length mail)%nat → jobs (alter (λ l, l ++ [r]) a mail) = S (jobs mail).
Proof.
  revert a. induction mail as [|l mail IH]; intros [|a] Ha; cbn in *; [lia..| |].
  - rewrite length_app. cbn. lia.
  - specialize (IH a ltac:(lia)). unfold jobs, alter in IH |- *. cbn in *. lia.
Qed.
Lemma jobs_pop mail a x rest :
  mail !! a = Some (x :: rest) → jobs mail = S (jobs (<[a := rest]> mail)).
Proof.
  revert a. induction mail as [|l mail IH]; intros [|a] Ha; simplify_eq/=; [done|].
  specialize (IH a Ha). unfold jobs in IH |- *. cbn in *. lia.
Qed.

Definition tells_in (n : nat) (evs : list EngineEvent) : Prop :=
  Forall (λ ev, match ev with Ev_tell a _ => (a < n)%nat | _ => True end) evs.

Lemma deliver_spec evs mail :
  tells_in (length mail) evs →
  length (deliver evs mail) = length mail ∧
  jobs (deliver evs mail) = (jobs mail + length (dispatched evs))%nat.
Proof.
  unfold deliver. revert mail. induction evs as [|ev evs IH]; intros mail Hin; cbn [foldl].
  { cbn. lia. }
  apply Forall_cons in Hin as [Hev Hin]. destruct ev as [a r|r res]; cbn [deliver_event].
  - destruct (IH (alter (λ l, l ++ [r]) a mail)) as [-> ->].
    { by rewrite length_alter. }
    rewrite length_alter, jobs_alter by done. split; [done|].
    change (dispatched (Ev_tell a r :: evs)) with (job r :: dispatched evs). cbn [length]. lia.
  - destruct (IH mail Hin) as [-> ->]. done.
Qed.

(** Workers keep their addresses, and only they are told anything. *)
Definition addrs (e : RemoteEngineCoreActor) : list nat := addr <$> e_workers e.

Lemma addrs_insert (l : list WorkerEntry) i w b :
  l !! i = Some w → addr <$> <[i := {| addr := addr w; idle := b |}]> l = addr <$> l.
Proof.
  intros Hl. rewrite list_fmap_insert. apply list_insert_id. by rewrite list_lookup_fmap, Hl.
Qed.
Lemma try_dispatch_loop_addrs fuel e n :
  Forall (λ a, a < n)%nat (addrs e) →
  let '(e', evs) := try_dispatch_loop fuel e in addrs e' = addrs e ∧ tells_in n evs.
Proof.
  revert e. induction fuel as [|fuel IH]; intros e Ha; cbn [try_dispatch_loop];
    [split; [done|constructor]|].
  destruct (queue_is_empty _); [split; [done|constructor]|].
  destruct (position _ _) as [idx|]; [|split; [done|constructor]].
  destruct (queue_pop _) as [q [req|]]; [|split; [done|constructor]].
  destruct (e_workers e !! idx) as [w|] eqn:Hw; [|split; [done|constructor]].
  match goal with |- context [try_dispatch_loop fuel ?e1] =>
    specialize (IH e1); assert (addrs e1 = addrs e) as E by (by apply addrs_insert) end.
  rewrite E in IH. destruct (try_dispatch_loop fuel _) as [e2 evs]. destruct (IH Ha) as [-> Ht].
  split; [done|]. constructor; [|done].
  rewrite Forall_forall in Ha. apply Ha. unfold addrs. apply list_elem_of_fmap.
  exists w. split; [done|]. by eapply list_elem_of_lookup_2.
Qed.
Lemma engine_handle_addrs msg e n :
  Forall (λ a, a < n)%nat (addrs e) →
  let '(e', evs) := engine_handle msg e in addrs e' = addrs e ∧ tells_in n evs.
Proof.
  intros Ha. unfold engine_handle, try_dispatch. destruct msg as [r|].
  - assert (addrs (fst (enqueue r e)) = addrs e ∧ tells_in n (snd (enqueue r e))) as [E Ht].
    { unfold enqueue. destruct (queue_push _ _) as [q [[]|]]; split; repeat constructor. }
    destruct (enqueue r e) as [e1 evs1]. cbn [fst snd] in *.
    pose proof (try_dispatch_loop_addrs (length (q_inner (e_queue e1))) e1 n) as H.
    rewrite E in H. destruct (try_dispatch_loop _ e1) as [e2 evs2].
    destruct (H Ha) as [-> Ht2]. split; [done|by apply Forall_app].
  - assert (addrs (mark_idle e) = addrs e) as E.
    { unfold mark_idle. destruct (position _ _) as [i|]; [|done].
      destruct (e_workers e !! i) eqn:Hw; [|done]. by apply addrs_insert. }
    rewrite <-E. apply try_dispatch_loop_addrs. by rewrite E.
Qed.

Definition system_ok (s : System) : Prop :=
  engine_ok (sys_engine s) ∧
  Forall (λ a, a < length (sys_mail s))%nat (addrs (sys_engine s)) ∧
  busy (sys_engine s) = (jobs (sys_mail s) + sys_signals s)%nat.

Lemma system_step_ok ev s : system_ok s → system_ok (system_step ev s).
Proof.
  intros (Hok & Ha & Hb).
  assert (∀ msg n, sys_signals s = n + match msg with WorkerIdle => 1 | _ => 0 end →
    let '(e, evs) := engine_handle msg (sys_engine s) in
    system_ok {| sys_engine := e; sys_mail := deliver evs (sys_mail s); sys_signals := n |})%nat
    as Hmsg.
  { intros msg n Hn. pose proof (engine_handle_spec msg _ Hok) as H.
    pose proof (engine_handle_addrs msg _ _ Ha) as Had.
    destruct (engine_handle msg _) as [e evs]. destruct H as (Hok' & _ & _ & _ & Hb').
    destruct Had as [Had Ht]. destruct (deliver_spec evs _ Ht) as [Hl Hj].
    unfold system_ok. cbn [sys_engine sys_mail sys_signals]. rewrite Hl, Hj, Had.
    split_and!; [done..|]. destruct msg; lia. }
  destruct ev as [r|a|]; cbn [system_step].
  - specialize (Hmsg (Add r) (sys_signals s) ltac:(cbn; lia)). by destruct (engine_handle (Add r) _).
  - destruct (sys_mail s !! a) as [[|x rest]|] eqn:E; [done| |done].
    unfold system_ok. cbn [sys_engine sys_mail sys_signals]. rewrite length_insert. split_and!; [done..|].
    rewrite Hb, (jobs_pop _ _ _ _ E). lia.
  - destruct (sys_signals s) as [|n] eqn:E; [by unfold system_ok; rewrite E|].
    specialize (Hmsg WorkerIdle n ltac:(cbn; lia)). by destruct (engine_handle WorkerIdle _).
Qed.

Lemma system_new_ok config :
  0 ≤ queue_capacity config < 2 ^ 64 → 0 ≤ worker_count config < 2 ^ 32 →
  system_ok (system_new config).
Proof.
  intros Hc Hw. destruct (started_ok config (λ _, true) Hc Hw) as [Hok _].
  unfold system_ok, system_new, busy, addrs, jobs. cbn [sys_engine sys_mail sys_signals].
  split; [done|]. rewrite length_replicate. split.
  - cbn. rewrite <-list_fmap_compose. apply Forall_fmap. apply Forall_forall.
    intros i Hi. cbn. apply list_elem_of_In, List.filter_In in Hi as [Hi _]. apply in_seq in Hi. lia.
  - cbn. rewrite busy_fresh. induction (Z.to_nat _); cbn in *; lia.
Qed.

(** The pool's shape never changes. *)
Lemma system_step_shape ev s :
  system_ok s →
  addrs (sys_engine (system_step ev s)) = addrs (sys_engine s) ∧
  length (sys_mail (system_step ev s)) = length (sys_mail s).
Proof.
  intros (_ & Ha & _).
  destruct ev as [r|a|]; cbn [system_step].
  - pose proof (engine_handle_addrs (Add r) _ _ Ha) as H.
    destruct (engine_handle (Add r) _) as [e evs]. destruct H as [Had Ht].
    by destruct (deliver_spec _ _ Ht).
  - destruct (sys_mail s !! a) as [[|x rest]|]; [done| |done]. split; [done|apply length_insert].
  - destruct (sys_signals s); [done|].
    pose proof (engine_handle_addrs WorkerIdle _ _ Ha) as H.
    destruct (engine_handle WorkerIdle _) as [e evs]. destruct H as [Had Ht].
    by destruct (deliver_spec _ _ Ht).
Qed.
Lemma system_run_ok evs s :
  system_ok s → system_ok (system_run evs s) ∧
  addrs (sys_engine (system_run evs s)) = addrs (sys_engine s).
Proof.
  unfold system_run. revert s. induction evs as [|ev evs IH]; intros s Hs; cbn [foldl]; [done|].
  destruct (IH _ (system_step_ok ev s Hs)) as [? ->]. split; [done|].
  by apply system_step_shape.
Qed.

(** The idle signal carries no worker identity, but the counts agree in
    aggregate: in every reachable state of engine, workers and signals the
    entries marked busy are as many as the requests in the workers' hands plus
    the signals on their way; so the requests handed out never outnumber the
    workers, and a delivered signal always finds a busy entry. *)
Theorem engine_aggregate_exact (config : RemoteEngineConfig) (evs : list SystemEvent) :
  0 ≤ queue_capacity config < 2 ^ 64 → 0 ≤ worker_count config < 2 ^ 32 →
  let s := system_run evs (system_new config) in
  in_flight (e_metrics (sys_engine s)) = Z.of_nat (jobs (sys_mail s) + sys_signals s) ∧
  Z.of_nat (jobs (sys_mail s)) ≤ worker_count config ∧
  (sys_signals s ≠ 0%nat → (0 < busy (sys_engine s))%nat).
Proof.
  intros Hc Hw. cbv zeta. pose proof (system_new_ok config Hc Hw) as H0.
  destruct (system_run_ok evs _ H0) as [(Hok & _ & Hb) Ha].
  assert (Z.of_nat (length (e_workers (sys_engine (system_run evs (system_new config))))) ≤
    worker_count config) as Hl.
  { apply (f_equal length) in Ha. revert Ha. unfold addrs at 1 2. rewrite length_fmap. intros ->.
    cbn. rewrite !length_fmap.
    pose proof (filter_length_le (λ _ : nat, true) (seq 0 (Z.to_nat (worker_count config)))) as Hf.
    rewrite length_seq in Hf. lia. }
  destruct Hok as (_ & Hi & _ & _). rewrite Hi, Hb.
  pose proof (count_if_le_length (λ w, negb (idle w))
    (e_workers (sys_engine (system_run evs (system_new config))))) as Hle.
  unfold busy in Hb. split_and!; lia.
Qed.

(** The mailboxes and what each holds, as request ids. *)
Definition mail_ids (s : System) : list (list string) :=
  (fmap (M:=list) (λ r, request_id (pr_batch r))) <$> sys_mail s.

(** Dispatch can still pick a busy worker: with two workers, if the second
    one ends its request first, the signal marks the first one idle, and the next
    request queues behind the running one while the second worker has nothing. *)
Theorem idle_signal_misattributed (config : RemoteEngineConfig) (a b c : AddRequest) :
  1 ≤ queue_capacity config → worker_count config = 2 →
  let id r := request_id (ar_batch r) in
  let s := system_run [SE_Add a; SE_Add b; SE_Finish 1; SE_Signal; SE_Add c] (system_new config) in
  mail_ids s = [[id a; id c]; []] ∧ idle <$> e_workers (sys_engine s) = [false; false].
Proof.
  destruct config as [[|p|p] w cap]; cbn [queue_capacity worker_count]; intros Hc ->; [lia| |lia].
  split; vm_compute; reflexivity.
Qed.
End engine.
Arguments AddRequest Output : clear implicits.
Arguments EngineMsg Output : clear implicits.

Definition example_add (id : string) (p : Priority) : AddRequest unit :=
  {| ar_priority := p; ar_batch := example_batch id; ar_output := () |}.
Definition example_config : RemoteEngineConfig :=
  {| queue_capacity := 1; worker_count := 2; rec_on_capacity_exhausted := Cap_Queue |}.

Lemma engine_conserves_witness :
  let msgs := [Add (example_add "a" Prio_Normal); Add (example_add "b" Prio_Normal);
               Add (example_add "c" Prio_Normal); Add (example_add "d" Prio_Normal)] in
  let '(e, evs) := engine_run msgs (started example_config (λ _, true)) in
  (λ j, request_id (fst j)) <$> accepted evs = ["a"; "b"; "c"] ∧ accepted evs ≡ₚ dispatched evs ++ waiting e.
Proof.
  intros msgs. pose proof (engine_conserves example_config (λ _, true) msgs ltac:(done) ltac:(done)) as H.
  destruct (engine_run msgs _) as [e evs] eqn:E. destruct H as (Hp & _). split; [|done].
  replace evs with (snd (engine_run msgs (started example_config (λ _, true)))) by (by rewrite E).
  reflexivity.
Defined.
Lemma engine_aggregate_exact_witness :
  let s := system_run [SE_Add (example_add "a" Prio_Normal); SE_Finish 0] (system_new example_config) in
  jobs (sys_mail s) = 0%nat ∧ sys_signals s = 1%nat ∧ (0 < busy (sys_engine s))%nat.
Proof.
  intros s. split; [reflexivity|]. split; [reflexivity|].
  apply (engine_aggregate_exact example_config
    [SE_Add (example_add "a" Prio_Normal); SE_Finish 0] ltac:(done) ltac:(done)). done.
Defined.
Lemma idle_signal_misattributed_witness :
  mail_ids (system_run [SE_Add (example_add "a" Prio_Normal); SE_Add (example_add "b" Prio_Normal);
    SE_Finish 1; SE_Signal; SE_Add (example_add "c" Prio_Normal)] (system_new example_config)) =
  [["a"; "c"]; []].
Proof.
  apply (idle_signal_misattributed example_config (example_add "a" Prio_Normal)
    (example_add "b" Prio_Normal) (example_add "c" Prio_Normal)); done.
Defined.
