(* ===== verification/Remote.v ===== *)
(** * The remote path end to end

    Composes [Engine] (engine.rs: the queue, the pool, the forwarder of idle signals) with
    [Worker] (worker.rs: the retry loop of every worker on its own runner), as
    [RemoteEngineCoreActor::pre_start] of [inference-remote-core/src/engine.rs] wires them.
    An event is a request that arrives, a worker that handles the head of its mailbox, or an
    idle signal that is forwarded; a run is any sequence of events. *)
From S2P Require Import Prelude Runtime Deployment Tokens Backoff CircuitBreaker Queue Worker Engine.

Section remote.
Context {Json Runner Output : Type}.
Abbreviation Item := (InferenceResult (TokenChunk Json)) (only parsing).
Variable runner_execute : Runner → ExecuteBatch → Runner * InferenceResult (list Item).
(** The environment of each dispatch, by its number: the breaker's answers, and whether the
    client's receiver is still there at each send. *)
Variable breaker_check : nat → nat → InferenceResult unit.
Variable receiver_alive : nat → nat → bool.
Variables (policy : RetryPolicy) (idem : bool).

(** The engine with its mailboxes, the runner of each worker's slot, the admissions answered
    and the requests handled with what their clients received, oldest first. *)
Record Remote : Type := {
  rm_sys : System (Output := Output);
  rm_runners : list Runner;
  rm_answers : list (AddRequest Output * InferenceResult unit);
  rm_done : list (PriorityRequest Output * Trace (Json := Json))
}.
Inductive RemoteEvent : Type := RE_Add (r : AddRequest Output) | RE_Work (a : nat) | RE_Signal.

Definition answers (evs : list (EngineEvent (Output := Output))) : list (AddRequest Output * InferenceResult unit) :=
  omap (λ ev, match ev with Ev_admission r res => Some (r, res) | Ev_tell _ _ => None end) evs.
(** One [WorkerMsg::Dispatch]: the request leaves the mailbox, its trace is its client's, and
    the idle signals [dispatch] sent are on their way. *)
Definition remote_work (a : nat) (s : Remote) : Remote :=
  let sys := rm_sys s in
  match sys_mail sys !! a, rm_runners s !! a with
  | Some (req :: rest), Some r =>
      let k := length (rm_done s) in
      match dispatch runner_execute (breaker_check k) (receiver_alive k) (RetryEngine_new policy idem) req r with
      | Some (r', t, idles) => {|
          rm_sys := {| sys_engine := sys_engine sys; sys_mail := <[a := rest]> (sys_mail sys);
                       sys_signals := (idles + sys_signals sys)%nat |};
          rm_runners := <[a := r']> (rm_runners s);
          rm_answers := rm_answers s;
          rm_done := rm_done s ++ [(req, t)] |}
      | None => s
      end
  | _, _ => s
  end.
Definition remote_step (ev : RemoteEvent) (s : Remote) : Remote :=
  match ev with
  | RE_Add r => {|
      rm_sys := system_step (SE_Add r) (rm_sys s); rm_runners := rm_runners s;
      rm_answers := rm_answers s ++ answers (snd (engine_handle (Add r) (sys_engine (rm_sys s))));
      rm_done := rm_done s |}
  | RE_Work a => remote_work a s
  | RE_Signal => {|
      rm_sys := system_step SE_Signal (rm_sys s); rm_runners := rm_runners s;
      rm_answers := rm_answers s; rm_done := rm_done s |}
  end.
Definition remote_run (evs : list RemoteEvent) (s : Remote) : Remote := foldl (λ s ev, remote_step ev s) s evs.
(** [pre_start]: a slot, hence a runner, per worker. *)
Definition remote_new (config : RemoteEngineConfig) (runners : list Runner) : Remote := {|
  rm_sys := system_new config; rm_runners := runners; rm_answers := []; rm_done := []
|}.

(** The requests that were admitted, and where they are. *)
Definition admitted (s : Remote) : list (ExecuteBatch * Output) :=
  omap (λ a, match a with (r, Ok _) => Some (ar_batch r, ar_output r) | _ => None end) (rm_answers s).
Definition answered (s : Remote) : list (ExecuteBatch * Output) := (λ d, job (fst d)) <$> rm_done s.
Definition in_mail (mail : list (list (PriorityRequest Output))) : list (ExecuteBatch * Output) :=
  job <$> concat mail.

(** ** Mailboxes *)

Lemma in_mail_alter mail a r : (a < length mail)%nat →
  in_mail (alter (λ l, l ++ [r]) a mail) ≡ₚ job r :: in_mail mail.
Proof.
  unfold in_mail. revert a. induction mail as [|l mail IH]; intros [|a] Ha; cbn in Ha; [lia..| |].
  - cbn. rewrite <-app_assoc, !fmap_app. cbn. by rewrite Permutation_middle.
  - change (alter _ (S a) (l :: mail)) with (l :: alter (λ l, l ++ [r]) a mail). cbn [concat].
    rewrite !fmap_app, IH by lia. by rewrite Permutation_middle.
Qed.
Lemma in_mail_pop mail a x rest : mail !! a = Some (x :: rest) →
  in_mail mail ≡ₚ job x :: in_mail (<[a := rest]> mail).
Proof.
  unfold in_mail. revert a. induction mail as [|l mail IH]; intros [|a] Ha; simplify_eq/=; [done|].
  rewrite !fmap_app, (IH a Ha). by rewrite Permutation_middle.
Qed.
Lemma in_mail_deliver evs mail : tells_in (length mail) evs →
  in_mail (deliver evs mail) ≡ₚ dispatched evs ++ in_mail mail.
Proof.
  unfold deliver. revert mail. induction evs as [|ev evs IH]; intros mail Hin; cbn [foldl]; [done|].
  apply Forall_cons in Hin as [Hev Hin]. destruct ev as [a r|r res]; cbn [deliver_event].
  - rewrite IH by (by rewrite length_alter). rewrite in_mail_alter by done.
    change (dispatched (Ev_tell a r :: evs)) with (job r :: dispatched evs). cbn [app].
    by rewrite Permutation_middle.
  - by rewrite IH.
Qed.
Lemma length_in_mail mail : length (in_mail mail) = jobs mail.
Proof.
  unfold in_mail. rewrite length_fmap. induction mail as [|l mail IH]; [done|].
  cbn. by rewrite length_app, IH.
Qed.
Lemma admitted_answers (s : Remote) evs :
  omap (λ a, match a with (r, Ok _) => Some (ar_batch r, ar_output r) | _ => None end) (answers evs) =
  accepted evs.
Proof.
  clear s. induction evs as [|[a r|r [[]|e]] evs IH]; [done|done| |done].
  change (answers (Ev_admission r (Ok ()) :: evs)) with ((r, Ok () : InferenceResult unit) :: answers evs).
  cbn. by rewrite IH.
Qed.
Lemma idle_admits_none (e : RemoteEngineCoreActor (Output := Output)) :
  engine_ok e → accepted (snd (engine_handle WorkerIdle e)) = [].
Proof.
  intros Hok. cbn [engine_handle]. unfold try_dispatch. destruct (mark_idle_spec e Hok) as (Hok1 & _).
  pose proof (try_dispatch_loop_spec (length (q_inner (e_queue (mark_idle e)))) _ Hok1 ltac:(done)) as H.
  by destruct (try_dispatch_loop _ _) as [e2 evs2], H as (_ & _ & ? & _).
Qed.

(** ** Invariant *)

(** What one client got: the trace of some dispatch of its request. *)
Definition handled (d : PriorityRequest Output * Trace (Json := Json)) : Prop :=
  well_answered policy (snd d) ∧
  ((∀ k n, receiver_alive k n = true) → definite runner_execute (pr_batch (fst d)) (snd d)).
Definition remote_ok (n : nat) (s : Remote) : Prop :=
  system_ok (rm_sys s) ∧ work_conserving (sys_engine (rm_sys s)) ∧
  length (e_workers (sys_engine (rm_sys s))) = n ∧ length (rm_runners s) = n ∧ length (sys_mail (rm_sys s)) = n ∧
  admitted s ≡ₚ answered s ++ in_mail (sys_mail (rm_sys s)) ++ waiting (sys_engine (rm_sys s)) ∧
  Forall handled (rm_done s).

(** What a message does to the engine and the mailboxes. *)
Lemma handle_moves msg (sys : System (Output := Output)) (e := fst (engine_handle msg (sys_engine sys)))
    (evs := snd (engine_handle msg (sys_engine sys))) (mail := deliver evs (sys_mail sys)) :
  system_ok sys →
  work_conserving e ∧ length (e_workers e) = length (e_workers (sys_engine sys)) ∧
  length mail = length (sys_mail sys) ∧
  accepted evs ++ in_mail (sys_mail sys) ++ waiting (sys_engine sys) ≡ₚ in_mail mail ++ waiting e ∧
  (jobs mail + queue_size e = jobs (sys_mail sys) + queue_size (sys_engine sys) + length (accepted evs))%nat ∧
  (jobs (sys_mail sys) ≤ jobs mail)%nat.
Proof.
  intros (Hok & Ha & Hb). pose proof (engine_handle_spec msg _ Hok) as H.
  pose proof (engine_handle_addrs msg _ _ Ha) as Had. subst mail e evs.
  destruct (engine_handle msg _) as [e evs]. cbn [fst snd].
  destruct H as (_ & Hwc & Hl & Hp & _), Had as [_ Ht]. destruct (deliver_spec evs _ Ht) as [Hlm Hj].
  pose proof (in_mail_deliver evs _ Ht) as Hm.
  assert (accepted evs ++ in_mail (sys_mail sys) ++ waiting (sys_engine sys) ≡ₚ
          in_mail (deliver evs (sys_mail sys)) ++ waiting e) as Hall.
  { rewrite Hm, <-app_assoc, Permutation_app_swap_app. etrans; [apply Permutation_app_head, Hp|].
    apply Permutation_app_swap_app. }
  split_and!; [done..| |lia].
  apply Permutation_length in Hall. rewrite !length_app, !length_in_mail in Hall.
  unfold waiting in Hall. rewrite !length_fmap in Hall. unfold queue_size. lia.
Qed.

Lemma remote_message_ok n msg s sys' answers' :
  remote_ok n s → system_ok sys' →
  sys_engine sys' = fst (engine_handle msg (sys_engine (rm_sys s))) →
  sys_mail sys' = deliver (snd (engine_handle msg (sys_engine (rm_sys s)))) (sys_mail (rm_sys s)) →
  omap (λ a, match a with (r, Ok _) => Some (ar_batch r, ar_output r) | _ => None end) answers' =
    accepted (snd (engine_handle msg (sys_engine (rm_sys s)))) →
  remote_ok n {| rm_sys := sys'; rm_runners := rm_runners s; rm_answers := rm_answers s ++ answers';
                 rm_done := rm_done s |}.
Proof.
  intros (Hok & Hwc & Hl & Hr & Hm & Hp & Hd) Hok' He Hmail Ha.
  destruct (handle_moves msg _ Hok) as (Hwc' & Hl' & Hm' & Hp' & _).
  unfold remote_ok, admitted, answered in *. cbn [rm_sys rm_runners rm_answers rm_done].
  rewrite He, Hmail, Hl', Hm', omap_app, Ha. split_and!; [done..| |done].
  rewrite Hp, Permutation_app_comm, Permutation_app_swap_app. by apply Permutation_app_head.
Qed.
Lemma remote_work_ok n a s : 0 ≤ max_retries policy → remote_ok n s → remote_ok n (remote_work a s).
Proof.
  intros Hmax (Hok & Hwc & Hl & Hr & Hm & Hp & Hd). unfold remote_work.
  destruct (sys_mail (rm_sys s) !! a) as [[|req rest]|] eqn:Ha; [done| |done].
  destruct (rm_runners s !! a) as [r|]; [|done].
  destruct (dispatch _ _ _ _ req r) as [[[r' t] idles]|] eqn:E; [|done].
  destruct (dispatch_bounds _ _ _ _ _ _ _ _ _ _ Hmax E) as [-> Hans].
  unfold remote_ok, admitted, answered in *. cbn [rm_sys rm_runners rm_answers rm_done sys_engine sys_mail].
  pose proof (system_step_ok (SE_Finish a) _ Hok) as Hok'. cbn [system_step] in Hok'. rewrite Ha in Hok'.
  rewrite !length_insert, fmap_app. split_and!; [done..| |].
  - rewrite Hp, (in_mail_pop _ _ _ _ Ha), <-!app_assoc. done.
  - apply Forall_app. split; [done|]. constructor; [|done]. split; [done|].
    intros Halive. apply (dispatch_definite _ _ _ _ _ _ _ _ _ (Halive _) E).
Qed.
Lemma remote_step_ok n ev s : 0 ≤ max_retries policy → remote_ok n s → remote_ok n (remote_step ev s).
Proof.
  intros Hmax Hs. pose proof Hs as (Hok & _). destruct ev as [r|a|]; cbn [remote_step].
  - apply (remote_message_ok n (Add r)); [done| | | |].
    + by apply system_step_ok.
    + cbn [system_step]. by destruct (engine_handle (Add r) _).
    + cbn [system_step]. by destruct (engine_handle (Add r) _).
    + apply (admitted_answers s).
  - by apply remote_work_ok.
  - destruct (sys_signals (rm_sys s)) as [|k] eqn:Hk.
    + cbn [system_step]. rewrite Hk. by destruct s.
    + rewrite <-(app_nil_r (rm_answers s)). apply (remote_message_ok n WorkerIdle); [done| | | |].
      * by apply system_step_ok.
      * cbn [system_step]. rewrite Hk. by destruct (engine_handle WorkerIdle _).
      * cbn [system_step]. rewrite Hk. by destruct (engine_handle WorkerIdle _).
      * symmetry. apply idle_admits_none, Hok.
Qed.
Lemma remote_new_ok config runners :
  0 ≤ queue_capacity config < 2 ^ 64 → 0 ≤ worker_count config < 2 ^ 32 →
  Z.of_nat (length runners) = worker_count config → remote_ok (length runners) (remote_new config runners).
Proof.
  intros Hc Hw Hr. pose proof (system_new_ok (Output := Output) config Hc Hw) as Hok.
  destruct (started_ok (Output := Output) config (λ _, true) Hc Hw) as [_ Hwc].
  unfold remote_ok, remote_new. cbn [rm_sys rm_runners rm_answers rm_done sys_engine sys_mail].
  split_and!; [done|done| |done| | |constructor].
  - cbn. rewrite length_fmap, List.filter_true, length_seq. lia.
  - cbn. rewrite length_replicate. lia.
  - unfold in_mail. cbn. by induction (Z.to_nat (worker_count config)).
Qed.

(** ** Progress *)

Definition rank (s : Remote) : nat :=
  (3 * queue_size (sys_engine (rm_sys s)) + 2 * jobs (sys_mail (rm_sys s)) + sys_signals (rm_sys s))%nat.
(** An idle signal helps; with none on the way, a worker with something to do does. *)
Definition helpful (ev : RemoteEvent) (s : Remote) : Prop :=
  match ev with
  | RE_Add _ => False
  | RE_Signal => sys_signals (rm_sys s) ≠ 0%nat
  | RE_Work a => ∃ req rest, sys_mail (rm_sys s) !! a = Some (req :: rest)
  end.
Definition no_arrival (ev : RemoteEvent) : Prop := match ev with RE_Add _ => False | _ => True end.

Lemma rank_signal n s : remote_ok n s → sys_signals (rm_sys s) ≠ 0%nat →
  (rank (remote_step RE_Signal s) < rank s)%nat.
Proof.
  intros (Hok & _) Hk. destruct (handle_moves WorkerIdle _ Hok) as (_ & _ & _ & _ & Hj & Hle).
  rewrite (idle_admits_none _ (proj1 Hok)) in Hj. cbn [length] in Hj. unfold rank. cbn [remote_step rm_sys].
  destruct (sys_signals (rm_sys s)) as [|k] eqn:E; [done|]. cbn [system_step]. rewrite E.
  destruct (engine_handle WorkerIdle _) as [e evs]. cbn [fst snd sys_engine sys_mail sys_signals] in *. lia.
Qed.
Lemma rank_work n s a req rest : 0 ≤ max_retries policy → remote_ok n s →
  sys_mail (rm_sys s) !! a = Some (req :: rest) → (rank (remote_step (RE_Work a) s) < rank s)%nat.
Proof.
  intros Hmax (_ & _ & _ & Hr & Hm & _) Ha. cbn [remote_step]. unfold remote_work. rewrite Ha.
  destruct (lookup_lt_is_Some_2 (rm_runners s) a) as [r ->].
  { apply lookup_lt_Some in Ha. lia. }
  destruct (dispatch_total (runner_execute) (breaker_check (length (rm_done s))) (receiver_alive (length (rm_done s)))
    policy idem req r Hmax) as [[[r' t] idles] E].
  rewrite E. apply dispatch_bounds in E as [-> _]; [|done].
  unfold rank. cbn [rm_sys sys_engine sys_mail sys_signals]. rewrite (jobs_pop _ _ _ _ Ha). lia.
Qed.

Lemma remote_drains n s sched : 0 ≤ max_retries policy → (0 < n)%nat → remote_ok n s →
  (∀ k, no_arrival (sched k)) → fair sched RE_Signal → (∀ a, (a < n)%nat → fair sched (RE_Work a)) →
  ∃ k, ∀ m, (k ≤ m)%nat →
    remote_ok n (run_sched remote_step sched s m) ∧ rank (run_sched remote_step sched s m) = 0%nat.
Proof.
  intros Hmax Hn Hs Hquiet Hsig Hwork.
  assert (∀ u x, no_arrival u → remote_ok n x →
    remote_step u x = x ∨ (rank (remote_step u x) < rank x)%nat) as Hstep.
  { intros [r|a|] x Hu Hx; [done| |].
    - destruct (sys_mail (rm_sys x) !! a) as [[|req rest]|] eqn:Ha;
        [left; cbn; unfold remote_work; by rewrite Ha| |left; cbn; unfold remote_work; by rewrite Ha].
      right. by eapply rank_work.
    - destruct (decide (sys_signals (rm_sys x) = 0%nat)) as [Hk|Hk]; [left|right; by eapply rank_signal].
      cbn. rewrite Hk. by destruct x. }
  apply (fair_helpful remote_step no_arrival (remote_ok n) rank helpful); [done|done| | | | |].
  - intros u x _. by apply remote_step_ok.
  - intros u x Hu Hx. destruct (Hstep u x Hu Hx) as [->|]; lia.
  - intros x Hx Hr. destruct (decide (sys_signals (rm_sys x) = 0%nat)) as [Hk|Hk]; [|by exists RE_Signal].
    pose proof Hx as ((Hok & _ & Hb) & Hwc & Hl & _ & Hm & _).
    assert (jobs (sys_mail (rm_sys x)) ≠ 0%nat) as Hj.
    { unfold rank in Hr. destruct Hwc as [Hq|Hq]; lia. }
    assert (∃ a req rest, sys_mail (rm_sys x) !! a = Some (req :: rest)) as (a & req & rest & Ha).
    { clear -Hj. induction (sys_mail (rm_sys x)) as [|[|req rest] mail IH]; [done| |by exists 0%nat, req, rest].
      destruct IH as (a & ?); [done|]. by exists (S a). }
    exists (RE_Work a). split; [|by exists req, rest]. apply Hwork. apply lookup_lt_Some in Ha. lia.
  - intros [r|a|] x Hx Hh; [done| |by eapply rank_signal]. destruct Hh as (req & rest & Ha). by eapply rank_work.
  - intros u t x Hu Hx Hh. destruct (Hstep u x Hu Hx) as [->|]; auto.
Qed.

(** [C2] Every request the remote engine admits is answered, once, on its own channel: after
    any history of arrivals, worker turns and idle signals, if arrivals stop and every worker
    and the signal forwarder keep being scheduled, then from some point on the queue and the
    mailboxes are empty, nothing is in flight, and the requests handled are exactly the
    admitted ones, each answered by a bounded number of attempts with chunks and then at most
    one error, and, to a client that stays, with a definite end.  With no worker this would
    fail, hence the bound on the pool. *)
Theorem remote_answers_all (config : RemoteEngineConfig) (runners : list Runner)
    (history : list RemoteEvent) (sched : nat → RemoteEvent) :
  0 ≤ queue_capacity config < 2 ^ 64 → 1 ≤ worker_count config < 2 ^ 32 → 0 ≤ max_retries policy →
  Z.of_nat (length runners) = worker_count config →
  (∀ n, no_arrival (sched n)) → fair sched RE_Signal →
  (∀ a, Z.of_nat a < worker_count config → fair sched (RE_Work a)) →
  ∃ n, ∀ m, (n ≤ m)%nat →
    let s := run_sched remote_step sched (remote_run history (remote_new config runners)) m in
    admitted s ≡ₚ answered s ∧ Forall handled (rm_done s) ∧
    queued (e_metrics (sys_engine (rm_sys s))) = 0 ∧ in_flight (e_metrics (sys_engine (rm_sys s))) = 0.
Proof.
  intros Hc Hw Hmax Hr Hquiet Hsig Hwork.
  assert (remote_ok (length runners) (remote_run history (remote_new config runners))) as Hok.
  { assert (remote_ok (length runners) (remote_new config runners)) as H0 by (apply remote_new_ok; lia).
    revert H0. generalize (remote_new config runners). unfold remote_run.
    induction history as [|ev evs IH]; intros s H0; cbn [foldl]; [done|]. by apply IH, remote_step_ok. }
  destruct (remote_drains (length runners) _ sched Hmax ltac:(lia) Hok Hquiet Hsig ltac:(intros; apply Hwork; lia)) as [n Hn].
  exists n. intros m Hm s. destruct (Hn m Hm) as [Hs Hrank]. change (run_sched _ _ _ _) with s in Hs, Hrank.
  destruct Hs as ((Heng & _ & Hb) & _ & _ & _ & _ & Hp & Hd). destruct Heng as (Hq & Hi & _).
  unfold rank in Hrank. split_and!; [|done|lia|lia].
  assert (in_mail (sys_mail (rm_sys s)) = [] ∧ waiting (sys_engine (rm_sys s)) = []) as [Hmail Hwait].
  { split; apply length_zero_iff_nil; [rewrite length_in_mail; lia|].
    unfold waiting. rewrite length_fmap. unfold queue_size in *. lia. }
  rewrite Hmail, Hwait, !app_nil_r in Hp. done.
Qed.
End remote.

(** ** The breaker of a worker's slot

    [execute_with_retries] only reads the breaker, so over a whole run it is the handle as it
    was made, or as an operator forced it, read at some instants. *)
Section breaker.
Context {Json Runner O : Type} (runner_execute : Runner → ExecuteBatch → Runner * InferenceResult (list (InferenceResult (TokenChunk Json)))).
Variable clock : nat → Instant * Instant * Z * Instant.
Definition slot_breaker (h : CircuitBreakerHandle) (n : nat) : InferenceResult unit :=
  let '(now1, now2, utc, now3) := clock n in cb_check h now1 now2 utc now3.
(** A breaker nobody forces open never refuses, however many requests have failed. *)
Lemma unforced_breaker_admits provider config now n : slot_breaker (cb_new provider config now) n = Ok ().
Proof. unfold slot_breaker. destruct (clock n) as [[[? ?] ?] ?]. done. Qed.
(** A breaker forced open fails requests fast: no call of the runner, one error that says so. *)
Lemma forced_open_fails_fast h since d engine (req : PriorityRequest O) r :
  (∀ n, fst (fst (fst (clock n))) < since + d) →
  ∃ opened retry t, dispatch runner_execute (slot_breaker (force_open h since d)) (λ _, true) engine req r =
      Some (r, t, 1%nat) ∧
    tr_executes t = 0%nat ∧ tr_sent t = [Err (CircuitOpen (cb_provider h) opened retry)].
Proof.
  intros Hclock. assert (∃ opened retry, slot_breaker (force_open h since d) 0 =
    Err (CircuitOpen (cb_provider h) opened retry)) as (opened & retry & Hb).
  { unfold slot_breaker. specialize (Hclock 0%nat). destruct (clock 0) as [[[now1 now2] utc] now3]. cbn in Hclock.
    unfold cb_check, cb_state. cbn [force_open cb_forced_open_until].
    rewrite (proj2 (Z.ltb_lt _ _)) by done. by eauto. }
  exists opened, retry. eexists. unfold dispatch, retry_fuel.
  cbn [execute_with_retries acquire_permit tr_executes Trace_empty]. rewrite Hb. cbn. done.
Qed.
End breaker.

(** ** Witness *)

Definition round (n : nat) : RemoteEvent (Output := unit) :=
  match (n mod 3)%nat with O => RE_Signal | 1%nat => RE_Work 0 | _ => RE_Work 1 end.
Lemma round_fair ev : ev = RE_Signal ∨ ev = RE_Work 0 ∨ ev = RE_Work 1 → fair round ev.
Proof.
  intros H n. unfold round.
  destruct H as [->|[->| ->]]; [exists (0 + n * 3)%nat|exists (1 + n * 3)%nat|exists (2 + n * 3)%nat];
    (split; [lia|by rewrite Nat.Div0.mod_add]).
Qed.
Definition demo_history : list (RemoteEvent (Output := unit)) :=
  [RE_Add (example_add "a" Prio_Normal); RE_Work 0; RE_Add (example_add "b" Prio_High);
   RE_Add (example_add "c" Prio_Normal); RE_Add (example_add "d" Prio_Normal)].
(** Two workers whose runners give one chunk and an error; the queue has room for one. *)
Lemma remote_answers_all_witness :
  let run := run_sched (remote_step (Json := unit) script_execute (λ _ _, Ok ()) (λ _ _, true) RetryPolicy_default true)
               round (remote_run script_execute (λ _ _, Ok ()) (λ _ _, true) RetryPolicy_default true demo_history
                        (remote_new example_config [[Ok [Ok (example_chunk "x")]]; [Err (BadRequest "no")]])) in
  ∃ n, admitted (run n) ≡ₚ answered (run n) ∧
    in_flight (e_metrics (sys_engine (rm_sys (run n)))) = 0.
Proof.
  intros run.
  destruct (remote_answers_all (Json := unit) script_execute (λ _ _, Ok ()) (λ _ _, true) RetryPolicy_default true
    example_config [[Ok [Ok (example_chunk "x")]]; [Err (BadRequest "no")]] demo_history round) as [n Hn].
  - done.
  - done.
  - done.
  - done.
  - intros n. unfold round. by destruct (n mod 3)%nat as [|[|]].
  - apply round_fair. by left.
  - intros [|[|a]] Ha; cbn in Ha; [apply round_fair; by right; left|apply round_fair; by right; right|lia].
  - exists n. destruct (Hn n ltac:(done)) as (H & _ & _ & H'). split; [exact H|exact H'].
Defined.
Example demo_history_drains :
  let s := run_sched (remote_step (Json := unit) script_execute (λ _ _, Ok ()) (λ _ _, true) RetryPolicy_default true)
             round (remote_run script_execute (λ _ _, Ok ()) (λ _ _, true) RetryPolicy_default true demo_history
                      (remote_new example_config [[Ok [Ok (example_chunk "x")]]; [Err (BadRequest "no")]])) 12 in
  (λ d, (request_id (pr_batch (fst d)), length (tr_sent (snd d)))) <$> rm_done s =
    [("a", 1%nat); ("c", 0%nat); ("b", 1%nat)] ∧ rank s = 0%nat.
Proof. vm_compute. split; reflexivity. Qed.
