(* ===== verification/Placement.v ===== *)
(** * Deployment placement

    Models [inference-runtime/src/placement.rs]: the stateless actor that assigns
    a deployment's replicas to nodes by the transport of its runtime.  Node lists
    are [Vec]s; [egress_preference] is carried but never read by the source, which rotates
    over the nodes of the kind ([placement_rotates], [placement_ignores_preference]). *)
From S2P Require Import Prelude Runtime Deployment.

Record PlacementConstraints : Type := {
  gpu_nodes : list string;
  cpu_nodes : list string;
  egress_nodes : list string;
  egress_preference : list ((ProviderKind * string) * list string)
}.
Record NodeAssignment : Type := { na_replica_index : Z; na_node : string; na_gpus : list Z }.
Record PlacementResult : Type := { pr_deployment : string; assignments : list NodeAssignment }.

Inductive PlacementError : Type :=
  | NoGpuNodes | NoCpuNodes
  | NoEgressNodes (p : ProviderKind)
  | NotEnoughGpus (requested : Z)
  | PE_UnknownTransport.
#[global] Instance PlacementError_eq_dec : EqDecision PlacementError.
Proof. solve_decision. Defined.
Definition placement_error_to_string (e : PlacementError) : string :=
  match e with
  | NoGpuNodes => "no GPU nodes available"
  | NoCpuNodes => "no CPU nodes available for local-CPU deployment"
  | NoEgressNodes p => "no egress nodes available for provider " +:+ debug_ProviderKind p
  | NotEnoughGpus n =>
      "deployment requires " +:+ pretty n +:+ " GPUs but no node has that many free"
  | PE_UnknownTransport =>
      "unknown TransportKind variant — atomr-infer was built against a newer atomr-infer-core"
  end.

Definition range (n : Z) : list Z := Z.of_nat <$> seq 0 (Z.to_nat n).

(** The loop of every arm: replica [i] goes to node [i % len]; indexing an
    out-of-range position would panic. *)
Definition assign (nodes : list string) (gpus : list Z) (i : Z) : option NodeAssignment :=
  node ← nodes !! Z.to_nat (i `mod` Z.of_nat (length nodes));
  Some {| na_replica_index := i; na_node := node; na_gpus := gpus |}.
Definition assign_all (nodes : list string) (gpus : list Z) (replicas : Z) :
  option (list NodeAssignment) :=
  mapM (assign nodes gpus) (range replicas).

Section place.
Context {Json : Type}.

(** [None] is a panic. *)
Definition place (d : Deployment Json) (c : PlacementConstraints) :
  option (result PlacementError PlacementResult) :=
  let finish o :=
    a ← o; Some (Ok {| pr_deployment := d_name d; assignments := a |}) in
  match transport_of_runtime (effective_runtime d) with
  | TK_LocalGpu =>
      match gpu_nodes c with
      | [] => Some (Err NoGpuNodes)
      | nodes => finish (assign_all nodes (range (default 1 (d_gpus d))) (d_replicas d))
      end
  | TK_RemoteNetwork provider =>
      match egress_nodes c with
      | [] => Some (Err (NoEgressNodes provider))
      | nodes => finish (assign_all nodes [] (d_replicas d))
      end
  | TK_LocalCpu =>
      match cpu_nodes c with
      | [] => Some (Err NoCpuNodes)
      | nodes => finish (assign_all nodes [] (d_replicas d))
      end
  | TK_UnknownTransport => Some (Err PE_UnknownTransport)
  end.

(** The one message of the actor. *)
Definition placement_handle := place.

(** ** Round robin *)

Lemma assign_total nodes gpus i :
  nodes ≠ [] → 0 ≤ i →
  ∃ node, nodes !! Z.to_nat (i `mod` Z.of_nat (length nodes)) = Some node ∧
    assign nodes gpus i = Some {| na_replica_index := i; na_node := node; na_gpus := gpus |}.
Proof.
  intros Hn Hi. assert (0 < Z.of_nat (length nodes)) by (destruct nodes; [done|cbn; lia]).
  pose proof (Z.mod_pos_bound i (Z.of_nat (length nodes)) ltac:(lia)).
  destruct (lookup_lt_is_Some_2 nodes (Z.to_nat (i `mod` Z.of_nat (length nodes)))) as [node E];
    [lia|]. exists node. unfold assign. by rewrite E.
Qed.

Lemma assign_all_total nodes gpus replicas :
  nodes ≠ [] → ∃ l, assign_all nodes gpus replicas = Some l ∧
    Forall2 (λ i a, na_replica_index a = i ∧ na_gpus a = gpus ∧
      nodes !! Z.to_nat (i `mod` Z.of_nat (length nodes)) = Some (na_node a)) (range replicas) l.
Proof.
  intros Hn. unfold assign_all.
  assert (Forall (λ i, 0 ≤ i) (range replicas)) as Hp.
  { apply Forall_fmap, Forall_true. intros x. cbn. lia. }
  induction Hp as [|i l Hi _ IH]; [by exists []|].
  destruct (assign_total nodes gpus i Hn Hi) as (node & Hl & Ha).
  destruct IH as (l' & Hm & Hf). exists ({| na_replica_index := i; na_node := node; na_gpus := gpus |} :: l').
  split; [|by constructor]. cbn. by rewrite Ha, Hm.
Qed.

(** How many of the first [k] replicas a position gets. *)
Lemma round_robin_count (n j : Z) (k : nat) :
  0 ≤ j < n →
  Z.of_nat (count_if (λ i, Z.of_nat i `mod` n =? j) (seq 0 k)) =
  (Z.of_nat k + n - 1 - j) `div` n.
Proof.
  intros Hj. induction k as [|k IH].
  - cbn [seq count_if]. symmetry. apply Z.div_small. lia.
  - rewrite seq_S, count_if_app, Nat2Z.inj_add, IH. cbn [count_if Nat.add]. clear IH.
    pose proof (Z.div_mod (Z.of_nat k) n ltac:(lia)) as Hd.
    pose proof (Z.mod_pos_bound (Z.of_nat k) n ltac:(lia)) as Hm.
    set (q := Z.of_nat k `div` n) in *. set (r := Z.of_nat k `mod` n) in *.
    assert (∀ x b, 0 ≤ b < n → x = q * n + b → x `div` n = q) as Hq.
    { intros x b Hb ->. rewrite Z.div_add_l by lia. rewrite Z.div_small by lia. lia. }
    assert (∀ x b, 0 ≤ b < n → x = (q + 1) * n + b → x `div` n = q + 1) as Hq1.
    { intros x b Hb ->. rewrite Z.div_add_l by lia. rewrite Z.div_small by lia. lia. }
    assert (q * n = n * q) as Hqn by apply Z.mul_comm.
    destruct (Z.eqb_spec r j) as [E|E].
    + rewrite (Hq _ (n - 1)) by lia. rewrite (Hq1 _ 0) by lia. lia.
    + destruct (Z.ltb_spec j r).
      * rewrite (Hq1 _ (r - 1 - j)) by lia. rewrite (Hq1 _ (r - j)) by lia. lia.
      * rewrite (Hq _ (r + n - 1 - j)) by lia. rewrite (Hq _ (r + n - j)) by lia. lia.
Qed.

(** The pool a transport draws its nodes from, and the error when it is empty. *)
Definition pool (t : TransportKind) (c : PlacementConstraints) : list string :=
  match t with
  | TK_LocalGpu => gpu_nodes c
  | TK_RemoteNetwork _ => egress_nodes c
  | TK_LocalCpu => cpu_nodes c
  | TK_UnknownTransport => []
  end.
Definition pool_error (t : TransportKind) : PlacementError :=
  match t with
  | TK_LocalGpu => NoGpuNodes
  | TK_RemoteNetwork p => NoEgressNodes p
  | TK_LocalCpu => NoCpuNodes
  | TK_UnknownTransport => PE_UnknownTransport
  end.
Definition wanted_gpus (d : Deployment Json) : list Z :=
  match transport_of_runtime (effective_runtime d) with
  | TK_LocalGpu => range (default 1 (d_gpus d))
  | _ => []
  end.
Definition node_load (l : list NodeAssignment) (node : string) : Z :=
  Z.of_nat (count_if (λ a, bool_decide (na_node a = node)) l).

Lemma place_unfold d c :
  let t := transport_of_runtime (effective_runtime d) in
  place d c =
  if decide (pool t c = []) then Some (Err (pool_error t))
  else a ← assign_all (pool t c) (wanted_gpus d) (d_replicas d);
       Some (Ok {| pr_deployment := d_name d; assignments := a |}).
Proof.
  unfold place, wanted_gpus. destruct (transport_of_runtime _); cbn;
    try (case_decide as E; [by rewrite E|]; repeat case_match; done). done.
Qed.

Lemma node_load_range nodes gpus replicas l j node :
  NoDup nodes → nodes !! j = Some node → assign_all nodes gpus replicas = Some l →
  node_load l node =
  Z.of_nat (count_if (λ i, Z.of_nat i `mod` Z.of_nat (length nodes) =? Z.of_nat j)
    (seq 0 (Z.to_nat replicas))).
Proof.
  intros Hnd Hj Hl. pose proof (lookup_lt_Some _ _ _ Hj) as Hlt.
  destruct (assign_all_total nodes gpus replicas) as (l' & Hl' & Hf); [by destruct nodes|].
  rewrite Hl in Hl'. simplify_eq. clear Hl. unfold node_load, range in *. f_equal.
  revert Hf. generalize 0%nat as s. revert l'. induction (Z.to_nat replicas) as [|k IH];
    intros l' s Hf; cbn in Hf; inversion Hf as [|? a ? l0 (_ & _ & Ha) Hf']; subst; [done|].
  cbn [seq count_if]. rewrite (IH l0 (S s)) by done. f_equal.
  pose proof (Z.mod_pos_bound (Z.of_nat s) (Z.of_nat (length nodes)) ltac:(lia)).
  destruct (Z.eqb_spec (Z.of_nat s `mod` Z.of_nat (length nodes)) (Z.of_nat j)) as [E|E].
  - rewrite E, Nat2Z.id, Hj in Ha. simplify_eq. by rewrite bool_decide_true.
  - rewrite bool_decide_false; [done|]. intros E'. apply E. rewrite E' in Ha.
    apply (NoDup_lookup _ _ _ _ Hnd Ha) in Hj. lia.
Qed.

(** [C33] Placement reads the transport of the runtime and never panics: with no node of the
    kind that transport needs, or a transport that is unknown, it answers the matching
    error; otherwise it makes one assignment per replica, numbered from 0, each on a node
    of that kind alone (GPU nodes for a local GPU runtime, egress-capable ones for a
    remote provider, CPU ones for a local CPU runtime), with the GPU slice the actor hands
    out without [local-gpu] ([0..gpus], 1 by default) and none off the GPU.  Which node of
    the kind it takes is no part of this claim. *)
Theorem placement_spec (d : Deployment Json) (c : PlacementConstraints) :
  0 ≤ d_replicas d →
  let t := transport_of_runtime (effective_runtime d) in
  ∃ r, placement_handle d c = Some r ∧
  match r with
  | Err e => pool t c = [] ∧ e = pool_error t
  | Ok res =>
      pool t c ≠ [] ∧ pr_deployment res = d_name d ∧
      na_replica_index <$> assignments res = range (d_replicas d) ∧
      Forall (λ a, na_gpus a = wanted_gpus d ∧ na_node a ∈ pool t c) (assignments res)
  end.
Proof.
  intros Hr t. unfold placement_handle. rewrite place_unfold. fold t. cbv zeta.
  case_decide as E; [by eexists|].
  destruct (assign_all_total (pool t c) (wanted_gpus d) (d_replicas d) E) as (l & Hl & Hf).
  rewrite Hl. eexists. split; [reflexivity|]. cbn [pr_deployment assignments].
  split_and!; [done|done| |].
  - clear -Hf. induction Hf as [|i a l1 l2 (? & _) _ IH]; cbn; congruence.
  - clear -Hf. induction Hf as [|i a l1 l2 (? & ? & Ha) _ IH]; constructor; [|done].
    split; [done|]. by eapply list_elem_of_lookup_2.
Qed.

(** The choice within the kind is the plain rotation: two distinct nodes never differ by more
    than one replica.  Neither free GPUs nor the other deployments of a node count. *)
Theorem placement_rotates (d : Deployment Json) (c : PlacementConstraints) (res : PlacementResult) :
  let t := transport_of_runtime (effective_runtime d) in
  placement_handle d c = Some (Ok res) → NoDup (pool t c) →
  ∀ n1 n2, n1 ∈ pool t c → n2 ∈ pool t c →
    node_load (assignments res) n1 ≤ node_load (assignments res) n2 + 1.
Proof.
  intros t. unfold placement_handle. rewrite place_unfold. fold t. cbv zeta. case_decide as E; [done|].
  destruct (assign_all (pool t c) (wanted_gpus d) (d_replicas d)) as [l|] eqn:Hl; [|done].
  intros [= <-] Hnd n1 n2 [j1 H1]%list_elem_of_lookup [j2 H2]%list_elem_of_lookup. cbn [assignments].
  rewrite !(node_load_range _ _ _ _ _ _ Hnd) by eassumption.
  pose proof (lookup_lt_Some _ _ _ H1). pose proof (lookup_lt_Some _ _ _ H2).
  rewrite !round_robin_count by lia. set (n := Z.of_nat (length (pool t c))) in *.
  assert (∀ x y, y ≤ x + n → y `div` n ≤ x `div` n + 1) as Hdiv.
  { intros x y Hxy. rewrite <-Z.div_add by lia. apply Z.div_le_mono; lia. }
  apply Hdiv. lia.
Qed.
(** The nodes that share a provider and a key are passed in and never looked at. *)
Theorem placement_ignores_preference (d : Deployment Json) (c : PlacementConstraints)
    (pref : list ((ProviderKind * string) * list string)) :
  placement_handle d {| gpu_nodes := gpu_nodes c; cpu_nodes := cpu_nodes c; egress_nodes := egress_nodes c;
                        egress_preference := pref |} = placement_handle d c.
Proof. reflexivity. Qed.
End place.

Definition example_deployment (model : string) (replicas : Z) : Deployment unit := {|
  d_name := "prod"; d_model := model; d_runtime := None; d_runtime_config := None;
  d_gpus := Some 2; d_replicas := replicas; d_serving := Serving_default; d_budget := None;
  d_idempotent := true
|}.
Definition example_nodes : PlacementConstraints := {|
  gpu_nodes := ["g0"; "g1"]; cpu_nodes := []; egress_nodes := ["e0"]; egress_preference := []
|}.
Lemma placement_spec_witness :
  0 ≤ d_replicas (example_deployment "llama-3" 3) ∧
  ∃ res, placement_handle (example_deployment "llama-3" 3) example_nodes = Some (Ok res) ∧
  na_node <$> assignments res = ["g0"; "g1"; "g0"] ∧
  Forall (λ a, na_gpus a = [0; 1] ∧ na_node a ∈ ["g0"; "g1"]) (assignments res).
Proof.
  assert (0 ≤ d_replicas (example_deployment "llama-3" 3)) as H by done. split; [done|].
  destruct (placement_spec (example_deployment "llama-3" 3) example_nodes H) as (r & Hr & Hs).
  vm_compute in Hr. simplify_eq. eexists. split; [reflexivity|]. split; [reflexivity|].
  exact (proj2 (proj2 (proj2 Hs))).
Defined.
(** The replica goes to the node that does not host the provider's key. *)
Example preference_not_followed :
  let nodes := {| gpu_nodes := []; cpu_nodes := []; egress_nodes := ["e0"; "e1"];
                  egress_preference := [((PK_OpenAi, "key"), ["e1"])] |} in
  (λ r, match r with Ok res => na_node <$> assignments res | Err _ => [] end) <$>
    placement_handle (example_deployment "gpt-4o" 1) nodes = Some ["e0"].
Proof. vm_compute. reflexivity. Qed.
