(* ===== verification/Coordinator.v ===== *)
(** * Data-parallel coordinator

    Models [inference-runtime/src/dp_coordinator.rs]: the routing table from
    deployment names to engine targets with their reported loads.  A target's
    engine is known by its actor path, a type of the actor library: a parameter
    with decidable equality. *)
From Stdlib Require Import SpecFloat.
From S2P Require Import Prelude F64 Runtime.

Section coordinator.
Context {ActorPath : Type} `{!EqDecision ActorPath}.

Record RouteTarget : Type := { rt_engine : ActorPath; rt_load : f64 }.
Abbreviation CoordinatorState := (gmap string (list RouteTarget)).
Definition coordinator_new : CoordinatorState := ∅.

Inductive DpCoordinatorMsg : Type :=
  | DC_Register (deployment : string) (target : RouteTarget)
  | DC_Deregister (deployment : string) (engine_path : ActorPath)
  | DC_ReportLoad (deployment : string) (engine_path : ActorPath) (load : f64)
  | DC_RouteTo (deployment : string).

(** [entry(deployment).or_default().push(target)]. *)
Definition register (deployment : string) (target : RouteTarget) (st : CoordinatorState) :
  CoordinatorState :=
  <[deployment := default [] (st !! deployment) ++ [target]]> st.
(** [get_mut] then [retain]. *)
Definition deregister (deployment : string) (path : ActorPath) (st : CoordinatorState) :
  CoordinatorState :=
  alter (filter (λ t, rt_engine t ≠ path)) deployment st.
Definition report_load (deployment : string) (path : ActorPath) (load : f64)
    (st : CoordinatorState) : CoordinatorState :=
  alter (fmap (λ t, if decide (rt_engine t = path)
                    then {| rt_engine := rt_engine t; rt_load := load |} else t)) deployment st.

(** [partial_cmp(..).unwrap_or(Equal)], and [Iterator::min_by], which keeps the
    first of equal minima. *)
Definition load_cmp (a b : RouteTarget) : comparison :=
  default Eq (f64_cmp (rt_load a) (rt_load b)).
Definition min_by (l : list RouteTarget) : option RouteTarget :=
  match l with
  | [] => None
  | x :: r => Some (foldl (λ acc y, match load_cmp acc y with Gt => y | _ => acc end) x r)
  end.

Definition pick (deployment : string) (st : CoordinatorState) : InferenceResult RouteTarget :=
  match st !! deployment with
  | None | Some [] => Err (Internal ("no engine for deployment `" +:+ deployment +:+ "`"))
  | Some candidates =>
      match min_by candidates with
      | Some t => Ok t
      | None => Err (Internal "empty candidate set")
      end
  end.

(** [handle]: the new table and what is answered, if anything is. *)
Definition coordinator_handle (msg : DpCoordinatorMsg) (st : CoordinatorState) :
  CoordinatorState * option (InferenceResult RouteTarget) :=
  match msg with
  | DC_Register d t => (register d t st, None)
  | DC_Deregister d p => (deregister d p st, None)
  | DC_ReportLoad d p l => (report_load d p l st, None)
  | DC_RouteTo d => (st, Some (pick d st))
  end.
Definition coordinator_run (msgs : list DpCoordinatorMsg) (st : CoordinatorState) :
  CoordinatorState := foldl (λ st m, fst (coordinator_handle m st)) st msgs.

(** ** What [pick] answers *)

Lemma min_fold x r :
  let m := foldl (λ acc y, match load_cmp acc y with Gt => y | _ => acc end) x r in
  (m = x ∨ m ∈ r) ∧
  (Forall (λ t, f64_is_nan (rt_load t) = false) (x :: r) →
   Forall (λ t, f64_not_gt (rt_load m) (rt_load t)) (x :: r)).
Proof.
  revert x. induction r as [|y r IH]; intros x; cbn [foldl].
  { split; [by left|]. intros _. repeat constructor. apply f64_not_gt_refl. }
  assert (load_cmp x y = Gt → f64_cmp (rt_load x) (rt_load y) = Some Gt) as Hgt.
  { unfold load_cmp. by destruct (f64_cmp _ _) as [[]|]. }
  destruct (load_cmp x y) eqn:E.
  1,2: destruct (IH x) as [Hm Hall]; clear IH; split; [destruct Hm; [by left|right; set_solver]|];
    intros [Hx [Hy Hr]%Forall_cons]%Forall_cons; specialize (Hall ltac:(by constructor));
    apply Forall_cons in Hall as [H1 H2]; constructor; [done|]; constructor; [|done];
    apply (f64_not_gt_trans _ (rt_load x)); [done|done|];
    intros Hc; unfold load_cmp in E; rewrite Hc in E; done.
  destruct (IH y) as [Hm Hall]. split; [destruct Hm; right; set_solver|].
  intros [Hx Hr]%Forall_cons. specialize (Hall Hr). constructor; [|done].
  apply Forall_cons in Hall as [H1 _]. apply Forall_cons in Hr as [Hy _].
  apply (f64_not_gt_trans _ (rt_load y)); [done|done|]. by apply f64_gt_flip, Hgt.
Qed.

(** [C27] Routing picks the least loaded engine: when no reported load is NaN, a
    deployment with at least one registered engine routes to one of its own
    targets whose load no other target of it undercuts, and a deployment with none
    gets exactly the internal error that names it; routing never changes the table. *)
Theorem route_least_loaded (st : CoordinatorState) (deployment : string) :
  let targets := default [] (st !! deployment) in
  Forall (λ t, f64_is_nan (rt_load t) = false) targets →
  let '(st', reply) := coordinator_handle (DC_RouteTo deployment) st in
  st' = st ∧
  match targets with
  | [] => reply = Some (Err (Internal ("no engine for deployment `" +:+ deployment +:+ "`")))
  | _ => ∃ t, reply = Some (Ok t) ∧
      t ∈ targets ∧ Forall (λ t', f64_not_gt (rt_load t) (rt_load t')) targets
  end.
Proof.
  intros targets Hn. cbn [coordinator_handle]. split; [done|]. unfold pick, targets in *.
  destruct (st !! deployment) as [[|x r]|]; cbn [default] in *; [done| |done].
  cbn [min_by]. destruct (min_fold x r) as [Hm Hall]. eexists. split; [done|]. split; [|by apply Hall].
  destruct Hm; set_solver.
Qed.

(** One NaN report disables load balancing: a target that reports NaN and
    stands first in the table is picked for every request, whatever the other
    engines report. *)
Theorem nan_load_captures_routing (st : CoordinatorState) (deployment : string)
    (t : RouteTarget) (others : list RouteTarget) :
  st !! deployment = Some (t :: others) →
  pick deployment (report_load deployment (rt_engine t) S754_nan st) =
  Ok {| rt_engine := rt_engine t; rt_load := S754_nan |}.
Proof.
  intros Hst. unfold pick, report_load. rewrite lookup_alter_eq, Hst. cbn [fmap option_fmap option_map].
  cbn [list_fmap fmap]. rewrite decide_True by done. cbn [min_by]. f_equal.
  match goal with |- foldl _ _ ?l = _ => generalize l end. intros l.
  induction l as [|y l IH]; [done|]. cbn [foldl]. exact IH.
Qed.

(** ** Deregistration *)

Definition absent (d : string) (p : ActorPath) (st : CoordinatorState) : Prop :=
  Forall (λ t, rt_engine t ≠ p) (default [] (st !! d)).
Definition registers (d : string) (p : ActorPath) (m : DpCoordinatorMsg) : Prop :=
  match m with DC_Register d' t => d' = d ∧ rt_engine t = p | _ => False end.

Lemma absent_deregister d p st : absent d p (deregister d p st).
Proof.
  unfold absent, deregister. rewrite lookup_alter_eq.
  destruct (st !! d) as [l|]; cbn; [|constructor].
  apply Forall_forall. intros t Ht. by apply list_elem_of_filter in Ht as [? _].
Qed.
Lemma absent_handle d p m st :
  absent d p st → ¬ registers d p m → absent d p (fst (coordinator_handle m st)).
Proof.
  unfold absent. intros Ha Hm. destruct m as [d' t|d' p'|d' p' l|d']; cbn in *.
  - unfold register. destruct (decide (d' = d)) as [->|].
    + rewrite lookup_insert_eq. cbn. apply Forall_app_snoc; naive_solver.
    + by rewrite lookup_insert_ne.
  - unfold deregister. destruct (decide (d' = d)) as [->|].
    + rewrite lookup_alter_eq. destruct (st !! d) as [l|]; cbn in *; [|constructor].
      apply Forall_forall. intros t Ht. apply list_elem_of_filter in Ht as [_ Ht].
      by rewrite Forall_forall in Ha; apply Ha.
    + by rewrite lookup_alter_ne.
  - unfold report_load. destruct (decide (d' = d)) as [->|].
    + rewrite lookup_alter_eq. destruct (st !! d) as [ts|]; cbn in *; [|constructor].
      apply Forall_fmap. eapply Forall_impl; [exact Ha|]. intros t Ht. cbn. by case_decide.
    + by rewrite lookup_alter_ne.
  - done.
Qed.

(** A deregistered engine gets no more traffic: whatever messages follow,
    until the same engine registers for that deployment again, no route for the
    deployment leads to it. *)
Theorem deregister_stops_traffic (d : string) (p : ActorPath) (st : CoordinatorState)
    (msgs : list DpCoordinatorMsg) (t : RouteTarget) :
  Forall (λ m, ¬ registers d p m) msgs →
  pick d (coordinator_run (DC_Deregister d p :: msgs) st) = Ok t → rt_engine t ≠ p.
Proof.
  intros Hm Hp. unfold coordinator_run in Hp. cbn [foldl coordinator_handle fst] in Hp.
  assert (absent d p (foldl (λ st m, fst (coordinator_handle m st)) (deregister d p st) msgs)) as Ha.
  { pose proof (absent_deregister d p st) as H0. revert H0. generalize (deregister d p st).
    clear Hp. induction Hm as [|m msgs Hm _ IH]; intros st0 H0; [done|]. cbn [foldl]. apply IH.
    by apply absent_handle. }
  clear Hm. unfold absent, pick in *. destruct (_ !! d) as [[|x r]|]; [done| |done].
  cbn [min_by default] in *. destruct (min_fold x r) as [Hm _]. rewrite Forall_forall in Ha.
  apply Ha. simplify_eq. destruct Hm as [->|]; set_solver.
Qed.
End coordinator.
Arguments RouteTarget ActorPath : clear implicits.
Arguments DpCoordinatorMsg ActorPath : clear implicits.

Definition example_table : gmap string (list (RouteTarget string)) :=
  {["d" := [{| rt_engine := "e1"; rt_load := f64_of_Z 3 |};
            {| rt_engine := "e2"; rt_load := f64_of_Z 1 |}]]}.
Lemma route_least_loaded_witness :
  (∃ t, snd (coordinator_handle (DC_RouteTo "d") example_table) = Some (Ok t) ∧
    rt_engine t = "e2" ∧ f64_not_gt (rt_load t) (f64_of_Z 3)) ∧
  snd (coordinator_handle (DC_RouteTo "x") example_table) = Some (Err (Internal "no engine for deployment `x`")).
Proof.
  split.
  - destruct (route_least_loaded example_table "d" ltac:(vm_compute; repeat constructor)) as (_ & t & Ht & _ & H).
    exists t. split; [exact Ht|]. apply Forall_cons in H as [H _].
    assert (t = {| rt_engine := "e2"; rt_load := f64_of_Z 1 |}) as ->
      by (vm_compute in Ht; injection Ht as <-; vm_compute; reflexivity).
    split; [reflexivity|exact H].
  - exact (proj2 (route_least_loaded example_table "x" ltac:(vm_compute; repeat constructor))).
Defined.
Lemma nan_load_captures_routing_witness :
  example_table !! "d" = Some [{| rt_engine := "e1"; rt_load := f64_of_Z 3 |};
                               {| rt_engine := "e2"; rt_load := f64_of_Z 1 |}] ∧
  pick "d" (report_load "d" "e1" S754_nan example_table) =
  Ok {| rt_engine := "e1"; rt_load := S754_nan |}.
Proof.
  split; [vm_compute; reflexivity|].
  apply (nan_load_captures_routing example_table "d" {| rt_engine := "e1"; rt_load := f64_of_Z 3 |}
    [{| rt_engine := "e2"; rt_load := f64_of_Z 1 |}]). vm_compute; reflexivity.
Defined.
Lemma deregister_stops_traffic_witness :
  pick "d" (coordinator_run [DC_Deregister "d" "e2"; DC_ReportLoad "d" "e1" (f64_of_Z 9)]
              example_table) = Ok {| rt_engine := "e1"; rt_load := f64_of_Z 9 |} ∧ "e1" ≠ "e2".
Proof.
  assert (pick "d" (coordinator_run [DC_Deregister "d" "e2"; DC_ReportLoad "d" "e1" (f64_of_Z 9)]
    example_table) = Ok {| rt_engine := "e1"; rt_load := f64_of_Z 9 |}) as E by (vm_compute; reflexivity).
  split; [exact E|].
  apply (deregister_stops_traffic "d" "e2" example_table [DC_ReportLoad "d" "e1" (f64_of_Z 9)]
    {| rt_engine := "e1"; rt_load := f64_of_Z 9 |}); [|exact E]. repeat constructor; cbn; tauto.
Defined.
