(* ===== verification/Manager.v ===== *)
(** * Deployment manager

    Models [inference-runtime/src/deployment_manager.rs]: the catalog of
    deployments by name.  Replies on channels are the handler's result; a
    [HashMap] is a [gmap], so [List] gives the records in an unspecified order. *)
From S2P Require Import Prelude Runtime Deployment.

Inductive DeploymentState : Type := DS_Pending | DS_Serving | DS_Draining | DS_Failed.
#[global] Instance DeploymentState_eq_dec : EqDecision DeploymentState.
Proof. solve_decision. Defined.

Section manager.
Context {Json : Type}.

Record DeploymentRecord : Type := { dr_deployment : Deployment Json; dr_state : DeploymentState }.

Inductive DeploymentManagerMsg : Type :=
  | DM_Apply (d : Deployment Json)
  | DM_Remove (name : string)
  | DM_List
  | DM_Get (name : string).
Inductive DeploymentManagerReply : Type :=
  | DR_Result (r : InferenceResult unit)
  | DR_Records (l : list DeploymentRecord)
  | DR_Record (r : option DeploymentRecord).

Definition manager_handle (msg : DeploymentManagerMsg) (records : gmap string DeploymentRecord) :
  gmap string DeploymentRecord * DeploymentManagerReply :=
  match msg with
  | DM_Apply d =>
      match validate d with
      | Ok _ =>
          (<[d_name d := {| dr_deployment := d; dr_state := DS_Pending |}]> records, DR_Result (Ok ()))
      | Err e => (records, DR_Result (Err (Internal (validation_error_to_string e))))
      end
  | DM_Remove name => (delete name records, DR_Result (Ok ()))
  | DM_List => (records, DR_Records (snd <$> map_to_list records))
  | DM_Get name => (records, DR_Record (records !! name))
  end.
Definition manager_run (msgs : list DeploymentManagerMsg) (records : gmap string DeploymentRecord) :
  gmap string DeploymentRecord := foldl (λ st m, fst (manager_handle m st)) records msgs.

(** ** Specification: the last accepted write to a name decides *)

Definition write (name : string) (m : DeploymentManagerMsg) : option (option (Deployment Json)) :=
  match m with
  | DM_Apply d => if is_ok (validate d) && bool_decide (d_name d = name) then Some (Some d) else None
  | DM_Remove n => if bool_decide (n = name) then Some None else None
  | _ => None
  end.
Definition catalog_spec (name : string) (msgs : list DeploymentManagerMsg) :
  option (Deployment Json) := mjoin (list.last (omap (write name) msgs)).

Lemma manager_step_lookup m records name :
  fst (manager_handle m records) !! name =
  match write name m with
  | Some o => (λ d, {| dr_deployment := d; dr_state := DS_Pending |}) <$> o
  | None => records !! name
  end.
Proof.
  destruct m as [d|n| |n]; cbn; [|case_bool_decide; subst|done..].
  - destruct (validate d); cbn; [|done]. case_bool_decide; subst;
      [by rewrite lookup_insert_eq|by rewrite lookup_insert_ne].
  - by rewrite lookup_delete_eq.
  - by rewrite lookup_delete_ne.
Qed.
Lemma manager_run_app l m records :
  manager_run (l ++ [m]) records = fst (manager_handle m (manager_run l records)).
Proof. unfold manager_run. by rewrite foldl_app. Qed.

(** The catalog is the last accepted write per name: after any run of
    messages, [Get] answers the deployment of the last [Apply] of that name that
    validated, unless a [Remove] came later; a rejected [Apply] changes nothing
    and reports the validation error; every listed record is pending, valid, and
    stored under its own name. *)
Theorem catalog_last_write (msgs : list DeploymentManagerMsg) (name : string) :
  let st := manager_run msgs ∅ in
  snd (manager_handle (DM_Get name) st) =
    DR_Record ((λ d, {| dr_deployment := d; dr_state := DS_Pending |}) <$> catalog_spec name msgs) ∧
  (∀ d e, validate d = Err e →
     manager_handle (DM_Apply d) st =
       (st, DR_Result (Err (Internal (validation_error_to_string e))))) ∧
  (∀ l, snd (manager_handle DM_List st) = DR_Records l →
     ∀ r, r ∈ l → validate (dr_deployment r) = Ok () ∧ dr_state r = DS_Pending ∧
       catalog_spec (d_name (dr_deployment r)) msgs = Some (dr_deployment r)).
Proof.
  assert (∀ n, manager_run msgs ∅ !! n =
    (λ d, {| dr_deployment := d; dr_state := DS_Pending |}) <$> catalog_spec n msgs) as Hget.
  { intros n. induction msgs as [|m msgs IH] using rev_ind; [done|].
    rewrite manager_run_app, manager_step_lookup. unfold catalog_spec in *.
    rewrite omap_app. cbn. destruct (write n m) as [o|].
    - by rewrite list.last_snoc.
    - by rewrite app_nil_r. }
  assert (∀ n d, catalog_spec n msgs = Some d → validate d = Ok () ∧ d_name d = n) as Hval.
  { intros n d. unfold catalog_spec. intros H.
    destruct (list.last _) as [o|] eqn:E; [|done]. cbn in H. subst.
    apply list.last_Some_elem_of, list_elem_of_omap in E as (m & _ & Hm).
    destruct m as [d'|?| |?]; cbn in Hm; [|by case_bool_decide|done|done].
    destruct (validate d') as [[]|] eqn:Ev; cbn in Hm; [|done]. case_bool_decide; by simplify_eq. }
  split_and!.
  - cbn. by rewrite Hget.
  - intros d e He. cbn. by rewrite He.
  - intros l Hl r Hr. cbn in Hl. simplify_eq.
    apply list_elem_of_fmap in Hr as ([n r'] & -> & Hin).
    apply elem_of_map_to_list in Hin. rewrite Hget in Hin. apply fmap_Some in Hin as (d & Hd & ->).
    destruct (Hval _ _ Hd) as [? <-]. done.
Qed.
End manager.
