(* ===== verification/Metrics.v ===== *)
(** * Metrics

    Models [inference-runtime/src/metrics.rs]: per-deployment counters.  Counters
    are [u64] with wrap-around, usage is added with [TokenUsage::add], and cost is
    a float sum in arrival order. *)
From Stdlib Require Import SpecFloat.
From S2P Require Import Prelude F64 Tokens.

Record DeploymentMetrics : Type := {
  requests_succeeded : Z;
  requests_failed : Z;
  rate_limited : Z;
  circuit_open : Z;
  timed_out : Z;
  content_filtered : Z;
  dm_usage : TokenUsage;
  cost_usd : f64
}.
Definition DeploymentMetrics_default : DeploymentMetrics := {|
  requests_succeeded := 0; requests_failed := 0; rate_limited := 0; circuit_open := 0;
  timed_out := 0; content_filtered := 0; dm_usage := TokenUsage_default; cost_usd := S754_zero false
|}.

Inductive FailureKind : Type :=
  | FK_RateLimited | FK_CircuitOpen | FK_Timeout | FK_ContentFiltered | FK_Other.
#[global] Instance FailureKind_eq_dec : EqDecision FailureKind.
Proof. solve_decision. Defined.

Inductive MetricsMsg : Type :=
  | MM_RecordSuccess (deployment : string) (u : TokenUsage) (cost : f64)
  | MM_RecordFailure (deployment : string) (kind : FailureKind)
  | MM_Snapshot.

Abbreviation MetricsSnapshot := (gmap string DeploymentMetrics).

(** The counter a failure kind increments besides [requests_failed]. *)
Definition bump (b : bool) (n : Z) : Z := if b then wrap_u64 (n + 1) else n.
Definition record_success_entry (u : TokenUsage) (cost : f64) (e : DeploymentMetrics) :
  DeploymentMetrics := {|
  requests_succeeded := wrap_u64 (requests_succeeded e + 1);
  requests_failed := requests_failed e;
  rate_limited := rate_limited e;
  circuit_open := circuit_open e;
  timed_out := timed_out e;
  content_filtered := content_filtered e;
  dm_usage := usage_add (dm_usage e) u;
  cost_usd := f64_add (cost_usd e) cost
|}.
Definition record_failure_entry (kind : FailureKind) (e : DeploymentMetrics) :
  DeploymentMetrics := {|
  requests_succeeded := requests_succeeded e;
  requests_failed := wrap_u64 (requests_failed e + 1);
  rate_limited := bump (bool_decide (kind = FK_RateLimited)) (rate_limited e);
  circuit_open := bump (bool_decide (kind = FK_CircuitOpen)) (circuit_open e);
  timed_out := bump (bool_decide (kind = FK_Timeout)) (timed_out e);
  content_filtered := bump (bool_decide (kind = FK_ContentFiltered)) (content_filtered e);
  dm_usage := dm_usage e;
  cost_usd := cost_usd e
|}.
(** [entry(name).or_default()], updated in place. *)
Definition update_entry (name : string) (f : DeploymentMetrics → DeploymentMetrics)
    (st : MetricsSnapshot) : MetricsSnapshot :=
  <[name := f (default DeploymentMetrics_default (st !! name))]> st.

Definition metrics_handle (msg : MetricsMsg) (st : MetricsSnapshot) :
  MetricsSnapshot * option MetricsSnapshot :=
  match msg with
  | MM_RecordSuccess d u cost => (update_entry d (record_success_entry u cost) st, None)
  | MM_RecordFailure d kind => (update_entry d (record_failure_entry kind) st, None)
  | MM_Snapshot => (st, Some st)
  end.
Definition metrics_run (msgs : list MetricsMsg) (st : MetricsSnapshot) : MetricsSnapshot :=
  foldl (λ st m, fst (metrics_handle m st)) st msgs.

(** ** Specification: counting the messages *)

Definition is_success (d : string) (m : MetricsMsg) : bool :=
  match m with MM_RecordSuccess d' _ _ => bool_decide (d' = d) | _ => false end.
Definition is_failure (d : string) (k : option FailureKind) (m : MetricsMsg) : bool :=
  match m with
  | MM_RecordFailure d' k' =>
      bool_decide (d' = d) && match k with None => true | Some k => bool_decide (k' = k) end
  | _ => false
  end.
Definition successes (d : string) (msgs : list MetricsMsg) : list (TokenUsage * f64) :=
  omap (λ m, match m with
             | MM_RecordSuccess d' u c => if bool_decide (d' = d) then Some (u, c) else None
             | _ => None
             end) msgs.
Definition counted (f : MetricsMsg → bool) (msgs : list MetricsMsg) : Z :=
  wrap_u64 (Z.of_nat (count_if f msgs)).
Definition entry_of (d : string) (st : MetricsSnapshot) : DeploymentMetrics :=
  default DeploymentMetrics_default (st !! d).

Lemma counted_snoc f msgs m :
  counted f (msgs ++ [m]) = bump (f m) (counted f msgs).
Proof.
  unfold counted, bump, wrap. rewrite count_if_app, Nat2Z.inj_add. cbn.
  destruct (f m); cbn [Nat.add]; [|by rewrite Z.add_0_r].
  by rewrite Z.add_mod_idemp_l.
Qed.
Lemma entry_update d name f st :
  entry_of d (update_entry name f st) =
  if bool_decide (name = d) then f (entry_of d st) else entry_of d st.
Proof.
  unfold entry_of, update_entry. case_bool_decide; subst;
    [by rewrite lookup_insert_eq|by rewrite lookup_insert_ne].
Qed.

(** The snapshot counts exactly what was recorded: after any run of messages
    each counter of a deployment is the number of its messages of that kind,
    modulo 2^64 (failures in total and by kind), and its usage and cost are the
    sums over its successes in arrival order; another deployment's messages
    and snapshots never show. *)
Theorem metrics_count (msgs : list MetricsMsg) (d : string) :
  let e := entry_of d (metrics_run msgs ∅) in
  requests_succeeded e = counted (is_success d) msgs ∧
  requests_failed e = counted (is_failure d None) msgs ∧
  rate_limited e = counted (is_failure d (Some FK_RateLimited)) msgs ∧
  circuit_open e = counted (is_failure d (Some FK_CircuitOpen)) msgs ∧
  timed_out e = counted (is_failure d (Some FK_Timeout)) msgs ∧
  content_filtered e = counted (is_failure d (Some FK_ContentFiltered)) msgs ∧
  dm_usage e = foldl usage_add TokenUsage_default (fst <$> successes d msgs) ∧
  cost_usd e = foldl f64_add (S754_zero false) (snd <$> successes d msgs).
Proof.
  induction msgs as [|m msgs IH] using rev_ind; [by vm_compute|].
  unfold metrics_run in *. rewrite foldl_app. cbn [foldl].
  rewrite !counted_snoc. unfold successes in *. rewrite omap_app, !fmap_app, !foldl_app.
  assert (entry_of d (fst (metrics_handle m (foldl (λ st m, fst (metrics_handle m st)) ∅ msgs))) =
    match m with
    | MM_RecordSuccess d' u c =>
        if bool_decide (d' = d) then record_success_entry u c (entry_of d (metrics_run msgs ∅))
        else entry_of d (metrics_run msgs ∅)
    | MM_RecordFailure d' k =>
        if bool_decide (d' = d) then record_failure_entry k (entry_of d (metrics_run msgs ∅))
        else entry_of d (metrics_run msgs ∅)
    | MM_Snapshot => entry_of d (metrics_run msgs ∅)
    end) as -> by (destruct m; [apply entry_update..|done]).
  revert IH. unfold metrics_run. generalize (entry_of d (foldl (λ st m, fst (metrics_handle m st)) ∅ msgs)).
  intros e (H1 & H2 & H3 & H4 & H5 & H6 & H7 & H8).
  destruct m as [d' u c|d' k|]; cbn; [| |done]; case_bool_decide; cbn; try done;
    rewrite H1, H2, H3, H4, H5, H6, ?H7, ?H8; done.
Qed.
