(* ===== verification/Request.v ===== *)
(** * Request actor

    Models [inference-runtime/src/request.rs]: one actor per client request, which
    routes the request, mirrors engine chunks to the gateway and reports the
    accumulated tokens once.  Sends are the events a step emits; the answer of the
    coordinator ([None]: the ask timed out) comes with the [Dispatch] step. *)
From S2P Require Import Prelude Runtime Tokens.

Section request.
Context {Json Target : Type}.
Abbreviation Item := (InferenceResult (TokenChunk Json)).

Inductive RequestMsg : Type :=
  | RM_Dispatch (deployment : string) (batch : ExecuteBatch)
      (route : option (InferenceResult Target))
  | RM_Chunk (item : Item)
  | RM_Cancel.

Record RequestActor : Type := {
  ra_dispatched : bool;
  ra_accumulator : Tokens;
  ra_done : bool;           (* the [done] sender is still there *)
  ra_stopped : bool         (* [ctx.stop_self()] was called *)
}.
Inductive RequestEvent : Type :=
  | RE_Output (item : Item)     (* [self.output.send(item)] *)
  | RE_Done (t : Tokens).       (* [done.send(tokens)] *)

Definition request_new : RequestActor := {|
  ra_dispatched := false; ra_accumulator := Tokens_default; ra_done := true; ra_stopped := false
|}.

Definition finish (s : RequestActor) : RequestActor * list RequestEvent :=
  if ra_done s then
    ({| ra_dispatched := ra_dispatched s; ra_accumulator := Tokens_default; ra_done := false;
        ra_stopped := ra_stopped s |}, [RE_Done (ra_accumulator s)])
  else (s, []).
Definition stop_self (s : RequestActor) : RequestActor := {|
  ra_dispatched := ra_dispatched s; ra_accumulator := ra_accumulator s; ra_done := ra_done s;
  ra_stopped := true
|}.
Definition finish_and_stop (s : RequestActor) : RequestActor * list RequestEvent :=
  let '(s', evs) := finish s in (stop_self s', evs).

Definition set_request_id (id : string) (t : Tokens) : Tokens := {|
  t_request_id := id; t_text := t_text t; t_usage := t_usage t; t_finish_reason := t_finish_reason t
|}.

(** [dispatch]: with a route it keeps the target for observability only; the
    batch and the engine side of the bridge channel are dropped. *)
Definition dispatch_request (batch : ExecuteBatch) (route : option (InferenceResult Target))
    (s : RequestActor) : RequestActor * list RequestEvent :=
  if ra_dispatched s then (s, [])
  else
    let s1 := {| ra_dispatched := true;
                 ra_accumulator := set_request_id (request_id batch) (ra_accumulator s);
                 ra_done := ra_done s; ra_stopped := ra_stopped s |} in
    match route with
    | Some (Ok _) => (s1, [])
    | Some (Err e) =>
        let '(s2, evs) := finish_and_stop s1 in (s2, RE_Output (Err e) :: evs)
    | None =>
        let '(s2, evs) := finish_and_stop s1 in
        (s2, RE_Output (Err (Internal "coordinator timeout")) :: evs)
    end.

Definition is_terminal (item : Item) : bool :=
  match item with
  | Ok c => match finish_reason c with Some _ => true | None => false end
  | Err _ => true
  end.

Definition request_handle (msg : RequestMsg) (s : RequestActor) :
  RequestActor * list RequestEvent :=
  match msg with
  | RM_Dispatch _ batch route => dispatch_request batch route s
  | RM_Chunk item =>
      let s1 := match item with
                | Ok c => {| ra_dispatched := ra_dispatched s;
                             ra_accumulator := tokens_append (ra_accumulator s) c;
                             ra_done := ra_done s; ra_stopped := ra_stopped s |}
                | Err _ => s
                end in
      if is_terminal item then
        let '(s2, evs) := finish_and_stop s1 in (s2, RE_Output item :: evs)
      else (s1, [RE_Output item])
  | RM_Cancel => finish_and_stop s
  end.

(** The mailbox: a stopped actor handles nothing more. *)
Fixpoint request_run (msgs : list RequestMsg) (s : RequestActor) :
  RequestActor * list RequestEvent :=
  match msgs with
  | [] => (s, [])
  | m :: r =>
      if ra_stopped s then (s, [])
      else
        let '(s1, evs1) := request_handle m s in
        let '(s2, evs2) := request_run r s1 in (s2, evs1 ++ evs2)
  end.

Definition dones (evs : list RequestEvent) : list Tokens :=
  omap (λ ev, match ev with RE_Done t => Some t | _ => None end) evs.
Definition outputs (evs : list RequestEvent) : list Item :=
  omap (λ ev, match ev with RE_Output i => Some i | _ => None end) evs.

(** ** Lemmas *)

(** The [done] sender is there until the actor stops. *)
Definition request_ok (s : RequestActor) : Prop := ra_done s = negb (ra_stopped s).

Lemma request_handle_ok m s :
  request_ok s → ra_stopped s = false →
  let '(s', evs) := request_handle m s in
  request_ok s' ∧ length (dones evs) = (if ra_stopped s' then 1 else 0)%nat.
Proof.
  unfold request_ok. destruct s as [di acc dn st]. cbn. intros Hd ->. cbn in Hd. subst dn.
  destruct m as [d b route|item|]; cbn [request_handle].
  - unfold dispatch_request. cbn. destruct di; [done|]. destruct route as [[t|e]|]; done.
  - destruct item as [c|e]; cbn; [|done]. by destruct (finish_reason c).
  - done.
Qed.
Lemma request_run_stopped msgs s : ra_stopped s = true → request_run msgs s = (s, []).
Proof. destruct msgs; cbn; [done|]. by intros ->. Qed.
Lemma dones_app a b : dones (a ++ b) = dones a ++ dones b.
Proof. apply omap_app. Qed.

Lemma request_run_dones msgs s :
  request_ok s →
  let '(s', evs) := request_run msgs s in
  request_ok s' ∧
  length (dones evs) = (if ra_stopped s' && negb (ra_stopped s) then 1 else 0)%nat.
Proof.
  revert s. induction msgs as [|m msgs IH]; intros s Hok; cbn [request_run].
  { split; [done|]. by destruct (ra_stopped s). }
  destruct (ra_stopped s) eqn:Es; [by rewrite Es|].
  pose proof (request_handle_ok m s Hok Es) as H. destruct (request_handle m s) as [s1 evs1].
  destruct H as [Hok1 H1]. specialize (IH s1 Hok1).
  destruct (ra_stopped s1) eqn:Es1.
  - rewrite request_run_stopped by done. rewrite app_nil_r, Es1. done.
  - destruct (request_run msgs s1) as [s2 evs2]. destruct IH as [Hok2 H2].
    rewrite dones_app, length_app, H1, H2. done.
Qed.

(** A run of chunks that do not end the request. *)
Lemma request_run_chunks (cs : list (TokenChunk Json)) rest s :
  ra_stopped s = false → Forall (λ c, finish_reason c = None) cs →
  request_run ((RM_Chunk ∘ Ok <$> cs) ++ rest) s =
  let '(s', evs) := request_run rest
    {| ra_dispatched := ra_dispatched s;
       ra_accumulator := foldl tokens_append (ra_accumulator s) cs;
       ra_done := ra_done s; ra_stopped := false |} in
  (s', (RE_Output ∘ Ok <$> cs) ++ evs).
Proof.
  intros Hs Hcs. revert s Hs. induction Hcs as [|c cs Hc _ IH]; intros s Hs.
  - cbn [fmap list_fmap app foldl]. rewrite <-Hs. destruct s; cbn.
    destruct (request_run rest _) as [s' evs]. done.
  - cbn [fmap list_fmap app request_run]. rewrite Hs. cbn [compose request_handle is_terminal].
    rewrite Hc. rewrite IH by done. cbn [ra_dispatched ra_accumulator ra_done foldl].
    destruct (request_run rest _). done.
Qed.

(** Completion is reported exactly once: over any mailbox, a request that has
    stopped has sent its accumulated tokens once, and one that has not has sent
    nothing. *)
Theorem request_done_once (msgs : list RequestMsg) :
  let '(s, evs) := request_run msgs request_new in
  length (dones evs) = (if ra_stopped s then 1 else 0)%nat ∧
  ra_done s = negb (ra_stopped s).
Proof.
  pose proof (request_run_dones msgs request_new eq_refl) as H.
  destruct (request_run msgs request_new) as [s evs]. destruct H as [Hok H].
  rewrite H. cbn. by rewrite andb_true_r.
Qed.

(** How a stream ends: a finishing chunk, an error, or a cancellation. *)
Inductive StreamEnd : Type :=
  | End_chunk (c : TokenChunk Json) (r : FinishReason)
  | End_error (e : InferenceError)
  | End_cancel.
Definition end_msg (e : StreamEnd) : RequestMsg :=
  match e with
  | End_chunk c _ => RM_Chunk (Ok c) | End_error e => RM_Chunk (Err e) | End_cancel => RM_Cancel
  end.
Definition end_ok (e : StreamEnd) : Prop :=
  match e with End_chunk c r => finish_reason c = Some r | _ => True end.
Definition end_chunks (e : StreamEnd) : list (TokenChunk Json) :=
  match e with End_chunk c _ => [c] | _ => [] end.
Definition end_items (e : StreamEnd) : list Item :=
  match e with End_chunk c _ => [Ok c] | End_error e => [Err e] | End_cancel => [] end.

(** [C15] The client sees the engine's stream and its summary agrees: after a routed
    dispatch, chunks up to the first terminal event are mirrored in order, the
    actor then reports the accumulation of exactly those chunks under the
    batch's request id, stops, and ignores whatever is still in its mailbox. *)
Theorem request_stream_mirrored (d : string) (batch : ExecuteBatch) (t : Target)
    (cs : list (TokenChunk Json)) (e : StreamEnd) (late : list RequestMsg) :
  Forall (λ c, finish_reason c = None) cs → end_ok e →
  let '(s, evs) := request_run
    (RM_Dispatch d batch (Some (Ok t)) :: (RM_Chunk ∘ Ok <$> cs) ++ end_msg e :: late) request_new in
  ra_stopped s = true ∧
  outputs evs = (Ok <$> cs) ++ end_items e ∧
  dones evs = [foldl tokens_append (set_request_id (request_id batch) Tokens_default)
                 (cs ++ end_chunks e)].
Proof.
  intros Hcs He. cbn [request_run request_new ra_stopped request_handle dispatch_request
    ra_dispatched app].
  rewrite request_run_chunks by done. cbn [ra_dispatched ra_accumulator ra_done request_run ra_stopped].
  assert (∀ l, outputs ((RE_Output ∘ Ok <$> cs) ++ l) = (Ok <$> cs) ++ outputs l ∧
    dones ((RE_Output ∘ Ok <$> cs) ++ l) = dones l) as Hev.
  { intros l. clear. unfold outputs, dones. rewrite !omap_app.
    assert (omap (λ ev, match ev with RE_Output i => Some i | _ => None end)
      (RE_Output ∘ Ok <$> cs) = Ok <$> cs) as -> by (induction cs; cbn; congruence).
    assert (omap (λ ev, match ev with RE_Done t => Some t | _ => None end)
      (RE_Output ∘ Ok <$> cs) = []) as -> by (by induction cs). done. }
  destruct e as [c r|err|]; cbn [end_msg request_handle is_terminal end_ok] in *; try rewrite He;
    unfold finish_and_stop, finish, request_new;
    cbn [ra_dispatched ra_accumulator ra_done ra_stopped stop_self];
    rewrite request_run_stopped by done; rewrite !(proj1 (Hev _)), !(proj2 (Hev _));
    (split; [done|]); (split; [done|]); cbn [end_chunks]; rewrite foldl_app; done.
Qed.
End request.
Arguments RequestMsg Json Target : clear implicits.

Lemma request_stream_mirrored_witness :
  let '(s, evs) := request_run
    [RM_Dispatch "d" {| request_id := "r"; model := "m"; messages := [];
        sampling := SamplingParams_default; stream := true; estimated_tokens_field := 1 |} (Some (Ok ()));
     RM_Chunk (Json:=unit) (Ok {| c_request_id := "r"; text_delta := "Hi"; tool_call_delta := None;
        usage := None; finish_reason := None |}); RM_Cancel; RM_Cancel] request_new in
  t_text <$> dones evs = ["Hi"].
Proof.
  pose proof (request_stream_mirrored (Json:=unit) "d" {| request_id := "r"; model := "m"; messages := [];
        sampling := SamplingParams_default; stream := true; estimated_tokens_field := 1 |} ()
    [{| c_request_id := "r"; text_delta := "Hi"; tool_call_delta := None;
        usage := None; finish_reason := None |}] End_cancel [RM_Cancel]
    ltac:(by repeat constructor) I) as H.
  cbn [fmap list_fmap compose app end_msg] in H.
  destruct (request_run _ _) as [s evs]. destruct H as (_ & _ & ->). reflexivity.
Defined.
