(* ===== verification/LocalEngine.v ===== *)
(** * Local engines

    Models per-replica engines of [inference-runtime]: [engine_core.rs] (text),
    [speech_engine.rs] and [audio_engine.rs], and the configuration and the gate of
    [realtime_engine.rs], whose sessions are in [RealtimeEngine].  Each
    admits a request by incrementing [in_flight] under a lock, spawns a task and
    answers the admission; the task waits for the runner's mutex, runs, and then
    decrements [in_flight].  Tasks are concurrent with the mailbox: a step relation
    interleaves messages, task runs and releases.  The runner's method and whether a
    receiver is still there are parameters. *)
From Stdlib Require Import SpecFloat.
From stdpp Require Import relations.
From S2P Require Import Prelude F64 Runtime Tokens Audio Runner.

(** ** Configurations *)

Record LocalEngineConfig : Type := { lec_max_concurrent : Z; lec_queue_capacity : Z }.
Definition LocalEngineConfig_default : LocalEngineConfig :=
  {| lec_max_concurrent := 32; lec_queue_capacity := 1024 |}.
Record AudioEngineConfig : Type := { aec_max_concurrent : Z; aec_queue_capacity : Z }.
Definition AudioEngineConfig_default : AudioEngineConfig :=
  {| aec_max_concurrent := 16; aec_queue_capacity := 256 |}.
Record SpeechEngineConfig : Type := { sec_max_concurrent : Z; sec_queue_capacity : Z }.
Definition SpeechEngineConfig_default : SpeechEngineConfig :=
  {| sec_max_concurrent := 16; sec_queue_capacity := 256 |}.
Record RealtimeEngineConfig : Type := {
  tec_max_concurrent : Z; tec_queue_capacity : Z; tec_outbound_relay_capacity : Z
}.
Definition RealtimeEngineConfig_default : RealtimeEngineConfig :=
  {| tec_max_concurrent := 8; tec_queue_capacity := 64; tec_outbound_relay_capacity := 64 |}.

(** ** The admission gate *)

(** [try_admit]; the engines differ in the text of the error. *)
Definition try_admit (at_capacity : string) (max_concurrent g : Z) : Z * InferenceResult unit :=
  if max_concurrent <=? g then (g, Err (Backpressure at_capacity)) else (g + 1, Ok ()).
Definition release (g : Z) : Z := saturating_sub g 1.
(** [GetLoad]. *)
Definition get_load (max_concurrent g : Z) : f64 :=
  f64_div (f64_of_Z g) (f64_of_Z max_concurrent).
(** An engine with no slots reports no load between 0 and 1. *)
Example load_of_no_slots : get_load 0 0 = S754_nan.
Proof. reflexivity. Qed.

(** ** A task's output *)

(** [while let Some(chunk) = s.next().await]: stop at the first refused send. *)
Fixpoint relay {A} (alive : nat → bool) (k : nat) (items : list A) : list A :=
  match items with
  | [] => []
  | i :: r => if alive k then i :: relay alive (S k) r else []
  end.
(** What the output channel receives for one answer of the runner. *)
Definition task_output {Item} (alive : nat → bool) (res : InferenceResult (RunHandle Item)) :
  list (InferenceResult Item) :=
  match res with
  | Ok handle => relay alive 0 (into_stream handle)
  | Err e => relay alive 0 [Err e]
  end.

Lemma relay_prefix {A} alive k (items : list A) : relay alive k items `prefix_of` items.
Proof.
  revert k. induction items as [|i r IH]; intros k; cbn; [done|].
  case_match; [by apply prefix_cons|apply prefix_nil].
Qed.
Lemma relay_all {A} alive k (items : list A) :
  (∀ n, alive n = true) → relay alive k items = items.
Proof. intros Ha. revert k. induction items as [|i r IH]; intros k; cbn; [done|]. by rewrite Ha, IH. Qed.

(** ** Engine, tasks and runner *)

Section engine.
Context {R Req Item : Type}.
(** The runner method the engine's tasks call. *)
Variable exec : R → Req → R * InferenceResult (RunHandle Item).

Record LocalState : Type := {
  ls_runner : R;
  ls_in_flight : Z;
  ls_waiting : list Req;                                  (* spawned, before the mutex *)
  ls_running : list (Req * list (InferenceResult Item));  (* run, before the decrement *)
  ls_ended : list (Req * list (InferenceResult Item))
}.
Definition local_init (r : R) : LocalState := {|
  ls_runner := r; ls_in_flight := 0; ls_waiting := []; ls_running := []; ls_ended := []
|}.
Definition set_in_flight (g : Z) (s : LocalState) : LocalState := {|
  ls_runner := ls_runner s; ls_in_flight := g; ls_waiting := ls_waiting s;
  ls_running := ls_running s; ls_ended := ls_ended s
|}.
Definition spawn_task (req : Req) (s : LocalState) : LocalState := {|
  ls_runner := ls_runner s; ls_in_flight := ls_in_flight s; ls_waiting := ls_waiting s ++ [req];
  ls_running := ls_running s; ls_ended := ls_ended s
|}.

(** [Add] of [speech_engine.rs] and the matching arms of [audio_engine.rs]: the task alone
    releases the slot. *)
Definition gated_add (at_capacity : string) (max_concurrent : Z) (req : Req) (s : LocalState) :
  LocalState * InferenceResult unit :=
  match try_admit at_capacity max_concurrent (ls_in_flight s) with
  | (_, Err e) => (s, Err e)
  | (g, Ok _) => (spawn_task req (set_in_flight g s), Ok ())
  end.

(** [Add] of [engine_core.rs]: after the spawn the handler calls [release] too. *)
Definition engine_core_add (max_concurrent : Z) (req : Req) (s : LocalState) :
  LocalState * InferenceResult unit :=
  match try_admit "engine at capacity" max_concurrent (ls_in_flight s) with
  | (_, Err e) => (s, Err e)
  | (g, Ok _) =>
      let s1 := spawn_task req (set_in_flight g s) in
      (set_in_flight (release (ls_in_flight s1)) s1, Ok ())
  end.

Definition speech_add (c : SpeechEngineConfig) :=
  gated_add "speech engine at capacity" (sec_max_concurrent c).

(** The messages of both engines and their handlers; a load probe changes nothing. *)
Inductive LocalMsg : Type := EM_Add (req : Req) | EM_GetLoad.
Inductive LocalReply : Type := ER_Admission (a : InferenceResult unit) | ER_Load (load : f64).
Definition engine_core_handle (c : LocalEngineConfig) (msg : LocalMsg) (s : LocalState) : LocalState * LocalReply :=
  match msg with
  | EM_Add req => let '(s', a) := engine_core_add (lec_max_concurrent c) req s in (s', ER_Admission a)
  | EM_GetLoad => (s, ER_Load (get_load (lec_max_concurrent c) (ls_in_flight s)))
  end.
Definition speech_handle (c : SpeechEngineConfig) (msg : LocalMsg) (s : LocalState) : LocalState * LocalReply :=
  match msg with
  | EM_Add req => let '(s', a) := speech_add c req s in (s', ER_Admission a)
  | EM_GetLoad => (s, ER_Load (get_load (sec_max_concurrent c) (ls_in_flight s)))
  end.

(** A task gets the mutex, calls the runner and forwards its stream. *)
Definition run_task (alive : nat → bool) (req : Req) (w1 w2 : list Req) (s : LocalState) : LocalState :=
  let '(r', res) := exec (ls_runner s) req in
  {| ls_runner := r'; ls_in_flight := ls_in_flight s; ls_waiting := w1 ++ w2;
     ls_running := ls_running s ++ [(req, task_output alive res)]; ls_ended := ls_ended s |}.
(** It then takes the counter's lock and decrements. *)
Definition end_task (t : Req * list (InferenceResult Item))
    (r1 r2 : list (Req * list (InferenceResult Item))) (s : LocalState) : LocalState :=
  {| ls_runner := ls_runner s; ls_in_flight := release (ls_in_flight s);
     ls_waiting := ls_waiting s; ls_running := r1 ++ r2; ls_ended := ls_ended s ++ [t] |}.

(** One step of the engine whose [Add] handler is [add]. *)
Inductive local_step (add : Req → LocalState → LocalState * InferenceResult unit) :
  LocalState → LocalState → Prop :=
  | step_add s req : local_step add s (fst (add req s))
  | step_run s alive req w1 w2 :
      ls_waiting s = w1 ++ req :: w2 → local_step add s (run_task alive req w1 w2 s)
  | step_end s t r1 r2 :
      ls_running s = r1 ++ t :: r2 → local_step add s (end_task t r1 r2 s).

(** Live tasks: admitted and not released yet. *)
Definition live (s : LocalState) : Z :=
  Z.of_nat (length (ls_waiting s)) + Z.of_nat (length (ls_running s)).

Definition gate_ok (max_concurrent : Z) (s : LocalState) : Prop :=
  ls_in_flight s = live s ∧ live s ≤ max_concurrent.

Lemma gated_step_ok what m s s' :
  local_step (gated_add what m) s s' → gate_ok m s → gate_ok m s'.
Proof.
  unfold gate_ok, live.
  intros [s0 req|s0 alive req w1 w2 Hw|s0 t r1 r2 Hr] [Hi Hm].
  - unfold gated_add, try_admit. destruct (Z.leb_spec m (ls_in_flight s0)); cbn; [done|].
    rewrite length_app. cbn. lia.
  - unfold run_task. destruct (exec _ _) as [r' res]. rewrite Hw in *. cbn in *.
    rewrite !length_app in *. cbn in *. lia.
  - unfold end_task, release, saturating_sub. rewrite Hr in *. cbn in *.
    rewrite !length_app in *. cbn in *. lia.
Qed.

(** [C12] The gate of the audio and speech engines holds: in every
    reachable interleaving of messages, task runs and releases, [in_flight] is
    exactly the number of admitted tasks that have not released their slot, it
    never exceeds [max_concurrent], a request is refused exactly when it is reached,
    and the engine can always drain to idle. *)
Theorem gated_admission (what : string) (m : Z) (r : R) (s : LocalState) (req : Req) :
  0 ≤ m → rtc (local_step (gated_add what m)) (local_init r) s →
  ls_in_flight s = live s ∧ 0 ≤ live s ≤ m ∧
  (snd (gated_add what m req s) = Err (Backpressure what) ↔ live s = m) ∧
  ∃ s', rtc (local_step (gated_add what m)) s s' ∧ ls_in_flight s' = 0 ∧
    ls_waiting s' = [] ∧ ls_running s' = [].
Proof.
  intros Hm Hs. assert (gate_ok m s) as [Hi Hl].
  { assert (gate_ok m (local_init r)) as H0 by (by unfold gate_ok, live; cbn; lia).
    induction Hs as [|a b c Hab _ IH]; [done|]. apply IH. by eapply gated_step_ok. }
  split; [done|]. split; [unfold live in *; lia|]. split.
  - unfold gated_add, try_admit. destruct (Z.leb_spec m (ls_in_flight s)); cbn.
    + split; [lia|done].
    + split; [done|lia].
  - assert (gate_ok m s) as Hg by done. clear Hs Hi Hl req.
    remember (length (ls_waiting s) + (length (ls_waiting s) + length (ls_running s)))%nat as n eqn:En.
    revert s En Hg. induction (lt_wf n) as [n _ IH]. intros s En Hg.
    destruct (ls_waiting s) as [|q w] eqn:Ew; [destruct (ls_running s) as [|t l] eqn:Er|].
    + exists s. split; [apply rtc_refl|]. destruct Hg as [Hi _]. unfold live in Hi.
      rewrite Ew, Er in Hi. done.
    + assert (local_step (gated_add what m) s (end_task t [] l s)) as Hstep by (by apply step_end).
      destruct (IH (length l)) with (s := end_task t [] l s) as (s' & Hr & Hs');
        [subst; cbn; lia|cbn; by rewrite Ew|by eapply gated_step_ok|].
      exists s'. split; [by eapply rtc_l|done].
    + assert (local_step (gated_add what m) s (run_task (λ _, true) q [] w s)) as Hstep
        by (by apply step_run).
      assert (ls_waiting (run_task (λ _, true) q [] w s) = w ∧
        length (ls_running (run_task (λ _, true) q [] w s)) = S (length (ls_running s))) as [E1 E2].
      { unfold run_task. destruct (exec _ _). cbn [ls_waiting ls_running app]. split; [done|]. rewrite length_app. cbn. lia. }
      destruct (IH (length w + (length w + S (length (ls_running s))))%nat)
        with (s := run_task (λ _, true) q [] w s) as (s' & Hr & Hs');
        [subst; cbn; lia|by rewrite E1, E2|by eapply gated_step_ok|].
      exists s'. split; [by eapply rtc_l|done].
Qed.

(** The text engine's gate never closes: because the handler itself releases the
    slot it has just taken, any number of requests can be admitted at once
    whatever [max_concurrent] is, and the load it reports is that of an idle
    engine. *)
Theorem engine_core_unbounded (m : Z) (r : R) (reqs : list Req) :
  1 ≤ m →
  ∃ s, rtc (local_step (engine_core_add m)) (local_init r) s ∧
    ls_waiting s = reqs ∧ live s = Z.of_nat (length reqs) ∧ ls_in_flight s = 0 ∧
    (∀ q, snd (engine_core_add m q s) = Ok ()) ∧
    get_load m (ls_in_flight s) = get_load m 0.
Proof.
  intros Hm.
  assert (∀ q s, ls_in_flight s = 0 → engine_core_add m q s = (spawn_task q s, Ok ())) as Hadd.
  { intros q [rn g w ru en] Hg. cbn in Hg. subst. unfold engine_core_add, try_admit. cbn.
    rewrite (proj2 (Z.leb_gt _ _)) by lia. done. }
  exists {| ls_runner := r; ls_in_flight := 0; ls_waiting := reqs; ls_running := []; ls_ended := [] |}.
  split_and!; [|done|unfold live; cbn; lia|done|intros q; by rewrite Hadd|done].
  induction reqs as [|q reqs IH] using rev_ind; [apply rtc_refl|].
  eapply rtc_r; [exact IH|].
  pose proof (λ s, step_add (engine_core_add m) s q) as H.
  specialize (H {| ls_runner := r; ls_in_flight := 0; ls_waiting := reqs; ls_running := []; ls_ended := [] |}).
  rewrite Hadd in H by done. exact H.
Qed.
End engine.

(** ** The audio engine: two modalities, one gate (audio_engine.rs) *)

Section audio_engine.
Context {Url Receiver RS RA : Type}.
Abbreviation Batch := (AudioBatch Url Receiver).

Inductive RunnerCell : Type := Cell_Stt (r : RS) | Cell_A2F (r : RA).
Inductive AudioRequest : Type := AddTranscribe (b : Batch) | AddAudio2Face (b : Batch).

Record AudioEngineCoreActor : Type := {
  ae_runner : RunnerCell;
  ae_config : AudioEngineConfig;
  ae_in_flight : Z;
  ae_tasks : list AudioRequest        (* spawned runner tasks, oldest first *)
}.
Definition new_stt (r : RS) (c : AudioEngineConfig) : AudioEngineCoreActor :=
  {| ae_runner := Cell_Stt r; ae_config := c; ae_in_flight := 0; ae_tasks := [] |}.
Definition new_audio2face (r : RA) (c : AudioEngineConfig) : AudioEngineCoreActor :=
  {| ae_runner := Cell_A2F r; ae_config := c; ae_in_flight := 0; ae_tasks := [] |}.

(** [reject_modality_mismatch]: the admission succeeds, the error is streamed. *)
Definition reject_modality_mismatch (method : string) (runtime : RuntimeKind) :
  InferenceResult unit * option InferenceError :=
  (Ok (), Some (Unsupported method runtime)).

(** An admitted request: one more slot, one more task. *)
Definition audio_admit (req : AudioRequest) (a : AudioEngineCoreActor) :
  AudioEngineCoreActor * InferenceResult unit :=
  match try_admit "audio engine at capacity" (aec_max_concurrent (ae_config a)) (ae_in_flight a) with
  | (_, Err e) => (a, Err e)
  | (g, Ok _) =>
      ({| ae_runner := ae_runner a; ae_config := ae_config a; ae_in_flight := g;
          ae_tasks := ae_tasks a ++ [req] |}, Ok ())
  end.

(** [handle]: the new state, the admission's answer, and the error streamed by the
    mismatch path. *)
Definition audio_handle (req : AudioRequest) (a : AudioEngineCoreActor) :
  AudioEngineCoreActor * (InferenceResult unit * option InferenceError) :=
  match req, ae_runner a with
  | AddTranscribe _, Cell_A2F _ => (a, reject_modality_mismatch "execute_audio" RK_Audio2Face)
  | AddAudio2Face _, Cell_Stt _ => (a, reject_modality_mismatch "execute_audio2face" RK_SpeechToText)
  | _, _ => let '(a', adm) := audio_admit req a in (a', (adm, None))
  end.

(** The runner method a task calls; a task never meets the other runner. *)
Definition task_matches (c : RunnerCell) (req : AudioRequest) : Prop :=
  match req, c with
  | AddTranscribe _, Cell_Stt _ | AddAudio2Face _, Cell_A2F _ => True
  | _, _ => False
  end.

(** Modality is enforced at the door: the tasks an audio engine ever spawns all
    match its runner, one slot per task; a request of the other modality costs no
    slot and spawns no runner task, and its client reads an [Unsupported] error that
    is not retryable. *)
Theorem audio_modality_enforced (a0 : AudioEngineCoreActor) (reqs : list AudioRequest)
    (req : AudioRequest) :
  ae_in_flight a0 = 0 → ae_tasks a0 = [] → 0 ≤ aec_max_concurrent (ae_config a0) →
  let a := foldl (λ a q, fst (audio_handle q a)) a0 reqs in
  Forall (task_matches (ae_runner a0)) (ae_tasks a) ∧
  ae_in_flight a = Z.of_nat (length (ae_tasks a)) ∧
  ae_in_flight a ≤ aec_max_concurrent (ae_config a0) ∧
  (¬ task_matches (ae_runner a0) req →
     ∃ e, audio_handle req a = (a, (Ok (), Some e)) ∧ is_retryable e = false).
Proof.
  intros Hi Ht Hm. cbv zeta.
  assert (∀ q a, audio_handle q a = (a, snd (audio_handle q a)) ∧
      (∃ e, snd (audio_handle q a) = (Ok (), Some e) ∧ is_retryable e = false) ∧
      ¬ task_matches (ae_runner a) q ∨
    audio_handle q a = (fst (audio_admit q a), (snd (audio_admit q a), None)) ∧
      task_matches (ae_runner a) q) as Hcase.
  { intros q [[r|r] c g ts]; destruct q as [b|b]; unfold audio_handle; cbn [ae_runner snd fst task_matches];
      try (right; split; [by destruct (audio_admit _ _)|done]);
      (left; split; [done|split; [eexists; split; [reflexivity|done]|tauto]]). }
  assert (∀ a, ae_runner a = ae_runner a0 ∧ ae_config a = ae_config a0 ∧
      Forall (task_matches (ae_runner a0)) (ae_tasks a) ∧
      ae_in_flight a = Z.of_nat (length (ae_tasks a)) ∧
      ae_in_flight a ≤ aec_max_concurrent (ae_config a0) →
    let a' := foldl (λ a q, fst (audio_handle q a)) a reqs in
    ae_runner a' = ae_runner a0 ∧ ae_config a' = ae_config a0 ∧
      Forall (task_matches (ae_runner a0)) (ae_tasks a') ∧
      ae_in_flight a' = Z.of_nat (length (ae_tasks a')) ∧
      ae_in_flight a' ≤ aec_max_concurrent (ae_config a0)) as Hrun.
  { induction reqs as [|q reqs IH]; intros a Ha; cbn [foldl]; [done|]. apply IH.
    destruct (Hcase q a) as [(-> & _)|(-> & Hq)]; [done|]. cbn [fst].
    destruct Ha as (Hr & Hc & Hf & Hn & Hl). unfold audio_admit, try_admit. rewrite Hc.
    destruct (Z.leb_spec (aec_max_concurrent (ae_config a0)) (ae_in_flight a)); cbn; [done|].
    rewrite length_app. cbn. split_and!; [done..| |lia|lia].
    apply Forall_app_snoc; [done|]. by rewrite Hr in Hq. }
  destruct (Hrun a0) as (Hr & Hc & Hf & Hn & Hl);
    [rewrite Hi, Ht; split_and!; done || constructor|].
  split_and!; [done..|]. intros Hq. rewrite <-Hr in Hq.
  destruct (Hcase req (foldl (λ a q, fst (audio_handle q a)) a0 reqs)) as [(E & (e & He & Hre) & _)|(_ & H)];
    [|done]. exists e. by rewrite E, He.
Qed.
End audio_engine.

(** ** Witnesses *)

(** A runner with no state that answers each request with one item. *)
Definition echo_exec (r : unit) (q : nat) : unit * InferenceResult (RunHandle nat) :=
  (r, Ok (streaming [Ok q])).

Lemma gated_admission_witness :
  let s0 := local_init (Req:=nat) (Item:=nat) () in
  let s1 := fst (gated_add "speech engine at capacity" 1 7%nat s0) in
  live s1 = 1 ∧
  snd (gated_add "speech engine at capacity" 1 8%nat s1) = Err (Backpressure "speech engine at capacity").
Proof.
  intros s0 s1. split; [reflexivity|].
  apply (gated_admission echo_exec "speech engine at capacity" 1 () s1 8%nat); [lia| |reflexivity].
  apply rtc_once. apply step_add.
Defined.
Lemma engine_core_unbounded_witness :
  ∃ s, rtc (local_step echo_exec (engine_core_add 1)) (local_init ()) s ∧ live s = 3.
Proof.
  destruct (engine_core_unbounded echo_exec 1 () [1; 2; 3]%nat ltac:(lia)) as (s & Hr & _ & Hl & _).
  by exists s.
Defined.
Definition example_audio_batch : AudioBatch unit unit := {|
  ab_request_id := "r"; ab_model := "whisper-1";
  ab_input := AI_Static (AP_Bytes [] {| sample_rate_hz := 16000; channels := 1; format := AF_Pcm16Le |});
  ab_stream := false; ab_options := AO_Transcribe TranscribeOptions_default; ab_estimated_units := 5
|}.
Lemma audio_modality_enforced_witness :
  let a0 := new_stt (RA:=unit) () AudioEngineConfig_default in
  ∃ e, audio_handle (AddAudio2Face example_audio_batch) a0 = (a0, (Ok (), Some e)) ∧
    is_retryable e = false.
Proof.
  intros a0.
  destruct (audio_modality_enforced a0 [] (AddAudio2Face example_audio_batch) eq_refl eq_refl ltac:(done))
    as (_ & _ & _ & H).
  apply H. intros [].
Defined.
