(* ===== verification/RealtimeEngine.v ===== *)
(** * The realtime engine

    Models [inference-runtime/src/realtime_engine.rs].  A session outlives the message that
    opened it: the engine puts a channel of its own between the runner's adapter and the
    caller and keeps the admission slot until that relay ends.  Each spawned task is in one of
    three phases (waiting for the runner, relaying, about to release its slot); the mailbox,
    the tasks, the adapters and the callers interleave in a step relation.  The runner's
    [open_session] is a parameter; what an adapter sends, when it ends, and when a caller reads
    or drops its receiver are moves of the environment.  [caller_outbound.send] waits while the
    caller's channel, whose capacity is the caller's choice, is full. *)
From Stdlib Require Import SpecFloat.
From stdpp Require Import relations.
From S2P Require Import Prelude F64 Runtime Tokens Audio Runner LocalEngine.

Section realtime_engine.
Context {Url Receiver Sender R : Type}.

(** What a session sends to: the caller's channel, or the engine's [n]-th relay. *)
Inductive Outbound : Type := Caller (s : Sender) | Relay_tx (n : nat).
(** [admission] names the reply channel. *)
Record OpenSessionRequest : Type := {
  os_batch : RealtimeBatch Url Receiver Sender; os_admission : nat
}.
(** [batch.outbound = relay_tx]. *)
Definition with_outbound (tx : Outbound) (b : RealtimeBatch Url Receiver Sender) :
  RealtimeBatch Url Receiver Outbound := {|
  rb_request_id := rb_request_id b; rb_model := rb_model b; rb_voice := rb_voice b;
  rb_options := rb_options b; rb_inbound := rb_inbound b; rb_outbound := tx
|}.
(** The capacity of a caller's channel. *)
Variable room : Sender → Z.
Variable open : R → RealtimeBatch Url Receiver Outbound → R * InferenceResult RealtimeSession.

(** A session being relayed.  [rl_sent] is what its adapter has sent so far. *)
Record Relay : Type := {
  rl_tx : bool;                    (* the adapter still holds [relay_tx] *)
  rl_queue : list RealtimeOut;     (* in the relay channel *)
  rl_hand : option RealtimeOut;    (* received, [caller_outbound.send] pending *)
  rl_room : Z;                     (* the capacity of the caller's channel *)
  rl_listening : bool;             (* the caller's receiver exists *)
  rl_read : list RealtimeOut;      (* what the caller has read *)
  rl_inbox : list RealtimeOut;     (* in its channel, unread *)
  rl_sent : list RealtimeOut
}.
Definition relay_start (cap : Z) : Relay := {|
  rl_tx := true; rl_queue := []; rl_hand := None; rl_room := cap; rl_listening := true; rl_read := [];
  rl_inbox := []; rl_sent := []
|}.
(** Handed to the caller's channel, in order. *)
Definition rl_delivered (r : Relay) : list RealtimeOut := rl_read r ++ rl_inbox r.
(** [T_Closing None]: the session was refused by the runner. *)
Inductive Task : Type :=
  | T_Opening (req : OpenSessionRequest) (n : nat)
  | T_Relaying (r : Relay)
  | T_Closing (r : option Relay).

Record RealtimeEngineCoreActor : Type := {
  re_runner : R; re_config : RealtimeEngineConfig; re_in_flight : Z;
  re_tasks : list Task; re_channels : nat;
  re_answers : list (nat * InferenceResult RealtimeSession)
}.
Definition realtime_engine_new (r : R) (c : RealtimeEngineConfig) : RealtimeEngineCoreActor := {|
  re_runner := r; re_config := c; re_in_flight := 0; re_tasks := []; re_channels := 0; re_answers := []
|}.
Definition with_tasks (ts : list Task) (e : RealtimeEngineCoreActor) : RealtimeEngineCoreActor := {|
  re_runner := re_runner e; re_config := re_config e; re_in_flight := re_in_flight e;
  re_tasks := ts; re_channels := re_channels e; re_answers := re_answers e
|}.
Definition answer (id : nat) (a : InferenceResult RealtimeSession) (e : RealtimeEngineCoreActor) :
  RealtimeEngineCoreActor := {|
  re_runner := re_runner e; re_config := re_config e; re_in_flight := re_in_flight e;
  re_tasks := re_tasks e; re_channels := re_channels e; re_answers := re_answers e ++ [(id, a)]
|}.

(** [OpenSession].  [None]: [mpsc::channel(0)] panics, after the slot was taken. *)
Definition handle_open (req : OpenSessionRequest) (e : RealtimeEngineCoreActor) :
  option RealtimeEngineCoreActor :=
  match try_admit "realtime engine at capacity" (tec_max_concurrent (re_config e)) (re_in_flight e) with
  | (_, Err err) => Some (answer (os_admission req) (Err err) e)
  | (g, Ok _) =>
      if tec_outbound_relay_capacity (re_config e) =? 0 then None
      else Some {|
        re_runner := re_runner e; re_config := re_config e; re_in_flight := g;
        re_tasks := re_tasks e ++ [T_Opening req (re_channels e)]; re_channels := S (re_channels e);
        re_answers := re_answers e
      |}
  end.
Definition handle_load (e : RealtimeEngineCoreActor) : f64 :=
  get_load (tec_max_concurrent (re_config e)) (re_in_flight e).

(** A task gets the runner's mutex and opens its session. *)
Definition open_task (req : OpenSessionRequest) (n : nat) (ts1 ts2 : list Task) (e : RealtimeEngineCoreActor) :
  RealtimeEngineCoreActor :=
  let '(r', res) := open (re_runner e) (with_outbound (Relay_tx n) (os_batch req)) in
  {| re_runner := r'; re_config := re_config e; re_in_flight := re_in_flight e;
     re_tasks := ts1 ++ match res with Ok _ => T_Relaying (relay_start (room (rb_outbound (os_batch req)))) | Err _ => T_Closing None end :: ts2;
     re_channels := re_channels e;
     re_answers := re_answers e ++ [(os_admission req, res)] |}.
Definition release_task (ts1 ts2 : list Task) (e : RealtimeEngineCoreActor) : RealtimeEngineCoreActor := {|
  re_runner := re_runner e; re_config := re_config e; re_in_flight := release (re_in_flight e);
  re_tasks := ts1 ++ ts2; re_channels := re_channels e; re_answers := re_answers e
|}.

(** The task's moves: [relay_rx.recv().await], then [caller_outbound.send(out_msg).await];
    no move: it waits. *)
Definition relay_move (r : Relay) : option Task :=
  match rl_hand r with
  | None =>
      match rl_queue r with
      | m :: q => Some (T_Relaying {| rl_tx := rl_tx r; rl_queue := q; rl_hand := Some m; rl_room := rl_room r;
          rl_listening := rl_listening r; rl_read := rl_read r; rl_inbox := rl_inbox r; rl_sent := rl_sent r |})
      | [] => if rl_tx r then None else Some (T_Closing (Some r))
      end
  | Some m =>
      if rl_listening r then
        if Z.of_nat (length (rl_inbox r)) <? rl_room r then
          Some (T_Relaying {| rl_tx := rl_tx r; rl_queue := rl_queue r; rl_hand := None; rl_room := rl_room r;
            rl_listening := true; rl_read := rl_read r; rl_inbox := rl_inbox r ++ [m]; rl_sent := rl_sent r |})
        else None
      else Some (T_Closing (Some r))
  end.
(** The environment's: the adapter sends while the relay has room, ends, or is aborted (as by
    [RealtimeSession::cancel]); the caller reads a message or drops its receiver. *)
Inductive Env : Type := Env_Send (m : RealtimeOut) | Env_End | Env_Read | Env_Drop.
Definition env_move (cap : Z) (ev : Env) (r : Relay) : Relay :=
  match ev with
  | Env_Send m =>
      if rl_tx r && (Z.of_nat (length (rl_queue r)) <? cap) then
        {| rl_tx := true; rl_queue := rl_queue r ++ [m]; rl_hand := rl_hand r; rl_room := rl_room r;
           rl_listening := rl_listening r; rl_read := rl_read r; rl_inbox := rl_inbox r;
           rl_sent := rl_sent r ++ [m] |}
      else r
  | Env_End => {| rl_tx := false; rl_queue := rl_queue r; rl_hand := rl_hand r; rl_room := rl_room r;
      rl_listening := rl_listening r; rl_read := rl_read r; rl_inbox := rl_inbox r; rl_sent := rl_sent r |}
  | Env_Read =>
      match rl_listening r, rl_inbox r with
      | true, m :: rest => {| rl_tx := rl_tx r; rl_queue := rl_queue r; rl_hand := rl_hand r;
          rl_room := rl_room r; rl_listening := true; rl_read := rl_read r ++ [m]; rl_inbox := rest;
          rl_sent := rl_sent r |}
      | _, _ => r
      end
  | Env_Drop => {| rl_tx := rl_tx r; rl_queue := rl_queue r; rl_hand := rl_hand r; rl_room := rl_room r;
      rl_listening := false; rl_read := rl_read r; rl_inbox := rl_inbox r; rl_sent := rl_sent r |}
  end.

(** What the engine's tasks do by themselves. *)
Inductive own_step (e : RealtimeEngineCoreActor) : RealtimeEngineCoreActor → Prop :=
  | Own_open req n ts1 ts2 :
      re_tasks e = ts1 ++ T_Opening req n :: ts2 → own_step e (open_task req n ts1 ts2 e)
  | Own_relay r t ts1 ts2 :
      re_tasks e = ts1 ++ T_Relaying r :: ts2 → relay_move r = Some t → own_step e (with_tasks (ts1 ++ t :: ts2) e)
  | Own_release r ts1 ts2 :
      re_tasks e = ts1 ++ T_Closing r :: ts2 → own_step e (release_task ts1 ts2 e).
(** The engine started with [r] and [c] after these requests, in order. *)
Inductive realtime_run (r : R) (c : RealtimeEngineConfig) :
  list OpenSessionRequest → RealtimeEngineCoreActor → Prop :=
  | Run_start : realtime_run r c [] (realtime_engine_new r c)
  | Run_open reqs e req e' :
      realtime_run r c reqs e → handle_open req e = Some e' → realtime_run r c (reqs ++ [req]) e'
  | Run_own reqs e e' : realtime_run r c reqs e → own_step e e' → realtime_run r c reqs e'
  | Run_env reqs e ev rl ts1 ts2 :
      realtime_run r c reqs e → re_tasks e = ts1 ++ T_Relaying rl :: ts2 →
      realtime_run r c reqs
        (with_tasks (ts1 ++ T_Relaying (env_move (tec_outbound_relay_capacity c) ev rl) :: ts2) e).

(** ** What the relay preserves *)

Definition relay_ok (cap : Z) (r : Relay) : Prop :=
  rl_sent r = rl_delivered r ++ option_list (rl_hand r) ++ rl_queue r ∧ Z.of_nat (length (rl_queue r)) ≤ cap ∧
  Z.of_nat (length (rl_inbox r)) ≤ Z.max 0 (rl_room r).
(** Why a relay ends: the adapter is over and all it sent is delivered, or a message met a
    caller that is gone. *)
Definition relay_over (r : Relay) : Prop :=
  rl_tx r = false ∧ rl_delivered r = rl_sent r ∨ rl_listening r = false ∧ is_Some (rl_hand r).
Definition task_ok (cap : Z) (t : Task) : Prop :=
  match t with
  | T_Relaying r => relay_ok cap r
  | T_Closing (Some r) => relay_ok cap r ∧ relay_over r
  | _ => True
  end.
Definition opening_ids (ts : list Task) : list nat :=
  omap (λ t, match t with T_Opening req _ => Some (os_admission req) | _ => None end) ts.
(** Weight of a task: an upper bound on the moves left to it without its environment. *)
Definition task_work (t : Task) : nat :=
  match t with
  | T_Opening _ _ => 3
  | T_Relaying r => 2 + 2 * length (rl_queue r) + length (option_list (rl_hand r))
  | T_Closing _ => 1
  end.
Definition engine_work (e : RealtimeEngineCoreActor) : nat := sum_list_with task_work (re_tasks e).

Lemma relay_move_spec cap r t :
  relay_ok cap r → relay_move r = Some t →
  task_ok cap t ∧ opening_ids [t] = [] ∧ (task_work t < task_work (T_Relaying r))%nat.
Proof.
  destruct r as [tx q h rm li d i s]. unfold relay_ok, relay_move, rl_delivered; cbn. intros (-> & Hq & Hi) H.
  destruct h as [m|]; cbn in *.
  - destruct li; [destruct (Z.ltb_spec (Z.of_nat (length i)) rm)|]; simplify_eq; cbn;
      unfold relay_ok, relay_over, rl_delivered; cbn.
    + rewrite length_app; cbn. split_and!; [by rewrite <-!app_assoc|done|lia|done|lia].
    + split_and!; [done..|right; eauto|done|lia].
  - destruct q as [|m q]; [destruct tx|]; simplify_eq; cbn; unfold relay_ok, relay_over, rl_delivered; cbn.
    + rewrite app_nil_r. split_and!; [done..|by left|done|lia].
    + cbn in Hq. split_and!; done || lia.
Qed.
Lemma env_move_ok cap ev r : relay_ok cap r → relay_ok cap (env_move cap ev r).
Proof.
  destruct r as [tx q h rm li d i s]. unfold relay_ok, rl_delivered; destruct ev as [m| | |]; cbn;
    [|done| |done]; intros (-> & Hq & Hi).
  - destruct tx; cbn; [|done]. destruct (Z.ltb_spec (Z.of_nat (length q)) cap); cbn; [|done].
    rewrite length_app; cbn. split_and!; [by rewrite <-!app_assoc|lia|done].
  - destruct li; cbn; [|done]. destruct i as [|m i]; cbn in *; [done|]. split_and!; [by rewrite <-!app_assoc|done|lia].
Qed.
(** A relay that makes no move waits for its adapter, or for a caller that does not read. *)
Definition waits_for_adapter (r : Relay) : Prop := rl_tx r = true ∧ rl_hand r = None ∧ rl_queue r = [].
Definition waits_for_caller (r : Relay) : Prop :=
  rl_listening r = true ∧ is_Some (rl_hand r) ∧ rl_room r ≤ Z.of_nat (length (rl_inbox r)).
Lemma relay_move_none r : relay_move r = None ↔ waits_for_adapter r ∨ waits_for_caller r.
Proof.
  destruct r as [tx q h rm li d i s]. unfold relay_move, waits_for_adapter, waits_for_caller; cbn.
  destruct h as [m|]; [destruct li; [destruct (Z.ltb_spec (Z.of_nat (length i)) rm)|]|destruct q; [destruct tx|]]; cbn;
    (split; [intros H'; try done; auto|intros [(?&?&?)|(?&[??]&?)]; done || lia]).
Qed.
Lemma opening_ids_app ts1 ts2 : opening_ids (ts1 ++ ts2) = opening_ids ts1 ++ opening_ids ts2.
Proof. apply omap_app. Qed.
Lemma opening_ids_cons t ts : opening_ids (t :: ts) = opening_ids [t] ++ opening_ids ts.
Proof. apply (opening_ids_app [t]). Qed.

(** ** What every run preserves *)

Record engine_ok (c : RealtimeEngineConfig) (reqs : list OpenSessionRequest) (e : RealtimeEngineCoreActor) : Prop := {
  eo_config : re_config e = c;
  eo_capacity : 0 ≤ tec_outbound_relay_capacity c;
  eo_slots : re_in_flight e = Z.of_nat (length (re_tasks e));
  eo_bound : re_in_flight e ≤ tec_max_concurrent c;
  eo_tasks : Forall (task_ok (tec_outbound_relay_capacity c)) (re_tasks e);
  eo_answers : (re_answers e).*1 ++ opening_ids (re_tasks e) ≡ₚ os_admission <$> reqs
}.
(** Replacing a task that is not [T_Opening] by another such. *)
Lemma engine_ok_task c reqs e t t' ts1 ts2 :
  engine_ok c reqs e → re_tasks e = ts1 ++ t :: ts2 → opening_ids [t] = opening_ids [t'] →
  (task_ok (tec_outbound_relay_capacity c) t → task_ok (tec_outbound_relay_capacity c) t') →
  engine_ok c reqs (with_tasks (ts1 ++ t' :: ts2) e).
Proof.
  intros [Hc Hcap Hs Hb Ht Ha] E Ho Hok. rewrite E in *. split; cbn; try done.
  - rewrite Hs, !length_app. done.
  - apply Forall_app in Ht as [? Ht]. apply Forall_cons in Ht as [??]. apply Forall_app. split; [done|].
    constructor; auto.
  - rewrite <-Ha, !opening_ids_app, (opening_ids_cons t), (opening_ids_cons t'). by rewrite Ho.
Qed.
Lemma own_step_ok c reqs e e' : own_step e e' → engine_ok c reqs e → engine_ok c reqs e'.
Proof.
  intros [req n ts1 ts2 E|r t ts1 ts2 E Hm|r ts1 ts2 E] Hok.
  - destruct Hok as [Hc Hcap Hs Hb Ht Ha]. unfold open_task. destruct (open _ _) as [r' res].
    rewrite E in *. apply Forall_app in Ht as [Ht1 Ht]. apply Forall_cons in Ht as [_ Ht2]. split; cbn; try done.
    + rewrite Hs, !length_app. done.
    + apply Forall_app. split; [done|]. constructor; [|done]. destruct res; cbn; [|done].
      unfold relay_ok. cbn. split_and!; [done|done|lia].
    + rewrite fmap_app, <-Ha, !opening_ids_app, (opening_ids_cons (T_Opening req n)).
      rewrite (opening_ids_cons (match res with Ok _ => _ | Err _ => _ end)).
      replace (opening_ids [match res with Ok _ => _ | Err _ => _ end]) with (@nil nat) by (by destruct res).
      cbn. solve_Permutation.
  - pose proof (eo_tasks _ _ _ Hok) as Ht. rewrite E in Ht. apply Forall_app in Ht as [_ Ht].
    apply Forall_cons in Ht as [Hr _]. destruct (relay_move_spec _ _ _ Hr Hm) as (H1 & H2 & _).
    by apply (engine_ok_task c reqs e (T_Relaying r) t).
  - destruct Hok as [Hc Hcap Hs Hb Ht Ha]. rewrite E in *. apply Forall_app in Ht as [Ht1 Ht].
    apply Forall_cons in Ht as [_ Ht2]. rewrite length_app in Hs; cbn in Hs. split; cbn; try done.
    + rewrite Hs, length_app. unfold release, saturating_sub. lia.
    + unfold release, saturating_sub. lia.
    + by apply Forall_app.
    + rewrite <-Ha, !opening_ids_app, (opening_ids_cons (T_Closing r)). done.
Qed.
Lemma handle_open_ok c reqs req e e' :
  handle_open req e = Some e' → engine_ok c reqs e → engine_ok c (reqs ++ [req]) e'.
Proof.
  unfold handle_open, try_admit. intros H [Hc Hcap Hs Hb Ht Ha]. rewrite Hc in H.
  destruct (Z.leb_spec (tec_max_concurrent c) (re_in_flight e)).
  - simplify_eq. split; cbn; try done. rewrite !fmap_app, <-Ha. cbn. solve_Permutation.
  - destruct (_ =? 0); [done|]. simplify_eq. split; cbn; try done.
    + rewrite Hs, length_app. cbn. lia.
    + lia.
    + by apply Forall_app_snoc.
    + rewrite fmap_app, opening_ids_app, <-Ha. cbn. solve_Permutation.
Qed.
Lemma realtime_run_ok r c reqs e :
  0 ≤ tec_outbound_relay_capacity c → 0 ≤ tec_max_concurrent c → realtime_run r c reqs e → engine_ok c reqs e.
Proof.
  intros Hcap Hmax H. induction H as [|reqs e req e' _ IH Ho|reqs e e' _ IH Ho|reqs e ev rl ts1 ts2 _ IH E].
  - split; cbn; done || constructor.
  - by eapply handle_open_ok.
  - by eapply own_step_ok.
  - apply (engine_ok_task _ _ _ (T_Relaying rl)); try done. apply env_move_ok.
Qed.

(** [C14] Every session the engine relays, at any moment and for any interleaving: the caller's
    channel was handed a prefix of what the adapter sent, in order, of which it holds unread
    at most its capacity; the rest is at most [outbound_relay_capacity] messages in the relay
    channel and one in the relay's hand; when the relay has ended and the caller still
    listens, it was handed everything.  At most [max_concurrent] sessions hold a slot, one
    each, and every request has been answered once or waits for the runner. *)
Theorem realtime_sessions_relayed (r : R) (c : RealtimeEngineConfig) (reqs : list OpenSessionRequest)
    (e : RealtimeEngineCoreActor) :
  0 ≤ tec_outbound_relay_capacity c → 0 ≤ tec_max_concurrent c → realtime_run r c reqs e →
  (∀ rl, T_Relaying rl ∈ re_tasks e ∨ T_Closing (Some rl) ∈ re_tasks e →
     rl_delivered rl `prefix_of` rl_sent rl ∧
     Z.of_nat (length (rl_sent rl)) ≤
       Z.of_nat (length (rl_delivered rl)) + tec_outbound_relay_capacity c + 1 ∧
     rl_delivered rl = rl_read rl ++ rl_inbox rl ∧
     Z.of_nat (length (rl_inbox rl)) ≤ Z.max 0 (rl_room rl)) ∧
  (∀ rl, T_Closing (Some rl) ∈ re_tasks e → rl_listening rl = true → rl_delivered rl = rl_sent rl) ∧
  re_in_flight e = Z.of_nat (length (re_tasks e)) ∧ re_in_flight e ≤ tec_max_concurrent c ∧
  (re_answers e).*1 ++ opening_ids (re_tasks e) ≡ₚ os_admission <$> reqs.
Proof.
  intros Hcap Hmax H. destruct (realtime_run_ok _ _ _ _ Hcap Hmax H) as [_ _ Hs Hb Ht Ha].
  rewrite Forall_forall in Ht. split_and!; try done.
  - intros rl Hin. assert (relay_ok (tec_outbound_relay_capacity c) rl) as (Hsent & Hq & Hi).
    { destruct Hin as [Hin|Hin]; apply Ht in Hin; [exact Hin|exact (proj1 Hin)]. }
    rewrite Hsent. split; [by apply prefix_app_r|]. split; [|by split]. rewrite !(length_app (rl_delivered rl)), length_app.
    destruct (rl_hand rl); cbn; lia.
  - intros rl Hin Hl. apply Ht in Hin as [_ [[_ ?]|[? _]]]; [done|congruence].
Qed.

(** ** When a slot is given back *)

Lemma engine_work_replace ts1 t ts2 :
  sum_list_with task_work (ts1 ++ t :: ts2) = (task_work t + sum_list_with task_work (ts1 ++ ts2))%nat.
Proof. rewrite !sum_list_with_app. cbn. lia. Qed.
Lemma own_step_work c reqs e e' : engine_ok c reqs e → own_step e e' → (engine_work e' < engine_work e)%nat.
Proof.
  intros Hok Hs. unfold engine_work. destruct Hs as [req n ts1 ts2 E|r t ts1 ts2 E Hm|r ts1 ts2 E].
  - unfold open_task. destruct (open _ _) as [r' res]. rewrite E. cbn [re_tasks].
    rewrite !engine_work_replace. destruct res; cbn; lia.
  - pose proof (eo_tasks _ _ _ Hok) as Ht. rewrite E in Ht. apply Forall_app in Ht as [_ Ht].
    apply Forall_cons in Ht as [Hr _]. destruct (relay_move_spec _ _ _ Hr Hm) as (_ & _ & Hw).
    cbn [with_tasks re_tasks]. rewrite E, !engine_work_replace. lia.
  - rewrite E. cbn [release_task re_tasks]. rewrite engine_work_replace. cbn. lia.
Qed.
(** A task at rest. *)
Definition waits (t : Task) : Prop :=
  match t with T_Relaying r => waits_for_adapter r ∨ waits_for_caller r | _ => False end.
Lemma own_stuck e : (∀ e', ¬ own_step e e') ↔ Forall waits (re_tasks e).
Proof.
  split.
  - intros H. apply Forall_forall. intros t Hin. apply list_elem_of_split in Hin as (ts1 & ts2 & E).
    destruct t as [req n|r|r]; cbn.
    + eapply H. by eapply Own_open.
    + destruct (relay_move r) as [t|] eqn:Hm; [exfalso; eapply H; by eapply Own_relay|]. by apply relay_move_none.
    + eapply H. by eapply Own_release.
  - intros Hw e' Hs. rewrite Forall_forall in Hw.
    destruct Hs as [req n ts1 ts2 E|r t ts1 ts2 E Hm|r ts1 ts2 E]; rewrite E in Hw.
    + apply (Hw (T_Opening req n)). set_solver.
    + assert (waits (T_Relaying r)) as Hr by (apply Hw; set_solver). apply relay_move_none in Hr. congruence.
    + apply (Hw (T_Closing r)). set_solver.
Qed.

(** [C13] Slots are given back exactly when a session is over.  At any moment, a relay that is
    about to release its slot has either delivered all its adapter sent, the adapter being
    over, or holds a message for a caller that is gone: no session with a running adapter
    and a listening caller loses its slot.  Conversely no slot of an ended session is
    stranded: left to themselves the tasks come to rest after at most [engine_work e]
    moves, whatever their order, and at rest every session that is left has either
    delivered everything and waits for its adapter, or waits for a caller that listens and
    whose channel is full; each holds one slot, and every request has been answered.  (A
    caller that drops its receiver is noticed only at the adapter's next message:
    [dropped_caller_keeps_slot].) *)
Theorem realtime_slots_released (r : R) (c : RealtimeEngineConfig) (reqs : list OpenSessionRequest)
    (e e' : RealtimeEngineCoreActor) (n : nat) :
  0 ≤ tec_outbound_relay_capacity c → 0 ≤ tec_max_concurrent c →
  realtime_run r c reqs e → nsteps own_step n e e' →
  (∀ rl, T_Closing (Some rl) ∈ re_tasks e' →
     rl_tx rl = false ∧ rl_delivered rl = rl_sent rl ∨ rl_listening rl = false ∧ is_Some (rl_hand rl)) ∧
  (n ≤ engine_work e)%nat ∧
  ((∀ e'', ¬ own_step e' e'') →
     Forall (λ t, ∃ rl, t = T_Relaying rl ∧
       (rl_tx rl = true ∧ rl_delivered rl = rl_sent rl ∨
        rl_listening rl = true ∧ is_Some (rl_hand rl) ∧ rl_room rl ≤ Z.of_nat (length (rl_inbox rl)))) (re_tasks e') ∧
     re_in_flight e' = Z.of_nat (length (re_tasks e')) ∧
     (re_answers e').*1 ≡ₚ os_admission <$> reqs).
Proof.
  intros Hcap Hmax Hrun Hsteps. pose proof (realtime_run_ok _ _ _ _ Hcap Hmax Hrun) as Hok. clear Hrun.
  assert (engine_ok c reqs e' ∧ (n + engine_work e' ≤ engine_work e)%nat) as [Hok' Hw].
  { induction Hsteps as [x|n x y z Hxy _ IH]; [by split|].
    pose proof (own_step_work _ _ _ _ Hok Hxy). destruct (IH (own_step_ok _ _ _ _ Hxy Hok)). split; [done|lia]. }
  destruct Hok' as [_ _ Hs _ Ht Ha]. rewrite Forall_forall in Ht.
  split; [intros rl Hin; by apply Ht in Hin as [_ ?]|]. split; [lia|]. rewrite own_stuck. intros Hst.
  assert (opening_ids (re_tasks e') = []) as Ho.
  { clear -Hst. induction Hst as [|[] ts Hx _ IH]; cbn in *; done. }
  rewrite Ho, app_nil_r in Ha. split_and!; try done. rewrite Forall_forall in *. intros t Hin.
  specialize (Ht t Hin). specialize (Hst t Hin). destruct t as [|rl|]; try done. exists rl. split; [done|].
  destruct Hst as [(Htx & Hh & Hq)|Hst]; [left|right; exact Hst]. split; [done|]. destruct Ht as [Hsent _].
  by rewrite Hsent, Hq, Hh, app_nil_r.
Qed.
(** A caller that drops its receiver frees nothing by that: while the adapter is silent, no
    move of the engine touches the session. *)
Theorem dropped_caller_keeps_slot (cap : Z) (rl : Relay) :
  rl_tx rl = true → rl_queue rl = [] → rl_hand rl = None → relay_move (env_move cap Env_Drop rl) = None.
Proof. intros Htx Hq Hh. apply relay_move_none. by left. Qed.
End realtime_engine.

(** ** Witnesses *)

(** The caller's channel holds 16 messages. *)
Definition example_room (_ : unit) : Z := 16.
Definition example_open (r : unit) (b : RealtimeBatch unit unit (Outbound (Sender:=unit))) :
  unit * InferenceResult RealtimeSession := (r, Ok (RealtimeSession_new (rb_request_id b))).
Definition example_request : OpenSessionRequest (Url:=unit) (Receiver:=unit) (Sender:=unit) := {|
  os_batch := {| rb_request_id := "rt-1"; rb_model := "m"; rb_voice := VR_Named "alloy";
                 rb_options := SynthOptions_default; rb_inbound := (); rb_outbound := () |};
  os_admission := 7
|}.
Abbreviation ExampleEngine := (RealtimeEngineCoreActor (Url:=unit) (Receiver:=unit) (Sender:=unit) (R:=unit)).
Definition example_opening : ExampleEngine :=
  default (realtime_engine_new () RealtimeEngineConfig_default)
    (handle_open example_request (realtime_engine_new () RealtimeEngineConfig_default)).
Definition example_relaying : ExampleEngine := open_task example_room example_open example_request 0 [] [] example_opening.
Definition example_sent : ExampleEngine :=
  with_tasks [T_Relaying (env_move 64 (Env_Send RO_Done) (relay_start 16))] example_relaying.

Lemma example_run :
  realtime_run example_room example_open () RealtimeEngineConfig_default [example_request] example_opening.
Proof. apply (Run_open _ _ _ _ [] (realtime_engine_new () RealtimeEngineConfig_default)); [constructor|reflexivity]. Qed.
Lemma example_run_sent :
  realtime_run example_room example_open () RealtimeEngineConfig_default [example_request] example_sent.
Proof.
  apply (Run_env example_room example_open () RealtimeEngineConfig_default [example_request] example_relaying (Env_Send RO_Done) (relay_start 16) [] []); [|reflexivity].
  eapply Run_own; [exact example_run|]. by apply Own_open.
Qed.

Lemma realtime_sessions_relayed_witness :
  realtime_run example_room example_open () RealtimeEngineConfig_default [example_request] example_sent ∧
  rl_sent (env_move 64 (Env_Send RO_Done) (relay_start 16)) = [RO_Done] ∧ re_in_flight example_sent = 1.
Proof.
  destruct (realtime_sessions_relayed example_room example_open () RealtimeEngineConfig_default [example_request] example_sent)
    as (_ & _ & Hs & _); [done|done|exact example_run_sent|].
  split_and!; [exact example_run_sent|done|exact Hs].
Defined.
Lemma realtime_slots_released_witness :
  ∃ e', nsteps (own_step example_room example_open) 1 example_opening e' ∧ (∀ e'', ¬ own_step example_room example_open e' e'') ∧
    (re_answers e').*1 ≡ₚ [7%nat].
Proof.
  assert (nsteps (own_step example_room example_open) 1 example_opening example_relaying) as Hn.
  { apply nsteps_once. by apply Own_open. }
  destruct (realtime_slots_released example_room example_open () RealtimeEngineConfig_default [example_request]
    example_opening example_relaying 1) as (_ & _ & H); [done|done|exact example_run|exact Hn|].
  assert (∀ e'', ¬ own_step example_room example_open example_relaying e'') as Hst.
  { apply own_stuck. repeat constructor. }
  exists example_relaying. split_and!; [exact Hn|exact Hst|]. exact (proj2 (proj2 (H Hst))).
Defined.
(** A relay capacity of zero: the slot is taken and the handler panics. *)
Example zero_relay_capacity_panics :
  handle_open example_request
    (realtime_engine_new () {| tec_max_concurrent := 1; tec_queue_capacity := 1; tec_outbound_relay_capacity := 0 |})
  = None.
Proof. done. Qed.
