(* ===== verification/LocalWorker.v ===== *)
(** * Local worker: stable parent, restartable child

    Models [inference-runtime/src/worker.rs].  The parent [WorkerActor] handles its mailbox
    in order and owns at most one child [ContextActor], built from the slot factory at
    every spawn.  The child spawns a task for every message it handles; the tasks of a
    child race for the mutex around its runner, and go on when the child was stopped.  A
    run is a sequence of steps of parent, children and tasks in any order.  The runner's
    methods, the factory (by call number), whether the actor system can spawn, and whether
    a receiver still listens are parameters; so is what a stopped cell does with its
    mailbox: it may handle messages left in it or drop them.  A panic inside a task spawned
    with [tokio::spawn] ends that task only: it is a value of the task's result. *)
From S2P Require Import Prelude Runtime Tokens Audio Runner LocalEngine.

(** ** Supervision policy, without the [local-gpu] feature *)

Inductive Directive : Type := Dir_Resume | Dir_Restart | Dir_Stop | Dir_Escalate.
#[global] Instance Directive_eq_dec : EqDecision Directive.
Proof. solve_decision. Defined.
Record OneForOneStrategy : Type := {
  max_restarts : Z; within : Duration; decide_directive : string → Directive
}.
Definition decider (err : string) : Directive :=
  if contains "ContextPoisoned" err then Dir_Restart
  else if contains "OutOfMemory" err then Dir_Resume
  else if contains "Unrecoverable" err then Dir_Stop
  else Dir_Escalate.
Definition supervisor_strategy : OneForOneStrategy :=
  {| max_restarts := 3; within := from_secs 60; decide_directive := decider |}.

Section worker.
Context {Json R : Type}.
Abbreviation Item := (InferenceResult (TokenChunk Json)).
(** [<Duration as Debug>]. *)
Variable debug_duration : Duration → string.
Variable exec : R → ExecuteBatch → R * InferenceResult (RunHandle (TokenChunk Json)).
Variable rebuild : R → SessionRebuildCause → R * InferenceResult unit.
Variable slot_factory : nat → R.
Variable can_spawn : string → bool.

(** ** The child *)

Inductive ContextMsg : Type :=
  | CM_Execute (batch : ExecuteBatch) (alive : nat → bool)
  | CM_Rebuild (cause : SessionRebuildCause).
(** The cell of a child: its mailbox and state, and the runner behind its mutex, which
    outlives the cell in the tasks that share it.  [cx_calls] records the calls the runner
    got, for the statements only. *)
Record ContextActor : Type := {
  cx_name : string; cx_mail : list ContextMsg; cx_stopped : bool;
  cx_runner : R; cx_locked : option nat; cx_calls : list ContextMsg
}.
Definition ContextActor_new (name : string) (slot : R) : ContextActor := {|
  cx_name := name; cx_mail := []; cx_stopped := false;
  cx_runner := slot; cx_locked := None; cx_calls := []
|}.

(** A task the child spawned: waiting for the mutex; inside a call of the runner, which it
    holds; sending items (still holding it when it sends an error), and how it will end;
    over. *)
Inductive TaskEnd : Type := TaskDone | TaskPanicked (message : string).
Inductive TaskPhase : Type :=
  | TP_Waiting | TP_Calling
  | TP_Sending (items : list Item) (holding : bool) (end_ : TaskEnd)
  | TP_Over (end_ : TaskEnd).
Record ContextTask : Type := {
  tk_child : nat; tk_msg : ContextMsg; tk_phase : TaskPhase;
  tk_out : list Item;                          (* accepted by the caller's channel *)
  tk_reply : option (InferenceResult unit)
}.
Definition set_phase (p : TaskPhase) (t : ContextTask) : ContextTask := {|
  tk_child := tk_child t; tk_msg := tk_msg t; tk_phase := p; tk_out := tk_out t; tk_reply := tk_reply t
|}.
Definition with_lock (l : option nat) (c : ContextActor) : ContextActor := {|
  cx_name := cx_name c; cx_mail := cx_mail c; cx_stopped := cx_stopped c;
  cx_runner := cx_runner c; cx_locked := l; cx_calls := cx_calls c
|}.
Definition with_mail (l : list ContextMsg) (c : ContextActor) : ContextActor := {|
  cx_name := cx_name c; cx_mail := l; cx_stopped := cx_stopped c;
  cx_runner := cx_runner c; cx_locked := cx_locked c; cx_calls := cx_calls c
|}.
Definition with_call (r : R) (m : ContextMsg) (c : ContextActor) : ContextActor := {|
  cx_name := cx_name c; cx_mail := cx_mail c; cx_stopped := cx_stopped c;
  cx_runner := r; cx_locked := cx_locked c; cx_calls := cx_calls c ++ [m]
|}.

(** [handle]: both arms clone the runner's handle and spawn a task. *)
Definition context_handle (g : nat) (msg : ContextMsg) : ContextTask :=
  {| tk_child := g; tk_msg := msg; tk_phase := TP_Waiting; tk_out := []; tk_reply := None |}.

Definition panic_message (e : InferenceError) : string :=
  "ContextPoisoned: " +:+ error_to_string debug_duration e.
(** The end of a runner call: the mutex is given back before the items are drained, but
    not before an error is sent. *)
Definition context_execute (batch : ExecuteBatch) (c : ContextActor) (t : ContextTask) :
  ContextActor * ContextTask :=
  let '(r', res) := exec (cx_runner c) batch in
  let c := with_call r' (tk_msg t) c in
  match res with
  | Ok handle => (with_lock None c, set_phase (TP_Sending (into_stream handle) false TaskDone) t)
  | Err (CudaContextPoisoned m) =>
      let e := CudaContextPoisoned m in
      (c, set_phase (TP_Sending [Err e] true (TaskPanicked (panic_message e))) t)
  | Err e => (c, set_phase (TP_Sending [Err e] true TaskDone) t)
  end.
Definition context_rebuild (cause : SessionRebuildCause) (c : ContextActor) (t : ContextTask) :
  ContextActor * ContextTask :=
  let '(r', res) := rebuild (cx_runner c) cause in
  (with_lock None (with_call r' (tk_msg t) c),
   {| tk_child := tk_child t; tk_msg := tk_msg t; tk_phase := TP_Over TaskDone; tk_out := tk_out t;
      tk_reply := Some res |}).
(** One step of task number [n] on its child's cell; a mutex held by another task keeps it
    waiting. *)
Definition task_step (n : nat) (c : ContextActor) (t : ContextTask) : ContextActor * ContextTask :=
  match tk_phase t with
  | TP_Waiting =>
      match cx_locked c with
      | Some _ => (c, t)
      | None => (with_lock (Some n) c, set_phase TP_Calling t)
      end
  | TP_Calling =>
      match tk_msg t with
      | CM_Execute batch _ => context_execute batch c t
      | CM_Rebuild cause => context_rebuild cause c t
      end
  | TP_Sending items holding end_ =>
      let over := (if holding then with_lock None c else c, set_phase (TP_Over end_) t) in
      match items, tk_msg t with
      | i :: rest, CM_Execute _ alive =>
          if alive (length (tk_out t)) then
            (c, {| tk_child := tk_child t; tk_msg := tk_msg t; tk_phase := TP_Sending rest holding end_;
                   tk_out := tk_out t ++ [i]; tk_reply := tk_reply t |})
          else over
      | _, _ => over
      end
  | TP_Over _ => (c, t)
  end.

(** ** The parent *)

Inductive WorkerMsg : Type :=
  | WM_Execute (batch : ExecuteBatch) (alive : nat → bool)
  | WM_ContextPoisoned (reason : string)
  | WM_RebuildSession (cause : SessionRebuildCause).

Record WorkerActor : Type := {
  wa_child : option nat;            (* which of the cells *)
  wa_seq : Z;                       (* [parent_to_child_seq] *)
  wa_factory_calls : nat            (* calls of [slot_factory] so far *)
}.
Definition WorkerActor_new : WorkerActor :=
  {| wa_child := None; wa_seq := 0; wa_factory_calls := 0 |}.

(** The worker and all it ever spawned; [sy_refused] are the replies the parent itself
    sent. *)
Record System : Type := {
  sy_mail : list WorkerMsg; sy_worker : WorkerActor; sy_children : list ContextActor;
  sy_tasks : list ContextTask; sy_refused : list (InferenceResult unit)
}.
Definition with_worker (w : WorkerActor) (cs : list ContextActor) (s : System) : System := {|
  sy_mail := sy_mail s; sy_worker := w; sy_children := cs; sy_tasks := sy_tasks s; sy_refused := sy_refused s
|}.
Definition child_name (seq : Z) : string := "ctx-" +:+ pretty seq.
(** [spawn_child]: a failed spawn is only logged and leaves [child] as it was. *)
Definition spawn_child (s : System) : System :=
  let w := sy_worker s in
  let seq := wrap_u64 (wa_seq w + 1) in
  let name := child_name seq in
  let slot := slot_factory (wa_factory_calls w) in
  if can_spawn name then
    with_worker {| wa_child := Some (length (sy_children s)); wa_seq := seq;
                   wa_factory_calls := S (wa_factory_calls w) |}
      (sy_children s ++ [ContextActor_new name slot]) s
  else
    with_worker {| wa_child := wa_child w; wa_seq := seq; wa_factory_calls := S (wa_factory_calls w) |}
      (sy_children s) s.
Definition worker_pre_start : System :=
  spawn_child {| sy_mail := []; sy_worker := WorkerActor_new; sy_children := []; sy_tasks := []; sy_refused := [] |}.

Definition tell_child (g : nat) (m : ContextMsg) (s : System) : System :=
  with_worker (sy_worker s) (alter (λ c, with_mail (cx_mail c ++ [m]) c) g (sy_children s)) s.
Definition stop_cell (c : ContextActor) : ContextActor := {|
  cx_name := cx_name c; cx_mail := cx_mail c; cx_stopped := true;
  cx_runner := cx_runner c; cx_locked := cx_locked c; cx_calls := cx_calls c
|}.
Definition refuse (r : InferenceResult unit) (s : System) : System := {|
  sy_mail := sy_mail s; sy_worker := sy_worker s; sy_children := sy_children s; sy_tasks := sy_tasks s;
  sy_refused := sy_refused s ++ [r]
|}.
(** The handler only talks to the child: what it asked for happens later. *)
Definition worker_handle (msg : WorkerMsg) (s : System) : System :=
  match msg with
  | WM_Execute batch alive =>
      match wa_child (sy_worker s) with
      | None => s
      | Some g => tell_child g (CM_Execute batch alive) s
      end
  | WM_ContextPoisoned _ =>
      let w := sy_worker s in
      let taken := {| wa_child := None; wa_seq := wa_seq w; wa_factory_calls := wa_factory_calls w |} in
      spawn_child (with_worker taken
        match wa_child w with Some g => alter stop_cell g (sy_children s) | None => sy_children s end s)
  | WM_RebuildSession cause =>
      match wa_child (sy_worker s) with
      | None => refuse (Err (Internal "no child")) s
      | Some g => tell_child g (CM_Rebuild cause) s
      end
  end.

(** ** Interleaving *)

Inductive Step : Type :=
  | St_Send (m : WorkerMsg)      (* someone tells the worker *)
  | St_Parent                    (* it handles its next message *)
  | St_Child (g : nat)           (* so does a child *)
  | St_Terminate (g : nat)       (* a stopped cell goes away with its mailbox *)
  | St_Task (n : nat).
Definition system_step (st : Step) (s : System) : System :=
  match st with
  | St_Send m => {| sy_mail := sy_mail s ++ [m]; sy_worker := sy_worker s; sy_children := sy_children s;
                    sy_tasks := sy_tasks s; sy_refused := sy_refused s |}
  | St_Parent =>
      match sy_mail s with
      | [] => s
      | m :: rest =>
          worker_handle m {| sy_mail := rest; sy_worker := sy_worker s; sy_children := sy_children s;
                             sy_tasks := sy_tasks s; sy_refused := sy_refused s |}
      end
  | St_Child g =>
      match sy_children s !! g with
      | Some c =>
          match cx_mail c with
          | [] => s
          | m :: rest => {| sy_mail := sy_mail s; sy_worker := sy_worker s;
              sy_children := <[g := with_mail rest c]> (sy_children s);
              sy_tasks := sy_tasks s ++ [context_handle g m]; sy_refused := sy_refused s |}
          end
      | None => s
      end
  | St_Terminate g =>
      match sy_children s !! g with
      | Some c => if cx_stopped c then with_worker (sy_worker s) (<[g := with_mail [] c]> (sy_children s)) s else s
      | None => s
      end
  | St_Task n =>
      match sy_tasks s !! n with
      | Some t =>
          match sy_children s !! tk_child t with
          | Some c =>
              let '(c', t') := task_step n c t in {| sy_mail := sy_mail s; sy_worker := sy_worker s;
                sy_children := <[tk_child t := c']> (sy_children s); sy_tasks := <[n := t']> (sy_tasks s);
                sy_refused := sy_refused s |}
          | None => s
          end
      | None => s
      end
  end.
Definition system_run (sts : list Step) (s : System) : System := foldl (λ s st, system_step st s) s sts.

(** ** Generations *)

Definition is_poisoned (m : WorkerMsg) : bool :=
  match m with WM_ContextPoisoned _ => true | _ => false end.
Definition to_context (m : WorkerMsg) : option ContextMsg :=
  match m with
  | WM_Execute b alive => Some (CM_Execute b alive)
  | WM_RebuildSession cause => Some (CM_Rebuild cause)
  | WM_ContextPoisoned _ => None
  end.
(** What generation [g] is asked to do: the messages the parent handled between two
    poisonings. *)
Definition generation (l : list WorkerMsg) : nat := count_if is_poisoned l.
Fixpoint assigned (g : nat) (l : list WorkerMsg) : list ContextMsg :=
  match l, g with
  | [], _ => []
  | m :: r, O => if is_poisoned m then [] else option_list (to_context m) ++ assigned O r
  | m :: r, S g' => assigned (if is_poisoned m then g' else g) r
  end.
(** A runner taken through a list of calls. *)
Definition runner_step (r : R) (m : ContextMsg) : R :=
  match m with
  | CM_Execute b _ => fst (exec r b)
  | CM_Rebuild cause => fst (rebuild r cause)
  end.
Definition is_pending (p : TaskPhase) : bool :=
  match p with TP_Waiting | TP_Calling => true | _ => false end.
Definition is_holding (p : TaskPhase) : bool :=
  match p with TP_Calling | TP_Sending _ true _ => true | _ => false end.
(** The calls the tasks of generation [g] still have to make. *)
Definition flight (g : nat) (t : ContextTask) : option ContextMsg :=
  if decide (tk_child t = g) then if is_pending (tk_phase t) then Some (tk_msg t) else None else None.
Definition in_flight (g : nat) (ts : list ContextTask) : list ContextMsg := omap (flight g) ts.

Lemma assigned_snoc g l m :
  assigned g (l ++ [m]) =
  assigned g l ++ (if decide (g = generation l) then option_list (to_context m) else []).
Proof.
  unfold generation. revert g. induction l as [|x l IH]; intros g; cbn.
  - destruct g, m; cbn; done.
  - destruct g as [|g]; [destruct (is_poisoned x) eqn:E; cbn; [done|by rewrite IH, app_assoc]|].
    destruct (is_poisoned x); cbn; rewrite IH; f_equal;
      repeat case_decide; done || lia.
Qed.
Lemma generation_snoc l m : generation (l ++ [m]) = (generation l + if is_poisoned m then 1 else 0)%nat.
Proof. unfold generation. rewrite count_if_app. cbn. lia. Qed.
Lemma assigned_later g l : (generation l < g)%nat → assigned g l = [].
Proof.
  unfold generation. revert g. induction l as [|x l IH]; intros g Hg; cbn in *; [done|].
  destruct g as [|g]; [lia|]. destruct (is_poisoned x); apply IH; lia.
Qed.
Lemma in_flight_insert g ts n t t' :
  ts !! n = Some t →
  ∃ others, in_flight g ts ≡ₚ option_list (flight g t) ++ others ∧
            in_flight g (<[n := t']> ts) ≡ₚ option_list (flight g t') ++ others.
Proof.
  intros Hn. exists (in_flight g (take n ts) ++ in_flight g (drop (S n) ts)).
  assert (∀ x, omap (flight g) (x :: drop (S n) ts) = option_list (flight g x) ++ in_flight g (drop (S n) ts)) as Hc.
  { intros x. cbn. by destruct (flight g x). }
  split.
  - rewrite <-(take_drop_middle _ _ _ Hn) at 1. unfold in_flight at 1.
    rewrite omap_app, Hc. unfold in_flight. by rewrite !app_assoc, (Permutation_app_comm (omap _ _) (option_list _)).
  - rewrite insert_take_drop by by apply lookup_lt_Some in Hn. unfold in_flight at 1.
    rewrite omap_app, Hc. unfold in_flight. by rewrite !app_assoc, (Permutation_app_comm (omap _ _) (option_list _)).
Qed.

(** A cell of generation [g]. *)
Definition cell_ok (handled : list WorkerMsg) (ts : list ContextTask) (g : nat) (c : ContextActor) : Prop :=
  cx_name c = child_name (wrap_u64 (Z.of_nat g + 1)) ∧
  cx_runner c = foldl runner_step (slot_factory g) (cx_calls c) ∧
  (cx_calls c ++ in_flight g ts ++ cx_mail c) ⊆+ assigned g handled ∧
  (g = generation handled →
    cx_stopped c = false ∧ cx_calls c ++ in_flight g ts ++ cx_mail c ≡ₚ assigned g handled).
Definition worker_ok (handled : list WorkerMsg) (s : System) : Prop :=
  sy_worker s = {| wa_child := Some (generation handled);
                   wa_seq := wrap_u64 (Z.of_nat (generation handled) + 1);
                   wa_factory_calls := S (generation handled) |} ∧
  length (sy_children s) = S (generation handled) ∧
  (∀ g c, sy_children s !! g = Some c → cell_ok handled (sy_tasks s) g c) ∧
  (∀ n t, sy_tasks s !! n = Some t → ∃ c, sy_children s !! tk_child t = Some c ∧
    (is_holding (tk_phase t) = true → cx_locked c = Some n)).

(** A step of a task, as its cell sees it. *)
Lemma task_step_cell n c t :
  let '(c', t') := task_step n c t in
  cx_name c' = cx_name c ∧ cx_mail c' = cx_mail c ∧ cx_stopped c' = cx_stopped c ∧
  tk_child t' = tk_child t ∧ tk_msg t' = tk_msg t ∧
  (cx_calls c' = cx_calls c ∧ cx_runner c' = cx_runner c ∧ is_pending (tk_phase t') = is_pending (tk_phase t) ∨
   cx_calls c' = cx_calls c ++ [tk_msg t] ∧ cx_runner c' = runner_step (cx_runner c) (tk_msg t) ∧
   is_pending (tk_phase t) = true ∧ is_pending (tk_phase t') = false).
Proof.
  unfold task_step. destruct (tk_phase t) as [| |items h e|e] eqn:Ep.
  - destruct (cx_locked c); cbn; rewrite ?Ep; split_and!; auto.
  - destruct (tk_msg t) as [b a|cause] eqn:Em; [unfold context_execute|unfold context_rebuild].
    + destruct (exec (cx_runner c) b) as [r' [h|[]]] eqn:Ee; cbn; rewrite Em; cbn; rewrite ?Ee;
        split_and!; try done; right; done.
    + destruct (rebuild (cx_runner c) cause) as [r' res] eqn:Ee; cbn; rewrite Em; cbn; rewrite Ee;
        split_and!; try done; right; done.
  - destruct items as [|i items], (tk_msg t) as [b a|cause] eqn:Em; try destruct (a _); cbn; rewrite ?Em;
      destruct h; cbn; split_and!; auto.
  - rewrite Ep. split_and!; auto.
Qed.
(** ... and as the mutex sees it: taken only when free, kept while the task holds it. *)
Lemma task_step_lock n c t :
  (is_holding (tk_phase t) = true → cx_locked c = Some n) →
  let '(c', t') := task_step n c t in
  (is_holding (tk_phase t') = true → cx_locked c' = Some n) ∧
  (cx_locked c' = cx_locked c ∨ cx_locked c = None ∨ cx_locked c = Some n).
Proof.
  intros Hh. unfold task_step. destruct (tk_phase t) as [| |items h e|e] eqn:Ep; cbn in Hh.
  - destruct (cx_locked c) eqn:El; cbn; rewrite ?Ep, ?El; cbn; split; auto; done.
  - specialize (Hh eq_refl). destruct (tk_msg t) as [b a|cause]; [unfold context_execute|unfold context_rebuild].
    + destruct (exec (cx_runner c) b) as [r' [h|[]]]; cbn; split; auto; done.
    + destruct (rebuild (cx_runner c) cause) as [r' res]; cbn; split; auto; done.
  - destruct items as [|i items], (tk_msg t) as [b a|cause]; try destruct (a _); destruct h; cbn; split; auto; done.
  - rewrite Ep. cbn. split; auto; done.
Qed.
Lemma cell_ok_perm handled ts ts' g c c' :
  cx_name c' = cx_name c → cx_stopped c' = cx_stopped c →
  cx_runner c' = foldl runner_step (slot_factory g) (cx_calls c') →
  cx_calls c' ++ in_flight g ts' ++ cx_mail c' ≡ₚ cx_calls c ++ in_flight g ts ++ cx_mail c →
  cell_ok handled ts g c → cell_ok handled ts' g c'.
Proof.
  intros Hn Hs Hr Hp (H1 & _ & H3 & H4). unfold cell_ok. rewrite Hn, Hs, Hp. by split_and!.
Qed.
Lemma worker_ok_task handled n s : worker_ok handled s → worker_ok handled (system_step (St_Task n) s).
Proof.
  intros (Hw & Hl & Hc & Ht). cbn. destruct (sy_tasks s !! n) as [t|] eqn:En; [|done].
  destruct (Ht n t En) as (c & Ec & Hlock). rewrite Ec.
  pose proof (task_step_cell n c t) as Hcell. pose proof (task_step_lock n c t Hlock) as Hlk.
  destruct (task_step n c t) as [c' t'].
  destruct Hcell as (Hn & Hm & Hs & Htc & Htm & Hcalls). destruct Hlk as [Hh Hkeep].
  pose proof (lookup_lt_Some _ _ _ En) as Hlen. pose proof (lookup_lt_Some _ _ _ Ec) as Hlenc.
  split_and!; cbn; [done|by rewrite length_insert| |].
  - intros g x Hx. destruct (in_flight_insert g (sy_tasks s) n t t' En) as (others & P1 & P2).
    destruct (decide (g = tk_child t)) as [->|Hne].
    + rewrite list_lookup_insert_eq in Hx by done. injection Hx as <-.
      apply (cell_ok_perm handled (sy_tasks s) _ _ c); [done..| | |by apply Hc].
      * destruct (Hc _ _ Ec) as (_ & Hr & _). destruct Hcalls as [(-> & -> & _)|(-> & -> & _)]; [done|].
        by rewrite foldl_app, Hr.
      * rewrite P1, P2, Hm. unfold flight. rewrite Htc, Htm, !decide_True by done.
        destruct Hcalls as [(-> & _ & ->)|(-> & _ & -> & ->)]; [done|]. cbn. by rewrite <-!app_assoc.
    + rewrite list_lookup_insert_ne in Hx by done.
      apply (cell_ok_perm handled (sy_tasks s) _ _ x); [done|done|exact (proj1 (proj2 (Hc _ _ Hx)))| |by apply Hc].
      rewrite P1, P2. unfold flight. by rewrite Htc, !decide_False by done.
  - intros m x Hx. destruct (decide (m = n)) as [->|Hne].
    + rewrite list_lookup_insert_eq in Hx by done. injection Hx as <-. rewrite Htc.
      exists c'. by rewrite list_lookup_insert_eq.
    + rewrite list_lookup_insert_ne in Hx by done. destruct (Ht m x Hx) as (cx & Ecx & Hlx).
      destruct (decide (tk_child t = tk_child x)) as [E|E].
      * rewrite <-E, list_lookup_insert_eq by done. exists c'. split; [done|]. intros Hhx.
        rewrite <-E, Ec in Ecx. injection Ecx as <-. specialize (Hlx Hhx).
        destruct Hkeep as [->|[Hk|Hk]]; [done|congruence|congruence].
      * rewrite list_lookup_insert_ne by done. eauto.
Qed.
Lemma worker_ok_child handled g s : worker_ok handled s → worker_ok handled (system_step (St_Child g) s).
Proof.
  intros (Hw & Hl & Hc & Ht). cbn. destruct (sy_children s !! g) as [c|] eqn:Ec; [|done].
  destruct (cx_mail c) as [|m rest] eqn:Em; [done|]. pose proof (lookup_lt_Some _ _ _ Ec) as Hlen.
  assert (∀ g', in_flight g' (sy_tasks s ++ [context_handle g m]) =
    in_flight g' (sy_tasks s) ++ (if decide (g = g') then [m] else [])) as Hf.
  { intros g'. unfold in_flight. rewrite omap_app. f_equal. cbn. unfold flight. cbn. by destruct (decide (g = g')). }
  split_and!; cbn; [done|by rewrite length_insert| |].
  - intros g' x Hx. destruct (decide (g' = g)) as [->|Hne].
    + rewrite list_lookup_insert_eq in Hx by done. injection Hx as <-.
      apply (cell_ok_perm handled (sy_tasks s) _ _ c); [done|done|exact (proj1 (proj2 (Hc _ _ Ec)))| |by apply Hc].
      cbn. rewrite Hf, decide_True, Em by done. by rewrite <-app_assoc.
    + rewrite list_lookup_insert_ne in Hx by done.
      apply (cell_ok_perm handled (sy_tasks s) _ _ x); [done|done|exact (proj1 (proj2 (Hc _ _ Hx)))| |by apply Hc].
      by rewrite Hf, decide_False, app_nil_r by done.
  - assert (∀ k x, sy_children s !! k = Some x → ∃ x', <[g := with_mail rest c]> (sy_children s) !! k = Some x' ∧
      cx_locked x' = cx_locked x) as Hk.
    { intros k x Hx. destruct (decide (k = g)) as [->|].
      - rewrite list_lookup_insert_eq by done. eexists. split; [done|]. by simplify_eq.
      - rewrite list_lookup_insert_ne by done. eauto. }
    intros n t [Hn|[-> [= <-]]]%lookup_snoc_Some.
    + destruct (Ht n t (proj2 Hn)) as (x & Hx & Hlk). destruct (Hk _ _ Hx) as (x' & Hx' & El).
      exists x'. split; [done|]. by rewrite El.
    + destruct (Hk g c Ec) as (x' & Hx' & _). exists x'. by split.
Qed.
Lemma worker_ok_terminate handled g s : worker_ok handled s → worker_ok handled (system_step (St_Terminate g) s).
Proof.
  intros (Hw & Hl & Hc & Ht). cbn. destruct (sy_children s !! g) as [c|] eqn:Ec; [|done].
  destruct (cx_stopped c) eqn:Es; [|done]. pose proof (lookup_lt_Some _ _ _ Ec) as Hlen.
  split_and!; cbn; [done|by rewrite length_insert| |].
  - intros g' x Hx. destruct (decide (g' = g)) as [->|Hne].
    + rewrite list_lookup_insert_eq in Hx by done. injection Hx as <-.
      destruct (Hc g c Ec) as (H1 & H2 & H3 & H4). unfold cell_ok. cbn. split_and!; [done|done| |].
      * etrans; [|exact H3]. rewrite app_nil_r. apply submseteq_skips_l. apply submseteq_inserts_r. done.
      * intros Hg. destruct (H4 Hg) as [H5 _]. congruence.
    + rewrite list_lookup_insert_ne in Hx by done. by apply Hc.
  - intros n t Hn. destruct (Ht n t Hn) as (x & Hx & Hlk). destruct (decide (tk_child t = g)) as [E|E].
    + rewrite E, list_lookup_insert_eq by done. eexists. split; [done|]. cbn. intros Hh.
      rewrite E, Ec in Hx. injection Hx as <-. auto.
    + rewrite list_lookup_insert_ne by done. eauto.
Qed.
Lemma worker_ok_tell handled g m wm s :
  worker_ok handled s → g = generation handled → to_context wm = Some m → is_poisoned wm = false →
  worker_ok (handled ++ [wm]) (tell_child g m s).
Proof.
  intros (Hw & Hl & Hc & Ht) -> Hm Hp.
  assert (generation (handled ++ [wm]) = generation handled) as Hg by (rewrite generation_snoc, Hp; lia).
  unfold worker_ok. rewrite Hg. cbn. split_and!; [done|by rewrite length_alter| |].
  - intros g x Hx. destruct (decide (g = generation handled)) as [->|Hne].
    + rewrite list_lookup_alter_eq in Hx. apply fmap_Some in Hx as (c & Ec & ->).
      destruct (Hc _ _ Ec) as (H1 & H2 & H3 & H4). destruct (H4 eq_refl) as [H5 H6].
      unfold cell_ok. rewrite assigned_snoc, decide_True, Hm by done. cbn.
      assert (cx_calls c ++ in_flight (generation handled) (sy_tasks s) ++ cx_mail c ++ [m] ≡ₚ
        assigned (generation handled) handled ++ [m]) as E by (rewrite <-H6; by rewrite <-!app_assoc).
      split_and!; [done|done|by rewrite E|intros _; split; [done|exact E]].
    + rewrite list_lookup_alter_ne in Hx by done. destruct (Hc _ _ Hx) as (H1 & H2 & H3 & H4).
      unfold cell_ok. rewrite assigned_snoc, decide_False, app_nil_r, Hg by done. by split_and!.
  - intros n t Hn. destruct (Ht n t Hn) as (x & Hx & Hlk).
    destruct (decide (tk_child t = generation handled)) as [E|E].
    + rewrite E in Hx |- *. rewrite list_lookup_alter_eq, Hx. cbn. eexists. by split.
    + rewrite list_lookup_alter_ne by done. eauto.
Qed.
Lemma worker_ok_poisoned handled reason s :
  (∀ name, can_spawn name = true) → worker_ok handled s →
  worker_ok (handled ++ [WM_ContextPoisoned reason]) (worker_handle (WM_ContextPoisoned reason) s).
Proof.
  intros Hs (Hw & Hl & Hc & Ht). set (g := generation handled) in *.
  assert (generation (handled ++ [WM_ContextPoisoned reason]) = S g) as Hg by (rewrite generation_snoc; cbn; lia).
  assert (∀ n t, sy_tasks s !! n = Some t → tk_child t ≤ g)%nat as Htg.
  { intros n t Hn. destruct (Ht n t Hn) as (x & Hx & _). apply lookup_lt_Some in Hx. lia. }
  assert (in_flight (S g) (sy_tasks s) = []) as Hfl.
  { unfold in_flight. clear -Htg. induction (sy_tasks s) as [|t ts IH]; [done|]. cbn. unfold flight at 1.
    pose proof (Htg 0%nat t eq_refl). rewrite decide_False by lia. apply IH. intros n x Hn. by apply (Htg (S n)). }
  cbn [worker_handle]. rewrite Hw. unfold spawn_child. cbn. rewrite Hs. cbn. unfold worker_ok. rewrite Hg. cbn.
  rewrite length_app, !length_alter, Hl. cbn. split_and!.
  - f_equal. unfold wrap. rewrite Z.add_mod_idemp_l by done. f_equal. lia.
  - lia.
  - intros k x Hx. unfold cell_ok. rewrite assigned_snoc, Hg. cbn.
    apply lookup_snoc_Some in Hx as [[Hk Hx]|[-> <-]].
    + rewrite length_alter, Hl in Hk.
      replace (if decide (k = generation handled) then [] else []) with (@nil ContextMsg) by by case_decide.
      rewrite app_nil_r. destruct (decide (k = g)) as [->|Hne].
      * rewrite list_lookup_alter_eq in Hx. apply fmap_Some in Hx as (c & Ec & ->).
        destruct (Hc _ _ Ec) as (H1 & H2 & H3 & _). cbn. split_and!; [done..|lia].
      * rewrite list_lookup_alter_ne in Hx by done. destruct (Hc _ _ Hx) as (H1 & H2 & H3 & _).
        split_and!; [done..|lia].
    + rewrite length_alter, Hl. cbn.
      rewrite Hfl, decide_False, app_nil_r, assigned_later by (unfold g; lia). cbn.
      split_and!; try done. f_equal. unfold wrap. rewrite Z.add_mod_idemp_l by done. f_equal. lia.
  - intros n t Hn. destruct (Ht n t Hn) as (x & Hx & Hlk). specialize (Htg n t Hn).
    rewrite lookup_app_l by (rewrite length_alter; lia).
    destruct (decide (tk_child t = g)) as [E|E].
    + rewrite E in Hx |- *. rewrite list_lookup_alter_eq, Hx. cbn. eexists. by split.
    + rewrite list_lookup_alter_ne by done. eauto.
Qed.
Lemma worker_ok_handle handled m s :
  (∀ name, can_spawn name = true) → worker_ok handled s → worker_ok (handled ++ [m]) (worker_handle m s).
Proof.
  intros Hs Ho. pose proof Ho as (Hw & _). destruct m as [b a|reason|cause]; cbn [worker_handle].
  - rewrite Hw. cbn. by apply worker_ok_tell.
  - by apply (worker_ok_poisoned handled reason).
  - rewrite Hw. cbn. by apply worker_ok_tell.
Qed.
(** What was sent to the worker in a run. *)
Definition sent (sts : list Step) : list WorkerMsg :=
  omap (λ st, match st with St_Send m => Some m | _ => None end) sts.
Lemma worker_ok_run sts :
  (∀ name, can_spawn name = true) →
  let s := system_run sts worker_pre_start in
  ∃ handled, sent sts = handled ++ sy_mail s ∧ worker_ok handled s.
Proof.
  intros Hs. cbv zeta. induction sts as [|st sts IH] using rev_ind.
  - exists []. unfold worker_pre_start, spawn_child. cbn. rewrite Hs. cbn. split; [done|].
    split_and!; try done. intros [|g] c Hc; [|done]. injection Hc as <-. by split_and!.
  - destruct IH as (handled & Hse & Hok). unfold system_run, sent in *. rewrite foldl_app, omap_app. cbn [foldl].
    set (s := foldl _ worker_pre_start sts) in *. rewrite Hse. destruct st as [m| |g|g|n]; cbn [omap list_omap].
    + exists handled. cbn. by rewrite app_assoc.
    + rewrite app_nil_r. cbn [system_step]. destruct (sy_mail s) as [|m rest] eqn:Em; [exists handled; by rewrite Em|].
      exists (handled ++ [m]). split; [|by apply worker_ok_handle]. rewrite <-app_assoc. f_equal. cbn [app]. f_equal.
      destruct m; cbn; unfold spawn_child, tell_child; repeat case_match; done.
    + exists handled. rewrite app_nil_r. split; [|by apply worker_ok_child]. cbn. by repeat case_match.
    + exists handled. rewrite app_nil_r. split; [|by apply worker_ok_terminate]. cbn. by repeat case_match.
    + exists handled. rewrite app_nil_r. split; [|by apply worker_ok_task]. cbn. by repeat case_match.
Qed.

(** [C11] Two-tier generations, in every interleaving of the parent, its children and their
    tasks.  The parent handles its messages in order; it never restarts, and builds a
    child exactly once per [ContextPoisoned] it handled, under the next name and from a
    fresh slot of the factory.  The calls a runner ever gets, together with those its
    tasks still have to make and those still in its mailbox, are messages the parent
    handled while that child was the current one, none twice - and all of them, for the
    current child - in an order that only the race for the mutex decides; the runner is
    the factory's, taken through its own calls, so nothing of an old context survives a
    rebuild.  At most one task is inside a runner at a time.  (A stopped child's tasks are
    not stopped: they finish on the old runner.) *)
Theorem worker_generations (sts : list Step) :
  (∀ name, can_spawn name = true) →
  let s := system_run sts worker_pre_start in
  ∃ handled, sent sts = handled ++ sy_mail s ∧
    let gen := generation handled in
    sy_worker s = {| wa_child := Some gen; wa_seq := wrap_u64 (Z.of_nat gen + 1); wa_factory_calls := S gen |} ∧
    length (sy_children s) = S gen ∧
    (∀ g c, sy_children s !! g = Some c →
      cx_name c = child_name (wrap_u64 (Z.of_nat g + 1)) ∧
      cx_runner c = foldl runner_step (slot_factory g) (cx_calls c) ∧
      (cx_calls c ++ in_flight g (sy_tasks s) ++ cx_mail c) ⊆+ assigned g handled ∧
      (g = gen → cx_calls c ++ in_flight g (sy_tasks s) ++ cx_mail c ≡ₚ assigned g handled)) ∧
    (∀ n m t u, sy_tasks s !! n = Some t → sy_tasks s !! m = Some u → tk_child t = tk_child u →
      is_holding (tk_phase t) = true → is_holding (tk_phase u) = true → n = m).
Proof.
  intros Hs s. destruct (worker_ok_run sts Hs) as (handled & Hse & Hw & Hl & Hc & Ht). fold s in Hse, Hw, Hl, Hc, Ht.
  exists handled. split; [done|]. cbv zeta. split_and!; [done..| |].
  - intros g c Hg. destruct (Hc g c Hg) as (H1 & H2 & H3 & H4). split_and!; [done..|]. intros E. by apply H4.
  - intros n m t u Hn Hm Hcu Hht Hhu. destruct (Ht n t Hn) as (c & Ec & Hlt). destruct (Ht m u Hm) as (c' & Ec' & Hlu).
    rewrite <-Hcu, Ec in Ec'. injection Ec' as <-. specialize (Hlt Hht). specialize (Hlu Hhu). congruence.
Qed.

Definition put (n g : nat) (c : ContextActor) (t : ContextTask) (s : System) : System := {|
  sy_mail := sy_mail s; sy_worker := sy_worker s; sy_children := <[g := c]> (sy_children s);
  sy_tasks := <[n := t]> (sy_tasks s); sy_refused := sy_refused s
|}.
Lemma system_step_task n s t c c' t' :
  sy_tasks s !! n = Some t → sy_children s !! tk_child t = Some c → task_step n c t = (c', t') →
  system_step (St_Task n) s = put n (tk_child t) c' t' s ∧
  sy_tasks (put n (tk_child t) c' t' s) !! n = Some t' ∧
  sy_children (put n (tk_child t) c' t' s) !! tk_child t = Some c'.
Proof.
  intros Hn Hc Hs. pose proof (lookup_lt_Some _ _ _ Hn). pose proof (lookup_lt_Some _ _ _ Hc).
  cbn. rewrite Hn, Hc, Hs, !list_lookup_insert_eq by done. done.
Qed.

(** A poisoned context is not recovered: when the runner reports [CudaContextPoisoned] to
    a task, the task panics with a message the supervision policy would answer with a
    restart, but the panic ends a detached task; the client reads the error, the parent
    and its child stay what they were, the mutex is free, and the poisoned runner serves
    the next request.  Only a [ContextPoisoned] message rebuilds it. *)
Theorem poisoned_context_kept (s : System) (n : nat) (t : ContextTask) (c : ContextActor)
    (batch : ExecuteBatch) (alive : nat → bool) (r' : R) (m : string) :
  sy_tasks s !! n = Some t → sy_children s !! tk_child t = Some c →
  tk_msg t = CM_Execute batch alive → tk_phase t = TP_Calling → tk_out t = [] → alive 0%nat = true →
  exec (cx_runner c) batch = (r', Err (CudaContextPoisoned m)) →
  let s' := system_run [St_Task n; St_Task n; St_Task n] s in
  let message := panic_message (CudaContextPoisoned m) in
  decide_directive supervisor_strategy message = Dir_Restart ∧
  (∃ t', sy_tasks s' !! n = Some t' ∧ tk_out t' = [Err (CudaContextPoisoned m)] ∧
    tk_phase t' = TP_Over (TaskPanicked message)) ∧
  sy_worker s' = sy_worker s ∧
  (∃ c', sy_children s' !! tk_child t = Some c' ∧ cx_runner c' = r' ∧ cx_stopped c' = cx_stopped c ∧
    cx_locked c' = None).
Proof.
  intros Hn Hc Hm Hp Ho Ha He s' message. split; [done|].
  set (e := CudaContextPoisoned m) in *. set (c1 := with_call r' (tk_msg t) c).
  set (t1 := set_phase (TP_Sending [Err e] true (TaskPanicked message)) t).
  set (t2 := {| tk_child := tk_child t; tk_msg := tk_msg t; tk_out := [Err e]; tk_reply := tk_reply t;
                tk_phase := TP_Sending [] true (TaskPanicked message) |}).
  set (t3 := set_phase (TP_Over (TaskPanicked message)) t2).
  destruct (system_step_task n s t c c1 t1) as (E1 & Hn1 & Hc1); [done|done|..].
  { unfold task_step. rewrite Hp, Hm. unfold context_execute. by rewrite He. }
  destruct (system_step_task n _ t1 c1 c1 t2 Hn1 Hc1) as (E2 & Hn2 & Hc2).
  { unfold task_step, t2. cbn. rewrite Hm, Ho. cbn. by rewrite Ha. }
  destruct (system_step_task n _ t2 c1 (with_lock None c1) t3 Hn2 Hc2) as (E3 & Hn3 & Hc3).
  { done. }
  assert (s' = put n (tk_child t) (with_lock None c1) t3 (put n (tk_child t) c1 t2 (put n (tk_child t) c1 t1 s))) as ->.
  { unfold s', system_run. cbn [foldl]. by rewrite E1, E2, E3. }
  split_and!; [by exists t3|done|by exists (with_lock None c1)].
Qed.
End worker.

Definition poisoned_exec (r : nat) (b : ExecuteBatch) :
  nat * InferenceResult (RunHandle (TokenChunk unit)) := (S r, Err (CudaContextPoisoned "ECC")).
Definition example_worker_batch : ExecuteBatch := {|
  request_id := "r"; model := "m"; messages := []; sampling := SamplingParams_default;
  stream := true; estimated_tokens_field := 1
|}.
(** Two requests; the context is replaced before the first one's task runs, on the old
    runner; the second one is for the new child. *)
Definition demo_steps : list Step :=
  let execute := WM_Execute example_worker_batch (λ _, true) in
  [St_Send execute; St_Parent; St_Child 0; St_Send (WM_ContextPoisoned "x"); St_Send execute; St_Parent;
   St_Parent; St_Task 0; St_Task 0; St_Child 1].
Definition demo_system : System :=
  system_run pretty poisoned_exec (λ r _, (r, Ok ())) (λ n, 10 * n)%nat (λ _, true) demo_steps
    (worker_pre_start (λ n, 10 * n)%nat (λ _, true)).
Lemma worker_generations_witness :
  wa_child (sy_worker demo_system) = Some 1%nat ∧
  (cx_runner <$> sy_children demo_system !! 0%nat) = Some 1%nat ∧
  (cx_runner <$> sy_children demo_system !! 1%nat) = Some 10%nat ∧
  ∃ c, sy_children demo_system !! 1%nat = Some c ∧
    cx_calls c ++ in_flight 1 (sy_tasks demo_system) ++ cx_mail c ≡ₚ
      [CM_Execute example_worker_batch (λ _, true)].
Proof.
  destruct (worker_generations pretty poisoned_exec (λ r _, (r, Ok ())) (λ n, 10 * n)%nat (λ _, true)
    demo_steps (λ _, eq_refl)) as (handled & Hs & Hw & _ & Hc & _).
  change (sent demo_steps = handled ++ []) in Hs. rewrite app_nil_r in Hs. subst handled.
  split; [reflexivity|]. split; [reflexivity|]. split; [reflexivity|].
  eexists. split; [reflexivity|]. exact (proj2 (proj2 (proj2 (Hc 1%nat _ eq_refl))) eq_refl).
Defined.
Lemma poisoned_context_kept_witness :
  let s := system_run pretty poisoned_exec (λ r _, (r, Ok ())) (λ n, n) (λ _, true)
    (take 3 demo_steps ++ [St_Task 0]) (worker_pre_start (λ n, n) (λ _, true)) in
  sy_worker (system_run pretty poisoned_exec (λ r _, (r, Ok ())) (λ n, n) (λ _, true)
    [St_Task 0; St_Task 0; St_Task 0] s) = sy_worker s.
Proof.
  intros s.
  refine (proj1 (proj2 (proj2 (poisoned_context_kept pretty poisoned_exec (λ r _, (r, Ok ())) (λ n, n) (λ _, true) s
    0%nat _ _ example_worker_batch (λ _, true) _ "ECC" eq_refl eq_refl eq_refl eq_refl eq_refl eq_refl eq_refl)))).
Defined.
