(* ===== verification/Gateway.v ===== *)
(** * HTTP gateway

    Models [inference-runtime/src/gateway.rs]: the request types, the actor's
    listener shutdown, the route lookup through the coordinator, and every handler
    (the audio ones are placeholders in the source too).  The HTTP server is axum:
    a handler is a function from the decoded request to a response, a multipart
    body the list of its fields, a WebSocket session the list of frames received
    before it ends, answered by the frames sent.  The JSON text is left abstract:
    a body is the value serialized. *)
From Stdlib Require Import SpecFloat.
From S2P Require Import Prelude F64 Runtime Tokens Coordinator.

Record ChatMessage : Type := { cm_role : string; cm_content : string }.
Record ChatRequest : Type := {
  cr_model : string; cr_messages : list ChatMessage; cr_stream : bool;
  cr_temperature : option spec_float; cr_max_tokens : option Z
}.
Record SpeechRequest : Type := {
  sr_model : string; sr_input : string; sr_voice : string; sr_response_format : string;
  sr_speed : option spec_float; sr_emotion : option string
}.
Definition default_response_format : string := "wav".

Inductive Body : Type :=
  | B_Error (message kind : string)
  | B_Chat (id model content finish_reason : string)
  | B_Transcription (text : string) (language : option string) (duration_ms : option Z)
  | B_Bytes (b : list Z)
  | B_Sse (events : list string).
Record Response : Type := { status : Z; content_type : option string; body : Body }.
Definition ok_json (b : Body) : Response := {| status := 200; content_type := None; body := b |}.

Definition bad_request (msg kind : string) : Response :=
  {| status := 400; content_type := None; body := B_Error msg kind |}.

Definition parse_role (s : string) : Role :=
  if decide (s = "system") then Role_System
  else if decide (s = "assistant") then Role_Assistant
  else if decide (s = "tool") then Role_Tool
  else Role_User.

Definition wav_content_type (fmt : string) : string :=
  if decide (fmt = "mp3") then "audio/mpeg"
  else if decide (fmt = "flac") then "audio/flac"
  else if decide (fmt = "opus" ∨ fmt = "ogg") then "audio/ogg"
  else "audio/wav".

Definition silent_wav_stub : list Z :=
  string_bytes "RIFF" ++ to_le_bytes 4 36 ++ string_bytes "WAVE" ++
  string_bytes "fmt " ++ to_le_bytes 4 16 ++ to_le_bytes 2 1 ++ to_le_bytes 2 1 ++
  to_le_bytes 4 16000 ++ to_le_bytes 4 32000 ++ to_le_bytes 2 2 ++ to_le_bytes 2 16 ++
  string_bytes "data" ++ to_le_bytes 4 0.
Definition audio_speech_sse_stub : list string := ["[DONE]"].

(** ** Handlers *)

Section handlers.
Context {ActorPath : Type} `{!EqDecision ActorPath}.
(** [<Duration as Debug>]. *)
Variable debug_duration : Duration → string.

(** The coordinator as the gateway sees it: its table, or no answer in time. *)
Definition AppState : Type := option (gmap string (list (RouteTarget ActorPath))).
Definition ask_route (state : AppState) (m : string) : option (InferenceResult (RouteTarget ActorPath)) :=
  match state with
  | None => None
  | Some st => snd (coordinator_handle (DC_RouteTo m) st)
  end.

Definition resolve_route (state : AppState) (m : string) : result Response unit :=
  match ask_route state m with
  | Some (Ok _) => Ok ()
  | Some (Err e) => Err (bad_request (error_to_string debug_duration e) "no_route")
  | None => Err (bad_request "coordinator timeout" "internal_error")
  end.

(** The batch [chat_completions] builds; [now] is the clock in nanoseconds, absent
    when it does not fit an [i64]. *)
Definition chat_batch (now : option Z) (req : ChatRequest) : ExecuteBatch := {|
  request_id := "req-" +:+ pretty (default 0 now);
  model := cr_model req;
  messages := (λ m, {| role := parse_role (cm_role m); content := MC_Text (cm_content m) |}) <$>
              cr_messages req;
  sampling := {| temperature := cr_temperature req; top_p := None; top_k := None;
                 max_tokens := cr_max_tokens req; stop := []; presence_penalty := None;
                 frequency_penalty := None; seed := None |};
  stream := cr_stream req;
  estimated_tokens_field := 256
|}.
Definition chat_completions (now : option Z) (state : AppState) (req : ChatRequest) : Response :=
  let batch := chat_batch now req in
  match ask_route state (cr_model req) with
  | Some (Ok _) => ok_json (B_Chat (request_id batch) (model batch) "" "stop")
  | Some (Err e) => bad_request (error_to_string debug_duration e) "no_route"
  | None => bad_request "coordinator timeout" "internal_error"
  end.

(** One multipart field: its name and what reading it as text or bytes gives. *)
Record Field : Type := {
  f_name : option string; f_text : option string; f_bytes : option (list Z)
}.
Definition read_field (acc : option string * option (list Z)) (f : Field) :
  option string * option (list Z) :=
  let '(m, audio) := acc in
  match f_name f with
  | Some n => if decide (n = "model") then (f_text f, audio)
              else if decide (n = "file") then (m, f_bytes f) else acc
  | None => acc
  end.
Definition audio_transcriptions (state : AppState) (multipart : list Field) : Response :=
  match foldl read_field (None, None) multipart with
  | (None, _) => bad_request "missing 'model' field" "invalid_request"
  | (Some _, None) => bad_request "missing 'file' field" "invalid_request"
  | (Some m, Some _) =>
      match resolve_route state m with
      | Ok _ => ok_json (B_Transcription "" None None)
      | Err r => r
      end
  end.

Definition audio_speech (state : AppState) (req : SpeechRequest) : Response :=
  match resolve_route state (sr_model req) with
  | Ok _ => {| status := 200; content_type := Some (wav_content_type (sr_response_format req));
               body := B_Bytes silent_wav_stub |}
  | Err r => r
  end.
Definition audio_speech_stream (state : AppState) (req : SpeechRequest) : Response :=
  match resolve_route state (sr_model req) with
  | Ok _ => {| status := 200; content_type := Some "text/event-stream";
               body := B_Sse audio_speech_sse_stub |}
  | Err r => r
  end.
End handlers.

(** ** WebSocket sessions *)

Inductive WsMessage : Type :=
  | Ws_Text (t : string) | Ws_Binary (b : list Z) | Ws_Ping | Ws_Pong | Ws_Close.
Inductive WsReply : Type :=
  | Rep_FinalTranscript (text : string)      (* [{"is_final": true, "text": ..}] *)
  | Rep_ResponseText (text : string)         (* [{"type": "response.text", ..}] *)
  | Rep_Close.

(** Frames until the client closes, or the socket ends. *)
Fixpoint until_close (frames : list WsMessage) : list WsMessage :=
  match frames with
  | [] | Ws_Close :: _ => []
  | m :: r => m :: until_close r
  end.
(** Frames are read and dropped; then one final transcript and a close. *)
Definition audio_transcriptions_stream_inner (frames : list WsMessage) : list WsReply :=
  [Rep_FinalTranscript ""; Rep_Close].
Definition audio2face_session_inner (frames : list WsMessage) : list WsReply := [Rep_Close].
(** Each text frame is echoed until the client closes or a send fails. *)
Fixpoint realtime_echo (alive : nat → bool) (k : nat) (frames : list WsMessage) : list WsReply :=
  match frames with
  | [] | Ws_Close :: _ => []
  | Ws_Text t :: r => if alive k then Rep_ResponseText t :: realtime_echo alive (S k) r else []
  | _ :: r => realtime_echo alive k r
  end.
Definition realtime_session_inner (alive : nat → bool) (frames : list WsMessage) : list WsReply :=
  realtime_echo alive 0 frames ++ [Rep_Close].

(** ** The actor: one listener, one shutdown signal *)

Record ApiGatewayActor : Type := { ga_shutdown_tx : bool; ga_stopped : bool }.
Inductive GatewayEvent : Type := GE_PreStart (bind_ok : bool) | GE_Stop | GE_PostStop.
(** The new state, and how many shutdown signals were sent. *)
Definition gateway_step (ev : GatewayEvent) (g : ApiGatewayActor) : ApiGatewayActor * nat :=
  match ev with
  | GE_PreStart bind_ok =>
      ({| ga_shutdown_tx := if bind_ok then true else ga_shutdown_tx g;
          ga_stopped := ga_stopped g |}, 0%nat)
  | GE_Stop =>
      ({| ga_shutdown_tx := false; ga_stopped := true |}, if ga_shutdown_tx g then 1 else 0)%nat
  | GE_PostStop =>
      ({| ga_shutdown_tx := false; ga_stopped := ga_stopped g |}, if ga_shutdown_tx g then 1 else 0)%nat
  end.

(** ** Properties *)


(** The placeholder audio is a well-formed 44-byte mono PCM16 WAV header: the
    RIFF size and the fields a reader decodes little-endian are consistent (byte
    rate = rate * block align, block align = channels * 2), with no data; and the
    gateway's listener is told to shut down at most once per start. *)
Theorem silent_wav_and_shutdown (evs : list GatewayEvent) (g : ApiGatewayActor) :
  (let field off len := of_le_bytes (take len (drop off silent_wav_stub)) in
   length silent_wav_stub = 44%nat ∧ Forall (is_u 8) silent_wav_stub ∧
   field 4%nat 4%nat = Z.of_nat (length silent_wav_stub) - 8 ∧
   field 28%nat 4%nat = field 24%nat 4%nat * field 32%nat 2%nat ∧
   field 32%nat 2%nat = field 22%nat 2%nat * 2 ∧ field 40%nat 4%nat = 0) ∧
  let sent := foldl (λ '(g, n) ev, let '(g', k) := gateway_step ev g in (g', (n + k)%nat)) (g, 0%nat) evs in
  (snd sent + (if ga_shutdown_tx (fst sent) then 1 else 0) ≤
   count_if (λ ev, match ev with GE_PreStart b => b | _ => false end) evs +
   (if ga_shutdown_tx g then 1 else 0))%nat.
Proof.
  split.
  { vm_compute. split_and!; try done. repeat constructor; done. }
  cbv zeta.
  assert (∀ n, let sent := foldl (λ '(g, n) ev, let '(g', k) := gateway_step ev g in (g', (n + k)%nat)) (g, n) evs in
    (snd sent + (if ga_shutdown_tx (fst sent) then 1 else 0) ≤
     n + count_if (λ ev, match ev with GE_PreStart b => b | _ => false end) evs +
     (if ga_shutdown_tx g then 1 else 0))%nat) as H; [|exact (H 0%nat)].
  revert g. induction evs as [|ev evs IH]; intros g n; cbn [foldl count_if]; [cbn; lia|].
  destruct (gateway_step ev g) as [g' k] eqn:E. specialize (IH g' (n + k)%nat). cbn zeta in *.
  destruct ev as [b| |]; cbn in E; simplify_eq; cbn [ga_shutdown_tx] in *;
    destruct (ga_shutdown_tx g); try destruct b; lia.
Qed.

