(* ===== verification/WsCore.v ===== *)
(** * WebSocket core

    Models [inference-runtime-ws-core/src]: [frame.rs] (frames, the conversion to
    and from the wire message, coalescing of binary frames), [keepalive.rs],
    [reconnect.rs], [error.rs], and the receive loop and connect sequence of
    [client.rs].  The wire library's close codes, URL and header parsing, and the
    connection itself are parameters. *)
From S2P Require Import Prelude F64 Runtime Deployment Backoff.

Abbreviation Bytes := (list Z) (only parsing).

(** ** Frames (frame.rs) *)

Inductive Frame : Type :=
  | Fr_Binary (b : Bytes)
  | Fr_Text (t : string)
  | Fr_Ping (p : Bytes)
  | Fr_Pong (p : Bytes)
  | Fr_Close (code : Z) (reason : string).
#[global] Instance Frame_eq_dec : EqDecision Frame.
Proof. solve_decision. Defined.

Definition is_control (f : Frame) : bool :=
  match f with Fr_Ping _ | Fr_Pong _ | Fr_Close _ _ => true | _ => false end.
Definition is_binary (f : Frame) : bool := match f with Fr_Binary _ => true | _ => false end.

(** [flush]: pushes the buffer as one frame, if it holds anything. *)
Definition flush (buf : Bytes) (out : list Frame) : list Frame :=
  match buf with [] => out | _ => out ++ [Fr_Binary buf] end.

Definition len (b : Bytes) : Z := Z.of_nat (length b).
(** The body of the loop over the input frames: the buffer and the output. *)
Definition coalesce_step (max_bytes : Z) (st : Bytes * list Frame) (f : Frame) :
  Bytes * list Frame :=
  let '(buf, out) := st in
  match f with
  | Fr_Binary b =>
      if max_bytes <=? len b then ([], flush buf out ++ [Fr_Binary b])
      else if max_bytes <? len buf + len b then (b, flush buf out)
      else (buf ++ b, out)
  | other => ([], flush buf out ++ [other])
  end.
Definition coalesce_binary (frames : list Frame) (max_bytes : Z) : list Frame :=
  if (max_bytes =? 0) || (Z.of_nat (length frames) <=? 1) then frames
  else
    let '(buf, out) := foldl (coalesce_step max_bytes) ([], []) frames in
    flush buf out.

(** What a peer sees of a sequence of frames, byte by byte: each binary byte, and each
    other frame, in order. *)
Fixpoint observed (frames : list Frame) : list (Z + Frame) :=
  match frames with
  | [] => []
  | Fr_Binary b :: r => (inl <$> b) ++ observed r
  | f :: r => inr f :: observed r
  end.

Lemma observed_app a b : observed (a ++ b) = observed a ++ observed b.
Proof.
  induction a as [|f a IH]; [done|]. destruct f; cbn; rewrite IH; [by rewrite app_assoc|done..].
Qed.
Lemma observed_flush buf out : observed (flush buf out) = observed out ++ (inl <$> buf).
Proof.
  unfold flush. destruct buf as [|x buf]; [by rewrite app_nil_r|].
  rewrite observed_app. cbn. by rewrite app_nil_r.
Qed.

(** A frame the coalescer may emit: within the cap, or one of the inputs. *)
Definition emitted_ok (max_bytes : Z) (input : list Frame) (f : Frame) : Prop :=
  match f with Fr_Binary b => 0 < len b ≤ max_bytes ∨ f ∈ input | _ => f ∈ input end.

Lemma coalesce_fold max_bytes (input fs : list Frame) buf out :
  0 < max_bytes → (∀ f, f ∈ fs → f ∈ input) → len buf ≤ max_bytes →
  Forall (emitted_ok max_bytes input) out →
  let '(buf', out') := foldl (coalesce_step max_bytes) (buf, out) fs in
  observed (flush buf' out') = observed (flush buf out) ++ observed fs ∧
  Forall (emitted_ok max_bytes input) (flush buf' out').
Proof.
  intros Hm. revert buf out. induction fs as [|f fs IH]; intros buf out Hin Hb Ho; cbn [foldl].
  { rewrite app_nil_r. split; [done|]. unfold flush. destruct buf as [|x buf]; [done|].
    apply Forall_app_snoc; [done|]. left. unfold len in *. cbn [length] in *. lia. }
  assert (Forall (emitted_ok max_bytes input) (flush buf out)) as Hf.
  { unfold flush. destruct buf as [|x buf]; [done|].
    apply Forall_app_snoc; [done|]. left. unfold len in *. cbn [length] in *. lia. }
  assert (f ∈ input) as Hfi by (apply Hin; set_solver).
  assert (∀ g, g ∈ fs → g ∈ input) as Hin' by (intros; apply Hin; set_solver).
  assert (∀ g, emitted_ok max_bytes input g → 
    let '(buf', out') := foldl (coalesce_step max_bytes) ([], flush buf out ++ [g]) fs in
    observed (flush buf' out') = observed (flush buf out) ++ observed [g] ++ observed fs ∧
    Forall (emitted_ok max_bytes input) (flush buf' out')) as Hpush.
  { intros g Hg. specialize (IH [] (flush buf out ++ [g]) Hin' ltac:(unfold len; cbn; lia)
      ltac:(by apply Forall_app_snoc)).
    destruct (foldl _ _ fs) as [b' o']. destruct IH as [-> ?]. cbn [flush].
    by rewrite observed_app, <-app_assoc. }
  destruct f as [b|t|p|p|c r]; cbn [coalesce_step].
  2-5: match type of Hfi with ?g ∈ _ => exact (Hpush g Hfi) end.
  destruct (Z.leb_spec max_bytes (len b)).
  - specialize (Hpush (Fr_Binary b) (or_intror Hfi)).
    destruct (foldl _ _ fs) as [b' o']. destruct Hpush as [-> ?]. split; [|done].
    cbn. by rewrite app_nil_r.
  - destruct (Z.ltb_spec max_bytes (len buf + len b)).
    + specialize (IH b (flush buf out) Hin' ltac:(lia) Hf).
      destruct (foldl _ _ fs) as [b' o']. destruct IH as [-> ?]. split; [|done].
      rewrite (observed_flush b), <-app_assoc. done.
    + specialize (IH (buf ++ b) out Hin').
      destruct (foldl _ _ fs) as [b' o']. destruct IH as [-> ?]; [|done|].
      { unfold len in *. rewrite length_app. lia. }
      split; [|done]. by rewrite !observed_flush, fmap_app, <-!app_assoc.
Qed.

(** [C28] Coalescing is invisible to the peer: whatever the cap, the bytes of the binary
    frames and the other frames arrive in exactly the same order, none lost,
    duplicated or moved across a non-binary frame; and every frame it builds is
    non-empty and within the cap, a larger one being an input passed through. *)
Theorem coalesce_preserves (frames : list Frame) (max_bytes : Z) :
  0 ≤ max_bytes →
  observed (coalesce_binary frames max_bytes) = observed frames ∧
  Forall (emitted_ok max_bytes frames) (coalesce_binary frames max_bytes).
Proof.
  intros Hm. unfold coalesce_binary.
  assert (Forall (emitted_ok max_bytes frames) frames) as Hid.
  { apply Forall_forall. intros f Hf. unfold emitted_ok. destruct f; auto. }
  destruct (Z.eqb_spec max_bytes 0); [done|].
  destruct (Z.of_nat (length frames) <=? 1); [done|]. cbn [orb].
  pose proof (coalesce_fold max_bytes frames frames [] [] ltac:(lia) ltac:(done)
    ltac:(unfold len; cbn; lia) ltac:(constructor)) as H.
  by destruct (foldl _ _ frames).
Qed.

(** ** The wire message *)

Section message.
Context {CloseCode RawFrame : Type}.
(** [CloseCode::from(u16)] and [u16::from(CloseCode)]. *)
Variables (close_code_from : Z → CloseCode) (close_code_into : CloseCode → Z).

(** The variants of [tungstenite::Message] the source matches on. *)
Inductive Message : Type :=
  | Msg_Binary (b : Bytes) | Msg_Text (t : string) | Msg_Ping (p : Bytes) | Msg_Pong (p : Bytes)
  | Msg_Close (cf : option (CloseCode * string)) | Msg_Frame (f : RawFrame).

Definition into_message (f : Frame) : Message :=
  match f with
  | Fr_Binary b => Msg_Binary b
  | Fr_Text t => Msg_Text t
  | Fr_Ping p => Msg_Ping p
  | Fr_Pong p => Msg_Pong p
  | Fr_Close code reason => Msg_Close (Some (close_code_from code, reason))
  end.
Definition from_message (m : Message) : option Frame :=
  match m with
  | Msg_Binary b => Some (Fr_Binary b)
  | Msg_Text t => Some (Fr_Text t)
  | Msg_Ping p => Some (Fr_Ping p)
  | Msg_Pong p => Some (Fr_Pong p)
  | Msg_Close (Some (code, reason)) => Some (Fr_Close (close_code_into code) reason)
  | Msg_Close None => Some (Fr_Close 1000 "")
  | Msg_Frame _ => None
  end.

(** ** Errors (error.rs) *)

Inductive WsError : Type :=
  | WE_Closed (code : Z) (reason : string)
  | WE_ConnectTimeout (seconds : Z)
  | WE_IdleTimeout (seconds : Z)
  | WE_Tls (m : string)
  | WE_Io (m : string)
  | WE_Protocol (m : string)
  | WE_BadUrl (m : string)
  | WE_ReconnectExhausted (attempts : Z).
Definition ws_is_retryable (e : WsError) : bool :=
  match e with WE_BadUrl _ | WE_Tls _ | WE_ReconnectExhausted _ => false | _ => true end.
Definition ws_error_to_string (e : WsError) : string :=
  match e with
  | WE_Closed c r => "websocket closed: code=" +:+ pretty c +:+ " reason=" +:+ r
  | WE_ConnectTimeout s => "websocket connect timed out after " +:+ pretty s +:+ "s"
  | WE_IdleTimeout s => "websocket idle timeout after " +:+ pretty s +:+ "s with no pong"
  | WE_Tls m => "websocket tls error: " +:+ m
  | WE_Io m => "websocket io error: " +:+ m
  | WE_Protocol m => "websocket protocol error: " +:+ m
  | WE_BadUrl m => "websocket bad url: " +:+ m
  | WE_ReconnectExhausted n => "websocket reconnect exhausted after " +:+ pretty n +:+ " attempts"
  end.

(** The cases of [tungstenite::Error] the conversion tells apart; each carries the
    text of what it wraps. *)
Inductive TungsteniteError : Type :=
  | TE_ConnectionClosed | TE_AlreadyClosed
  | TE_Io (m : string) | TE_Tls (m : string) | TE_Url (m : string) | TE_Protocol (m : string)
  | TE_Other (m : string).
Definition ws_error_from (e : TungsteniteError) : WsError :=
  match e with
  | TE_ConnectionClosed | TE_AlreadyClosed => WE_Closed 1000 ""
  | TE_Io m => WE_Io m
  | TE_Tls m => WE_Tls m
  | TE_Url m => WE_BadUrl m
  | TE_Protocol m => WE_Protocol m
  | TE_Other m => WE_Protocol m
  end.

(** ** Receiving (client.rs) *)

(** [WsReceiver::next] on what the stream will yield: the rest of it and the result. *)
Fixpoint receiver_next (items : list (result TungsteniteError Message)) :
  list (result TungsteniteError Message) * result WsError (option Frame) :=
  match items with
  | [] => ([], Ok None)
  | Err e :: r => (r, Err (ws_error_from e))
  | Ok m :: r =>
      match from_message m with
      | Some f => (r, Ok (Some f))
      | None => receiver_next r
      end
  end.
(** Frames read until the end or the first error. *)
Fixpoint receive_all (fuel : nat) (items : list (result TungsteniteError Message)) : list Frame :=
  match fuel with
  | O => []
  | S n => match receiver_next items with
           | (r, Ok (Some f)) => f :: receive_all n r
           | _ => []
           end
  end.

(** [WsSender::send]: the message handed to the sink. *)
Definition sender_send (f : Frame) : Message := into_message f.
Definition sender_close (code : Z) (reason : string) : Message := into_message (Fr_Close code reason).

(** [connect_with_headers]: URL, request, headers in order, then the bounded connect. *)
Section connect.
Context {Url Request HeaderName HeaderValue Conn : Type}.
Variable url_parse : string → result string Url.
Variable into_client_request : Url → result string Request.
Variable header_name : string → result string HeaderName.
Variable header_value : string → result string HeaderValue.
Variable header_insert : HeaderName → HeaderValue → Request → Request.
(** [timeout(connect_timeout, connect_async(req))]; [None]: it elapsed. *)
Variable connect_async : Request → Duration → option (result TungsteniteError Conn).

Fixpoint insert_headers (headers : list (string * string)) (req : Request) : result WsError Request :=
  match headers with
  | [] => Ok req
  | (name, value) :: r =>
      match header_name name with
      | Err e => Err (WE_BadUrl ("bad header name " +:+ name +:+ ": " +:+ e))
      | Ok n =>
          match header_value value with
          | Err e => Err (WE_BadUrl ("bad header value for " +:+ name +:+ ": " +:+ e))
          | Ok v => insert_headers r (header_insert n v req)
          end
      end
  end.
Definition connect_with_headers (url : string) (headers : list (string * string))
    (connect_timeout : Duration) : result WsError Conn :=
  match url_parse url with
  | Err e => Err (WE_BadUrl e)
  | Ok parsed =>
      match into_client_request parsed with
      | Err e => Err (WE_BadUrl ("ws request: " +:+ e))
      | Ok req0 =>
          match insert_headers headers req0 with
          | Err e => Err e
          | Ok req =>
              match connect_async req connect_timeout with
              | None => Err (WE_ConnectTimeout (as_secs connect_timeout))
              | Some (Err e) => Err (ws_error_from e)
              | Some (Ok ws) => Ok ws
              end
          end
      end
  end.
Definition connect (url : string) (connect_timeout : Duration) : result WsError Conn :=
  connect_with_headers url [] connect_timeout.
End connect.

(** Frames survive the wire: the frames one side sends are the frames the other
    side reads, in order, even when the library interleaves raw frames; close codes
    rely on the wire library converting a code to its enum and back unchanged. *)
Theorem frames_survive_wire (sent : list Frame) (wire : list Message) :
  (∀ code, close_code_into (close_code_from code) = code) →
  omap (λ m, match m with Msg_Frame _ => None | _ => Some m end) wire = sender_send <$> sent →
  receive_all (S (length sent)) (Ok <$> wire) = sent ∧
  Forall (λ f, from_message (sender_send f) = Some f) sent.
Proof.
  intros Hcc Hw.
  assert (∀ f, from_message (sender_send f) = Some f) as Hrt.
  { intros [b|t|p|p|c r]; cbn; [done..|]. by rewrite Hcc. }
  split; [|by apply Forall_true]. revert sent Hw. induction wire as [|m wire IH]; intros sent Hw.
  - by destruct sent.
  - destruct (match m with Msg_Frame _ => true | _ => false end) eqn:Em.
    + destruct m; try done. cbn in Hw. specialize (IH sent Hw). rewrite <-IH at 2. done.
    + assert (omap (λ m, match m with Msg_Frame _ => None | _ => Some m end) (m :: wire) =
        m :: omap (λ m, match m with Msg_Frame _ => None | _ => Some m end) wire) as E by (by destruct m).
      rewrite E in Hw. destruct sent as [|f sent]; [done|]. cbn [fmap list_fmap] in Hw.
      simplify_eq. specialize (IH sent ltac:(done)).
      cbn [receive_all length fmap list_fmap receiver_next]. rewrite Hrt. by f_equal.
Qed.
End message.
Arguments Message CloseCode RawFrame : clear implicits.

(** ** Keepalive (keepalive.rs) *)

Record KeepaliveConfig : Type := { ping_interval : Duration; idle_timeout : Duration }.
Definition KeepaliveConfig_default : KeepaliveConfig :=
  {| ping_interval := from_secs 15; idle_timeout := from_secs 60 |}.
Inductive KeepaliveAction : Type := KA_Idle | KA_SendPing | KA_Dead.
#[global] Instance KeepaliveAction_eq_dec : EqDecision KeepaliveAction.
Proof. solve_decision. Defined.
Record Keepalive : Type := {
  ka_cfg : KeepaliveConfig; last_seen : Instant; last_ping : option Instant
}.
Definition keepalive_new (cfg : KeepaliveConfig) (now : Instant) : Keepalive :=
  {| ka_cfg := cfg; last_seen := now; last_ping := None |}.
Definition observe (now : Instant) (k : Keepalive) : Keepalive :=
  {| ka_cfg := ka_cfg k; last_seen := now; last_ping := None |}.
Definition tick (now : Instant) (k : Keepalive) : Keepalive * KeepaliveAction :=
  let since_seen := duration_since now (last_seen k) in
  if negb (idle_timeout (ka_cfg k) =? 0) && (idle_timeout (ka_cfg k) <=? since_seen)
  then (k, KA_Dead)
  else if ping_interval (ka_cfg k) =? 0 then (k, KA_Idle)
  else
    let need_ping :=
      match last_ping k with
      | None => ping_interval (ka_cfg k) <=? since_seen
      | Some prev => ping_interval (ka_cfg k) <=? duration_since now prev
      end in
    if need_ping
    then ({| ka_cfg := ka_cfg k; last_seen := last_seen k; last_ping := Some now |}, KA_SendPing)
    else (k, KA_Idle).

(** A history: inbound frames and ticks, with their times. *)
Inductive KeepaliveEvent : Type := KE_Frame (t : Instant) | KE_Tick (t : Instant).
Definition ke_time (e : KeepaliveEvent) : Instant := match e with KE_Frame t | KE_Tick t => t end.
Fixpoint keepalive_run (evs : list KeepaliveEvent) (k : Keepalive) :
  Keepalive * list (Instant * KeepaliveAction) :=
  match evs with
  | [] => (k, [])
  | KE_Frame t :: r => keepalive_run r (observe t k)
  | KE_Tick t :: r =>
      let '(k1, a) := tick t k in
      let '(k2, l) := keepalive_run r k1 in (k2, (t, a) :: l)
  end.
Definition pings (l : list (Instant * KeepaliveAction)) : list Instant :=
  omap (λ '(t, a), if decide (a = KA_SendPing) then Some t else None) l.
(** The last inbound frame of a history, or its start. *)
Definition last_frame (t0 : Instant) (evs : list KeepaliveEvent) : Instant :=
  foldl (λ t e, match e with KE_Frame t' => t' | KE_Tick _ => t end) t0 evs.

(** The earliest time of the next ping. *)
Definition next_due (k : Keepalive) : Instant :=
  default (last_seen k) (last_ping k) + ping_interval (ka_cfg k).

Lemma tick_cases now k :
  0 < ping_interval (ka_cfg k) → 
  match tick now k with
  | (k', KA_SendPing) =>
      next_due k ≤ now ∧ ka_cfg k' = ka_cfg k ∧ next_due k' = now + ping_interval (ka_cfg k)
  | (k', _) => k' = k
  end.
Proof.
  intros Hp. unfold tick, next_due, duration_since, saturating_sub.
  destruct (_ && _); [done|].
  destruct (Z.eqb_spec (ping_interval (ka_cfg k)) 0); [done|].
  destruct (last_ping k) as [p|]; cbn [default from_option id].
  - destruct (Z.leb_spec (ping_interval (ka_cfg k)) (Z.max 0 (now - p))); [|done].
    split_and!; [lia|done|done].
  - destruct (Z.leb_spec (ping_interval (ka_cfg k)) (Z.max 0 (now - last_seen k))); [|done].
    split_and!; [lia|done|done].
Qed.

Lemma keepalive_pings evs k :
  0 < ping_interval (ka_cfg k) →
  StronglySorted Z.le (ke_time <$> evs) →
  Forall (λ t, default (last_seen k) (last_ping k) ≤ t) (ke_time <$> evs) →
  let ps := pings (snd (keepalive_run evs k)) in
  Forall (λ t, next_due k ≤ t) ps ∧
  StronglySorted (λ a b, a + ping_interval (ka_cfg k) ≤ b) ps.
Proof.
  intros Hp. revert k Hp. induction evs as [|[t|t] evs IH]; intros k Hp Hs Hf; cbn [keepalive_run].
  { split; constructor. }
  - apply StronglySorted_inv in Hs as [Hs Hle]. apply Forall_cons in Hf as [Ht _].
    destruct (IH (observe t k) Hp Hs) as [H1 H2].
    { cbn. eapply Forall_impl; [exact Hle|]. done. }
    split; [|exact H2]. eapply Forall_impl; [exact H1|]. cbn in *. unfold next_due. cbn. lia.
  - apply StronglySorted_inv in Hs as [Hs Hle]. apply Forall_cons in Hf as [Ht Hf].
    pose proof (tick_cases t k Hp) as Hc. destruct (tick t k) as [k1 a]. cbn in Ht.
    destruct a; [subst k1|destruct Hc as (Hdue & Hcfg & Hn)|subst k1].
    + specialize (IH k Hp Hs Hf). by destruct (keepalive_run evs k).
    + specialize (IH k1 ltac:(by rewrite Hcfg) Hs).
      assert (default (last_seen k1) (last_ping k1) = t) as Ed by (unfold next_due in *; rewrite Hcfg in Hn; lia).
      rewrite Ed, Hn, Hcfg in IH. destruct (keepalive_run evs k1) as [k2 l]. cbn in *.
      destruct (IH Hle) as [H1 H2]. split; constructor; [done| |done|done].
      eapply Forall_impl; [exact H1|]. cbn. lia.
    + specialize (IH k Hp Hs Hf). by destruct (keepalive_run evs k).
Qed.
Lemma keepalive_run_seen evs k :
  let k' := fst (keepalive_run evs k) in
  ka_cfg k' = ka_cfg k ∧ last_seen k' = last_frame (last_seen k) evs.
Proof.
  revert k. induction evs as [|[t|t] evs IH]; intros k; cbn [keepalive_run];
    [done|exact (IH (observe t k))|].
  assert (ka_cfg (fst (tick t k)) = ka_cfg k ∧ last_seen (fst (tick t k)) = last_seen k) as [Hc Hs].
  { unfold tick. repeat case_match; simplify_eq; done. }
  destruct (tick t k) as [k1 a]. cbn [fst] in *. specialize (IH k1).
  destruct (keepalive_run evs k1) as [k2 l]. cbn in *. destruct IH as [-> ->]. by rewrite Hc, Hs.
Qed.

(** Keepalive: along any history in time order, a tick reports the link dead
    exactly when the time since the last inbound frame has reached a non-zero idle
    timeout; and pings are never closer together than the ping interval, nor sooner
    than one interval after the start. *)
Theorem keepalive_spec (cfg : KeepaliveConfig) (t0 now : Instant) (evs : list KeepaliveEvent) :
  0 < ping_interval cfg → 0 ≤ idle_timeout cfg →
  StronglySorted Z.le (t0 :: (ke_time <$> evs)) →
  last_frame t0 evs ≤ now →
  let '(k, l) := keepalive_run evs (keepalive_new cfg t0) in
  (snd (tick now k) = KA_Dead ↔ idle_timeout cfg ≠ 0 ∧ idle_timeout cfg ≤ now - last_frame t0 evs) ∧
  Forall (λ t, t0 + ping_interval cfg ≤ t) (pings l) ∧
  StronglySorted (λ a b, a + ping_interval cfg ≤ b) (pings l).
Proof.
  intros Hp Hi Hs Hnow. apply StronglySorted_inv in Hs as [Hs Hle].
  pose proof (keepalive_pings evs (keepalive_new cfg t0) Hp Hs Hle) as Hps.
  pose proof (keepalive_run_seen evs (keepalive_new cfg t0)) as Hseen.
  destruct (keepalive_run evs _) as [k l]. cbn [fst snd] in *. destruct Hseen as [Hc Hl].
  split; [|exact Hps]. cbn in Hc, Hl. unfold tick, duration_since, saturating_sub. rewrite Hc, Hl.
  destruct (Z.eqb_spec (idle_timeout cfg) 0) as [E|E]; cbn [negb andb].
  - split; [|tauto]. by repeat case_match.
  - destruct (Z.leb_spec (idle_timeout cfg) (Z.max 0 (now - last_frame t0 evs))); cbn [snd].
    + split; [intros _; lia|done].
    + split; [by repeat case_match|lia].
Qed.

(** ** Reconnection (reconnect.rs) *)

Record ReconnectEngine : Type := { re_policy : BackoffPolicy; max_attempts : Z; attempt : Z }.
Definition reconnect_new (policy : BackoffPolicy) (m : Z) : ReconnectEngine :=
  {| re_policy := policy; max_attempts := m; attempt := 0 |}.
Definition reset (r : ReconnectEngine) : ReconnectEngine :=
  {| re_policy := re_policy r; max_attempts := max_attempts r; attempt := 0 |}.
Definition attempts (r : ReconnectEngine) : Z := attempt r.
Definition set_attempt (n : Z) (r : ReconnectEngine) : ReconnectEngine :=
  {| re_policy := re_policy r; max_attempts := max_attempts r; attempt := n |}.
Definition next_delay (r : ReconnectEngine) : ReconnectEngine * option Duration :=
  if attempt r =? 0 then (set_attempt 1 r, Some 0)
  else if negb (max_attempts r =? 0) && (max_attempts r <=? attempt r) then (r, None)
  else
    (set_attempt (saturating_add 32 (attempt r) 1) r,
     Some (compute_backoff (re_policy r) (saturating_sub (attempt r) 1))).

Fixpoint next_delays (n : nat) (r : ReconnectEngine) : ReconnectEngine * list (option Duration) :=
  match n with
  | O => (r, [])
  | S n' => let '(r1, d) := next_delay r in
            let '(r2, l) := next_delays n' r1 in (r2, d :: l)
  end.

(** The specification: delay number [k], counted from 0. *)
Definition delay_spec (policy : BackoffPolicy) (m : Z) (k : nat) : option Duration :=
  if decide (k = 0%nat) then Some 0
  else if decide (m ≠ 0 ∧ m ≤ Z.of_nat k) then None
  else Some (compute_backoff policy (Z.of_nat k - 1)).

Lemma next_delay_spec policy m k :
  is_u 32 m → Z.of_nat k < U32_MAX →
  let r := {| re_policy := policy; max_attempts := m;
              attempt := if decide (m ≠ 0 ∧ m < Z.of_nat k ∧ 1 < Z.of_nat k) then Z.max 1 m else Z.of_nat k |} in
  let k' := S k in
  next_delay r =
  ({| re_policy := policy; max_attempts := m;
      attempt := if decide (m ≠ 0 ∧ m < Z.of_nat k' ∧ 1 < Z.of_nat k') then Z.max 1 m else Z.of_nat k' |},
   delay_spec policy m k).
Proof.
  intros Hm Hk. unfold is_u, U32_MAX in *. cbv zeta. unfold next_delay, delay_spec, set_attempt.
  cbn [attempt max_attempts re_policy].
  destruct (decide (k = 0%nat)) as [->|Hk0].
  { rewrite !decide_False by lia. done. }
  destruct (decide (m ≠ 0 ∧ m ≤ Z.of_nat k)) as [[H0 Hle]|Hn].
  - rewrite (decide_True (P := m ≠ 0 ∧ m < Z.of_nat (S k) ∧ 1 < Z.of_nat (S k))) by lia.
    destruct (decide (m ≠ 0 ∧ m < Z.of_nat k ∧ 1 < Z.of_nat k)).
    + rewrite (proj2 (Z.eqb_neq _ _)), (proj2 (Z.eqb_neq m 0)), (proj2 (Z.leb_le _ _)) by lia. done.
    + rewrite (proj2 (Z.eqb_neq _ _)), (proj2 (Z.eqb_neq m 0)), (proj2 (Z.leb_le _ _)) by lia.
      cbn. repeat f_equal. lia.
  - rewrite !decide_False by lia. rewrite (proj2 (Z.eqb_neq _ 0)) by lia.
    assert (negb (m =? 0) && (m <=? Z.of_nat k) = false) as ->.
    { destruct (Z.eqb_spec m 0); [done|]. cbn. apply Z.leb_gt. lia. }
    unfold saturating_add, saturating_sub. repeat f_equal; lia.
Qed.

(** Reconnection schedule: after a start or a reset the first attempt is free,
    attempt [k] waits the back-off of [k - 1], and with a cap of [m > 0] exactly [m]
    attempts are granted, then none until a reset; without a cap attempts
    never end. *)
Theorem reconnect_schedule (r : ReconnectEngine) (n : nat) :
  is_u 32 (max_attempts r) → Z.of_nat n < U32_MAX →
  snd (next_delays n (reset r)) = delay_spec (re_policy r) (max_attempts r) <$> seq 0 n ∧
  length (omap id (snd (next_delays n (reset r)))) =
    (if decide (max_attempts r = 0) then n else Nat.min n (Z.to_nat (max_attempts r))).
Proof.
  intros Hm Hn. destruct r as [policy m a]. cbn [re_policy max_attempts] in *.
  assert (∀ k, (k + n < Z.to_nat U32_MAX)%nat →
    snd (next_delays n {| re_policy := policy; max_attempts := m;
      attempt := if decide (m ≠ 0 ∧ m < Z.of_nat k ∧ 1 < Z.of_nat k) then Z.max 1 m else Z.of_nat k |}) =
    delay_spec policy m <$> seq k n) as Hrun.
  { clear Hn. induction n as [|n IH]; intros k Hk; [done|]. cbn [next_delays seq fmap list_fmap].
    rewrite next_delay_spec by (unfold U32_MAX in *; lia || done).
    specialize (IH (S k) ltac:(lia)). destruct (next_delays n _) as [r2 l]. cbn in *. by rewrite IH. }
  specialize (Hrun 0%nat ltac:(unfold U32_MAX in *; lia)).
  rewrite decide_False in Hrun by lia. unfold reset. cbn [re_policy max_attempts].
  change (Z.of_nat 0) with 0 in Hrun. rewrite Hrun. split; [done|]. clear Hrun Hn.
  induction n as [|n IH]; [by case_decide|].
  rewrite seq_S, fmap_app, omap_app, length_app, IH. cbn [fmap list_fmap Nat.add]. clear IH.
  unfold delay_spec, is_u in *. destruct (decide (n = 0%nat)) as [E0|E0];
    [subst n|].
  - cbn. repeat case_decide; try lia. destruct m as [|p|p]; try lia. cbn. destruct (Z.to_nat (Z.pos p)) eqn:E; lia.
  - destruct (decide (m ≠ 0 ∧ m ≤ Z.of_nat n)); cbn [omap list_omap id length]; case_decide; lia.
Qed.

(** ** Witnesses *)

Lemma coalesce_preserves_witness :
  coalesce_binary [Fr_Binary [1; 2]; Fr_Binary [3]; Fr_Text "t"; Fr_Binary [4]] 8 =
    [Fr_Binary [1; 2; 3]; Fr_Text "t"; Fr_Binary [4]] ∧
  observed (coalesce_binary [Fr_Binary [1; 2]; Fr_Binary [3]; Fr_Text "t"; Fr_Binary [4]] 8) =
    [inl 1; inl 2; inl 3; inr (Fr_Text "t"); inl 4].
Proof.
  split; [reflexivity|].
  destruct (coalesce_preserves [Fr_Binary [1; 2]; Fr_Binary [3]; Fr_Text "t"; Fr_Binary [4]] 8
    ltac:(done)) as [-> _]. reflexivity.
Defined.
Lemma frames_survive_wire_witness :
  receive_all (RawFrame:=unit) id 3 [Ok (Msg_Text "hi"); Ok (Msg_Frame ()); Ok (Msg_Close (Some (1000, "bye")))] =
  [Fr_Text "hi"; Fr_Close 1000 "bye"].
Proof.
  exact (proj1 (frames_survive_wire (RawFrame:=unit) id id [Fr_Text "hi"; Fr_Close 1000 "bye"]
    [Msg_Text "hi"; Msg_Frame (); Msg_Close (Some (1000, "bye"))] (λ _, eq_refl) eq_refl)).
Defined.
Lemma keepalive_spec_witness :
  let cfg := {| ping_interval := 5; idle_timeout := 30 |} in
  snd (keepalive_run [KE_Tick 5; KE_Tick 6; KE_Tick 10] (keepalive_new cfg 0)) =
    [(5, KA_SendPing); (6, KA_Idle); (10, KA_SendPing)] ∧
  StronglySorted (λ a b, a + 5 ≤ b) [5; 10].
Proof.
  intros cfg. split; [reflexivity|].
  exact (proj2 (proj2 (keepalive_spec cfg 0 30 [KE_Tick 5; KE_Tick 6; KE_Tick 10]
    ltac:(done) ltac:(done) ltac:(repeat constructor; done) ltac:(done)))).
Defined.
Lemma reconnect_schedule_witness :
  let r := reconnect_new {| bp_initial := from_millis 100; bp_max := from_millis 2000;
                            bp_multiplier := f64_of_Z 2; bp_jitter := Jitter_None |} 3 in
  snd (next_delays 4 (reset r)) = [Some 0; Some (from_millis 100); Some (from_millis 200); None].
Proof.
  intros r. rewrite (proj1 (reconnect_schedule r 4 ltac:(done) ltac:(done))). vm_compute. reflexivity.
Defined.
