(* ===== verification/TestKit.v ===== *)
(** * Test kit: the deterministic runners

    Models [inference-testkit/src]: [mock_runner.rs] (which the Python bindings run in
    production), [mock_stt_runner.rs], [mock_tts_runner.rs], [mock_a2f_runner.rs] and
    [mock_realtime_runner.rs].  A delay between chunks changes when a chunk is delivered, not
    which: it is kept in the script and not replayed.  The servers of the kit are in [MockWs]
    and [MockOpenAi]. *)
From Stdlib Require Import SpecFloat.
From S2P Require Import Prelude F64 Runtime Deployment Tokens Audio Runner WsCore.

(** ** The text runner *)

Record MockScript : Type := {
  ms_chunks : list string; ms_inter_chunk_delay : Duration; ms_fail_with : option InferenceError
}.
Definition MockScript_default : MockScript := {| ms_chunks := []; ms_inter_chunk_delay := 0; ms_fail_with := None |}.
Definition from_text (chunks : list string) : MockScript :=
  {| ms_chunks := chunks; ms_inter_chunk_delay := 0; ms_fail_with := None |}.
Record MockRunner : Type := { mr_script : MockScript }.
Definition mock_new (script : MockScript) : MockRunner := {| mr_script := script |}.
(** [i == total.saturating_sub(1)] *)
Definition is_last (i total : nat) : bool := (i =? total - 1)%nat.
Section text.
Context {Json : Type}.
Definition mock_chunk (request_id : string) (total i : nat) (c : string) : TokenChunk Json := {|
  c_request_id := request_id; text_delta := c; tool_call_delta := None;
  usage := if is_last i total
           then Some {| input_tokens := 1; output_tokens := wrap_u32 (Z.of_nat total); reasoning_tokens := 0; cached_tokens := 0 |}
           else None;
  finish_reason := if is_last i total then Some Fin_Stop else None
|}.
Definition mock_execute (r : MockRunner) (batch : ExecuteBatch) : MockRunner * InferenceResult (RunHandle (TokenChunk Json)) :=
  (r, match ms_fail_with (mr_script r) with
      | Some err => Err err
      | None =>
          let chunks := ms_chunks (mr_script r) in
          Ok (streaming (Ok <$> imap (mock_chunk (request_id batch) (length chunks)) chunks))
      end).
End text.
Definition mock_base : RunnerBase MockRunner := {|
  runner_kind _ := RK_Custom "mock"; runner_transport _ := TK_LocalGpu; rebuild_session r _ := (r, Ok ());
  rate_limits := rate_limits_default
|}.
#[export] Existing Instance mock_base.
#[export] Instance mock_runner {Json Ctx} : ModelRunner Json MockRunner Ctx := {|
  execute := mock_execute; load_weights := load_weights_default; estimate_cost_usd := estimate_cost_usd_default
|}.

(** ** The audio runners *)

(** What the audio mocks implement in the same words. *)
Definition audio_mock_base {R} (kind : RuntimeKind) : RunnerBase R := {|
  runner_kind _ := kind; runner_transport _ := TK_UnknownTransport; rebuild_session r _ := (r, Ok ());
  rate_limits := rate_limits_default
|}.
Record MockSttScript : Type := {
  st_transcripts : list string; st_partials : list string; st_inter_chunk_delay : Duration; st_fail_with : option InferenceError
}.
Definition mock_transcript (request_id text : string) (is_final : bool) : TranscriptChunk := {|
  tc_request_id := request_id; tc_is_final := is_final; tc_text := text; tc_start_ms := 0; tc_end_ms := 0;
  tc_speaker_id := None; tc_words := []; tc_usage := None
|}.
Definition MockSttScript_from_text (transcripts : list string) : MockSttScript :=
  {| st_transcripts := transcripts; st_partials := []; st_inter_chunk_delay := 0; st_fail_with := None |}.
Record MockSttRunner : Type := { mstt_script : MockSttScript }.
Record MockTtsScript : Type := {
  tt_audio_chunks : list Bytes; tt_sample_rate : Z; tt_format : AudioFormat; tt_inter_chunk_delay : Duration;
  tt_fail_with : option InferenceError
}.
Definition MockTtsScript_default : MockTtsScript := {|
  tt_audio_chunks := []; tt_sample_rate := 24000; tt_format := AF_Pcm16Le; tt_inter_chunk_delay := 0; tt_fail_with := None
|}.
Definition from_audio (chunks : list Bytes) : MockTtsScript := {|
  tt_audio_chunks := chunks; tt_sample_rate := tt_sample_rate MockTtsScript_default; tt_format := tt_format MockTtsScript_default;
  tt_inter_chunk_delay := tt_inter_chunk_delay MockTtsScript_default; tt_fail_with := tt_fail_with MockTtsScript_default
|}.
Record MockTtsRunner : Type := { mtts_script : MockTtsScript }.
Record MockA2FScript : Type := {
  af_frames : list (list f32); af_fps : Z; af_inter_chunk_delay : Duration; af_fail_with : option InferenceError
}.
Definition MockA2FScript_default : MockA2FScript :=
  {| af_frames := []; af_fps := 30; af_inter_chunk_delay := 0; af_fail_with := None |}.
Definition from_frames (frames : list (list f32)) : MockA2FScript := {|
  af_frames := frames; af_fps := af_fps MockA2FScript_default; af_inter_chunk_delay := af_inter_chunk_delay MockA2FScript_default;
  af_fail_with := af_fail_with MockA2FScript_default
|}.
Record MockA2FRunner : Type := { ma2f_script : MockA2FScript }.

Section audio.
Context {Url Receiver Sender : Type}.
Definition mock_execute_audio (r : MockSttRunner) (batch : AudioBatch Url Receiver) :
  MockSttRunner * InferenceResult (RunHandle TranscriptChunk) :=
  let s := mstt_script r in
  (r, match st_fail_with s with
      | Some err => Err err
      | None =>
          let finals := st_transcripts s in
          Ok (streaming (Ok <$>
            ((λ p, mock_transcript (ab_request_id batch) p false) <$> st_partials s) ++
            imap (λ i f, mock_transcript (ab_request_id batch) f (is_last i (length finals))) finals))
      end).
Definition mock_speak (r : MockTtsRunner) (batch : SpeechBatch Url) : MockTtsRunner * InferenceResult (RunHandle SpeechChunk) :=
  let s := mtts_script r in
  (r, match tt_fail_with s with
      | Some err => Err err
      | None =>
          let params := {| sample_rate_hz := tt_sample_rate s; channels := 1; format := tt_format s |} in
          let chunks := tt_audio_chunks s in
          Ok (streaming (Ok <$> imap (λ i c, {|
            sc_request_id := sb_request_id batch; sc_is_final := is_last i (length chunks); sc_audio_pcm_chunk := c;
            sc_params := params; sc_alignment := None; sc_usage := None |}) chunks))
      end).
Definition mock_audio2face (r : MockA2FRunner) (batch : AudioBatch Url Receiver) :
  MockA2FRunner * InferenceResult (RunHandle BlendshapeChunk) :=
  let s := ma2f_script r in
  (r, match af_fail_with s with
      | Some err => Err err
      | None =>
          let frame_ms := 1000 / Z.max (af_fps s) 1 in
          let frames := af_frames s in
          Ok (streaming (Ok <$> imap (λ i weights, {|
            bc_request_id := ab_request_id batch; bc_is_final := is_last i (length frames);
            bc_timestamp_ms := wrap_u32 (wrap_u32 (Z.of_nat i) * frame_ms); bc_weights := weights |}) frames))
      end).
End audio.

(** ** The realtime session *)

Record MockRealtimeScript : Type := { rt_responses : list string; rt_echo_in : bool; rt_fail_with : option InferenceError }.
Record MockRealtimeRunner : Type := { mrt_script : MockRealtimeScript }.
Section realtime.
Variable script : MockRealtimeScript.
(** Whether the caller still holds the outbound channel, given what was sent on it. *)
Variable listening : list RealtimeOut → bool.
(** The adapter task from [response_idx] on; the list is what the caller sends before it drops
    its end.  The result is what the caller receives. *)
Fixpoint mock_adapter (inbound : list RealtimeIn) (response_idx : nat) (out : list RealtimeOut) : list RealtimeOut :=
  let done := if listening out then out ++ [RO_Done] else out in
  match inbound with
  | [] => done
  | msg :: rest =>
      match msg with
      | RI_Text t =>
          if rt_echo_in script then
            if listening out then mock_adapter rest response_idx (out ++ [RO_Transcript TR_User t true]) else done
          else mock_adapter rest response_idx out
      | RI_AudioFrame _ _ | RI_Interrupt => mock_adapter rest response_idx out
      | RI_Commit =>
          match rt_responses script !! response_idx with
          | Some resp =>
              if listening out then mock_adapter rest (S response_idx) (out ++ [RO_Transcript TR_Assistant resp true]) else done
          | None => mock_adapter rest response_idx out
          end
      | RI_Close => done
      end
  end.
End realtime.
(** The session handle, and what the task it spawned will have sent for a given conversation. *)
Definition mock_open_session {Url Receiver Sender} (listening : list RealtimeOut → bool)
  (r : MockRealtimeRunner) (batch : RealtimeBatch Url Receiver Sender) :
  MockRealtimeRunner * InferenceResult (RealtimeSession * (list RealtimeIn → list RealtimeOut)) :=
  (r, match rt_fail_with (mrt_script r) with
      | Some err => Err err
      | None => Ok (RealtimeSession_new (rb_request_id batch), λ inbound, mock_adapter (mrt_script r) listening inbound 0 [])
      end).

(** ** Lemmas *)

Lemma is_last_spec (i total : nat) : (i < total)%nat → is_last i total = bool_decide (S i = total).
Proof. intros H. apply eq_true_iff_eq. unfold is_last. rewrite Nat.eqb_eq, bool_decide_eq_true. lia. Qed.

(** The text mock's stream. *)
Definition mock_items {Json} (request_id : string) (chunks : list string) : list (TokenChunk Json) :=
  imap (mock_chunk request_id (length chunks)) chunks.
Lemma mock_chunks_texts {Json} id n i l :
  @concat_text Json (imap (λ j, mock_chunk id n (i + j)) l) = foldr (λ s acc, s +:+ acc) "" l.
Proof.
  revert i. induction l as [|s l IH]; intros i; [done|].
  cbn [imap]. unfold concat_text in *. cbn [foldr]. f_equal.
  rewrite <-(IH (S i)). f_equal. apply imap_ext. intros. cbn. by rewrite Nat.add_succ_r.
Qed.
Lemma mock_items_text {Json} id l : concat_text (@mock_items Json id l) = foldr (λ s acc, s +:+ acc) "" l.
Proof. exact (mock_chunks_texts id (length l) 0 l). Qed.
(** Every chunk carries the request's id; the finish reason and the usage are on the last chunk
    and on no other. *)
Lemma mock_items_snoc {Json} id l s :
  @mock_items Json id (l ++ [s]) =
    ((λ c, {| c_request_id := id; text_delta := c; tool_call_delta := None; usage := None; finish_reason := None |}) <$> l) ++
    [{| c_request_id := id; text_delta := s; tool_call_delta := None;
        usage := Some {| input_tokens := 1; output_tokens := wrap_u32 (Z.of_nat (S (length l)));
                         reasoning_tokens := 0; cached_tokens := 0 |};
        finish_reason := Some Fin_Stop |}].
Proof.
  unfold mock_items. rewrite imap_app, length_app. cbn [imap length]. rewrite Nat.add_1_r. f_equal.
  - rewrite <-imap_const. apply imap_ext. intros i x Hi%lookup_lt_Some. unfold mock_chunk.
    rewrite is_last_spec, bool_decide_eq_false_2 by lia. done.
  - unfold mock_chunk. rewrite Nat.add_0_r, is_last_spec, bool_decide_eq_true_2 by lia. done.
Qed.

(** *** The realtime adapter against what the caller hears *)

Fixpoint until_close (l : list RealtimeIn) : list RealtimeIn :=
  match l with [] | RI_Close :: _ => [] | m :: rest => m :: until_close rest end.
Definition in_text (m : RealtimeIn) : option string := match m with RI_Text t => Some t | _ => None end.
Definition in_commit (m : RealtimeIn) : option unit := match m with RI_Commit => Some () | _ => None end.
Definition heard (who : TranscriptRole) (m : RealtimeOut) : option string :=
  match m, who with
  | RO_Transcript TR_User t _, TR_User | RO_Transcript TR_Assistant t _, TR_Assistant => Some t
  | _, _ => None
  end.
(** As long as the caller listens, each commit is answered by the next scripted response until
    they run out, typed text is echoed only when asked for (as the user's words), nothing after
    a close is looked at, and the session ends with exactly one end marker. *)
Lemma mock_adapter_spec script (inbound : list RealtimeIn) n out :
  let all := mock_adapter script (λ _, true) inbound n out in
  let seen := until_close inbound in
  ∃ mid, all = out ++ mid ++ [RO_Done] ∧ RO_Done ∉ mid ∧
    omap (heard TR_Assistant) mid = take (length (omap in_commit seen)) (drop n (rt_responses script)) ∧
    omap (heard TR_User) mid = (if rt_echo_in script then omap in_text seen else []).
Proof.
  cbv zeta. revert n out. induction inbound as [|m l IH]; intros n out.
  { exists []. split_and!; [done|set_solver|done|by destruct (rt_echo_in script)]. }
  destruct m as [pcm params|t| | |]; cbn [mock_adapter until_close].
  - exact (IH n out).
  - cbn [omap list_omap in_commit in_text]. destruct (rt_echo_in script) eqn:E.
    + destruct (IH n (out ++ [RO_Transcript TR_User t true])) as (mid & -> & Hd & Ha & Hu).
      exists (RO_Transcript TR_User t true :: mid). rewrite <-app_assoc. split_and!; [done|set_solver|done|].
      cbn. f_equal. exact Hu.
    + destruct (IH n out) as (mid & -> & Hd & Ha & Hu). by exists mid.
  - cbn [omap list_omap in_commit in_text length].
    destruct (rt_responses script !! n) as [resp|] eqn:E.
    + destruct (IH (S n) (out ++ [RO_Transcript TR_Assistant resp true])) as (mid & -> & Hd & Ha & Hu).
      exists (RO_Transcript TR_Assistant resp true :: mid). rewrite <-app_assoc. split_and!; [done|set_solver| |done].
      rewrite (drop_S _ _ _ E). cbn. f_equal. exact Ha.
    + destruct (IH n out) as (mid & -> & Hd & Ha & Hu). exists mid. split_and!; try done.
      rewrite Ha, drop_ge by (by apply lookup_ge_None). by rewrite !take_nil.
  - exact (IH n out).
  - exists []. split_and!; [done|set_solver|done|by destruct (rt_echo_in script)].
Qed.
