(* ===== verification/PyTypes.v ===== *)
(** * Python bindings: errors, data types, configuration

    Models [inference-py-bindings/src]: [errors.rs], [runtime.rs], [core.rs], [config.rs] and
    [audio.rs].  A wrapper class holds exactly the Rust value it wraps, so its instances are
    those values; what a class adds is its constructor with the defaults of the keyword
    arguments ([None] is an argument left out), its attributes and its [repr].  The conversion
    of Python arguments to machine integers and floats, and the [Debug] text of floats, are the
    binding library's and the standard library's: the former has happened when a constructor
    runs, the latter is a parameter. *)
From Stdlib Require Import SpecFloat.
From S2P Require Import Prelude F64 Runtime Tokens Text Deployment Audio.

(** ** Exceptions (errors.rs) *)

Inductive PyExc : Type :=
  | X_InferenceError
  | X_RateLimited | X_CircuitOpen | X_ContentFiltered | X_ContextLengthExceeded | X_BadRequest
  | X_Unauthorized | X_Forbidden | X_Backpressure | X_BudgetExceeded | X_NetworkError
  | X_ServerError | X_Timeout | X_CudaContextPoisoned | X_Internal
  | X_ValueError | X_StopAsyncIteration.
#[global] Instance PyExc_eq_dec : EqDecision PyExc.
Proof. solve_decision. Defined.
(** The direct base class, as [create_exception!] declares it. *)
Definition base_class (x : PyExc) : option PyExc :=
  match x with
  | X_InferenceError | X_ValueError | X_StopAsyncIteration => None
  | _ => Some X_InferenceError
  end.
(** [except cls] catches an [x]. *)
Definition caught_by (cls x : PyExc) : bool := bool_decide (x = cls) || bool_decide (base_class x = Some cls).
Record PyErr : Type := { err_type : PyExc; err_msg : string }.
Abbreviation PyResult := (result PyErr).
Definition py_err (x : PyExc) (msg : string) : PyErr := {| err_type := x; err_msg := msg |}.

Definition exception_of (e : InferenceError) : PyExc :=
  match e with
  | RateLimited _ _ => X_RateLimited
  | CircuitOpen _ _ _ => X_CircuitOpen
  | ContentFiltered _ => X_ContentFiltered
  | ContextLengthExceeded _ _ => X_ContextLengthExceeded
  | BadRequest _ => X_BadRequest
  | Unauthorized _ => X_Unauthorized
  | Forbidden _ => X_Forbidden
  | Backpressure _ => X_Backpressure
  | BudgetExceeded _ => X_BudgetExceeded
  | NetworkError _ => X_NetworkError
  | ServerError _ _ => X_ServerError
  | Timeout _ => X_Timeout
  | CudaContextPoisoned _ => X_CudaContextPoisoned
  | Internal _ => X_Internal
  | _ => X_InferenceError
  end.
(** [map], given the standard library's text of a duration. *)
Definition map_err (debug_duration : Duration → string) (e : InferenceError) : PyErr :=
  py_err (exception_of e) (error_to_string debug_duration e).
Definition map_str (msg : string) : PyErr := py_err X_InferenceError msg.
Definition value_error (msg : string) : PyErr := py_err X_ValueError msg.

(** ** Enumerations by name

    Five classes are built from a name, raise [ValueError] on any other, and read back as that
    name. *)
Class Named (T : Type) : Type := {
  py_name : T → string;
  py_new : string → PyResult T;
  py_noun : string;
  py_class : string
}.
Arguments py_noun T {_}.
Arguments py_class T {_}.
Definition named_repr `{Named T} (x : T) : string := py_class T +:+ "(" +:+ debug_str (py_name x) +:+ ")".
(** What makes such a class a faithful picture of the enumeration. *)
Class NamedLaws (T : Type) `{Named T} : Prop := {
  new_name : ∀ x, py_new (py_name x) = Ok x;
  new_inv : ∀ s x, py_new s = Ok x → s = py_name x;
  new_unknown : ∀ s, (∀ x, s ≠ py_name x) → py_new s = Err (value_error ("unknown " +:+ py_noun T +:+ ": " +:+ debug_str s))
}.

Definition capacity_policy_named : Named CapacityPolicy := {|
  py_name p := match p with Cap_Reject => "reject" | Cap_Queue => "queue" | Cap_Fallback => "fallback" end;
  py_new s :=
    if (s =? "reject")%string then Ok Cap_Reject else if (s =? "queue")%string then Ok Cap_Queue
    else if (s =? "fallback")%string then Ok Cap_Fallback
    else Err (value_error ("unknown capacity policy: " +:+ debug_str s));
  py_noun := "capacity policy"; py_class := "CapacityPolicy"
|}.
Definition budget_action_named : Named BudgetAction := {|
  py_name a := match a with BA_Reject => "reject" | BA_Warn => "warn" | BA_Throttle => "throttle" end;
  py_new s :=
    if (s =? "reject")%string then Ok BA_Reject else if (s =? "warn")%string then Ok BA_Warn
    else if (s =? "throttle")%string then Ok BA_Throttle
    else Err (value_error ("unknown budget action: " +:+ debug_str s));
  py_noun := "budget action"; py_class := "BudgetAction"
|}.
Definition jitter_kind_named : Named JitterKind := {|
  py_name j := match j with Jitter_None => "none" | Jitter_Equal => "equal" | Jitter_Full => "full" end;
  py_new s :=
    if (s =? "none")%string then Ok Jitter_None else if (s =? "equal")%string then Ok Jitter_Equal
    else if (s =? "full")%string then Ok Jitter_Full
    else Err (value_error ("unknown jitter kind: " +:+ debug_str s));
  py_noun := "jitter kind"; py_class := "JitterKind"
|}.
Definition role_named : Named Role := {|
  py_name r := match r with
    | Role_System => "system" | Role_User => "user" | Role_Assistant => "assistant" | Role_Tool => "tool" end;
  py_new s :=
    if (s =? "system")%string then Ok Role_System else if (s =? "user")%string then Ok Role_User
    else if (s =? "assistant")%string then Ok Role_Assistant else if (s =? "tool")%string then Ok Role_Tool
    else Err (value_error ("unknown role: " +:+ debug_str s));
  py_noun := "role"; py_class := "Role"
|}.
Definition finish_reason_named : Named FinishReason := {|
  py_name r := match r with
    | Fin_Stop => "stop" | Fin_Length => "length" | Fin_ToolCalls => "tool_calls"
    | Fin_ContentFilter => "content_filter" | Fin_Error => "error" end;
  py_new s :=
    if (s =? "stop")%string then Ok Fin_Stop else if (s =? "length")%string then Ok Fin_Length
    else if (s =? "tool_calls")%string then Ok Fin_ToolCalls
    else if (s =? "content_filter")%string then Ok Fin_ContentFilter
    else if (s =? "error")%string then Ok Fin_Error
    else Err (value_error ("unknown finish reason: " +:+ debug_str s));
  py_noun := "finish reason"; py_class := "FinishReason"
|}.
#[export] Existing Instances capacity_policy_named budget_action_named jitter_kind_named role_named finish_reason_named.

(** ** Runtime taxonomy (runtime.rs) *)

(** The static constructors, by their Python names. *)
Definition RuntimeKind_statics : list (string * RuntimeKind) :=
  [("vllm", RK_Vllm); ("tensorrt", RK_TensorRt); ("ort", RK_Ort); ("candle", RK_Candle);
   ("cudarc", RK_Cudarc); ("mistralrs", RK_MistralRs); ("openai", RK_OpenAi);
   ("anthropic", RK_Anthropic); ("gemini", RK_Gemini); ("litellm", RK_LiteLlm)].
Definition RuntimeKind_tagged : list (string * (string → RuntimeKind)) := [("python", RK_Python); ("custom", RK_Custom)].
Definition RuntimeKind_name (k : RuntimeKind) : string :=
  match k with
  | RK_Vllm => "vllm" | RK_TensorRt => "tensorrt" | RK_Ort => "ort" | RK_Candle => "candle"
  | RK_Cudarc => "cudarc" | RK_MistralRs => "mistralrs" | RK_Python _ => "python"
  | RK_OpenAi => "openai" | RK_Anthropic => "anthropic" | RK_Gemini => "gemini" | RK_LiteLlm => "litellm"
  | RK_Custom _ => "custom"
  | _ => "unknown"
  end.
Definition RuntimeKind_tag (k : RuntimeKind) : option string :=
  match k with RK_Python s | RK_Custom s => Some s | _ => None end.
Definition RuntimeKind_repr (k : RuntimeKind) : string :=
  match RuntimeKind_tag k with
  | Some s => "RuntimeKind." +:+ RuntimeKind_name k +:+ "(" +:+ debug_str s +:+ ")"
  | None => "RuntimeKind." +:+ RuntimeKind_name k
  end.

Definition ProviderKind_statics : list (string * ProviderKind) :=
  [("openai", PK_OpenAi); ("anthropic", PK_Anthropic); ("gemini", PK_Gemini); ("litellm", PK_LiteLlm)].
Definition ProviderKind_tagged : list (string * (string → ProviderKind)) := [("custom", PK_Custom)].
Definition ProviderKind_name (k : ProviderKind) : string :=
  match k with
  | PK_OpenAi => "openai" | PK_Anthropic => "anthropic" | PK_Gemini => "gemini" | PK_LiteLlm => "litellm"
  | PK_Custom _ => "custom"
  | _ => "unknown"
  end.
Definition ProviderKind_tag (k : ProviderKind) : option string := match k with PK_Custom s => Some s | _ => None end.
Definition ProviderKind_repr (k : ProviderKind) : string :=
  match ProviderKind_tag k with
  | Some s => "ProviderKind.custom(" +:+ debug_str s +:+ ")"
  | None => "ProviderKind." +:+ ProviderKind_name k
  end.

Definition TransportKind_local_gpu : TransportKind := TK_LocalGpu.
Definition TransportKind_remote_network (provider : ProviderKind) : TransportKind := TK_RemoteNetwork provider.
Definition TransportKind_name (k : TransportKind) : string :=
  match k with TK_LocalGpu => "local_gpu" | TK_RemoteNetwork _ => "remote_network" | _ => "unknown" end.
Definition TransportKind_provider (k : TransportKind) : option ProviderKind :=
  match k with TK_RemoteNetwork p => Some p | _ => None end.
Definition TransportKind_repr (k : TransportKind) : string := "TransportKind." +:+ TransportKind_name k.

Section runtime_config.
Context {Json PyAny : Type}.
(** [json.dumps] and [serde_json::from_str] (with the text of its error). *)
Variable dumps : PyAny → PyResult string.
Variable from_str : string → result string Json.
Definition extract_json (any : PyAny) : PyResult Json :=
  match dumps any with
  | Err e => Err e
  | Ok dumped =>
      match from_str dumped with
      | Ok v => Ok v
      | Err e => Err (value_error ("not JSON-serialisable: " +:+ e))
      end
  end.
Definition RuntimeConfig_statics : list (string * (Json → RuntimeConfig Json)) :=
  [("vllm", RC_Vllm); ("tensorrt", RC_TensorRt); ("ort", RC_Ort); ("candle", RC_Candle);
   ("cudarc", RC_Cudarc); ("mistralrs", RC_MistralRs); ("openai", RC_OpenAi);
   ("anthropic", RC_Anthropic); ("gemini", RC_Gemini); ("litellm", RC_LiteLlm)].
Definition RuntimeConfig_static (variant : Json → RuntimeConfig Json) (config : PyAny) : PyResult (RuntimeConfig Json) :=
  match extract_json config with Ok v => Ok (variant v) | Err e => Err e end.
Definition RuntimeConfig_custom (kind : string) (config : PyAny) : PyResult (RuntimeConfig Json) :=
  RuntimeConfig_static (RC_Custom kind) config.
Definition RuntimeConfig_repr (c : RuntimeConfig Json) : string := "RuntimeConfig." +:+ RuntimeKind_name (runtime_kind c).
End runtime_config.

(** A keyword argument and its default. *)
Definition kwarg {A} (dflt : A) (arg : option A) : A := default dflt arg.
(** [d.as_millis() as u64]. *)
Definition millis_u64 (d : Duration) : Z := wrap_u64 (as_millis d).

Definition CircuitBreakerConfig_new (failure_threshold open_duration_ms half_open_max_probes : option Z) :
  CircuitBreakerConfig := {|
  failure_threshold := kwarg 10 failure_threshold;
  open_duration := from_millis (kwarg 30000 open_duration_ms);
  half_open_max_probes := kwarg 1 half_open_max_probes
|}.
Definition CircuitBreakerConfig_repr (c : CircuitBreakerConfig) : string :=
  "CircuitBreakerConfig(failure_threshold=" +:+ pretty (failure_threshold c) +:+
  ", open_duration_ms=" +:+ pretty (as_millis (open_duration c)) +:+ ")".

(** ** Deployment configuration (config.rs) *)

Definition Serving_new (max_concurrent : option Z) (on_capacity_exhausted : option CapacityPolicy) : Serving :=
  {| max_concurrent := kwarg 32 max_concurrent; on_capacity_exhausted := default Cap_Queue on_capacity_exhausted |}.
Definition Serving_repr (s : Serving) : string := "Serving(max_concurrent=" +:+ pretty (max_concurrent s) +:+ ")".
Definition RateLimits_new (rpm tpm concurrent : option Z) (strict : option bool) : RateLimits := {|
  requests_per_minute := rpm; tokens_per_minute := tpm; concurrent_requests := concurrent; strict := kwarg false strict
|}.
Definition py_bool (b : bool) : string := if b then "true" else "false".
Definition RateLimits_repr (r : RateLimits) : string :=
  "RateLimits(rpm=" +:+ debug_option pretty (requests_per_minute r) +:+ ", tpm=" +:+
  debug_option pretty (tokens_per_minute r) +:+ ", strict=" +:+ py_bool (strict r) +:+ ")".
Definition RetryPolicy_new (max_retries initial_backoff_ms max_backoff_ms : option Z) (backoff_multiplier : option f64)
  (jitter : option JitterKind) (respect_retry_after : option bool) : RetryPolicy := {|
  max_retries := kwarg 3 max_retries;
  initial_backoff := from_millis (kwarg 1000 initial_backoff_ms);
  max_backoff := from_millis (kwarg 60000 max_backoff_ms);
  backoff_multiplier := kwarg (f64_of_Z 2) backoff_multiplier;
  jitter := match jitter with Some j => j | None => Jitter_Equal end;
  respect_retry_after := kwarg true respect_retry_after
|}.
Definition RetryPolicy_repr (r : RetryPolicy) : string :=
  "RetryPolicy(max_retries=" +:+ pretty (max_retries r) +:+ ", initial_backoff_ms=" +:+
  pretty (as_millis (initial_backoff r)) +:+ ")".
Definition Timeouts_new (request_timeout_ms read_timeout_ms : option Z) : Timeouts := {|
  request_timeout := from_millis (kwarg 30000 request_timeout_ms);
  read_timeout := from_millis (kwarg 10000 read_timeout_ms)
|}.
Definition Timeouts_repr (t : Timeouts) : string :=
  "Timeouts(request_timeout_ms=" +:+ pretty (as_millis (request_timeout t)) +:+ ", read_timeout_ms=" +:+
  pretty (as_millis (read_timeout t)) +:+ ")".
Definition Budget_new (per_hour per_day : option f64) (on_exceeded : option BudgetAction) : Budget := {|
  max_spend_per_hour_usd := per_hour; max_spend_per_day_usd := per_day; on_exceeded := default BA_Reject on_exceeded
|}.
Definition Budget_repr (b : Budget) : string := "Budget(on_exceeded=" +:+ debug_str (py_name (on_exceeded b)) +:+ ")".

(** ** Requests and results (core.rs) *)

Definition ContentPart_kind (p : ContentPart) : string :=
  match p with CP_Text _ => "text" | CP_ImageBase64 _ _ => "image_base64" | CP_ImageUrl _ => "image_url" end.
Definition ContentPart_repr (p : ContentPart) : string := "ContentPart(" +:+ ContentPart_kind p +:+ ")".
Definition MessageContent_kind (c : MessageContent) : string :=
  match c with MC_Text _ => "text" | MC_Parts _ => "parts" end.
Definition MessageContent_repr (c : MessageContent) : string := "MessageContent(" +:+ MessageContent_kind c +:+ ")".

Definition SamplingParams_new (temperature top_p : option f32) (top_k max_tokens : option Z) (stop : option (list string))
  (presence_penalty frequency_penalty : option f32) (seed : option Z) : SamplingParams := {|
  temperature := temperature; top_p := top_p; top_k := top_k; max_tokens := max_tokens; stop := default [] stop;
  presence_penalty := presence_penalty; frequency_penalty := frequency_penalty; seed := seed
|}.
Definition SamplingParams_repr (debug_f32 : f32 → string) (s : SamplingParams) : string :=
  "SamplingParams(temperature=" +:+ debug_option debug_f32 (temperature s) +:+ ", max_tokens=" +:+
  debug_option pretty (max_tokens s) +:+ ")".
Definition Message_repr (m : Message) : string := "Message(role=" +:+ debug_str (py_name (role m)) +:+ ")".
Definition ExecuteBatch_new (request_id model : string) (messages : list Message) (sampling : option SamplingParams)
  (stream : option bool) (estimated_tokens : option Z) : ExecuteBatch := {|
  request_id := request_id; model := model; messages := messages; sampling := default SamplingParams_default sampling;
  stream := kwarg false stream; estimated_tokens_field := kwarg 1 estimated_tokens
|}.
Definition ExecuteBatch_repr (b : ExecuteBatch) : string :=
  "ExecuteBatch(request_id=" +:+ debug_str (request_id b) +:+ ", model=" +:+ debug_str (model b) +:+
  ", messages=" +:+ pretty (length (messages b)) +:+ ")".
Definition TokenUsage_new (input_tokens output_tokens reasoning_tokens cached_tokens : option Z) : TokenUsage := {|
  input_tokens := kwarg 0 input_tokens; output_tokens := kwarg 0 output_tokens;
  reasoning_tokens := kwarg 0 reasoning_tokens; cached_tokens := kwarg 0 cached_tokens
|}.
Definition TokenUsage_repr (u : TokenUsage) : string :=
  "TokenUsage(input=" +:+ pretty (input_tokens u) +:+ ", output=" +:+ pretty (output_tokens u) +:+ ")".
Definition TokenChunk_repr {Json} (c : TokenChunk Json) : string :=
  "TokenChunk(request_id=" +:+ debug_str (c_request_id c) +:+ ", text_delta=" +:+ debug_str (text_delta c) +:+ ")".
Definition Tokens_repr (t : Tokens) : string :=
  "Tokens(request_id=" +:+ debug_str (t_request_id t) +:+ ", text=" +:+ debug_str (t_text t) +:+
  ", usage=" +:+ TokenUsage_repr (t_usage t) +:+ ")".
Definition CostEstimate_new (usd : option f64) (input_tokens output_tokens_max : option Z) : CostEstimate := {|
  usd := kwarg (S754_zero false) usd; ce_input_tokens := kwarg 0 input_tokens; output_tokens_max := kwarg 0 output_tokens_max
|}.
(** [fixed6] is the [{:.6}] text of a float. *)
Definition CostEstimate_repr (fixed6 : f64 → string) (c : CostEstimate) : string :=
  "CostEstimate(usd=" +:+ fixed6 (usd c) +:+ ")".
Definition Replica_new (deployment : string) (replica_index : option Z) (node : option string) (gpu_indices : option (list Z)) :
  Replica := {|
  r_deployment := deployment; r_replica_index := kwarg 0 replica_index; r_node := node;
  r_gpu_indices := default [] gpu_indices
|}.
Definition Replica_repr (r : Replica) : string :=
  "Replica(deployment=" +:+ debug_str (r_deployment r) +:+ ", replica_index=" +:+ pretty (r_replica_index r) +:+ ")".

Section deployment.
Context {Json : Type}.
Definition Deployment_new (name model : string) (replicas gpus : option Z) (runtime : option RuntimeKind)
  (runtime_config : option (RuntimeConfig Json)) (serving : option Serving) (budget : option Budget)
  (idempotent : option bool) : Deployment Json := {|
  d_name := name; d_model := model; d_runtime := runtime; d_runtime_config := runtime_config; d_gpus := gpus;
  d_replicas := kwarg 1 replicas; d_serving := default Serving_default serving; d_budget := budget;
  d_idempotent := kwarg true idempotent
|}.
Definition py_validate (d : Deployment Json) : PyResult unit :=
  match validate d with
  | Ok u => Ok u
  | Err e => Err (map_str ("validation error: " +:+ validation_error_to_string e))
  end.
Definition Deployment_repr (d : Deployment Json) : string :=
  "Deployment(name=" +:+ debug_str (d_name d) +:+ ", model=" +:+ debug_str (d_model d) +:+ ", replicas=" +:+
  pretty (d_replicas d) +:+ ")".
End deployment.

(** ** Audio types (audio.rs) *)

Definition AudioFormat_classattrs : list (string * AudioFormat) :=
  [("PCM16_LE", AF_Pcm16Le); ("PCM24_LE", AF_Pcm24Le); ("PCM_F32_LE", AF_PcmF32Le); ("OGG_OPUS", AF_OggOpus);
   ("MP3", AF_Mp3); ("FLAC", AF_Flac); ("WAV", AF_Wav)].
Definition AudioFormat_repr (f : AudioFormat) : string := "AudioFormat(" +:+ debug_AudioFormat f +:+ ")".
Definition AudioParams_new (rate ch : Z) (fmt : AudioFormat) : AudioParams :=
  {| sample_rate_hz := rate; channels := ch; format := fmt |}.
Definition AudioParams_repr (p : AudioParams) : string :=
  "AudioParams(sample_rate_hz=" +:+ pretty (sample_rate_hz p) +:+ ", channels=" +:+ pretty (channels p) +:+
  ", format=" +:+ debug_AudioFormat (format p) +:+ ")".
Definition TranscribeOptions_new (language prompt : option string) (interim word diar : option bool) : TranscribeOptions := {|
  to_language := language; interim_results := kwarg false interim; word_timestamps := kwarg false word;
  diarize := kwarg false diar; to_prompt := prompt; to_temperature := to_temperature TranscribeOptions_default
|}.
Definition SynthOptions_new (fmt : option AudioFormat) (rate : option Z) (speed : option f32) (emotion : option string) :
  SynthOptions := {|
  so_speed := speed; so_pitch_semitones := so_pitch_semitones SynthOptions_default; so_sample_rate_hz := rate;
  so_format := fmt; so_emotion := emotion; so_language := so_language SynthOptions_default
|}.
Definition A2FOptions_default : A2FOptions :=
  {| a2f_fps := None; a2f_emotion := None; a2f_smoothing_ms := None; a2f_strength := None |}.
Definition A2FOptions_new (fps : option Z) (emotion : option string) : A2FOptions := {|
  a2f_fps := fps; a2f_emotion := emotion; a2f_smoothing_ms := a2f_smoothing_ms A2FOptions_default;
  a2f_strength := a2f_strength A2FOptions_default
|}.

Section audio.
Context {Url Receiver : Type}.
(** [url::Url::parse] with the text of its error, and [<Url as Display>]. *)
Variable url_parse : string → result string Url.
Variable url_to_string : Url → string.

Definition AudioPayload_from_bytes (data : list Z) (params : AudioParams) : AudioPayload Url := AP_Bytes data params.
Definition AudioPayload_from_path (path : string) (params : AudioParams) : AudioPayload Url := AP_Path path params.
Definition AudioPayload_from_url (url : string) (params : AudioParams) : PyResult (AudioPayload Url) :=
  match url_parse url with
  | Ok parsed => Ok (AP_Url parsed params)
  | Err e => Err (value_error ("invalid url: " +:+ e))
  end.
(** The [Debug] text of a path is that of its string. *)
Definition AudioPayload_repr (p : AudioPayload Url) : string :=
  match p with
  | AP_Bytes data _ => "AudioPayload(Bytes len=" +:+ pretty (length data) +:+ ")"
  | AP_Path path _ => "AudioPayload(Path " +:+ debug_str path +:+ ")"
  | AP_Url url _ => "AudioPayload(Url " +:+ url_to_string url +:+ ")"
  end.
Definition VoiceRef_repr (v : VoiceRef Url) : string :=
  match v with
  | VR_Named n => "VoiceRef::Named(" +:+ debug_str n +:+ ")"
  | VR_Id i => "VoiceRef::Id(" +:+ debug_str i +:+ ")"
  | VR_ClonedFrom _ => "VoiceRef::ClonedFrom(<payload>)"
  end.
Definition SpeechBatch_new (request_id model text : string) (voice : VoiceRef Url) (options : option SynthOptions)
  (stream emit_alignment : option bool) : SpeechBatch Url :=
  let estimated_characters := wrap_u32 (Z.of_nat (length (chars text))) in
  {| sb_request_id := request_id; sb_model := model; sb_text := text; sb_voice := voice;
     sb_options := default SynthOptions_default options; sb_stream := kwarg false stream;
     sb_emit_alignment := kwarg false emit_alignment; sb_estimated_characters := estimated_characters |}.
Definition SpeechBatch_repr (b : SpeechBatch Url) : string :=
  "SpeechBatch(request_id=" +:+ debug_str (sb_request_id b) +:+ ", model=" +:+ debug_str (sb_model b) +:+
  ", chars=" +:+ pretty (sb_estimated_characters b) +:+ ")".
Definition AudioBatch_transcribe (request_id model : string) (payload : AudioPayload Url) (options : option TranscribeOptions)
  (stream : option bool) (estimated_units : option Z) : AudioBatch Url Receiver := {|
  ab_request_id := request_id; ab_model := model; ab_input := AI_Static payload; ab_stream := kwarg false stream;
  ab_options := AO_Transcribe (default TranscribeOptions_default options); ab_estimated_units := kwarg 0 estimated_units
|}.
Definition AudioBatch_audio2face (request_id model : string) (payload : AudioPayload Url) (options : option A2FOptions)
  (stream : option bool) (estimated_units : option Z) : AudioBatch Url Receiver := {|
  ab_request_id := request_id; ab_model := model; ab_input := AI_Static payload; ab_stream := kwarg false stream;
  ab_options := AO_Audio2Face (default A2FOptions_default options); ab_estimated_units := kwarg 0 estimated_units
|}.
Definition AudioBatch_repr (b : AudioBatch Url Receiver) : string :=
  "AudioBatch(request_id=" +:+ debug_str (ab_request_id b) +:+ ", model=" +:+ debug_str (ab_model b) +:+ ")".
End audio.

(** ** Objects and their attributes *)

Section objects.
Context {Json Url : Type}.

(** What a Python program can hold of these classes, as far as attributes and coercions tell
    values apart. *)
Inductive PyObj : Type :=
  | O_None | O_Bool (b : bool) | O_Int (z : Z) | O_Float (f : spec_float) | O_Str (s : string)
  | O_Bytes (b : list Z) | O_List (l : list PyObj)
  | O_Role (r : Role) | O_ContentPart (p : ContentPart) | O_MessageContent (c : MessageContent)
  | O_Message (m : Message) | O_SamplingParams (s : SamplingParams) | O_FinishReason (r : FinishReason)
  | O_TokenUsage (u : TokenUsage) | O_RuntimeKind (k : RuntimeKind) | O_ProviderKind (k : ProviderKind)
  | O_RuntimeConfig (c : RuntimeConfig Json) | O_CapacityPolicy (p : CapacityPolicy) | O_JitterKind (j : JitterKind)
  | O_BudgetAction (a : BudgetAction) | O_Serving (s : Serving) | O_Budget (b : Budget)
  | O_AudioFormat (f : AudioFormat) | O_AudioParams (p : AudioParams) | O_WordTiming (w : WordTiming)
  | O_Viseme (v : Viseme) | O_AlignmentDelta (a : AlignmentDelta).
Definition of_option {A} (f : A → PyObj) (o : option A) : PyObj := match o with Some a => f a | None => O_None end.
Definition of_list {A} (f : A → PyObj) (l : list A) : PyObj := O_List (f <$> l).

(** [str], then a [MessageContent], then a sequence of parts. *)
Definition as_part (o : PyObj) : option ContentPart := match o with O_ContentPart p => Some p | _ => None end.
Definition coerce_content (any : PyObj) : PyResult MessageContent :=
  match any with
  | O_Str s => Ok (MC_Text s)
  | O_MessageContent mc => Ok mc
  | O_List l =>
      match mapM as_part l with
      | Some parts => Ok (MC_Parts parts)
      | None => Err (value_error "content must be str, MessageContent, or list[ContentPart]")
      end
  | _ => Err (value_error "content must be str, MessageContent, or list[ContentPart]")
  end.
Definition Message_new (r : Role) (content : PyObj) : PyResult Message :=
  match coerce_content content with Ok c => Ok {| role := r; content := c |} | Err e => Err e end.

(** The read attributes of a class. *)
Class PyClass (T : Type) : Type := py_attrs : T → list (string * PyObj).
Definition getattr `{PyClass T} (x : T) (name : string) : option PyObj :=
  snd <$> List.find (λ p, (p.1 =? name)%string) (py_attrs x).

Definition attrs_RuntimeKind : PyClass RuntimeKind := λ k,
  [("name", O_Str (RuntimeKind_name k)); ("tag", of_option O_Str (RuntimeKind_tag k))].
Definition attrs_ProviderKind : PyClass ProviderKind := λ k,
  [("name", O_Str (ProviderKind_name k)); ("tag", of_option O_Str (ProviderKind_tag k))].
Definition attrs_TransportKind : PyClass TransportKind := λ k,
  [("name", O_Str (TransportKind_name k)); ("provider", of_option O_ProviderKind (TransportKind_provider k))].
Definition attrs_CircuitBreakerConfig : PyClass CircuitBreakerConfig := λ c,
  [("failure_threshold", O_Int (failure_threshold c)); ("open_duration_ms", O_Int (millis_u64 (open_duration c)));
   ("half_open_max_probes", O_Int (half_open_max_probes c))].
Definition attrs_Serving : PyClass Serving := λ s,
  [("max_concurrent", O_Int (max_concurrent s)); ("on_capacity_exhausted", O_CapacityPolicy (on_capacity_exhausted s))].
Definition attrs_RateLimits : PyClass RateLimits := λ r,
  [("requests_per_minute", of_option O_Int (requests_per_minute r)); ("tokens_per_minute", of_option O_Int (tokens_per_minute r));
   ("concurrent_requests", of_option O_Int (concurrent_requests r)); ("strict", O_Bool (strict r))].
Definition attrs_RetryPolicy : PyClass RetryPolicy := λ r,
  [("max_retries", O_Int (max_retries r)); ("initial_backoff_ms", O_Int (millis_u64 (initial_backoff r)));
   ("max_backoff_ms", O_Int (millis_u64 (max_backoff r))); ("backoff_multiplier", O_Float (backoff_multiplier r));
   ("jitter", O_JitterKind (jitter r)); ("respect_retry_after", O_Bool (respect_retry_after r))].
Definition attrs_Timeouts : PyClass Timeouts := λ t,
  [("request_timeout_ms", O_Int (millis_u64 (request_timeout t))); ("read_timeout_ms", O_Int (millis_u64 (read_timeout t)))].
Definition attrs_Budget : PyClass Budget := λ b,
  [("max_spend_per_hour_usd", of_option O_Float (max_spend_per_hour_usd b));
   ("max_spend_per_day_usd", of_option O_Float (max_spend_per_day_usd b)); ("on_exceeded", O_BudgetAction (on_exceeded b))].
Definition attrs_ContentPart : PyClass ContentPart := λ p, [("kind", O_Str (ContentPart_kind p))].
Definition attrs_MessageContent : PyClass MessageContent := λ c, [("kind", O_Str (MessageContent_kind c))].
Definition attrs_Message : PyClass Message := λ m,
  [("role", O_Role (role m)); ("content", O_MessageContent (content m))].
Definition attrs_SamplingParams : PyClass SamplingParams := λ s,
  [("temperature", of_option O_Float (temperature s)); ("top_p", of_option O_Float (top_p s));
   ("top_k", of_option O_Int (top_k s)); ("max_tokens", of_option O_Int (max_tokens s)); ("stop", of_list O_Str (stop s));
   ("presence_penalty", of_option O_Float (presence_penalty s)); ("frequency_penalty", of_option O_Float (frequency_penalty s));
   ("seed", of_option O_Int (seed s))].
Definition attrs_ExecuteBatch : PyClass ExecuteBatch := λ b,
  [("request_id", O_Str (request_id b)); ("model", O_Str (model b)); ("messages", of_list O_Message (messages b));
   ("sampling", O_SamplingParams (sampling b)); ("stream", O_Bool (stream b));
   ("estimated_tokens", O_Int (estimated_tokens_field b))].
Definition attrs_TokenUsage : PyClass TokenUsage := λ u,
  [("input_tokens", O_Int (input_tokens u)); ("output_tokens", O_Int (output_tokens u));
   ("reasoning_tokens", O_Int (reasoning_tokens u)); ("cached_tokens", O_Int (cached_tokens u))].
Definition attrs_TokenChunk : PyClass (TokenChunk Json) := λ c,
  [("request_id", O_Str (c_request_id c)); ("text_delta", O_Str (text_delta c)); ("usage", of_option O_TokenUsage (usage c));
   ("finish_reason", of_option O_FinishReason (finish_reason c))].
Definition attrs_Tokens : PyClass Tokens := λ t,
  [("request_id", O_Str (t_request_id t)); ("text", O_Str (t_text t)); ("usage", O_TokenUsage (t_usage t));
   ("finish_reason", of_option O_FinishReason (t_finish_reason t))].
Definition attrs_CostEstimate : PyClass CostEstimate := λ c,
  [("usd", O_Float (usd c)); ("input_tokens", O_Int (ce_input_tokens c)); ("output_tokens_max", O_Int (output_tokens_max c))].
Definition attrs_Replica : PyClass Replica := λ r,
  [("deployment", O_Str (r_deployment r)); ("replica_index", O_Int (r_replica_index r)); ("node", of_option O_Str (r_node r));
   ("gpu_indices", of_list O_Int (r_gpu_indices r))].
Definition attrs_Deployment : PyClass (Deployment Json) := λ d,
  [("name", O_Str (d_name d)); ("model", O_Str (d_model d)); ("replicas", O_Int (d_replicas d)); ("gpus", of_option O_Int (d_gpus d));
   ("runtime", of_option O_RuntimeKind (d_runtime d)); ("runtime_config", of_option O_RuntimeConfig (d_runtime_config d));
   ("serving", O_Serving (d_serving d)); ("budget", of_option O_Budget (d_budget d)); ("idempotent", O_Bool (d_idempotent d))].
Definition attrs_AudioParams : PyClass AudioParams := λ p,
  [("sample_rate_hz", O_Int (sample_rate_hz p)); ("channels", O_Int (channels p)); ("format", O_AudioFormat (format p))].
Definition attrs_SpeechBatch : PyClass (SpeechBatch Url) := λ b,
  [("request_id", O_Str (sb_request_id b)); ("model", O_Str (sb_model b)); ("text", O_Str (sb_text b));
   ("stream", O_Bool (sb_stream b)); ("emit_alignment", O_Bool (sb_emit_alignment b));
   ("estimated_characters", O_Int (sb_estimated_characters b))].
Definition attrs_AudioBatch {Receiver} : PyClass (AudioBatch Url Receiver) := λ b,
  [("request_id", O_Str (ab_request_id b)); ("model", O_Str (ab_model b)); ("stream", O_Bool (ab_stream b));
   ("estimated_units", O_Int (ab_estimated_units b))].
Definition attrs_WordTiming : PyClass WordTiming := λ w,
  [("text", O_Str (wt_text w)); ("ts_start_ms", O_Int (wt_start_ms w)); ("ts_end_ms", O_Int (wt_end_ms w));
   ("confidence", of_option O_Float (wt_confidence w))].
Definition attrs_Viseme : PyClass Viseme := λ v,
  [("id", O_Int (v_id v)); ("ts_start_ms", O_Int (v_start_ms v)); ("ts_end_ms", O_Int (v_end_ms v)); ("weight", O_Float (v_weight v))].
Definition attrs_AlignmentDelta : PyClass AlignmentDelta := λ a,
  [("words", of_list O_WordTiming (al_words a)); ("visemes", of_list O_Viseme (al_visemes a))].
Definition attrs_TranscriptChunk : PyClass TranscriptChunk := λ c,
  [("request_id", O_Str (tc_request_id c)); ("is_final", O_Bool (tc_is_final c)); ("text", O_Str (tc_text c));
   ("ts_start_ms", O_Int (tc_start_ms c)); ("ts_end_ms", O_Int (tc_end_ms c)); ("speaker_id", of_option O_Str (tc_speaker_id c));
   ("words", of_list O_WordTiming (tc_words c))].
Definition attrs_SpeechChunk : PyClass SpeechChunk := λ c,
  [("request_id", O_Str (sc_request_id c)); ("is_final", O_Bool (sc_is_final c)); ("audio_pcm_chunk", O_Bytes (sc_audio_pcm_chunk c));
   ("params", O_AudioParams (sc_params c)); ("alignment", of_option O_AlignmentDelta (sc_alignment c))].
Definition attrs_BlendshapeChunk : PyClass BlendshapeChunk := λ c,
  [("request_id", O_Str (bc_request_id c)); ("is_final", O_Bool (bc_is_final c)); ("timestamp_ms", O_Int (bc_timestamp_ms c));
   ("weights", of_list O_Float (bc_weights c))].
#[export] Existing Instances attrs_RuntimeKind attrs_ProviderKind attrs_TransportKind attrs_CircuitBreakerConfig attrs_Serving attrs_RateLimits attrs_RetryPolicy attrs_Timeouts attrs_Budget attrs_ContentPart attrs_MessageContent attrs_Message attrs_SamplingParams attrs_ExecuteBatch attrs_TokenUsage attrs_TokenChunk attrs_Tokens attrs_CostEstimate attrs_Replica attrs_Deployment attrs_AudioParams attrs_SpeechBatch attrs_AudioBatch attrs_WordTiming attrs_Viseme attrs_AlignmentDelta attrs_TranscriptChunk attrs_SpeechChunk attrs_BlendshapeChunk.
End objects.
Arguments PyObj Json : clear implicits.

(** The setters of [Deployment]: what one assignment writes, under which name. *)
Section setters.
Context {Json Url : Type}.
Inductive Assignment : Type :=
  | Set_name (v : string) | Set_model (v : string) | Set_replicas (v : Z) | Set_gpus (v : option Z)
  | Set_runtime (v : option RuntimeKind) | Set_runtime_config (v : option (RuntimeConfig Json))
  | Set_serving (v : Serving) | Set_budget (v : option Budget) | Set_idempotent (v : bool).
Definition assigned_name (a : Assignment) : string :=
  match a with
  | Set_name _ => "name" | Set_model _ => "model" | Set_replicas _ => "replicas" | Set_gpus _ => "gpus"
  | Set_runtime _ => "runtime" | Set_runtime_config _ => "runtime_config" | Set_serving _ => "serving"
  | Set_budget _ => "budget" | Set_idempotent _ => "idempotent"
  end.
Definition assigned_value (a : Assignment) : PyObj Json :=
  match a with
  | Set_name v | Set_model v => O_Str v
  | Set_replicas v => O_Int v
  | Set_gpus v => of_option O_Int v
  | Set_runtime v => of_option O_RuntimeKind v
  | Set_runtime_config v => of_option O_RuntimeConfig v
  | Set_serving v => O_Serving v
  | Set_budget v => of_option O_Budget v
  | Set_idempotent v => O_Bool v
  end.
Definition assign (a : Assignment) (d : Deployment Json) : Deployment Json := {|
  d_name := match a with Set_name v => v | _ => d_name d end;
  d_model := match a with Set_model v => v | _ => d_model d end;
  d_runtime := match a with Set_runtime v => v | _ => d_runtime d end;
  d_runtime_config := match a with Set_runtime_config v => v | _ => d_runtime_config d end;
  d_gpus := match a with Set_gpus v => v | _ => d_gpus d end;
  d_replicas := match a with Set_replicas v => v | _ => d_replicas d end;
  d_serving := match a with Set_serving v => v | _ => d_serving d end;
  d_budget := match a with Set_budget v => v | _ => d_budget d end;
  d_idempotent := match a with Set_idempotent v => v | _ => d_idempotent d end
|}.

(** Assignments and attributes obey the laws of a record: what was assigned is read back, and
    no other attribute moves. *)
Lemma assign_getattr (a : Assignment) (d : Deployment Json) (n : string) :
  getattr (assign a d) n = if (assigned_name a =? n)%string then Some (assigned_value a) else getattr d n.
Proof.
  destruct (String.eqb_spec (assigned_name a) n) as [<-|H]; [by destruct a|].
  unfold getattr, py_attrs, attrs_Deployment. cbn [List.find].
  repeat match goal with
  | |- context [(?x =? n)%string] => destruct (String.eqb_spec x n) as [<-|]; [destruct a; done|cbn [List.find fst]]
  end.
  done.
Qed.
End setters.

(** ** Lemmas *)

(** A class whose constructor searches a complete list of distinct names. *)
Lemma named_by_table `{Named T} (all : list T) :
  (∀ x, x ∈ all) → NoDup (py_name <$> all) →
  (∀ s, py_new s = match List.find (λ x, (s =? py_name x)%string) all with
                   | Some x => Ok x
                   | None => Err (value_error ("unknown " +:+ py_noun T +:+ ": " +:+ debug_str s))
                   end) →
  NamedLaws T.
Proof.
  intros Hall Hnd Hnew.
  assert (∀ x y, py_name x = py_name y → x = y) as Hinj.
  { intros x y E. destruct (proj1 (list_elem_of_lookup _ _) (Hall x)) as [i Hi].
    destruct (proj1 (list_elem_of_lookup _ _) (Hall y)) as [j Hj].
    assert (i = j) as <-; [|congruence].
    apply (NoDup_lookup _ i j (py_name x) Hnd); rewrite list_lookup_fmap; [by rewrite Hi|by rewrite Hj, E]. }
  split.
  - intros x. rewrite Hnew. destruct (List.find _ all) as [y|] eqn:E.
    + apply List.find_some in E as [_ E%String.eqb_eq]. by rewrite (Hinj _ _ E).
    + eapply List.find_none in E; [|by apply list_elem_of_In, Hall]. by rewrite String.eqb_refl in E.
  - intros s x. rewrite Hnew. destruct (List.find _ all) as [y|] eqn:E; [|done].
    apply List.find_some in E as [_ E%String.eqb_eq]. naive_solver.
  - intros s Hs. rewrite Hnew. destruct (List.find _ all) as [y|] eqn:E; [|done].
    apply List.find_some in E as [_ E%String.eqb_eq]. by destruct (Hs y).
Qed.
Ltac named_table all :=
  apply (named_by_table all); [intros []; set_solver | by apply (bool_decide_unpack _) | intros s; cbn; repeat case_match; done].
#[export] Instance capacity_policy_laws : NamedLaws CapacityPolicy.
Proof. named_table [Cap_Reject; Cap_Queue; Cap_Fallback]. Qed.
#[export] Instance budget_action_laws : NamedLaws BudgetAction.
Proof. named_table [BA_Reject; BA_Warn; BA_Throttle]. Qed.
#[export] Instance jitter_kind_laws : NamedLaws JitterKind.
Proof. named_table [Jitter_None; Jitter_Equal; Jitter_Full]. Qed.
#[export] Instance role_laws : NamedLaws Role.
Proof. named_table [Role_System; Role_User; Role_Assistant; Role_Tool]. Qed.
#[export] Instance finish_reason_laws : NamedLaws FinishReason.
Proof. named_table [Fin_Stop; Fin_Length; Fin_ToolCalls; Fin_ContentFilter; Fin_Error]. Qed.

(** An [except] clause for the base class catches every runtime error; the specific class
    decides whether the request may be retried; and apart from the three variants that share
    the base class, one clause catches one variant. *)
Lemma exception_hierarchy (e : InferenceError) :
  caught_by X_InferenceError (exception_of e) = true ∧ caught_by X_ValueError (exception_of e) = false ∧
  is_retryable e = bool_decide (exception_of e ∈ [X_RateLimited; X_ServerError; X_Timeout; X_NetworkError]).
Proof. destruct e; vm_compute; done. Qed.

(** Names and tags identify a runtime kind, except that the four audio kinds have no name; each
    static constructor builds the kind that reads back as the constructor's own name. *)
Lemma runtime_kind_names (k1 k2 : RuntimeKind) :
  is_audio k1 = false → is_audio k2 = false →
  RuntimeKind_name k1 = RuntimeKind_name k2 → RuntimeKind_tag k1 = RuntimeKind_tag k2 → k1 = k2.
Proof. destruct k1, k2; intros; simplify_eq/=; done. Qed.
Lemma runtime_statics {Json} :
  Forall (λ p, RuntimeKind_name p.2 = p.1 ∧ RuntimeKind_tag p.2 = None ∧ is_audio p.2 = false) RuntimeKind_statics ∧
  Forall (λ p, ∀ s, RuntimeKind_name (p.2 s) = p.1 ∧ RuntimeKind_tag (p.2 s) = Some s) RuntimeKind_tagged ∧
  Forall (λ p, ∀ j : Json, RuntimeKind_name (runtime_kind (p.2 j)) = p.1) RuntimeConfig_statics ∧
  Forall (λ p, ProviderKind_name p.2 = p.1) ProviderKind_statics.
Proof. split_and!; repeat constructor. Qed.

(** What the accessor of a duration returns is the millisecond argument. *)
Lemma millis_from_millis ms : is_u 64 ms → millis_u64 (from_millis ms) = ms.
Proof. apply duration_roundtrip_ms. Qed.
Lemma defaults_agree :
  Serving_new None None = Serving_default ∧ RateLimits_new None None None None = RateLimits_default ∧
  RetryPolicy_new None None None None None None = RetryPolicy_default ∧ Timeouts_new None None = Timeouts_default ∧
  CircuitBreakerConfig_new None None None = CircuitBreakerConfig_default ∧
  SamplingParams_new None None None None None None None None = SamplingParams_default ∧
  TokenUsage_new None None None None = TokenUsage_default ∧
  TranscribeOptions_new None None None None None = TranscribeOptions_default ∧
  SynthOptions_new None None None None = SynthOptions_default.
Proof. split_and!; reflexivity. Qed.

(** What a Python program relies on for a class built from names. *)
Definition names_faithful (T : Type) `{Named T} : Prop :=
  (∀ x : T, py_new (py_name x) = Ok x) ∧
  ∀ s, (∃ x : T, py_new s = Ok x ∧ s = py_name x) ∨
       @py_new T _ s = Err (value_error ("unknown " +:+ py_noun T +:+ ": " +:+ debug_str s)).
Lemma laws_faithful (T : Type) `{NamedLaws T} : names_faithful T.
Proof.
  split; [apply new_name|]. intros s. destruct (py_new s) as [x|e] eqn:E.
  - left. exists x. split; [done|by apply new_inv].
  - right. rewrite <-E. apply new_unknown. intros x ->. by rewrite new_name in E.
Qed.
Lemma retry_policy_attrs (n i m : Z) (mult : f64) (j : JitterKind) (b : bool) :
  is_u 64 i → is_u 64 m →
  @py_attrs unit _ _ (RetryPolicy_new (Some n) (Some i) (Some m) (Some mult) (Some j) (Some b)) =
    [("max_retries", O_Int n); ("initial_backoff_ms", O_Int i); ("max_backoff_ms", O_Int m);
     ("backoff_multiplier", O_Float mult); ("jitter", O_JitterKind j); ("respect_retry_after", O_Bool b)].
Proof. intros. unfold py_attrs, attrs_RetryPolicy. cbn. by rewrite !millis_from_millis. Qed.

(** The Python names of the five enumerations are faithful, both ways: reading the name of
    a value and building it again gives the value; and any string either is the name of the
    value it builds or raises a [ValueError] quoting it. *)
Theorem enum_names_faithful :
  names_faithful Role ∧ names_faithful FinishReason ∧ names_faithful CapacityPolicy ∧
  names_faithful BudgetAction ∧ names_faithful JitterKind.
Proof. split_and!; apply laws_faithful, _. Qed.
