(* ===== verification/PyCluster.v ===== *)
(** * Python bindings: the cluster and its token streams

    Models [inference-py-bindings/src/cluster.rs].  Runners live in shared cells: the registry
    maps names to cells, and a stream created from a deployment keeps its cell when the name is
    deployed again.  [TokenStream.__anext__] takes the stream's lock twice; every part that runs
    under the lock is one step, so the calls a program has in flight at once are interleavings of
    those steps.  The registry's own lock is never held across a panic, so it is never poisoned. *)
From Stdlib Require Import SpecFloat.
From stdpp Require Import functions.
From S2P Require Import Prelude F64 Runtime Tokens Text Deployment Audio Runner TestKit PyTypes.

(** ** Executing on a cell *)

Section stream.
Context {Json Ctx R : Type} `{!RunnerBase R} `{!ModelRunner Json R Ctx}.
Variable debug_duration : Duration → string.
Abbreviation Chunk := (TokenChunk Json).
Abbreviation map := (map_err debug_duration).
Abbreviation Cells := (nat → R).

(** [cell.lock().await], [runner.execute(batch).await], [drop(runner)]. *)
Definition cell_execute (h : Cells) (cell : nat) (batch : ExecuteBatch) : Cells * InferenceResult (RunHandle Chunk) :=
  let '(runner, result) := @execute Json R Ctx _ _ (h cell) batch in (<[cell := runner]> h, result).

(** *** [Cluster.execute] on the cell it looked up *)

Definition take_id (tokens : Tokens) (chunk : Chunk) : Tokens :=
  if is_empty_str (t_request_id tokens)
  then {| t_request_id := c_request_id chunk; t_text := t_text tokens; t_usage := t_usage tokens;
          t_finish_reason := t_finish_reason tokens |}
  else tokens.
Definition absorb (tokens : Tokens) (chunk : Chunk) : Tokens := tokens_append (take_id tokens chunk) chunk.
Fixpoint drain (stream : list (InferenceResult Chunk)) (tokens : Tokens) : PyResult Tokens :=
  match stream with
  | [] => Ok tokens
  | Ok chunk :: rest => drain rest (absorb tokens chunk)
  | Err e :: _ => Err (map e)
  end.
Definition execute_cell (h : Cells) (cell : nat) (batch : ExecuteBatch) : Cells * PyResult Tokens :=
  let '(h', result) := cell_execute h cell batch in
  (h', match result with Ok handle => drain (into_stream handle) Tokens_default | Err e => Err (map e) end).

(** *** [TokenStream] *)

Inductive StreamState : Type :=
  | SS_Pending (cell : nat) (batch : ExecuteBatch)
  | SS_Active (s : list (InferenceResult Chunk))
  | SS_Done.
Definition stop_iteration : PyErr := py_err X_StopAsyncIteration "".
(** Step 1: if pending, run the runner; the error, if the call ends here. *)
Definition anext_bootstrap (h : Cells) (st : StreamState) : Cells * StreamState * option PyErr :=
  match st with
  | SS_Pending cell batch =>
      let '(h', result) := cell_execute h cell batch in
      match result with
      | Ok handle => (h', SS_Active (into_stream handle), None)
      | Err e => (h', SS_Done, Some (map e))
      end
  | other => (h, other, None)
  end.
(** Step 2: pull the next chunk. *)
Definition anext_pull (st : StreamState) : StreamState * PyResult Chunk :=
  match st with
  | SS_Active (Ok chunk :: s) => (SS_Active s, Ok chunk)
  | SS_Active (Err e :: _) => (SS_Done, Err (map e))
  | SS_Active [] => (SS_Done, Err stop_iteration)
  | other => (other, Err stop_iteration)
  end.
Definition anext (h : Cells) (st : StreamState) : Cells * StreamState * PyResult Chunk :=
  match anext_bootstrap h st with
  | (h', st', Some e) => (h', st', Err e)
  | (h', st', None) => let '(st'', r) := anext_pull st' in (h', st'', r)
  end.
(** [async for chunk in stream], with nothing else using the stream: the chunks it saw and the
    exception that ended it, if it was not the regular one. *)
Fixpoint async_for (fuel : nat) (h : Cells) (st : StreamState) : option (Cells * list Chunk * option PyErr) :=
  match fuel with
  | O => None
  | S fuel =>
      match anext h st with
      | (h', st', Ok chunk) =>
          match async_for fuel h' st' with
          | Some (h'', chunks, end_) => Some (h'', chunk :: chunks, end_)
          | None => None
          end
      | (h', _, Err e) => Some (h', [], if bool_decide (err_type e = X_StopAsyncIteration) then None else Some e)
      end
  end.

(** *** Calls in flight at once *)

Inductive Pc : Type := At_bootstrap | At_pull | Finished.
(** One stream, the cells, the calls made so far, what they resolved to in the order they did,
    and every run of the runner on behalf of the stream ([None]: abandoned on the way). *)
Record Flight : Type := {
  fl_cells : Cells; fl_state : StreamState; fl_calls : list Pc; fl_results : list (PyResult Chunk);
  fl_runs : list (option (InferenceResult (RunHandle Chunk)))
}.
Inductive FlightEvent : Type :=
  | FE_Call                                 (* the program calls [__anext__] *)
  | FE_Turn (i : nat)                       (* call [i] does its next step *)
  | FE_Cancel (i : nat)                     (* call [i] is cancelled while it holds no lock, or while it pulls *)
  | FE_Abandon (i : nat) (left_behind : R)  (* call [i] is cancelled while the runner works for it *)
  | FE_Others (cell : nat) (runner : R).    (* somebody else uses a cell *)
Definition flight_step (w : Flight) (e : FlightEvent) : Flight :=
  match e with
  | FE_Call => {| fl_cells := fl_cells w; fl_state := fl_state w; fl_calls := fl_calls w ++ [At_bootstrap];
                  fl_results := fl_results w; fl_runs := fl_runs w |}
  | FE_Turn i =>
      match fl_calls w !! i with
      | Some At_bootstrap =>
          let '(h, st, err) := anext_bootstrap (fl_cells w) (fl_state w) in
          {| fl_cells := h; fl_state := st;
             fl_calls := <[i := match err with Some _ => Finished | None => At_pull end]> (fl_calls w);
             fl_results := fl_results w ++ match err with Some e => [Err e] | None => [] end;
             fl_runs := fl_runs w ++ match fl_state w with
                                     | SS_Pending cell batch => [Some (cell_execute (fl_cells w) cell batch).2]
                                     | _ => []
                                     end |}
      | Some At_pull =>
          let '(st, r) := anext_pull (fl_state w) in
          {| fl_cells := fl_cells w; fl_state := st; fl_calls := <[i := Finished]> (fl_calls w);
             fl_results := fl_results w ++ [r]; fl_runs := fl_runs w |}
      | _ => w
      end
  | FE_Cancel i => {| fl_cells := fl_cells w; fl_state := fl_state w; fl_calls := <[i := Finished]> (fl_calls w);
                      fl_results := fl_results w; fl_runs := fl_runs w |}
  | FE_Abandon i left_behind =>
      match fl_calls w !! i, fl_state w with
      | Some At_bootstrap, SS_Pending cell _ =>
          {| fl_cells := <[cell := left_behind]> (fl_cells w); fl_state := SS_Done; fl_calls := <[i := Finished]> (fl_calls w);
             fl_results := fl_results w; fl_runs := fl_runs w ++ [None] |}
      | _, _ => w
      end
  | FE_Others cell runner =>
      {| fl_cells := <[cell := runner]> (fl_cells w); fl_state := fl_state w; fl_calls := fl_calls w;
         fl_results := fl_results w; fl_runs := fl_runs w |}
  end.
Definition fresh_stream (h : Cells) (cell : nat) (batch : ExecuteBatch) : Flight :=
  {| fl_cells := h; fl_state := SS_Pending cell batch; fl_calls := []; fl_results := []; fl_runs := [] |}.
Definition fly (w : Flight) (es : list FlightEvent) : Flight := foldl flight_step w es.

(** ** Lemmas *)

(** What a stream still has to say. *)
Fixpoint outcomes (s : list (InferenceResult Chunk)) : list (PyResult Chunk) :=
  match s with
  | [] => []
  | Ok c :: rest => Ok c :: outcomes rest
  | Err e :: _ => [Err (map e)]
  end.
Definition remaining (st : StreamState) : list (PyResult Chunk) :=
  match st with SS_Active s => outcomes s | _ => [] end.
(** What the runs of the runner give the program to see. *)
Definition script_of (runs : list (option (InferenceResult (RunHandle Chunk)))) : list (PyResult Chunk) :=
  match runs with
  | Some (Ok handle) :: _ => outcomes (into_stream handle)
  | Some (Err e) :: _ => [Err (map e)]
  | _ => []
  end.
Definition stops (n : nat) : list (PyResult Chunk) := replicate n (Err stop_iteration).
Definition flight_ok (w : Flight) : Prop :=
  match fl_state w with
  | SS_Pending _ _ => fl_runs w = [] ∧ fl_results w = [] ∧ At_pull ∉ fl_calls w
  | SS_Active s => length (fl_runs w) = 1%nat ∧ fl_results w ++ outcomes s = script_of (fl_runs w)
  | SS_Done => length (fl_runs w) = 1%nat ∧ ∃ n, fl_results w = script_of (fl_runs w) ++ stops n
  end.

Lemma fresh_flight_ok h cell batch : flight_ok (fresh_stream h cell batch).
Proof. split_and!; [done|done|]. cbn. set_solver. Qed.
Lemma stops_snoc n : stops n ++ [Err stop_iteration] = stops (S n).
Proof. unfold stops. by rewrite <-replicate_cons_app. Qed.
Lemma insert_not_pull (calls : list Pc) i pc : At_pull ∉ calls → pc ≠ At_pull → At_pull ∉ <[i := pc]> calls.
Proof. intros H Hpc [j Hj]%list_elem_of_lookup. apply list_lookup_insert_Some in Hj as [(_ & ? & _)|[_ Hj]]; [done|].
  by apply H, (list_elem_of_lookup_2 _ j). Qed.

Lemma flight_step_ok w e : flight_ok w → flight_ok (flight_step w e).
Proof.
  unfold flight_ok. intros Hok. destruct e as [|i|i|i r|c r]; cbn [flight_step].
  - destruct (fl_state w); cbn; try done. destruct Hok as (? & ? & ?). split_and!; try done. set_solver.
  - destruct (fl_calls w !! i) as [[]|] eqn:Ei; [| |done|done].
    + destruct (fl_state w) as [cell batch|s|] eqn:Es; cbn [anext_bootstrap].
      * destruct Hok as (-> & -> & _). destruct (cell_execute _ cell batch) as [h' [handle|err]]; cbn; [done|].
        split; [done|]. by exists 0%nat.
      * cbn. by rewrite !app_nil_r.
      * cbn. by rewrite !app_nil_r.
    + destruct (fl_state w) as [cell batch|s|] eqn:Es.
      * destruct Hok as (_ & _ & Hno). by destruct Hno; apply (list_elem_of_lookup_2 _ i).
      * destruct Hok as [Hl Hs]. destruct s as [|[c|err] s]; cbn [anext_pull fl_state fl_runs fl_results].
        -- split; [done|]. exists 1%nat. rewrite app_nil_r in Hs. by rewrite Hs.
        -- split; [done|]. rewrite <-app_assoc. exact Hs.
        -- split; [done|]. exists 0%nat. by rewrite app_nil_r.
      * cbn. destruct Hok as [Hl [n ->]]. split; [done|]. exists (S n). by rewrite <-app_assoc, stops_snoc.
  - destruct (fl_state w); cbn; try done. destruct Hok as (? & ? & ?). split_and!; try done. by apply insert_not_pull.
  - destruct (fl_calls w !! i) as [[]|], (fl_state w) as [cell batch|s|] eqn:Es; cbn; rewrite ?Es; try done.
    destruct Hok as (-> & -> & _). split; [done|]. by exists 0%nat.
  - destruct (fl_state w); cbn; done.
Qed.
Lemma fly_ok es w : flight_ok w → flight_ok (fly w es).
Proof. revert w. induction es as [|e es IH]; [done|]. intros w H. by apply IH, flight_step_ok. Qed.
Lemma flight_ok_results w : flight_ok w →
  (length (fl_runs w) ≤ 1)%nat ∧ fl_results w = take (length (fl_results w)) (script_of (fl_runs w) ++ stops (length (fl_results w))).
Proof.
  unfold flight_ok. destruct (fl_state w).
  - intros (-> & -> & _). split; [simpl; lia|done].
  - intros [Hl <-]. split; [lia|]. by rewrite <-app_assoc, take_app_length.
  - intros [Hl [n Hr]]. split; [lia|]. rewrite Hr at 1 3.
    rewrite Hr, length_app. unfold stops. rewrite length_replicate, take_app_add.
    rewrite take_replicate. f_equal. f_equal. lia.
Qed.

(** The chunks before the first error, and that error. *)
Fixpoint chunks_before (s : list (InferenceResult Chunk)) : list Chunk :=
  match s with Ok c :: rest => c :: chunks_before rest | _ => [] end.
Fixpoint end_of (s : list (InferenceResult Chunk)) : option PyErr :=
  match s with [] => None | Ok _ :: rest => end_of rest | Err e :: _ => Some (map e) end.
Lemma drain_spec s t :
  drain s t = match end_of s with Some e => Err e | None => Ok (foldl absorb t (chunks_before s)) end.
Proof. revert t. induction s as [|[c|e] s IH]; intros t; [done| |done]. apply IH. Qed.
Lemma map_not_stop e : err_type (map e) ≠ X_StopAsyncIteration.
Proof. by destruct e. Qed.
Lemma async_for_active s fuel h : (length s < fuel)%nat →
  async_for fuel h (SS_Active s) = Some (h, chunks_before s, end_of s).
Proof.
  revert fuel. induction s as [|[c|e] s IH]; intros [|fuel] Hf; simpl in Hf; try lia; cbn; [done| |].
  - by rewrite IH by lia.
  - rewrite bool_decide_eq_false_2; [done|]. apply map_not_stop.
Qed.
(** A pending stream iterated to its end. *)
Lemma async_for_pending fuel h cell batch :
  (∀ handle, (cell_execute h cell batch).2 = Ok handle → (length (into_stream handle) < fuel)%nat) → (0 < fuel)%nat →
  async_for fuel h (SS_Pending cell batch) =
    Some ((cell_execute h cell batch).1,
      match (cell_execute h cell batch).2 with Ok handle => chunks_before (into_stream handle) | Err _ => [] end,
      match (cell_execute h cell batch).2 with Ok handle => end_of (into_stream handle) | Err e => Some (map e) end).
Proof.
  intros Hlen Hpos. destruct fuel as [|fuel]; [lia|].
  destruct (cell_execute h cell batch) as [h' [handle|e]] eqn:E; cbn [fst snd].
  - rewrite <-(async_for_active _ (S fuel) h' (Hlen handle eq_refl)).
    cbn [async_for]. unfold anext. cbn [anext_bootstrap]. by rewrite E.
  - cbn [async_for]. unfold anext. cbn [anext_bootstrap]. rewrite E.
    rewrite bool_decide_eq_false_2; [done|]. apply map_not_stop.
Qed.
(** A call finishes by its second turn. *)
Lemma two_turns w i pc : fl_calls w !! i = Some pc → fl_calls (fly w [FE_Turn i; FE_Turn i]) !! i = Some Finished.
Proof.
  intros Hi. pose proof (lookup_lt_Some _ _ _ Hi) as Hlt. cbn [fly foldl].
  assert (∀ w', fl_calls w' !! i = Some Finished → fl_calls (flight_step w' (FE_Turn i)) !! i = Some Finished) as Hfin.
  { intros w' H. cbn [flight_step]. by rewrite H. }
  assert (∀ w', fl_calls w' !! i = Some At_pull → fl_calls (flight_step w' (FE_Turn i)) !! i = Some Finished) as Hpull.
  { intros w' H. cbn [flight_step]. rewrite H. destruct (anext_pull _). apply list_lookup_insert_eq.
    by eapply lookup_lt_Some. }
  destruct pc; [|by apply Hfin, Hpull|by apply Hfin, Hfin].
  unfold flight_step at 2. rewrite Hi. destruct (anext_bootstrap _ _) as [[h st] [e|]];
    [apply Hfin|apply Hpull]; by apply list_lookup_insert_eq.
Qed.
Lemma foldl_absorb_text cs t : t_text (foldl absorb t cs) = t_text t +:+ concat_text cs.
Proof.
  revert t. induction cs as [|c cs IH]; intros t; simpl; [by rewrite string_app_nil_r|].
  rewrite IH. unfold absorb, take_id. cbn. destruct (is_empty_str _); cbn; by rewrite string_app_assoc.
Qed.
(** Once the id is known, absorbing is accumulating. *)
Lemma foldl_absorb_known cs t : is_empty_str (t_request_id t) = false → foldl absorb t cs = tokens_of t cs.
Proof.
  unfold tokens_of. revert t. induction cs as [|c cs IH]; intros t Ht; [done|].
  cbn [foldl]. unfold absorb at 2, take_id. rewrite Ht. by apply IH.
Qed.
(** When every chunk carries the same id, the result carries it. *)
Lemma foldl_absorb_same cs id : cs ≠ [] → Forall (λ c, c_request_id c = id) cs →
  foldl absorb Tokens_default cs =
    tokens_of {| t_request_id := id; t_text := ""; t_usage := TokenUsage_default; t_finish_reason := None |} cs.
Proof.
  intros Hne Hall. destruct cs as [|c cs]; [done|]. apply Forall_cons in Hall as [Hc Hall].
  cbn [foldl]. unfold absorb at 2, take_id. cbn. rewrite Hc. unfold tokens_of. cbn [foldl].
  set (t := tokens_append _ c). destruct (is_empty_str (t_request_id t)) eqn:E; [|by apply foldl_absorb_known].
  assert (id = "") as -> by (subst t; cbn in E; by destruct id).
  clearbody t. clear Hne Hc. revert t E. induction cs as [|d cs IH]; intros t E; [done|].
  apply Forall_cons in Hall as [Hd Hall]. cbn [foldl]. unfold absorb at 2, take_id. rewrite E.
  assert (∀ t' : Tokens, is_empty_str (t_request_id t') = true →
    {| t_request_id := c_request_id d; t_text := t_text t'; t_usage := t_usage t'; t_finish_reason := t_finish_reason t' |} = t') as Hid.
  { intros [i x u f]. cbn. rewrite Hd. by destruct i. }
  rewrite Hid by done. by apply IH.
Qed.
End stream.
Arguments StreamState Json : clear implicits.
Arguments FlightEvent R : clear implicits.

(** ** The registry *)

(** [#[derive(Deserialize, Default)]], every field defaulted. *)
Record MockKindConfig : Type := { mk_chunks : list string; mk_inter_chunk_delay_ms : Z }.
Definition MockKindConfig_default : MockKindConfig := {| mk_chunks := []; mk_inter_chunk_delay_ms := 0 |}.

Section cluster.
Context {Json Ctx : Type}.
Variable debug_duration : Duration → string.
(** [serde_json::from_value::<MockKindConfig>] with the text of its error. *)
Variable from_value : Json → result string MockKindConfig.

Definition build_runner (d : Deployment Json) : InferenceResult MockRunner :=
  let kind := effective_runtime d in
  match kind with
  | RK_Custom s =>
      if (s =? "mock")%string then
        let cfg := match d_runtime_config d with
                   | Some (RC_Custom _ config) =>
                       match from_value config with
                       | Ok cfg => Ok cfg
                       | Err e => Err (BadRequest ("invalid mock config: " +:+ e))
                       end
                   | Some _ => Ok MockKindConfig_default
                   | None => Ok MockKindConfig_default
                   end in
        match cfg with
        | Err e => Err e
        | Ok cfg =>
            let chunks := match mk_chunks cfg with [] => ["mock-response"] | chunks => chunks end in
            Ok (mock_new {| ms_chunks := chunks; ms_inter_chunk_delay := from_millis (mk_inter_chunk_delay_ms cfg);
                            ms_fail_with := None |})
        end
      else Err (BadRequest ("unknown custom runtime kind: " +:+ debug_str s))
  | RK_OpenAi | RK_Anthropic | RK_Gemini | RK_LiteLlm =>
      Err (BadRequest ("remote runtime " +:+ debug_RuntimeKind kind +:+ " not yet wired through Python bindings — " +:+
        "use the Rust API for now (binding will land next parity wave)"))
  | RK_Vllm | RK_TensorRt | RK_Ort | RK_Candle | RK_Cudarc | RK_MistralRs =>
      Err (BadRequest ("local-GPU runtime " +:+ debug_RuntimeKind kind +:+ " not exposed via Python bindings"))
  | RK_Python _ => Err (BadRequest "Python-runtime variant requires the python-bridge crate")
  | _ => Err (BadRequest ("runtime kind " +:+ debug_RuntimeKind kind +:+ " is not handled"))
  end.

(** The registry, and the cells allocated so far: [Arc::new] takes the next one. *)
Record Cluster : Type := {
  endpoint : string; runners : gmap string nat; cells : nat → MockRunner; next_cell : nat
}.
Definition connect (e : string) (unallocated : nat → MockRunner) : Cluster :=
  {| endpoint := e; runners := ∅; cells := unallocated; next_cell := 0 |}.
Definition Cluster_repr (c : Cluster) : string := "Cluster(endpoint=" +:+ debug_str (endpoint c) +:+ ")".
Definition deploy (c : Cluster) (d : Deployment Json) : Cluster * PyResult unit :=
  match py_validate d with
  | Err e => (c, Err e)
  | Ok _ =>
      match build_runner d with
      | Err e => (c, Err (map_err debug_duration e))
      | Ok runner =>
          ({| endpoint := endpoint c; runners := <[d_name d := next_cell c]> (runners c);
              cells := <[next_cell c := runner]> (cells c); next_cell := S (next_cell c) |}, Ok ())
      end
  end.
(** In no particular order. *)
Definition deployments (c : Cluster) : list string := (map_to_list (runners c)).*1.
Definition lookup_cell (c : Cluster) (deployment_name : string) : PyResult nat :=
  match runners c !! deployment_name with
  | Some cell => Ok cell
  | None => Err (map_str ("no deployment " +:+ debug_str deployment_name))
  end.
Definition cluster_execute (c : Cluster) (deployment_name : string) (batch : ExecuteBatch) : Cluster * PyResult Tokens :=
  match lookup_cell c deployment_name with
  | Err e => (c, Err e)
  | Ok cell =>
      let '(h, r) := @execute_cell Json Ctx MockRunner _ _ debug_duration (cells c) cell batch in
      ({| endpoint := endpoint c; runners := runners c; cells := h; next_cell := next_cell c |}, r)
  end.
Definition execute_stream (c : Cluster) (deployment_name : string) (batch : ExecuteBatch) : PyResult (StreamState Json) :=
  match lookup_cell c deployment_name with Ok cell => Ok (SS_Pending cell batch) | Err e => Err e end.

(** Every registered name has a cell of its own that has been allocated. *)
Definition registry_ok (c : Cluster) : Prop :=
  (∀ n cell, runners c !! n = Some cell → (cell < next_cell c)%nat) ∧
  (∀ n m cell, runners c !! n = Some cell → runners c !! m = Some cell → n = m).
Lemma connect_ok e u : registry_ok (connect e u).
Proof. split; intros *; cbn; by rewrite lookup_empty. Qed.
Lemma deploy_cases c d :
  (∃ r, validate d = Ok () ∧ build_runner d = Ok r ∧ deploy c d =
    ({| endpoint := endpoint c; runners := <[d_name d := next_cell c]> (runners c);
        cells := <[next_cell c := r]> (cells c); next_cell := S (next_cell c) |}, Ok ())) ∨
  (∃ e, deploy c d = (c, Err e) ∧ caught_by X_InferenceError (err_type e) = true ∧
    ((∃ v, validate d = Err v) ∨ (∃ m, build_runner d = Err m))).
Proof.
  unfold deploy, py_validate. destruct (validate d) as [[]|v]; [|right; naive_solver].
  destruct (build_runner d) as [r|m]; [left; by exists r|]. right. eexists. split_and!; [done| |naive_solver].
  apply exception_hierarchy.
Qed.
Lemma deploy_ok c d : registry_ok c → registry_ok (deploy c d).1.
Proof.
  intros [Hlt Hinj]. destruct (deploy_cases c d) as [(r & _ & _ & ->)|(e & -> & _)]; [|done]. split; cbn.
  - intros n cell [[_ <-]|[_ H%Hlt]]%lookup_insert_Some; lia.
  - intros n m cell [[<- <-]|[Hn H1]]%lookup_insert_Some [[<- E]|[Hm H2]]%lookup_insert_Some; try done.
    + apply Hlt in H2. lia.
    + subst. apply Hlt in H1. lia.
    + by eapply Hinj.
Qed.
Lemma mock_execute_cell (h : nat → MockRunner) cell batch :
  ms_fail_with (mr_script (h cell)) = None →
  (@execute_cell Json Ctx MockRunner _ _ debug_duration h cell batch).2 =
    drain debug_duration (Ok <$> @mock_items Json (request_id batch) (ms_chunks (mr_script (h cell)))) Tokens_default.
Proof.
  intros H. unfold execute_cell, cell_execute. cbn [execute mock_runner]. unfold mock_execute. by rewrite H.
Qed.
Definition mock_of (cfg : MockKindConfig) : MockRunner :=
  mock_new {| ms_chunks := match mk_chunks cfg with [] => ["mock-response"] | l => l end;
              ms_inter_chunk_delay := from_millis (mk_inter_chunk_delay_ms cfg); ms_fail_with := None |}.
Lemma build_mock d kind config cfg :
  effective_runtime d = RK_Custom "mock" → d_runtime_config d = Some (RC_Custom kind config) →
  from_value config = Ok cfg → build_runner d = Ok (mock_of cfg).
Proof. intros Hk Hc Hcfg. unfold build_runner. by rewrite Hk, Hc, Hcfg. Qed.

(** What the mock's stream aggregates to. *)
Definition mock_tokens (id : string) (chunks : list string) : Tokens := {|
  t_request_id := id; t_text := foldr (λ s acc, s +:+ acc) "" chunks;
  t_usage := {| input_tokens := 1; output_tokens := wrap_u32 (Z.of_nat (length chunks)); reasoning_tokens := 0;
                cached_tokens := 0 |};
  t_finish_reason := Some Fin_Stop
|}.
Lemma tokens_of_plain id t l :
  tokens_of t ((λ c, {| c_request_id := id; text_delta := c; tool_call_delta := @None Json; usage := None; finish_reason := None |}) <$> l) =
    {| t_request_id := t_request_id t; t_text := t_text t +:+ foldr (λ s acc, s +:+ acc) "" l;
       t_usage := t_usage t; t_finish_reason := t_finish_reason t |}.
Proof.
  unfold tokens_of. revert t. induction l as [|s l IH]; intros t; cbn [fmap list_fmap foldl foldr].
  - rewrite string_app_nil_r. by destruct t.
  - rewrite IH. cbn. by rewrite string_app_assoc.
Qed.
Lemma foldr_texts_snoc l (s : string) : foldr (λ s acc, s +:+ acc) "" (l ++ [s]) = foldr (λ s acc, s +:+ acc) "" l +:+ s.
Proof. induction l as [|x l IH]; cbn [foldr app]; [by rewrite string_app_nil_r|]. by rewrite IH, string_app_assoc. Qed.
Lemma mock_drain id chunks : chunks ≠ [] →
  drain debug_duration (Ok <$> @mock_items Json id chunks) Tokens_default = Ok (mock_tokens id chunks).
Proof.
  intros Hne. rewrite drain_spec.
  assert (∀ l : list (TokenChunk Json), end_of debug_duration (Ok <$> l) = None) as -> by (induction l; done).
  assert (∀ l : list (TokenChunk Json), chunks_before (Ok <$> l) = l) as ->
    by (induction l as [|x l IH]; [done|cbn; f_equal; exact IH]).
  f_equal. destruct chunks as [|s l _] using rev_ind; [done|].
  rewrite (foldl_absorb_same _ id).
  - rewrite mock_items_snoc. unfold tokens_of. rewrite foldl_app. fold (@tokens_of Json).
    match goal with |- context [foldl tokens_append ?t (?f <$> l)] => change (foldl tokens_append t (f <$> l)) with (tokens_of t (f <$> l)) end.
    rewrite tokens_of_plain. unfold mock_tokens. rewrite foldr_texts_snoc, length_app, Nat.add_1_r.
    unfold tokens_append, usage_add. cbn [foldl text_delta usage finish_reason t_text t_usage t_finish_reason t_request_id
      input_tokens output_tokens reasoning_tokens cached_tokens TokenUsage_default].
    do 2 f_equal. rewrite !Z.add_0_l. unfold wrap. by rewrite Zmod_mod.
  - rewrite mock_items_snoc. by destruct (_ <$> l).
  - rewrite mock_items_snoc. apply Forall_app. split; [|by repeat constructor].
    apply Forall_fmap, Forall_forall. done.
Qed.

Definition redeploy (c : Cluster) (ds : list (Deployment Json)) : Cluster := foldl (λ c d, (deploy c d).1) c ds.
Lemma redeploy_ok c ds : registry_ok c → registry_ok (redeploy c ds).
Proof. revert c. induction ds as [|d ds IH]; [done|]. intros c H. by apply IH, deploy_ok. Qed.
(** Deploying allocates; it never writes to a cell that is in use. *)
Lemma redeploy_cells c ds cell : (cell < next_cell c)%nat →
  cells (redeploy c ds) cell = cells c cell ∧ (next_cell c ≤ next_cell (redeploy c ds))%nat.
Proof.
  revert c. induction ds as [|d ds IH]; [done|]. intros c H. cbn [redeploy foldl].
  destruct (deploy_cases c d) as [(r & _ & _ & ->)|(e & -> & _)]; [|by apply IH]. cbn.
  destruct (IH {| endpoint := endpoint c; runners := <[d_name d := next_cell c]> (runners c);
                  cells := <[next_cell c := r]> (cells c); next_cell := S (next_cell c) |}) as [E1 E2]; [cbn; lia|].
  cbn in E1, E2. split; [|unfold redeploy in *; cbn in *; lia].
  etrans; [exact E1|]. rewrite fn_lookup_insert_ne by lia. done.
Qed.
Lemma redeploy_names c ds n : n ∉ (d_name <$> ds) → runners (redeploy c ds) !! n = runners c !! n.
Proof.
  revert c. induction ds as [|d ds IH]; [done|]. intros c [Hn Hns]%not_elem_of_cons. cbn [redeploy foldl].
  destruct (deploy_cases c d) as [(r & _ & _ & ->)|(e & -> & _)]; [|by apply IH].
  etrans; [by apply IH|]. cbn. by rewrite lookup_insert_ne.
Qed.
End cluster.

(** ** Theorems *)

Section theorems.
Context {Json Ctx R : Type} `{!RunnerBase R} `{!ModelRunner Json R Ctx}.
Variable debug_duration : Duration → string.

(** [C16] However the calls of one stream are interleaved, cancelled or abandoned, and whatever
    others do to the cells meanwhile, the runner is run for the stream at most once; and the
    calls that complete resolve, in the order of completion, to exactly what that one run gives:
    its chunks in order up to its first error, then the error as its Python exception, then
    [StopAsyncIteration] for ever.  No chunk is lost, repeated or overtaken, and the iteration
    stops only after the last one. *)
Theorem stream_interleaving (h : nat → R) (cell : nat) (batch : ExecuteBatch) (es : list (FlightEvent R)) :
  let w := @fly Json Ctx R _ _ debug_duration (fresh_stream h cell batch) es in
  (length (fl_runs w) ≤ 1)%nat ∧
  fl_results w = take (length (fl_results w)) (script_of debug_duration (fl_runs w) ++ stops (length (fl_results w))).
Proof. cbv zeta. apply flight_ok_results, fly_ok, fresh_flight_ok. Qed.

(** [C17] [Cluster.execute] is the asynchronous iteration folded up: from the same cells, for any
    runner, draining the stream call by call reaches its end (one more turn than the stream has
    items suffices), leaves the cells as [execute] does, and raises exactly the exception
    [execute] raises or, when the iteration ends regularly, yields the chunks whose aggregate
    [execute] returns. *)
Theorem execute_is_async_for (h : nat → R) (cell : nat) (batch : ExecuteBatch) :
  let items := match (@cell_execute Json Ctx R _ _ h cell batch).2 with Ok handle => into_stream handle | Err _ => [] end in
  ∃ h' chunks end_,
    @async_for Json Ctx R _ _ debug_duration (S (length items)) h (SS_Pending cell batch) = Some (h', chunks, end_) ∧
    @execute_cell Json Ctx R _ _ debug_duration h cell batch =
      (h', match end_ with Some e => Err e | None => Ok (foldl absorb Tokens_default chunks) end).
Proof.
  cbv zeta. do 3 eexists. split.
  - apply async_for_pending; [intros handle ->|]; lia.
  - unfold execute_cell. destruct (cell_execute h cell batch) as [h' [handle|e]]; cbn [fst snd]; [|done].
    f_equal. apply drain_spec.
Qed.
End theorems.

Section cluster_theorems.
Context {Json Ctx : Type}.
Variable debug_duration : Duration → string.
Variable from_value : Json → result string MockKindConfig.
Abbreviation redeploy := (redeploy debug_duration from_value).

(** A mock deployment serves from the moment it is deployed and through any later
    deployments of other names, successful or not: [execute] returns the configured chunks (one
    default chunk when none are configured) concatenated in order, under the request's id, with
    one input token, as many output tokens as chunks (modulo 2^32) and finish reason [stop]. *)
Theorem mock_deployment_serves (c : Cluster) (d : Deployment Json) (kind : string) (config : Json) (cfg : MockKindConfig)
  (later : list (Deployment Json)) (batch : ExecuteBatch) :
  validate d = Ok () → effective_runtime d = RK_Custom "mock" → d_runtime_config d = Some (RC_Custom kind config) →
  from_value config = Ok cfg → d_name d ∉ (d_name <$> later) →
  (cluster_execute (Ctx:=Ctx) (Json:=Json) debug_duration (redeploy (redeploy c [d]) later) (d_name d) batch).2 =
    Ok (mock_tokens (request_id batch) (match mk_chunks cfg with [] => ["mock-response"] | l => l end)).
Proof.
  intros Hv Hk Hc Hcfg Hn. pose proof (build_mock from_value d kind config cfg Hk Hc Hcfg) as Hb.
  destruct (deploy_cases debug_duration from_value c d) as [(r & _ & Hr & Hd)|(e & _ & _ & [[v Hv']|[m Hm]])]; [|congruence..].
  assert (r = mock_of cfg) as -> by congruence.
  unfold cluster_execute, lookup_cell. rewrite redeploy_names by done.
  set (c1 := redeploy c [d]).
  assert (c1 = (deploy debug_duration from_value c d).1) as Hc1 by done. rewrite Hd in Hc1. cbn [fst] in Hc1.
  assert (runners c1 !! d_name d = Some (next_cell c)) as -> by (rewrite Hc1; apply lookup_insert_eq).
  destruct (redeploy_cells debug_duration from_value c1 later (next_cell c)) as [Hcell _]; [rewrite Hc1; cbn; lia|].
  assert (cells c1 (next_cell c) = mock_of cfg) as Hm by (rewrite Hc1; apply fn_lookup_insert). rewrite Hm in Hcell.
  match goal with |- context [execute_cell ?dd ?h ?n ?b] =>
    pose proof (mock_execute_cell (Json:=Json) (Ctx:=Ctx) dd h n b) as He;
    destruct (execute_cell dd h n b) as [h' res] end.
  cbn [snd] in *. rewrite He, Hcell; [|by rewrite Hcell]. apply mock_drain. cbn. by destruct (mk_chunks cfg).
Qed.

(** Deploying is safe for whoever is connected: from a well-formed registry, any sequence
    of deployments (failing ones change nothing and raise an [InferenceError]) leaves a
    well-formed one, in which every name not deployed again still resolves to the same cell, and
    every cell handed out before, also that of a name deployed again, still holds the runner it
    held, so a stream opened earlier keeps its runner. *)
Theorem redeploy_safe (c : Cluster) (ds : list (Deployment Json)) (name : string) (cell : nat) :
  registry_ok c → lookup_cell c name = Ok cell →
  registry_ok (redeploy c ds) ∧ cells (redeploy c ds) cell = cells c cell ∧
  (name ∉ (d_name <$> ds) → lookup_cell (redeploy c ds) name = Ok cell) ∧
  ∀ d e, (deploy debug_duration from_value c d).2 = Err e →
    (deploy debug_duration from_value c d).1 = c ∧ caught_by X_InferenceError (err_type e) = true.
Proof.
  intros Hok Hl. unfold lookup_cell in Hl. destruct (runners c !! name) as [cell'|] eqn:E; simplify_eq.
  split_and!.
  - by apply redeploy_ok.
  - by apply redeploy_cells, (proj1 Hok name).
  - intros Hn. unfold lookup_cell. by rewrite redeploy_names, E.
  - intros d e He. destruct (deploy_cases debug_duration from_value c d) as [(r & _ & _ & Hd)|(e' & Hd & Hx & _)];
      rewrite Hd in *; cbn in *; by simplify_eq.
Qed.
End cluster_theorems.

(** The README's first example deploys ["gpt-4o"] with no runtime: the inferred runtime is a
    remote one, which the bindings refuse. *)
Lemma readme_deploy_refused {Json} dd fv (c : Cluster) :
  ∃ m, deploy (Json:=Json) dd fv c (Deployment_new "gpt-4o" "gpt-4o" (Some 2) None None None None None None) =
    (c, Err (py_err X_BadRequest ("bad request: " +:+ m))).
Proof. eexists. vm_compute. reflexivity. Qed.
(** A call cancelled while the runner works for it ends the stream: a later call stops at once,
    with neither a chunk nor an error. *)
Lemma abandoned_stream_is_empty {Json Ctx R} `{!RunnerBase R} `{!ModelRunner Json R Ctx} dd (h : nat → R) cell batch (r : R) :
  fl_results (@fly Json Ctx R _ _ dd (fresh_stream h cell batch)
    [FE_Call; FE_Abandon 0 r; FE_Call; FE_Turn 1; FE_Turn 1]) = [Err stop_iteration].
Proof. reflexivity. Qed.

Definition wit_mock (chunks : list string) : MockRunner := mock_new (from_text chunks).
Definition wit_deployment : Deployment unit :=
  Deployment_new "d" "mock" None None (Some (RK_Custom "mock")) (Some (RC_Custom "mock" ())) None None None.
Definition wit_cfg : MockKindConfig := {| mk_chunks := ["hello "; "world"]; mk_inter_chunk_delay_ms := 0 |}.
Definition wit_cluster : Cluster := connect "inproc://test" (λ _, wit_mock []).
Lemma mock_deployment_serves_witness :
  (cluster_execute (Ctx:=unit) (Json:=unit) (λ _, "") (redeploy (Json:=unit) (λ _, "") (λ _, Ok wit_cfg)
     (redeploy (Json:=unit) (λ _, "") (λ _, Ok wit_cfg) wit_cluster [wit_deployment])
     [Deployment_new "e" "gpt-4o" None None None None None None None]) "d"
     (ExecuteBatch_new "r1" "mock" [] None None None)).2 =
  Ok {| t_request_id := "r1"; t_text := "hello world";
        t_usage := {| input_tokens := 1; output_tokens := 2; reasoning_tokens := 0; cached_tokens := 0 |};
        t_finish_reason := Some Fin_Stop |}.
Proof.
  refine (mock_deployment_serves (Json:=unit) (Ctx:=unit) (λ _, "") (λ _, Ok wit_cfg) wit_cluster wit_deployment "mock" () wit_cfg
    [Deployment_new "e" "gpt-4o" None None None None None None None] (ExecuteBatch_new "r1" "mock" [] None None None) _ _ _ _ _).
  - reflexivity.
  - reflexivity.
  - reflexivity.
  - reflexivity.
  - apply (bool_decide_unpack _). vm_compute. exact I.
Defined.
Lemma redeploy_safe_witness :
  let c := redeploy (Json:=unit) (λ _, "") (λ _, Ok wit_cfg) wit_cluster [wit_deployment] in
  registry_ok (redeploy (Json:=unit) (λ _, "") (λ _, Ok wit_cfg) c [wit_deployment]) ∧
  cells (redeploy (Json:=unit) (λ _, "") (λ _, Ok wit_cfg) c [wit_deployment]) 0 = cells c 0%nat.
Proof.
  cbv zeta.
  destruct (redeploy_safe (Json:=unit) (λ _, "") (λ _, Ok wit_cfg) (redeploy (Json:=unit) (λ _, "") (λ _, Ok wit_cfg) wit_cluster [wit_deployment])
    [wit_deployment] "d" 0) as (H1 & H2 & _).
  - apply redeploy_ok, connect_ok.
  - reflexivity.
  - exact (conj H1 H2).
Defined.
