(* ===== verification/PyModule.v ===== *)
(** * The Python extension module

    Models the registration code of [inference-py-bindings/src]: [_native] of [lib.rs] and the
    [register] function of each submodule, as what attribute lookup then finds, and the names
    the pure-Python package takes from it (python/atomr_infer/__init__.py).  An exception class
    is known by its [PyExc], a data class by the core type it wraps. *)
From S2P Require Import Prelude Runtime Tokens Deployment Audio PyTypes.

(** ** What can be registered *)

(** The data classes, by submodule. *)
Inductive PyClass : Type :=
  | K_Role | K_ContentPart | K_MessageContent | K_Message | K_SamplingParams | K_ExecuteBatch
  | K_FinishReason | K_TokenUsage | K_TokenChunk | K_Tokens | K_CostEstimate | K_Replica | K_Deployment
  | K_RuntimeKind | K_ProviderKind | K_TransportKind | K_RuntimeConfig | K_CircuitBreakerConfig | K_JitterKind
  | K_CapacityPolicy | K_Serving | K_RateLimits | K_RetryPolicy | K_Timeouts | K_BudgetAction | K_Budget
  | K_Cluster | K_TokenStream
  | K_AudioFormat | K_AudioParams | K_AudioPayload | K_VoiceRef | K_TranscribeOptions | K_SynthOptions
  | K_A2FOptions | K_SpeechBatch | K_AudioBatch | K_WordTiming | K_Viseme | K_AlignmentDelta
  | K_TranscriptChunk | K_SpeechChunk | K_BlendshapeChunk.
#[global] Instance PyClass_eq_dec : EqDecision PyClass.
Proof. solve_decision. Defined.
Inductive Submodule : Type := M_errors | M_core | M_runtime | M_config | M_cluster | M_audio.
#[global] Instance Submodule_eq_dec : EqDecision Submodule.
Proof. solve_decision. Defined.
(** [name] and [module] of the [#[pyclass]] attributes. *)
Definition pyclass (k : PyClass) : string * Submodule :=
  match k with
  | K_Role => ("Role", M_core) | K_ContentPart => ("ContentPart", M_core)
  | K_MessageContent => ("MessageContent", M_core) | K_Message => ("Message", M_core)
  | K_SamplingParams => ("SamplingParams", M_core) | K_ExecuteBatch => ("ExecuteBatch", M_core)
  | K_FinishReason => ("FinishReason", M_core) | K_TokenUsage => ("TokenUsage", M_core)
  | K_TokenChunk => ("TokenChunk", M_core) | K_Tokens => ("Tokens", M_core)
  | K_CostEstimate => ("CostEstimate", M_core) | K_Replica => ("Replica", M_core)
  | K_Deployment => ("Deployment", M_core)
  | K_RuntimeKind => ("RuntimeKind", M_runtime) | K_ProviderKind => ("ProviderKind", M_runtime)
  | K_TransportKind => ("TransportKind", M_runtime) | K_RuntimeConfig => ("RuntimeConfig", M_runtime)
  | K_CircuitBreakerConfig => ("CircuitBreakerConfig", M_runtime) | K_JitterKind => ("JitterKind", M_runtime)
  | K_CapacityPolicy => ("CapacityPolicy", M_config) | K_Serving => ("Serving", M_config)
  | K_RateLimits => ("RateLimits", M_config) | K_RetryPolicy => ("RetryPolicy", M_config)
  | K_Timeouts => ("Timeouts", M_config) | K_BudgetAction => ("BudgetAction", M_config)
  | K_Budget => ("Budget", M_config)
  | K_Cluster => ("Cluster", M_cluster) | K_TokenStream => ("TokenStream", M_cluster)
  | K_AudioFormat => ("AudioFormat", M_audio) | K_AudioParams => ("AudioParams", M_audio)
  | K_AudioPayload => ("AudioPayload", M_audio) | K_VoiceRef => ("VoiceRef", M_audio)
  | K_TranscribeOptions => ("TranscribeOptions", M_audio) | K_SynthOptions => ("SynthOptions", M_audio)
  | K_A2FOptions => ("A2FOptions", M_audio) | K_SpeechBatch => ("SpeechBatch", M_audio)
  | K_AudioBatch => ("AudioBatch", M_audio) | K_WordTiming => ("WordTiming", M_audio)
  | K_Viseme => ("Viseme", M_audio) | K_AlignmentDelta => ("AlignmentDelta", M_audio)
  | K_TranscriptChunk => ("TranscriptChunk", M_audio) | K_SpeechChunk => ("SpeechChunk", M_audio)
  | K_BlendshapeChunk => ("BlendshapeChunk", M_audio)
  end.

(** ** Registration *)

(** An attribute of a submodule: a data class or an exception class. *)
Inductive PyAttr : Type := A_Class (k : PyClass) | A_Exc (x : PyExc).
#[global] Instance PyAttr_eq_dec : EqDecision PyAttr.
Proof. solve_decision. Defined.
(** A submodule under its name, with its attributes in the order they were added;
    [add_class] uses the name of the [#[pyclass]] attribute. *)
Definition PySubmodule : Type := list (string * PyAttr).
Definition add_class (k : PyClass) : string * PyAttr := (fst (pyclass k), A_Class k).

Definition errors_register : string * PySubmodule := ("errors", [
  ("InferenceError", A_Exc X_InferenceError); ("RateLimited", A_Exc X_RateLimited);
  ("CircuitOpen", A_Exc X_CircuitOpen); ("ContentFiltered", A_Exc X_ContentFiltered);
  ("ContextLengthExceeded", A_Exc X_ContextLengthExceeded); ("BadRequest", A_Exc X_BadRequest);
  ("Unauthorized", A_Exc X_Unauthorized); ("Forbidden", A_Exc X_Forbidden);
  ("Backpressure", A_Exc X_Backpressure); ("BudgetExceeded", A_Exc X_BudgetExceeded);
  ("NetworkError", A_Exc X_NetworkError); ("ServerError", A_Exc X_ServerError);
  ("Timeout", A_Exc X_Timeout); ("CudaContextPoisoned", A_Exc X_CudaContextPoisoned);
  ("Internal", A_Exc X_Internal)]).
Definition core_register : string * PySubmodule := ("core", add_class <$> [
  K_Role; K_ContentPart; K_MessageContent; K_Message; K_SamplingParams; K_ExecuteBatch; K_FinishReason;
  K_TokenUsage; K_TokenChunk; K_Tokens; K_CostEstimate; K_Replica; K_Deployment]).
Definition runtime_register : string * PySubmodule := ("runtime", add_class <$> [
  K_RuntimeKind; K_ProviderKind; K_TransportKind; K_RuntimeConfig; K_CircuitBreakerConfig; K_JitterKind]).
Definition config_register : string * PySubmodule := ("config", add_class <$> [
  K_CapacityPolicy; K_Serving; K_RateLimits; K_RetryPolicy; K_Timeouts; K_BudgetAction; K_Budget]).
Definition cluster_register : string * PySubmodule := ("cluster", add_class <$> [K_Cluster; K_TokenStream]).
Definition audio_register : string * PySubmodule := ("audio", add_class <$> [
  K_AudioFormat; K_AudioParams; K_AudioPayload; K_VoiceRef; K_TranscribeOptions; K_SynthOptions; K_A2FOptions;
  K_SpeechBatch; K_AudioBatch; K_WordTiming; K_Viseme; K_AlignmentDelta; K_TranscriptChunk; K_SpeechChunk;
  K_BlendshapeChunk]).
(** [_native]: the version, then the submodules in order. *)
Record NativeModule : Type := { nm_version : string; nm_submodules : list (string * PySubmodule) }.
Definition native (cargo_pkg_version : string) : NativeModule := {|
  nm_version := cargo_pkg_version;
  nm_submodules := [errors_register; core_register; runtime_register; config_register; cluster_register; audio_register]
|}.
(** [_native.<sub>.<name>]. *)
Definition assoc {A} (key : string) (l : list (string * A)) : option A :=
  snd <$> List.find (λ kv, bool_decide (fst kv = key)) l.
Definition native_attr (n : NativeModule) (sub name : string) : option PyAttr :=
  m ← assoc sub (nm_submodules n); assoc name m.

(** ** What the package takes from it *)

Definition package_names : list (string * string) :=
  (pair "cluster" <$> ["Cluster"; "TokenStream"]) ++
  (pair "core" <$> ["ContentPart"; "CostEstimate"; "Deployment"; "ExecuteBatch"; "FinishReason"; "Message";
     "MessageContent"; "Replica"; "Role"; "SamplingParams"; "TokenChunk"; "TokenUsage"; "Tokens"]) ++
  (pair "runtime" <$> ["CircuitBreakerConfig"; "JitterKind"; "ProviderKind"; "RuntimeConfig"; "RuntimeKind";
     "TransportKind"]).

Definition submodule_name (m : Submodule) : string :=
  match m with
  | M_errors => "errors" | M_core => "core" | M_runtime => "runtime" | M_config => "config"
  | M_cluster => "cluster" | M_audio => "audio"
  end.
(** Every name the package re-exports is an attribute when it is imported; every data class is
    found, as itself, under the module and name its own attribute declares; no submodule has
    a name twice, so nothing is shadowed; and every exception the bindings raise for a runtime
    error can be named in an [except] clause from [errors]. *)
Theorem native_registers_all (version : string) :
  let n := native version in
  Forall (λ p, is_Some (native_attr n p.1 p.2)) package_names ∧
  (∀ k, native_attr n (submodule_name (snd (pyclass k))) (fst (pyclass k)) = Some (A_Class k)) ∧
  Forall (λ m, NoDup m.2.*1) (nm_submodules n) ∧
  (∀ e, ∃ name, native_attr n "errors" name = Some (A_Exc (exception_of e))).
Proof.
  split_and!.
  - apply (bool_decide_unpack _). vm_compute. exact I.
  - intros k. by destruct k.
  - repeat constructor; cbn; apply (bool_decide_unpack _); vm_compute; exact I.
  - intros e.
    assert (∀ x, x ∈ [X_InferenceError; X_RateLimited; X_CircuitOpen; X_ContentFiltered; X_ContextLengthExceeded;
      X_BadRequest; X_Unauthorized; X_Forbidden; X_Backpressure; X_BudgetExceeded; X_NetworkError; X_ServerError;
      X_Timeout; X_CudaContextPoisoned; X_Internal] → ∃ name, native_attr (native version) "errors" name = Some (A_Exc x)) as H.
    { intros x Hx. exists (default "" (fst <$> List.find (λ kv, bool_decide (snd kv = A_Exc x)) (snd errors_register))).
      repeat (apply elem_of_cons in Hx as [->|Hx]; [vm_compute; reflexivity|]). by apply elem_of_nil in Hx. }
    apply H. destruct e; cbn; set_solver.
Qed.
