(* ===== verification/Http.v ===== *)
(** * What the HTTP providers share

    Models [inference-remote-core/src/sse.rs] and the shape of the answer every
    provider's [execute] works on: the result of sending the request, and of a
    response its status, its [retry-after] header, its body as text, as JSON and as
    a byte stream.  The event-source decoder, the HTTP client and [serde_json] are
    other crates: the events it yields are the input of [decode_sse_stream], and
    JSON values and their constructors are parameters. *)
From S2P Require Import Prelude Runtime.

(** [eventsource_stream::Event], the two fields read. *)
Record SseEventIn : Type := { ev_event : string; ev_data : string }.
(** What the decoder yields: an event, a transport error, or a decoding error. *)
Inductive SseIn : Type :=
  | SI_Event (e : SseEventIn) | SI_Transport (m : string) | SI_Decode (m : string).

Record SseChunk : Type := { sse_event : option string; sse_data : string }.

(** The source wraps a transport error as [NetworkError] before decoding; the decoder
    reports it through its own error. *)
Definition decode_sse_item (i : SseIn) : InferenceResult SseChunk :=
  match i with
  | SI_Event e =>
      Ok {| sse_event := if is_empty_str (ev_event e) then None else Some (ev_event e);
            sse_data := ev_data e |}
  | SI_Transport m => Err (NetworkError ("sse decode: " +:+ m))
  | SI_Decode m => Err (NetworkError ("sse decode: " +:+ m))
  end.
Definition decode_sse_stream (items : list SseIn) : list (InferenceResult SseChunk) :=
  decode_sse_item <$> items.

(** A response, as the runners look at it. *)
Record HttpResponse : Type := {
  resp_status : Z;
  resp_retry_after : option string;
  resp_text : option string;               (* [resp.text().await.ok()] *)
  resp_events : list SseIn                 (* [resp.bytes_stream()], decoded *)
}.
(** [send().await]: the text of the transport error, or a response. *)
Definition HttpAnswer : Type := result string HttpResponse.
Definition is_success (r : HttpResponse) : bool := (200 <=? resp_status r) && (resp_status r <? 300).

(** [serde_json::Value]: the constructors and the accessor the code uses. *)
Class JsonOps (Json : Type) : Type := {
  v_null : Json;
  v_string : string → Json;
  v_array : list Json → Json;
  v_object : list (string * Json) → Json;
  as_str : Json → option string
}.

(** [filter_map] on a stream whose items are lifted one by one. *)
Definition lift_stream {A B} (f : A → option (InferenceResult B)) (l : list (InferenceResult A)) :
  list (InferenceResult B) :=
  omap (λ i, match i with Ok a => f a | Err e => Some (Err e) end) l.

Lemma lift_stream_app {A B} (f : A → option (InferenceResult B)) l1 l2 :
  lift_stream f (l1 ++ l2) = lift_stream f l1 ++ lift_stream f l2.
Proof. apply omap_app. Qed.

(** A per-million-token price; a pricing table looked up by exact model name. *)
Fixpoint price_lookup {A} (table : list (string * A)) (m : string) : option A :=
  match table with
  | [] => None
  | (n, p) :: r => if decide (n = m) then Some p else price_lookup r m
  end.

(** JSON values as far as the witnesses read them. *)
Inductive DemoJson : Type := DJ_String (s : string) | DJ_Other.
#[global] Instance DemoJson_ops : JsonOps DemoJson := {|
  v_null := DJ_Other; v_string := DJ_String; v_array _ := DJ_Other; v_object _ := DJ_Other;
  as_str v := match v with DJ_String s => Some s | DJ_Other => None end
|}.
