(* ===== verification/MockWs.v ===== *)
(** * The WebSocket mock of the test kit

    Models [inference-testkit/src/mock_ws.rs]: a server that accepts one client, the two
    tasks of its connection, and the helpers a test drives it with.  The tasks run
    concurrently with the test: a step relation over the queues they share.  The socket is
    a parameter: what it yields, and whether a send succeeds; JSON values and their text
    are parameters, a message is the one of [WsCore]. *)
From S2P Require Import Prelude Runtime Http WsCore.

Section mock_ws.
Context {CloseCode RawFrame Json : Type} `{!JsonOps Json}.
Variable close_code_from : Z → CloseCode.
Variables (v_bool : bool → Json) (json_to_string : Json → string) (json_from_str : string → result string Json).
Abbreviation Msg := (Message CloseCode RawFrame).

(** ** The connection *)

(** What the test and the two tasks share: the outbound queue and whether its receiver
    still exists, the frames on the wire to the client, the items the client's side of the
    socket still yields, the inbound queue and whether its task still runs. *)
Record MockWsServer : Type := {
  mw_outbound : list Msg; mw_sending : bool; mw_wire : list Msg;
  mw_client : list (result string Msg); mw_receiving : bool; mw_inbound : list Msg
}.
(** After [start] and the handshake. *)
Definition mock_ws_start (client : list (result string Msg)) : MockWsServer := {|
  mw_outbound := []; mw_sending := true; mw_wire := [];
  mw_client := client; mw_receiving := true; mw_inbound := []
|}.
Definition with_out (outbound : list Msg) (sending : bool) (wire : list Msg) (s : MockWsServer) : MockWsServer := {|
  mw_outbound := outbound; mw_sending := sending; mw_wire := wire;
  mw_client := mw_client s; mw_receiving := mw_receiving s; mw_inbound := mw_inbound s
|}.
Definition with_in (client : list (result string Msg)) (receiving : bool) (inbound : list Msg) (s : MockWsServer) :
  MockWsServer := {|
  mw_outbound := mw_outbound s; mw_sending := mw_sending s; mw_wire := mw_wire s;
  mw_client := client; mw_receiving := receiving; mw_inbound := inbound
|}.

(** [accept_loop]: when accepting or the handshake fails, both channel ends are dropped. *)
Definition accept_loop (accepted handshake : bool) (s : MockWsServer) : MockWsServer :=
  if accepted && handshake then s else with_in [] false (mw_inbound s) (with_out [] false (mw_wire s) s).

Definition is_close (m : Msg) : bool := match m with Msg_Close _ => true | _ => false end.
(** A turn of [send_task], when a message is queued; [ok]: the sink takes it. *)
Definition send_turn (ok : bool) (s : MockWsServer) : MockWsServer :=
  match mw_outbound s with
  | [] => s
  | msg :: rest =>
      if ok then with_out rest (negb (is_close msg)) (mw_wire s ++ [msg]) s
      else with_out rest false (mw_wire s) s
  end.
(** A turn of [recv_task], when the socket yields; the test keeps its end of the queue. *)
Definition recv_turn (s : MockWsServer) : MockWsServer :=
  match mw_client s with
  | [] => with_in [] false (mw_inbound s) s
  | Ok m :: rest => with_in rest true (mw_inbound s ++ [m]) s
  | Err _ :: rest => with_in rest false (mw_inbound s) s
  end.

(** ** The helpers *)

Definition mock_ws_send (msg : Msg) (s : MockWsServer) : MockWsServer * result string unit :=
  if mw_sending s then (with_out (mw_outbound s ++ [msg]) true (mw_wire s) s, Ok ())
  else (s, Err "ws server outbound closed").
Definition send_text (text : string) : MockWsServer → MockWsServer * result string unit :=
  mock_ws_send (Msg_Text text).
Definition send_json (json : Json) : MockWsServer → MockWsServer * result string unit :=
  mock_ws_send (Msg_Text (json_to_string json)).
Definition transcript_envelope (text : string) (is_final : bool) : Json :=
  v_object [("is_final", v_bool is_final);
            ("channel", v_object [("alternatives", v_array [v_object [("transcript", v_string text)]])])].
Definition send_transcript_chunk (text : string) (is_final : bool) :
  MockWsServer → MockWsServer * result string unit := send_json (transcript_envelope text is_final).
Definition close_with (code : Z) (reason : string) : MockWsServer → MockWsServer * result string unit :=
  mock_ws_send (Msg_Close (Some (close_code_from code, reason))).

(** [into_binary m] is [Some] exactly on [Message::Binary]. *)
Definition into_binary (m : Msg) : option (list Z) := match m with Msg_Binary b => Some b | _ => None end.
(** What each [recv] resolves to, in order: a frame, or nothing when its deadline passes or the
    connection has closed.  Past the end of the list nothing arrives any more. *)
Definition mock_recv (inbound : list (option Msg)) : list (option Msg) * option Msg :=
  match inbound with [] => ([], None) | m :: rest => (rest, m) end.
(** [recv_json]: the next frame if it is text that parses. *)
Definition recv_json (inbound : list (option Msg)) : list (option Msg) * option Json :=
  let '(rest, m) := mock_recv inbound in
  (rest, match m with Some (Msg_Text t) => result_ok (json_from_str t) | _ => None end).
Fixpoint expect_binary_frames (n : nat) (inbound : list (option Msg)) : list (option Msg) * list (list Z) :=
  match n with
  | O => (inbound, [])
  | S n' =>
      match mock_recv inbound with
      | (rest, Some m) =>
          match into_binary m with
          | Some b => let '(rest', out) := expect_binary_frames n' rest in (rest', b :: out)
          | None => expect_binary_frames n' rest
          end
      | (rest, None) => (rest, [])
      end
  end.

(** Of the first [n] frames, up to the first silence, it returns the binary ones in order. *)
Lemma expect_binary_frames_prefix (ms : list Msg) (n : nat) (rest : list (option Msg)) :
  (n ≤ length ms)%nat →
  expect_binary_frames n ((Some <$> ms) ++ rest) = ((Some <$> drop n ms) ++ rest, omap into_binary (take n ms)).
Proof.
  revert ms. induction n as [|n IH]; intros [|m ms] Hn; simpl in *; try done; [lia|].
  rewrite IH by lia. by destruct (into_binary m).
Qed.
(** A silence ends the collection, whatever was still asked for. *)
Lemma expect_binary_frames_silence (ms : list Msg) (n : nat) (rest : list (option Msg)) :
  (length ms < n)%nat →
  expect_binary_frames n ((Some <$> ms) ++ None :: rest) = (rest, omap into_binary ms).
Proof.
  revert n. induction ms as [|m ms IH]; intros [|n] Hn; simpl in *; try lia; [done|].
  rewrite IH by lia. by destruct (into_binary m).
Qed.

(** ** Runs on a working socket *)

(** A step of the test ([Some] message it sent and was told [Ok]) or of one of the tasks. *)
Inductive mock_step (s : MockWsServer) : option Msg → MockWsServer → Prop :=
  | Step_test msg s' : mock_ws_send msg s = (s', Ok ()) → mock_step s (Some msg) s'
  | Step_out : mw_sending s = true → mw_outbound s ≠ [] → mock_step s None (send_turn true s)
  | Step_in : mw_receiving s = true → mock_step s None (recv_turn s).
Inductive mock_run (s : MockWsServer) : list Msg → MockWsServer → Prop :=
  | Run_nil : mock_run s [] s
  | Run_snoc sent s1 m s2 : mock_run s sent s1 → mock_step s1 m s2 →
      mock_run s (sent ++ option_list m) s2.
(** No task has anything left to do. *)
Definition quiescent (s : MockWsServer) : Prop :=
  (mw_sending s = true → mw_outbound s = []) ∧ mw_receiving s = false.

(** The messages up to the first close frame; the items up to the first error. *)
Fixpoint upto_close (l : list Msg) : list Msg :=
  match l with [] => [] | m :: r => if is_close m then [m] else m :: upto_close r end.
Fixpoint ok_prefix (l : list (result string Msg)) : list Msg :=
  match l with Ok m :: r => m :: ok_prefix r | _ => [] end.

Lemma upto_close_app l1 l2 : Forall (λ m, is_close m = false) l1 → upto_close (l1 ++ l2) = l1 ++ upto_close l2.
Proof. induction 1 as [|m l1 Hm _ IH]; [done|]. cbn. by rewrite Hm, IH. Qed.
Lemma upto_close_closed l1 m l2 :
  Forall (λ m, is_close m = false) l1 → is_close m = true → upto_close (l1 ++ m :: l2) = l1 ++ [m].
Proof. intros H Hm. rewrite upto_close_app by done. cbn. by rewrite Hm. Qed.

Definition outbound_inv (sent : list Msg) (s : MockWsServer) : Prop :=
  if mw_sending s
  then sent = mw_wire s ++ mw_outbound s ∧ Forall (λ m, is_close m = false) (mw_wire s)
  else ∃ init m rest, sent = init ++ m :: rest ∧ mw_wire s = init ++ [m] ∧
         Forall (λ m, is_close m = false) init ∧ is_close m = true.
Definition inbound_inv (client : list (result string Msg)) (s : MockWsServer) : Prop :=
  ok_prefix client = mw_inbound s ++ (if mw_receiving s then ok_prefix (mw_client s) else []).

Lemma mock_step_inv client sent s m s' :
  mock_step s m s' → outbound_inv sent s → inbound_inv client s →
  outbound_inv (sent ++ option_list m) s' ∧ inbound_inv client s'.
Proof.
  unfold outbound_inv, inbound_inv.
  intros [msg s2 Hs|Hs Hne|Hr] Ho Hi; cbn [option_list]; rewrite ?app_nil_r.
  - unfold mock_ws_send in Hs. destruct (mw_sending s); [|done]. simplify_eq. cbn.
    destruct Ho as [-> Hw]. split; [split; [by rewrite <-app_assoc|done]|done].
  - rewrite Hs in Ho. destruct Ho as [-> Hw]. unfold send_turn.
    destruct (mw_outbound s) as [|msg rest]; [done|]. cbn. split; [|done].
    destruct (is_close msg) eqn:Hc; cbn [negb].
    + by exists (mw_wire s), msg, rest.
    + split; [by rewrite <-app_assoc|]. apply Forall_app. split; [done|]. by constructor.
  - rewrite Hr in Hi. unfold recv_turn.
    destruct (mw_client s) as [|[x|e] rest]; cbn in *; (split; [done|]); by rewrite Hi, <-?app_assoc.
Qed.

(** The mock is a faithful peer: however the test and the two tasks of a connection are
    interleaved, on a socket that takes what it is given, the client is sent the messages
    the test was told [Ok] for, in order - all of them, or up to the first close frame,
    after which nothing is sent any more - and the test can read exactly what the client
    sent, in order, up to the first error; once the tasks are done, nothing of either is
    missing. *)
Theorem mock_ws_relays (client : list (result string Msg)) (sent : list Msg) (s : MockWsServer) :
  mock_run (mock_ws_start client) sent s →
  mw_wire s `prefix_of` upto_close sent ∧ mw_inbound s `prefix_of` ok_prefix client ∧
  (quiescent s → mw_wire s = upto_close sent ∧ mw_inbound s = ok_prefix client).
Proof.
  intros Hrun. assert (outbound_inv sent s ∧ inbound_inv client s) as [Ho Hi].
  { induction Hrun as [|sent s1 m s2 _ [IHo IHi] Hstep]; [by repeat split|].
    exact (mock_step_inv _ _ _ _ _ Hstep IHo IHi). }
  unfold outbound_inv, inbound_inv in *. split_and!.
  - destruct (mw_sending s); [destruct Ho as [-> Hw]|destruct Ho as (init & m & rest & -> & -> & Hf & Hm)].
    + rewrite upto_close_app by done. by apply prefix_app_r.
    + by rewrite upto_close_closed.
  - rewrite Hi. by apply prefix_app_r.
  - intros [Hq Hr]. rewrite Hr, app_nil_r in Hi. split; [|done].
    destruct (mw_sending s); [destruct Ho as [-> Hw]|destruct Ho as (init & m & rest & -> & -> & Hf & Hm)].
    + rewrite Hq by done. rewrite app_nil_r. rewrite <-(app_nil_r (mw_wire s)) at 2. by rewrite upto_close_app, app_nil_r.
    + by rewrite upto_close_closed.
Qed.

(** With the client of [WsCore] at the other end: a test that scripts some frames and then
    a close reads back, on the client, exactly those frames. *)
Theorem scripted_conversation (close_code_into : CloseCode → Z) (client : list (result string Msg))
    (frames : list Frame) (code : Z) (reason : string) (s : MockWsServer) :
  (∀ code, close_code_into (close_code_from code) = code) →
  Forall (λ f, match f with Fr_Close _ _ => False | _ => True end) frames →
  let script := frames ++ [Fr_Close code reason] in
  mock_run (mock_ws_start client) (sender_send close_code_from <$> script) s → quiescent s →
  receive_all close_code_into (S (length script)) (Ok <$> mw_wire s) = script.
Proof.
  intros Hcc Hf script Hrun Hq.
  destruct (mock_ws_relays client _ s Hrun) as (_ & _ & H). destruct (H Hq) as [-> _].
  assert (upto_close (sender_send close_code_from <$> script) = sender_send close_code_from <$> script) as ->.
  { unfold script. rewrite fmap_app. cbn [fmap list_fmap]. rewrite upto_close_closed; [done| |done].
    apply Forall_fmap. eapply Forall_impl; [exact Hf|]. by intros [| | | |]. }
  apply (frames_survive_wire close_code_from close_code_into); [done|].
  clearbody script. clear. induction script as [|f l IH]; [done|]. destruct f; cbn; f_equal; exact IH.
Qed.
End mock_ws.
