(* ===== verification/MockOpenAi.v ===== *)
(** * The OpenAI mock of the test kit

    Models [inference-testkit/src/mock_openai.rs]: the handlers it mounts on a mock
    server.  The server itself is another crate ([wiremock]): an interface, class
    [WireMock], with its documented behaviour as laws - a request is answered by the
    first handler, in the order they were mounted, whose matchers accept it and which
    has not been used up, and by 404 when there is none.  [mounted_server] is an
    implementation of the interface, for concrete runs.  Regular expressions and the
    printing of JSON are parameters. *)
From S2P Require Import Prelude Runtime Text Http.

Abbreviation Bytes := (list Z) (only parsing).

(** ** wiremock *)

Record HttpRequest : Type := { rq_method : string; rq_path : string }.
Inductive Matcher : Type := M_Method (m : string) | M_Path (p : string) | M_PathRegex (re : string).
(** [ResponseTemplate]: status, headers in insertion order, body bytes or text. *)
Inductive ResponseBody : Type := RB_Empty | RB_String (s : string) | RB_Bytes (b : Bytes).
Record ResponseTemplate : Type := {
  rt_status : Z; rt_headers : list (string * string); rt_body : ResponseBody
}.
Definition not_found : ResponseTemplate := {| rt_status := 404; rt_headers := []; rt_body := RB_Empty |}.
(** [Mock]: [up_to_n_times] is [None] for a handler without a limit; on a mounted handler
    it is what is left. *)
Record Mock : Type := {
  mk_matchers : list Matcher; mk_response : ResponseTemplate; mk_up_to : option Z
}.

Section matching.
Variable regex_match : string → string → bool.
Definition matcher_accepts (rq : HttpRequest) (m : Matcher) : bool :=
  match m with
  | M_Method v => bool_decide (rq_method rq = v)
  | M_Path p => bool_decide (rq_path rq = p)
  | M_PathRegex re => regex_match re (rq_path rq)
  end.
Definition mock_accepts (rq : HttpRequest) (m : Mock) : bool :=
  forallb (matcher_accepts rq) (mk_matchers m) &&
  match mk_up_to m with Some n => 0 <? n | None => true end.
Definition mock_use (m : Mock) : Mock := {|
  mk_matchers := mk_matchers m; mk_response := mk_response m;
  mk_up_to := (λ n, n - 1) <$> mk_up_to m
|}.
(** The documented choice: the response, and the handlers with that use counted. *)
Fixpoint first_match (rq : HttpRequest) (l : list Mock) : option (ResponseTemplate * list Mock) :=
  match l with
  | [] => None
  | m :: r =>
      if mock_accepts rq m then Some (mk_response m, mock_use m :: r)
      else '(t, r') ← first_match rq r; Some (t, m :: r')
  end.

Class WireMock (Server : Type) : Type := {
  ms_start : nat → Server;                         (* the n-th server of the process *)
  ms_uri : Server → string;
  ms_mount : Mock → Server → Server;
  ms_serve : HttpRequest → Server → Server * ResponseTemplate
}.
Class WireMockLaws (Server : Type) `{!WireMock Server} : Type := {
  mounted : Server → list Mock;
  start_mounted n : mounted (ms_start n) = [];
  mount_mounted m s : mounted (ms_mount m s) = mounted s ++ [m];
  mount_uri m s : ms_uri (ms_mount m s) = ms_uri s;
  serve_match rq s : ∀ t l', first_match rq (mounted s) = Some (t, l') →
    snd (ms_serve rq s) = t ∧ mounted (fst (ms_serve rq s)) = l';
  serve_none rq s : first_match rq (mounted s) = None →
    snd (ms_serve rq s) = not_found ∧ mounted (fst (ms_serve rq s)) = mounted s;
  serve_uri rq s : ms_uri (fst (ms_serve rq s)) = ms_uri s
}.

(** The interface over the list of handlers and the address. *)
Definition mounted_server : WireMock (string * list Mock) := {|
  ms_start n := ("http://127.0.0.1:" +:+ pretty (40000 + Z.of_nat n), []);
  ms_uri := fst;
  ms_mount m s := (fst s, snd s ++ [m]);
  ms_serve rq s :=
    match first_match rq (snd s) with
    | Some (t, l') => ((fst s, l'), t)
    | None => (s, not_found)
    end
|}.
Definition mounted_server_laws : @WireMockLaws (string * list Mock) mounted_server.
Proof.
  refine {| mounted := snd : string * list Mock → list Mock |}; cbn; try done.
  - intros rq s t l' ->. done.
  - intros rq s ->. done.
  - intros rq s. by destruct (first_match _ _) as [[??]|].
Defined.
End matching.

(** ** mock_openai.rs *)

Section mock_openai.
Context {Server : Type} `{!WireMock Server}.
(** [serde_json::Value::String(s)], displayed; [serde_json::json!] of one field. *)
Variable display_string : string → string.
Variable object_text : string → string → string.

Record MockOpenAi : Type := { mo_server : Server }.
Definition MockOpenAi_start (n : nat) : MockOpenAi := {| mo_server := ms_start n |}.
Definition mock_url (m : MockOpenAi) : string := ms_uri (mo_server m).

Definition post (path : string) : list Matcher := [M_Method "POST"; M_Path path].
Definition chat_path : string := "/v1/chat/completions".
(** The JSON of the one chunk, and the body: the chunk's event and the terminator. *)
Definition happy_json (content : string) : string :=
  let key k := dquote +:+ k +:+ dquote +:+ ":" in
  "{" +:+ key "id" +:+ dquote +:+ "mock" +:+ dquote +:+ "," +:+ key "choices" +:+ "[{" +:+ key "delta" +:+
  "{" +:+ key "content" +:+ display_string content +:+ "}," +:+ key "finish_reason" +:+
  dquote +:+ "stop" +:+ dquote +:+ "}]," +:+ key "usage" +:+ "{" +:+ key "prompt_tokens" +:+ "1," +:+
  key "completion_tokens" +:+ "1}}".
Definition sse_body (json : string) : string :=
  "data: " +:+ json +:+ nl +:+ nl +:+ "data: [DONE]" +:+ nl +:+ nl.
Definition chat_happy (content : string) : Mock := {|
  mk_matchers := post chat_path;
  mk_response := {|
    rt_status := 200; rt_headers := [("content-type", "text/event-stream")];
    rt_body := RB_String (sse_body (happy_json content)) |};
  mk_up_to := None
|}.
Definition mount_chat_happy_path (content : string) (s : Server) : Server := ms_mount (chat_happy content) s.

Definition rate_limited_mock (matchers : list Matcher) (text : string) : Mock := {|
  mk_matchers := matchers;
  mk_response := {|
    rt_status := 429; rt_headers := [("retry-after", "1")]; rt_body := RB_String text |};
  mk_up_to := Some 1
|}.
Definition inject_429_once (s : Server) : Server :=
  ms_mount (rate_limited_mock (post chat_path) "rate limited") s.
Definition busy_mock (n : Z) : Mock := {|
  mk_matchers := post chat_path;
  mk_response := {| rt_status := 503; rt_headers := []; rt_body := RB_String "upstream busy" |};
  mk_up_to := Some n
|}.
Definition inject_5xx_once (n : Z) (s : Server) : Server := ms_mount (busy_mock n) s.

Definition mount_audio_speech_happy_path (audio : Bytes) (s : Server) : Server :=
  ms_mount {|
    mk_matchers := post "/v1/audio/speech";
    mk_response := {|
      rt_status := 200; rt_headers := [("content-type", "audio/wav")]; rt_body := RB_Bytes audio |};
    mk_up_to := None
  |} s.
Definition mount_audio_transcriptions_happy_path (transcript : string) (s : Server) : Server :=
  ms_mount {|
    mk_matchers := post "/v1/audio/transcriptions";
    mk_response := {|
      rt_status := 200; rt_headers := [("content-type", "application/json")];
      rt_body := RB_String (object_text "text" transcript) |};
    mk_up_to := None
  |} s.
Definition inject_audio_429 (s : Server) : Server :=
  ms_mount (rate_limited_mock [M_Method "POST"; M_PathRegex "^/v1/audio/(speech|transcriptions)$"]
    "audio rate limited") s.
End mock_openai.

(** ** What a client of the mock observes *)

Section observed.
Context {Server : Type} {W : WireMock Server} {regex_match : string → string → bool}.
Context {L : @WireMockLaws regex_match Server W}.

(** The server after [k] requests of the same kind. *)
Definition server_after (rq : HttpRequest) (k : nat) (s : Server) : Server :=
  Nat.iter k (λ s, fst (ms_serve rq s)) s.
Definition with_uses (n : option Z) (m : Mock) : Mock :=
  {| mk_matchers := mk_matchers m; mk_response := mk_response m; mk_up_to := n |}.

Lemma serve_head rq m l s :
  mounted regex_match s = m :: l → mock_accepts regex_match rq m = true →
  snd (ms_serve rq s) = mk_response m ∧
  mounted regex_match (fst (ms_serve rq s)) = mock_use m :: l.
Proof. intros Hm Ha. apply (serve_match regex_match). rewrite Hm. cbn. by rewrite Ha. Qed.
Lemma serve_second rq m f l s :
  mounted regex_match s = m :: f :: l → mock_accepts regex_match rq m = false →
  mock_accepts regex_match rq f = true →
  snd (ms_serve rq s) = mk_response f ∧
  mounted regex_match (fst (ms_serve rq s)) = m :: mock_use f :: l.
Proof. intros Hm Ha Hf. apply (serve_match regex_match). rewrite Hm. cbn. by rewrite Ha, Hf. Qed.
Lemma mock_use_unlimited m : mk_up_to m = None → mock_use m = m.
Proof. destruct m as [? ? [?|]]; [done|]. by cbn. Qed.

(** A handler good for [n] requests in front of one without a limit: the first [n]
    requests get the one, every later request the other. *)
Theorem limited_then_fallback rq (m f : Mock) (n : Z) (s : Server) (k : nat) :
  0 ≤ n → mk_up_to m = Some n → mk_up_to f = None →
  forallb (matcher_accepts regex_match rq) (mk_matchers m) = true →
  mock_accepts regex_match rq f = true →
  mounted regex_match s = [m; f] →
  snd (ms_serve rq (server_after rq k s)) =
    (if Z.of_nat k <? n then mk_response m else mk_response f) ∧
  mounted regex_match (server_after rq k s) = [with_uses (Some (Z.max 0 (n - Z.of_nat k))) m; f].
Proof.
  intros Hn Hm Hf Hma Hfa Hs.
  assert (∀ j, 0 ≤ j → mock_accepts regex_match rq (with_uses (Some j) m) = (0 <? j)) as Hacc.
  { intros j Hj. unfold mock_accepts. cbn. by rewrite Hma. }
  assert (∀ j s, 0 ≤ j → mounted regex_match s = [with_uses (Some j) m; f] →
    snd (ms_serve rq s) = (if 0 <? j then mk_response m else mk_response f) ∧
    mounted regex_match (fst (ms_serve rq s)) = [with_uses (Some (Z.max 0 (j - 1))) m; f]) as Hstep.
  { intros j s' Hj Hs'. specialize (Hacc j Hj). destruct (Z.ltb_spec 0 j).
    - destruct (serve_head rq _ _ s' Hs' Hacc) as [-> ->]. split; [done|].
      replace (Z.max 0 (j - 1)) with (j - 1) by lia. done.
    - destruct (serve_second rq _ _ _ s' Hs' Hacc Hfa) as [-> ->].
      rewrite (mock_use_unlimited f) by done. by replace (Z.max 0 (j - 1)) with j by lia. }
  assert (mounted regex_match (server_after rq k s) = [with_uses (Some (Z.max 0 (n - Z.of_nat k))) m; f]) as Hk.
  { induction k as [|k IH].
    - cbn [server_after Nat.iter nat_rect]. replace (Z.max 0 (n - Z.of_nat 0)) with n by lia.
      rewrite Hs. unfold with_uses. rewrite <-Hm. by destruct m.
    - destruct (Hstep (Z.max 0 (n - Z.of_nat k)) _ ltac:(lia) IH) as [_ E].
      replace (Z.max 0 (n - Z.of_nat (S k))) with (Z.max 0 (Z.max 0 (n - Z.of_nat k) - 1)) by lia. exact E. }
  split; [|done]. destruct (Hstep (Z.max 0 (n - Z.of_nat k)) _ ltac:(lia) Hk) as [-> _].
  destruct (Z.ltb_spec 0 (Z.max 0 (n - Z.of_nat k))), (Z.ltb_spec (Z.of_nat k) n); done || lia.
Qed.

Lemma server_after_S rq k s : server_after rq (S k) s = server_after rq k (fst (ms_serve rq s)).
Proof. unfold server_after. by rewrite Nat.iter_succ_r. Qed.

Definition chat_request : HttpRequest := {| rq_method := "POST"; rq_path := chat_path |}.
Lemma chat_accepted : forallb (matcher_accepts regex_match chat_request) (post chat_path) = true.
Proof. done. Qed.

(** Mounting order decides what [inject_429_once] does.  Mounted before the happy path,
    the first request is rejected and every later one succeeds; mounted after it, as the
    comment on the function describes, the 429 is never served. *)
Theorem injection_order (display : string → string) (content : string) (i k : nat) :
  let happy := mount_chat_happy_path display content in
  let answer s := snd (ms_serve chat_request (server_after chat_request k s)) in
  answer (happy (inject_429_once (ms_start i))) =
    mk_response (if (k =? 0)%nat then rate_limited_mock (post chat_path) "rate limited"
                 else chat_happy display content) ∧
  answer (inject_429_once (happy (ms_start i))) = mk_response (chat_happy display content).
Proof.
  intros happy answer. unfold happy, answer, mount_chat_happy_path, inject_429_once. split.
  - destruct (limited_then_fallback chat_request (rate_limited_mock (post chat_path) "rate limited")
      (chat_happy display content) 1
      (ms_mount (chat_happy display content) (ms_mount (rate_limited_mock (post chat_path) "rate limited") (ms_start i))) k)
      as [-> _]; try done.
    + by rewrite !mount_mounted, start_mounted.
    + destruct (Z.ltb_spec (Z.of_nat k) 1), (Nat.eqb_spec k 0); done || lia.
  - set (s := ms_mount _ _).
    assert (mounted regex_match (server_after chat_request k s) =
      [chat_happy display content; rate_limited_mock (post chat_path) "rate limited"]) as Hk.
    { induction k as [|k IH]; [unfold s; cbn; by rewrite !mount_mounted, start_mounted|].
      by destruct (serve_head chat_request _ _ _ IH eq_refl) as [_ E]. }
    by destruct (serve_head chat_request _ _ _ Hk eq_refl) as [-> _].
Qed.
End observed.
