(* ===== verification/OpenAi.v ===== *)
(** * OpenAI runtime

    Models [inference-runtime-openai/src]: [wire.rs] (request construction, response
    types), [config.rs] (endpoint choice), [error.rs] (error refinement), [cost.rs]
    (price list) and [runner.rs] (chunk lifting, [execute], cost estimate).  The
    decoders of the response types are serde derivations: parameters. *)
From Stdlib Require Import SpecFloat.
From S2P Require Import Prelude F64 Runtime Tokens Deployment Audio Runner Classify Http.

Section openai.
Context {Json : Type} `{!JsonOps Json}.

(** ** Wire types (wire.rs) *)

Record ChatMessage : Type := { cm_role : string; cm_content : Json }.
Record ChatRequest : Type := {
  oq_model : string; oq_messages : list ChatMessage; oq_temperature : option spec_float;
  oq_top_p : option spec_float; oq_max_tokens : option Z; oq_stop : list string;
  oq_stream : bool; oq_seed : option Z
}.
Record PromptTokensDetails : Type := { cached : Z }.
Record CompletionTokensDetails : Type := { reasoning : Z }.
Record UsageDelta : Type := {
  prompt_tokens : Z; completion_tokens : Z;
  prompt_tokens_details : option PromptTokensDetails;
  completion_tokens_details : option CompletionTokensDetails
}.
Record ContentDelta : Type := { cd_content : option string; cd_tool_calls : option Json }.
Record ChoiceDelta : Type := { ch_delta : ContentDelta; ch_finish_reason : option string }.
Record ChatChunk : Type := { ck_id : string; ck_choices : list ChoiceDelta; ck_usage : option UsageDelta }.
Record ChatChoice : Type := { cc_message : ChatMessage; cc_finish_reason : option string }.
Record ChatResponse : Type := { cp_id : string; cp_choices : list ChatChoice; cp_usage : option UsageDelta }.
Definition ChatMessage_default : ChatMessage := {| cm_role := "assistant"; cm_content := v_null |}.

(** [serde_json::to_value] of one content part (derived, tagged by [type]). *)
Definition part_to_value (p : ContentPart) : Json :=
  match p with
  | CP_Text t => v_object [("type", v_string "text"); ("text", v_string t)]
  | CP_ImageBase64 mime data =>
      v_object [("type", v_string "image_base64"); ("mime", v_string mime); ("data", v_string data)]
  | CP_ImageUrl url => v_object [("type", v_string "image_url"); ("url", v_string url)]
  end.
Definition role_name (r : Role) : string :=
  match r with
  | Role_System => "system" | Role_User => "user" | Role_Assistant => "assistant" | Role_Tool => "tool"
  end.
Definition serialize_message (m : Message) : ChatMessage := {|
  cm_role := role_name (role m);
  cm_content := match content m with
                | MC_Text t => v_string t
                | MC_Parts parts => v_array (part_to_value <$> parts)
                end
|}.
Definition chat_from_batch (b : ExecuteBatch) : ChatRequest := {|
  oq_model := model b;
  oq_messages := serialize_message <$> messages b;
  oq_temperature := temperature (sampling b);
  oq_top_p := top_p (sampling b);
  oq_max_tokens := max_tokens (sampling b);
  oq_stop := stop (sampling b);
  oq_stream := stream b;
  oq_seed := seed (sampling b)
|}.

(** ** Lifting (runner.rs) *)

Definition map_finish_reason (s : string) : option FinishReason :=
  if decide (s = "stop" ∨ s = "end_turn") then Some Fin_Stop
  else if decide (s = "length") then Some Fin_Length
  else if decide (s = "tool_calls" ∨ s = "function_call") then Some Fin_ToolCalls
  else if decide (s = "content_filter") then Some Fin_ContentFilter
  else Some Fin_Stop.

(** The loops over the choices: text concatenated, the last choice's reason kept. *)
Definition choice_text (ch : ChoiceDelta) : string := default "" (cd_content (ch_delta ch)).
Definition lift_choices (cs : list ChoiceDelta) : string * option FinishReason :=
  foldl (λ '(text, fin) ch, (text +:+ choice_text ch, ch_finish_reason ch ≫= map_finish_reason))
    ("", None) cs.
Definition lift_usage (u : UsageDelta) : TokenUsage := {|
  input_tokens := prompt_tokens u;
  output_tokens := completion_tokens u;
  reasoning_tokens := default 0 (reasoning <$> completion_tokens_details u);
  cached_tokens := default 0 (cached <$> prompt_tokens_details u)
|}.

(** [serde_json::from_str] at the three types read; the error is its text. *)
Variable parse_chunk : string → result string ChatChunk.
Variable parse_response : HttpResponse → result string ChatResponse.

Definition lift_chunk (id : string) (sc : SseChunk) : option (InferenceResult (TokenChunk Json)) :=
  if decide (sse_data sc = "[DONE]") then None
  else
    match parse_chunk (sse_data sc) with
    | Err e => Some (Err (Internal ("openai chunk decode: " +:+ e)))
    | Ok parsed =>
        let '(text, fin) := lift_choices (ck_choices parsed) in
        Some (Ok {|
          c_request_id := id;
          text_delta := text;
          tool_call_delta := find_map (λ c, cd_tool_calls (ch_delta c)) (ck_choices parsed);
          usage := lift_usage <$> ck_usage parsed;
          finish_reason := fin
        |})
    end.

Definition unary_choices (cs : list ChatChoice) : string * option FinishReason :=
  foldl (λ '(text, fin) ch,
    (text +:+ default "" (as_str (cm_content (cc_message ch))), cc_finish_reason ch ≫= map_finish_reason))
    ("", None) cs.
Definition unary_usage (u : UsageDelta) : TokenUsage := {|
  input_tokens := prompt_tokens u; output_tokens := completion_tokens u;
  reasoning_tokens := 0; cached_tokens := 0
|}.
Definition unary_chunk (id : string) (parsed : ChatResponse) : TokenChunk Json :=
  let '(text, fin) := unary_choices (cp_choices parsed) in {|
    c_request_id := id;
    text_delta := text;
    tool_call_delta := None;
    usage := unary_usage <$> cp_usage parsed;
    finish_reason := match fin with Some f => Some f | None => Some Fin_Stop end
  |}.

(** ** Errors (error.rs) *)

Record ErrorBody : Type := { eb_message : string; eb_code : option string; eb_kind : option string }.
Variable parse_envelope : string → option ErrorBody.
Variable parse_rfc2822 : string → option Z.

Definition classify_openai_error (now : Z) (status : Z) (retry_after_header : option string)
    (body : option string) : InferenceError :=
  let retry_after := parse_retry_after parse_rfc2822 now retry_after_header in
  let generic := classify_http_status PK_OpenAi status retry_after body in
  if status =? 400 then
    match body ≫= parse_envelope with
    | Some env =>
        if decide (eb_code env = Some "context_length_exceeded") then ContextLengthExceeded 0 0
        else if decide (eb_kind env = Some "content_filter" ∨
                        eb_kind env = Some "content_filter_results_violation")
        then ContentFiltered (eb_message env)
        else generic
    | None => generic
    end
  else generic.

(** ** [execute] *)

(** [headers]: what [auth_headers] answers; the request goes out only if it is [Ok]. *)
Definition openai_execute (now : Z) (headers : InferenceResult unit) (answer : HttpAnswer)
    (batch : ExecuteBatch) : InferenceResult (RunHandle (TokenChunk Json)) :=
  match headers with
  | Err e => Err e
  | Ok _ =>
      match answer with
      | Err m => Err (NetworkError m)
      | Ok resp =>
          if is_success resp then
            if stream batch then
              Ok (streaming (lift_stream (lift_chunk (request_id batch))
                               (decode_sse_stream (resp_events resp))))
            else
              match parse_response resp with
              | Err e => Err (Internal ("openai response decode: " +:+ e))
              | Ok parsed => Ok (streaming [Ok (unary_chunk (request_id batch) parsed)])
              end
          else Err (classify_openai_error now (resp_status resp) (resp_retry_after resp) (resp_text resp))
      end
  end.

(** ** Streaming and unary answers *)

(** What one streamed chunk contributes: the text of its choices and the finish reason of
    the last one. *)
Definition concat_pieces (l : list string) : string := foldr (λ a b, a +:+ b) "" l.
Definition chunk_text (ck : ChatChunk) : string := concat_pieces (choice_text <$> ck_choices ck).
Definition chunk_reason (ck : ChatChunk) : option string := last (ck_choices ck) ≫= ch_finish_reason.
Definition data_event (d : string) : SseIn := SI_Event {| ev_event := ""; ev_data := d |}.
(** What a client accumulates from a runner's stream. *)
Definition accumulate (items : list (InferenceResult (TokenChunk Json))) : Tokens :=
  foldl tokens_append Tokens_default (omap result_ok items).

Definition lifted (rid : string) (ck : ChatChunk) : TokenChunk Json := {|
  c_request_id := rid; text_delta := chunk_text ck;
  tool_call_delta := find_map (λ c, cd_tool_calls (ch_delta c)) (ck_choices ck);
  usage := lift_usage <$> ck_usage ck; finish_reason := chunk_reason ck ≫= map_finish_reason
|}.
Lemma lift_choices_spec cs :
  lift_choices cs = (concat_pieces (choice_text <$> cs), (last cs ≫= ch_finish_reason) ≫= map_finish_reason).
Proof.
  unfold lift_choices.
  assert (∀ t f, foldl (λ '(text, fin) ch, (text +:+ choice_text ch, ch_finish_reason ch ≫= map_finish_reason)) (t, f) cs
    = (t +:+ concat_pieces (choice_text <$> cs),
       match last cs with Some c => ch_finish_reason c ≫= map_finish_reason | None => f end)) as H.
  { induction cs as [|c cs IH]; intros t f; cbn [foldl fmap list_fmap concat_pieces foldr].
    - by rewrite string_app_nil_r.
    - rewrite IH, last_cons, string_app_assoc. by destruct (last cs). }
  rewrite H. by destruct (last cs).
Qed.
Lemma lift_one rid d ck :
  d ≠ "[DONE]" → parse_chunk d = Ok ck →
  lift_chunk rid {| sse_event := None; sse_data := d |} = Some (Ok (lifted rid ck)).
Proof. intros Hd Hp. unfold lift_chunk. cbn [sse_data]. by rewrite decide_False, Hp, lift_choices_spec. Qed.
Lemma lift_stream_event {B} (f : SseChunk → option (InferenceResult B)) d l :
  lift_stream f (decode_sse_stream (data_event d :: l)) =
  match f {| sse_event := None; sse_data := d |} with
  | Some y => y :: lift_stream f (decode_sse_stream l)
  | None => lift_stream f (decode_sse_stream l)
  end.
Proof. done. Qed.

Lemma lift_all rid (cks : list (string * ChatChunk)) :
  Forall (λ '(d, ck), d ≠ "[DONE]" ∧ parse_chunk d = Ok ck) cks →
  lift_stream (lift_chunk rid) (decode_sse_stream (data_event ∘ fst <$> cks)) = Ok <$> (lifted rid ∘ snd <$> cks).
Proof.
  induction 1 as [|[d ck] cks [Hd Hp] _ IH]; [done|]. cbn [fmap list_fmap compose fst snd].
  rewrite lift_stream_event, (lift_one _ _ ck) by done. by f_equal.
Qed.
(** What a client makes of lifted chunks of which one has a finish reason and one a usage. *)
Lemma accumulate_lifted rid (cks : list ChatChunk) reason u :
  omap chunk_reason cks = [reason] → omap ck_usage cks = [u] →
  let t := foldl tokens_append Tokens_default (lifted rid <$> cks) in
  t_text t = concat_pieces (chunk_text <$> cks) ∧ t_finish_reason t = map_finish_reason reason ∧
  t_usage t = usage_add TokenUsage_default (lift_usage u).
Proof.
  intros Hr Hu. cbv zeta.
  assert (∃ fin, map_finish_reason reason = Some fin) as [fin Hfin].
  { unfold map_finish_reason. repeat case_decide; eauto. }
  change (foldl tokens_append Tokens_default (lifted rid <$> cks)) with (tokens_of Tokens_default (lifted rid <$> cks)).
  split_and!.
  - rewrite tokens_of_text. change (concat_text (lifted rid <$> cks) = concat_pieces (chunk_text <$> cks)).
    clear. induction cks as [|ck cks IH]; [done|].
    change (chunk_text ck +:+ concat_text (lifted rid <$> cks) = chunk_text ck +:+ concat_pieces (chunk_text <$> cks)).
    by rewrite IH.
  - rewrite tokens_of_finish.
    assert (omap finish_reason (lifted rid <$> cks) = omap map_finish_reason (omap chunk_reason cks)) as ->.
    { clear. induction cks as [|ck cks IH]; [done|]. cbn. destruct (chunk_reason ck) as [r|]; cbn; [|done].
      destruct (map_finish_reason r); [by f_equal|done]. }
    rewrite Hr. cbn. by rewrite Hfin.
  - assert (∀ t, t_usage (tokens_of t (lifted rid <$> cks)) = foldl usage_add (t_usage t) (lift_usage <$> omap ck_usage cks)) as H.
    { clear. unfold tokens_of. induction cks as [|ck cks IH]; intros t; [done|]. cbn [fmap list_fmap foldl].
      rewrite IH. cbn. by destruct (ck_usage ck). }
    by rewrite H, Hu.
Qed.
Lemma omap_result_ok {A} (l : list A) : omap result_ok (Ok (E:=InferenceError) <$> l) = l.
Proof. induction l as [|x l IH]; [done|]. cbn. by f_equal. Qed.

(** [C24] Streaming and unary answers agree.  Let a successful response stream any chunks
    that decode - whatever their ids, with or without content, an opening role, or no
    choices at all - of which one carries the finish reason and one, the same or another,
    the usage; the terminator may follow.  Then every item the client gets is a chunk, the
    terminator yields none, and it accumulates the same text, finish reason and
    input/output counts as from any unary response, whatever its id and role, with the
    whole text, that reason and that usage.  The cached and reasoning counts survive only
    in the stream. *)
Theorem openai_stream_matches_unary (now : Z) (b : ExecuteBatch) (resp_s resp_u : HttpResponse)
    (cks : list (string * ChatChunk)) (terminator : list SseIn) (reason id_u role_u : string) (u : UsageDelta) :
  (∀ s, as_str (v_string s) = Some s) →
  is_success resp_s = true → is_success resp_u = true →
  Forall (λ '(d, ck), d ≠ "[DONE]" ∧ parse_chunk d = Ok ck) cks →
  omap chunk_reason cks.*2 = [reason] → omap ck_usage cks.*2 = [u] →
  (terminator = [] ∨ terminator = [data_event "[DONE]"]) →
  resp_events resp_s = (data_event ∘ fst <$> cks) ++ terminator →
  let text := concat_pieces (chunk_text <$> cks.*2) in
  parse_response resp_u = Ok {| cp_id := id_u; cp_usage := Some u; cp_choices := [
    {| cc_message := {| cm_role := role_u; cm_content := v_string text |}; cc_finish_reason := Some reason |}] |} →
  let set_stream v := {| request_id := request_id b; model := model b; messages := messages b;
    sampling := sampling b; stream := v; estimated_tokens_field := estimated_tokens_field b |} in
  ∃ hs hu,
    openai_execute now (Ok ()) (Ok resp_s) (set_stream true) = Ok hs ∧
    openai_execute now (Ok ()) (Ok resp_u) (set_stream false) = Ok hu ∧
    length (into_stream hs) = length cks ∧ Forall (λ i, is_ok i = true) (into_stream hs) ∧
    let ts := accumulate (into_stream hs) in let tu := accumulate (into_stream hu) in
    t_text ts = text ∧ t_text tu = t_text ts ∧
    t_finish_reason tu = t_finish_reason ts ∧ t_finish_reason ts = map_finish_reason reason ∧
    t_usage ts = usage_add TokenUsage_default (lift_usage u) ∧
    t_usage tu = usage_add TokenUsage_default (unary_usage u).
Proof.
  intros Hjs Hss Hsu Hp Hr Hus Hterm Hev text Hu set_stream.
  unfold openai_execute. rewrite Hss, Hsu, Hu. cbn [set_stream stream request_id].
  do 2 eexists. split; [reflexivity|]. split; [reflexivity|]. cbn [into_stream streaming rh_inner].
  assert (lift_stream (lift_chunk (request_id b)) (decode_sse_stream (resp_events resp_s)) =
    Ok <$> (lifted (request_id b) ∘ snd <$> cks)) as ->.
  { rewrite Hev, <-(lift_all _ _ Hp). destruct Hterm as [->| ->]; [by rewrite app_nil_r|].
    unfold decode_sse_stream. rewrite fmap_app, lift_stream_app. cbn. by rewrite app_nil_r. }
  split; [by rewrite !length_fmap|]. split; [apply Forall_fmap, Forall_true; done|]. cbv zeta. unfold accumulate.
  rewrite omap_result_ok, list_fmap_compose.
  destruct (accumulate_lifted (request_id b) cks.*2 reason u Hr Hus) as (-> & -> & ->).
  assert (∃ fin, map_finish_reason reason = Some fin) as [fin Hfin].
  { unfold map_finish_reason. repeat case_decide; eauto. }
  unfold unary_chunk, unary_choices. cbn [cp_choices foldl cc_message cm_content cc_finish_reason mbind option_bind].
  rewrite Hjs, Hfin. cbn. done.
Qed.

(** ** Configuration (config.rs) *)

Inductive SecretRef : Type :=
  | SR_Env (name : string) | SR_File (path : string) | SR_Inline (value : string).
Context {Url ParseError : Type}.
Variable url_join : Url → string → result ParseError Url.
Variable url_parse : string → result ParseError Url.
Inductive OpenAiVariant : Type :=
  | OV_Direct (endpoint : Url)
  | OV_Azure (resource deployment api_version : string).
Definition chat_completions_url (v : OpenAiVariant) : result ParseError Url :=
  match v with
  | OV_Direct endpoint => url_join endpoint "chat/completions"
  | OV_Azure resource deployment api_version =>
      url_parse ("https://" +:+ resource +:+ ".openai.azure.com/openai/deployments/" +:+ deployment +:+
                 "/chat/completions?api-version=" +:+ api_version)
  end.
Record OpenAiConfig : Type := {
  oc_variant : OpenAiVariant;
  oc_api_key : SecretRef;
  oc_organization : option string;
  oc_project : option string;
  oc_rate_limits : RateLimits;
  oc_retry : RetryPolicy;
  oc_circuit_breaker : CircuitBreakerConfig;
  oc_timeouts : Timeouts
}.
(** [None]: the static URL did not parse, a panic. *)
Definition defaults_for_openai (key : SecretRef) : option OpenAiConfig :=
  match url_parse "https://api.openai.com/v1/" with
  | Err _ => None
  | Ok u => Some {|
      oc_variant := OV_Direct u; oc_api_key := key; oc_organization := None; oc_project := None;
      oc_rate_limits := RateLimits_default; oc_retry := RetryPolicy_default;
      oc_circuit_breaker := CircuitBreakerConfig_default; oc_timeouts := Timeouts_default |}
  end.
Definition with_endpoint (c : OpenAiConfig) (u : Url) : OpenAiConfig := {|
  oc_variant := match oc_variant c with OV_Direct _ => OV_Direct u | v => v end;
  oc_api_key := oc_api_key c; oc_organization := oc_organization c; oc_project := oc_project c;
  oc_rate_limits := oc_rate_limits c; oc_retry := oc_retry c;
  oc_circuit_breaker := oc_circuit_breaker c; oc_timeouts := oc_timeouts c
|}.
End openai.
Arguments ChatChunk Json : clear implicits.
Arguments ChatResponse Json : clear implicits.

(** ** The runner (runner.rs) *)

(** [auth_headers]; [header_value] is [HeaderValue::from_str], known by its error. *)
Definition auth_headers (header_value : string → result string unit) (token : string)
    (organization project : option string) : InferenceResult (list (string * string)) :=
  let checked what name v :=
    match header_value v with
    | Ok _ => Ok [(name, v)]
    | Err e => Err (Internal (what +:+ ": " +:+ e))
    end in
  let? h := checked "invalid bearer token" "authorization" ("Bearer " +:+ token) in
  let? o := match organization with
            | Some org => checked "invalid org header" "openai-organization" org | None => Ok [] end in
  let? p := match project with
            | Some proj => checked "invalid project header" "openai-project" proj | None => Ok [] end in
  Ok (h ++ o ++ p).

Section runner.
Context {Url ParseError : Type}.
Variables (url_join : Url → string → result ParseError Url) (url_parse : string → result ParseError Url).
Variable display_error : ParseError → string.
(** The credential of the shared snapshot, and the URL computed once. *)
Record OpenAiRunner : Type := { or_config : OpenAiConfig (Url := Url); or_session : string; or_chat_url : Url }.
Definition openai_new (config : OpenAiConfig) (session : string) : InferenceResult OpenAiRunner :=
  match chat_completions_url url_join url_parse (oc_variant config) with
  | Ok u => Ok {| or_config := config; or_session := session; or_chat_url := u |}
  | Err e => Err (Internal ("openai endpoint url: " +:+ display_error e))
  end.
Definition openai_auth_headers (header_value : string → result string unit) (r : OpenAiRunner) :=
  auth_headers header_value (or_session r) (oc_organization (or_config r)) (oc_project (or_config r)).
Definition openai_base : RunnerBase OpenAiRunner := {|
  runner_kind _ := RK_OpenAi;
  runner_transport _ := TK_RemoteNetwork PK_OpenAi;
  rebuild_session r _ := (r, Ok ());
  rate_limits r := Some (oc_rate_limits (or_config r))
|}.
End runner.

(** ** Prices (cost.rs) *)

Record ModelPrice : Type := { input_per_mtok_usd : f64; output_per_mtok_usd : f64 }.
Definition price (i o : Z) : ModelPrice :=
  {| input_per_mtok_usd := f64_lit i 100; output_per_mtok_usd := f64_lit o 100 |}.
Definition openai_PRICING : list (string * ModelPrice) := [
  ("gpt-4o", price 250 1000); ("gpt-4o-mini", price 15 60); ("gpt-4-turbo", price 1000 3000);
  ("o1-preview", price 1500 6000); ("o1-mini", price 300 1200)].
Definition estimate_with (table : list (string * ModelPrice)) (b : ExecuteBatch) : f64 :=
  match price_lookup table (model b) with
  | Some p => usd (from_rates (input_per_mtok_usd p) (output_per_mtok_usd p) b)
  | None => S754_zero false
  end.
Definition openai_estimate_cost_usd : ExecuteBatch → f64 := estimate_with openai_PRICING.

(** ** Witness *)

Definition demo_usage : UsageDelta := {|
  prompt_tokens := 3; completion_tokens := 2;
  prompt_tokens_details := Some {| cached := 1 |}; completion_tokens_details := None
|}.
Definition demo_chunk (content reason : option string) (u : option UsageDelta) : ChatChunk DemoJson := {|
  ck_id := "chatcmpl-1"; ck_usage := u;
  ck_choices := [{| ch_delta := {| cd_content := content; cd_tool_calls := None |}; ch_finish_reason := reason |}]
|}.
(** The role first, two pieces, the finish reason, and the usage in a chunk without
    choices; and the one chunk of the testkit's mock. *)
Definition demo_parse_chunk (d : string) : result string (ChatChunk DemoJson) :=
  if decide (d = "0") then Ok (demo_chunk (Some "") None None)
  else if decide (d = "1") then Ok (demo_chunk (Some "Hel") None None)
  else if decide (d = "2") then Ok (demo_chunk (Some "lo") None None)
  else if decide (d = "3") then Ok (demo_chunk None (Some "stop") None)
  else if decide (d = "4") then Ok {| ck_id := "chatcmpl-1"; ck_usage := Some demo_usage; ck_choices := [] |}
  else if decide (d = "mock") then Ok (demo_chunk (Some "Hello") (Some "stop") (Some demo_usage))
  else Err "bad".
Definition demo_parse_response (r : HttpResponse) : result string (ChatResponse DemoJson) :=
  Ok {| cp_id := "chatcmpl-2"; cp_usage := Some demo_usage; cp_choices := [
    {| cc_message := {| cm_role := "assistant"; cm_content := DJ_String "Hello" |};
       cc_finish_reason := Some "stop" |}] |}.
Definition demo_response (evs : list SseIn) : HttpResponse :=
  {| resp_status := 200; resp_retry_after := None; resp_text := None; resp_events := evs |}.
Definition demo_batch : ExecuteBatch := {| request_id := "r"; model := "m"; messages := [];
  sampling := SamplingParams_default; stream := true; estimated_tokens_field := 1 |}.
Definition demo_read (d : string) : string * ChatChunk DemoJson :=
  (d, default (demo_chunk None None None) (result_ok (demo_parse_chunk d))).

Lemma demo_reads_ok (ds : list string) :
  Forall (λ d, bool_decide (d ≠ "[DONE]") && is_ok (demo_parse_chunk d) = true) ds →
  Forall (λ '(d, ck), d ≠ "[DONE]" ∧ demo_parse_chunk d = Ok ck) (demo_read <$> ds).
Proof.
  intros H. apply Forall_fmap. eapply Forall_impl; [exact H|]. intros d [Hd Hp]%andb_true_iff.
  apply bool_decide_eq_true in Hd. cbn. split; [done|]. by destruct (demo_parse_chunk d).
Qed.
Lemma openai_stream_matches_unary_witness :
  (∃ hs : RunHandle (TokenChunk DemoJson),
    length (into_stream hs) = 5%nat ∧ t_text (accumulate (into_stream hs)) = "Hello" ∧
    t_finish_reason (accumulate (into_stream hs)) = Some Fin_Stop) ∧
  ∃ hs : RunHandle (TokenChunk DemoJson),
    length (into_stream hs) = 1%nat ∧ t_text (accumulate (into_stream hs)) = "Hello".
Proof.
  split.
  - destruct (@openai_stream_matches_unary DemoJson DemoJson_ops demo_parse_chunk demo_parse_response (λ _, None) (λ _, None) 0
      demo_batch (demo_response (data_event <$> ["0"; "1"; "2"; "3"; "4"; "[DONE]"])) (demo_response [])
      (demo_read <$> ["0"; "1"; "2"; "3"; "4"]) [data_event "[DONE]"] "stop" "chatcmpl-2" "assistant" demo_usage
      (λ s, eq_refl) eq_refl eq_refl (demo_reads_ok ["0"; "1"; "2"; "3"; "4"] ltac:(by repeat constructor)) eq_refl eq_refl (or_intror eq_refl) eq_refl eq_refl)
      as (hs & hu & _ & _ & Hl & _ & Ht & _ & _ & Hf & _).
    exists hs. split; [exact Hl|]. split; [rewrite Ht; reflexivity|rewrite Hf; reflexivity].
  - destruct (@openai_stream_matches_unary DemoJson DemoJson_ops demo_parse_chunk demo_parse_response (λ _, None) (λ _, None) 0
      demo_batch (demo_response (data_event <$> ["mock"; "[DONE]"])) (demo_response [])
      (demo_read <$> ["mock"]) [data_event "[DONE]"] "stop" "chatcmpl-2" "assistant" demo_usage
      (λ s, eq_refl) eq_refl eq_refl (demo_reads_ok ["mock"] ltac:(by repeat constructor)) eq_refl eq_refl (or_intror eq_refl) eq_refl eq_refl)
      as (hs & hu & _ & _ & Hl & _ & Ht & _).
    exists hs. split; [exact Hl|]. rewrite Ht. reflexivity.
Defined.
