(* ===== verification/RemoteDemo.v ===== *)
(** * The remote-only demo

    Models [src/examples/remote_only_demo/src/main.rs], which puts the remote path
    together: a session, an [OpenAi] runner against the mock server of [MockOpenAi], the
    retry engine of [Backoff] and the breaker of [CircuitBreaker].  What the program
    prints and how long it sleeps is a list of events.  The HTTP client is a parameter:
    what a runner sees of the mock's response.  The two drivers are stated for any
    runner. *)
From S2P Require Import Prelude F64 Runtime Tokens Text Deployment Audio Runner.
From S2P Require Import Session Backoff Classify CircuitBreaker Worker Http MockOpenAi OpenAi.

(** What the demo prints, line by line, and its sleeps. *)
Inductive Event : Type :=
  | E_Title (s : string)
  | E_Delta (s : string)                        (* [print!("{}", c.text_delta)] *)
  | E_StreamErr (e : InferenceError)
  | E_NewLine
  | E_Attempt (n : Attempt) (e : InferenceError)
  | E_Sleep (d : Duration)
  | E_Call (i : nat) (r : InferenceResult unit) (st : CircuitState)
  | E_Final (st : CircuitState).

Definition batch (now_ms : Z) (prompt : string) (streamed : bool) : ExecuteBatch := {|
  request_id := "req-" +:+ pretty now_ms;
  model := "gpt-4o-mini";
  messages := [{| role := Role_User; content := MC_Text prompt |}];
  sampling := {| temperature := None; top_p := None; top_k := None; max_tokens := Some 64; stop := [];
                 presence_penalty := None; frequency_penalty := None; seed := None |};
  stream := streamed;
  estimated_tokens_field := 16
|}.

(** ** The drivers *)

Section drivers.
Context {Json World : Type}.
(** [runner.execute(b.clone())]; the state is the runner with what it talks to. *)
Variable run : World → World * InferenceResult (RunHandle (TokenChunk Json)).

(** [while let Some(item) = s.next().await], then the line end. *)
Definition item_event (i : InferenceResult (TokenChunk Json)) : Event :=
  match i with Ok c => E_Delta (text_delta c) | Err e => E_StreamErr e end.
Definition print_stream (h : RunHandle (TokenChunk Json)) : list Event :=
  (item_event <$> into_stream h) ++ [E_NewLine].

Definition drain_one (s : World) : World * list Event * InferenceResult unit :=
  let '(s', r) := run s in
  match r with
  | Ok h => (s', print_stream h, Ok ())
  | Err e => (s', [], Err e)
  end.

(** [None] only when the fuel runs out. *)
Fixpoint drive_with_retries (fuel : nat) (engine : RetryEngine) (attempt : Attempt) (s : World) :
  option (World * list Event * InferenceResult unit) :=
  match fuel with
  | O => None
  | S fuel' =>
      let '(s', r) := run s in
      match r with
      | Ok h => Some (s', print_stream h, Ok ())
      | Err e =>
          match decide_retry engine attempt e with
          | Retry d =>
              '(s2, out, res) ← drive_with_retries fuel' engine (wrap_u32 (attempt + 1)) s';
              Some (s2, E_Attempt attempt e :: E_Sleep d :: out, res)
          | GiveUp => Some (s', [E_Attempt attempt e], Err e)
          end
      end
  end.

(** One [breaker.run(|| runner.execute(..))]: the runner is only run past the gate. *)
Definition breaker_call (h : CircuitBreakerHandle) (c : RunClock) (s : World) :
  CircuitBreakerHandle * World * InferenceResult unit :=
  let '(s', r) := run s in
  let '(h', res) := cb_run h c (λ _, (λ _, ()) <$> r) in
  (h', if is_ok (cb_check h (rc_now1 c) (rc_now2 c) (rc_utc_ms c) (rc_now3 c)) then s' else s, res).

(** [for i in 0..n]: the clock readings of call [i], those of [state()] after it, and
    those of the last line. *)
Record BreakerClocks : Type := {
  bk_call : nat → RunClock; bk_state : nat → Instant * Instant; bk_final : Instant * Instant
}.
Definition state_at (h : CircuitBreakerHandle) (t : Instant * Instant) : CircuitState :=
  cb_state h (fst t) (snd t).
Fixpoint breaker_loop (n i : nat) (k : BreakerClocks) (h : CircuitBreakerHandle) (s : World) :
  CircuitBreakerHandle * World * list Event :=
  match n with
  | O => (h, s, [E_Final (state_at h (bk_final k))])
  | S n' =>
      let '(h', s', r) := breaker_call h (bk_call k i) s in
      let '(h2, s2, out) := breaker_loop n' (S i) k h' s' in
      (h2, s2, E_Call i r (state_at h' (bk_state k i)) :: out)
  end.
Definition drive_with_breaker (k : BreakerClocks) (h : CircuitBreakerHandle) (s : World) :
  CircuitBreakerHandle * World * list Event := breaker_loop 4 0 k h s.
End drivers.

(** ** The program *)

Section demo.
Context {Json : Type} `{!JsonOps Json} {Server : Type} `{!WireMock Server}.
Context {Client ReqwestError Url ParseError : Type}.
(** The URL crate, the client builder, [HeaderValue::from_str]. *)
Variables (url_join : Url → string → result ParseError Url) (url_parse : string → result ParseError Url).
Variables (url_path : Url → string) (display_parse : ParseError → string).
Variable build_client : Timeouts → string → result ReqwestError Client.
Variable header_value : string → result string unit.
(** What the client makes of the mock's response. *)
Variable receive : ResponseTemplate → HttpAnswer.
(** The decoders of the runner. *)
Variables (parse_chunk : string → result string (ChatChunk Json))
          (parse_response : HttpResponse → result string (ChatResponse Json))
          (parse_envelope : string → option ErrorBody) (parse_rfc2822 : string → option Z).
Variable display_string : string → string.

Inductive DemoError : Type :=
  | DE_Client (e : ReqwestError) | DE_Url (e : ParseError) | DE_Inference (e : InferenceError).

Definition slash_char : ascii := ascii_of_N 47.
Definition demo_config (endpoint : Url) : OpenAiConfig (Url := Url) := {|
  oc_variant := OV_Direct endpoint;
  oc_api_key := SR_Inline "sk-mock";
  oc_organization := None; oc_project := None;
  oc_rate_limits := RateLimits_default; oc_retry := RetryPolicy_default;
  oc_circuit_breaker := CircuitBreakerConfig_default; oc_timeouts := Timeouts_default
|}.
Definition build_runner (base_url : string) : result DemoError (OpenAiRunner (Url := Url)) :=
  let? client := map_err DE_Client (build_client Timeouts_default "atomr-infer-demo/0.1.0") in
  let? token := map_err DE_Inference (snd (StaticApiKey_token "sk-mock" ())) in
  let? endpoint := map_err DE_Url (url_parse (trim_end_matches slash_char base_url +:+ "/v1/")) in
  map_err DE_Inference (openai_new url_join url_parse display_parse (demo_config endpoint) token).

(** [execute] of the runner against a server; [now] is the wall clock. *)
Definition execute_on (r : OpenAiRunner (Url := Url)) (now : Z) (b : ExecuteBatch) (s : Server) :
  Server * InferenceResult (RunHandle (TokenChunk Json)) :=
  let headers := (λ _, ()) <$> openai_auth_headers header_value r in
  let execute := openai_execute parse_chunk parse_response parse_envelope parse_rfc2822 now headers in
  match headers with
  | Err _ => (s, execute (Err "") b)
  | Ok _ =>
      let '(s', t) := ms_serve {| rq_method := "POST"; rq_path := url_path (or_chat_url r) |} s in
      (s', execute (receive t) b)
  end.

Definition demo_policy : RetryPolicy := {|
  max_retries := 3;
  initial_backoff := from_millis 50;
  max_backoff := from_secs 2;
  backoff_multiplier := f64_of_Z 2;
  jitter := Jitter_None;
  respect_retry_after := true
|}.
Definition demo_breaker : CircuitBreakerConfig :=
  {| failure_threshold := 3; open_duration := from_secs 5; half_open_max_probes := 1 |}.

(** The readings of the program: request ids, the wall clock of the retry scenario, the
    breaker's epoch and its calls. *)
Record DemoClock : Type := {
  dc_ids : nat → Z; dc_wall : Z; dc_epoch : Instant; dc_breaker : BreakerClocks
}.

(** [main]: the events up to the end or the first error; [None] is out of fuel. *)
Definition Outcome : Type := list Event * result DemoError unit.
Definition before (out : list Event) (rest : Outcome) : Outcome := (out ++ fst rest, snd rest).

Definition breaker_scenario (c : DemoClock) : Outcome :=
  let burst := mount_chat_happy_path display_string "ignored — breaker is open"
                 (inject_5xx_once 5 (ms_start 2)) in
  match build_runner (ms_uri burst) with
  | Err e => ([], Err e)
  | Ok runner =>
      let breaker := cb_new PK_OpenAi demo_breaker (dc_epoch c) in
      let b := batch (dc_ids c 2) "hi" true in
      let '(_, _, out) := drive_with_breaker (execute_on runner (dc_wall c) b) (dc_breaker c) breaker burst in
      (E_Title "== circuit breaker ==" :: out, Ok ())
  end.
Definition retry_scenario (c : DemoClock) : option Outcome :=
  let throttle := mount_chat_happy_path display_string "succeeded after retry"
                    (inject_429_once (ms_start 1)) in
  match build_runner (ms_uri throttle) with
  | Err e => Some ([], Err e)
  | Ok runner =>
      let engine := RetryEngine_new demo_policy true in
      let b := batch (dc_ids c 1) "hi" true in
      '(_, out, r) ← drive_with_retries (execute_on runner (dc_wall c) b) (retry_fuel engine) engine 0 throttle;
      Some (match r with
            | Ok _ => before (E_Title "== 429 retry ==" :: out) (breaker_scenario c)
            | Err e => (E_Title "== 429 retry ==" :: out, Err (DE_Inference e))
            end)
  end.
Definition demo_main (c : DemoClock) : option Outcome :=
  let happy := mount_chat_happy_path display_string "Hello from the mock!" (ms_start 0) in
  match build_runner (ms_uri happy) with
  | Err e => Some ([], Err e)
  | Ok runner =>
      let '(_, out, r) := drain_one (execute_on runner (dc_wall c) (batch (dc_ids c 0) "hi" true)) happy in
      match r with
      | Err e => Some (E_Title "== happy path ==" :: out, Err (DE_Inference e))
      | Ok _ => before (E_Title "== happy path ==" :: out) <$> retry_scenario c
      end
  end.
End demo.

(** ** The retry driver, for any runner *)

Section retry_driver.
Context {Json World : Type} (run : World → World * InferenceResult (RunHandle (TokenChunk Json))).
Context (policy : RetryPolicy) (idem : bool).
Abbreviation engine := (RetryEngine_new policy idem).

Definition world_after (k : nat) (s : World) : World := Nat.iter k (λ s, fst (run s)) s.
Definition outcome (k : nat) (s : World) : InferenceResult (RunHandle (TokenChunk Json)) :=
  snd (run (world_after k s)).
Lemma world_after_S k s : world_after (S k) s = world_after k (fst (run s)).
Proof. unfold world_after. by rewrite Nat.iter_succ_r. Qed.
Lemma outcome_S k s : outcome (S k) s = outcome k (fst (run s)).
Proof. unfold outcome. by rewrite world_after_S. Qed.

(** The lines of the attempts that were retried, from attempt [a]. *)
Fixpoint retry_log (a : Z) (steps : list (InferenceError * Duration)) : list Event :=
  match steps with
  | [] => []
  | (e, d) :: r => E_Attempt a e :: E_Sleep d :: retry_log (a + 1) r
  end.
(** [steps] are the first outcomes, each an error the engine retries after that delay. *)
Definition retried (a : Z) (s : World) (steps : list (InferenceError * Duration)) : Prop :=
  ∀ i e d, steps !! i = Some (e, d) →
    outcome i s = Err e ∧ decide_retry engine (a + Z.of_nat i) e = Retry d.

Lemma retried_cons a s e d steps :
  snd (run s) = Err e → decide_retry engine a e = Retry d →
  retried (a + 1) (fst (run s)) steps → retried a s ((e, d) :: steps).
Proof.
  intros Ho Hd Hr [|i] e' d' Hi; cbn in Hi; simplify_eq.
  - rewrite Z.add_0_r. done.
  - destruct (Hr i e' d' Hi) as [H1 H2]. rewrite outcome_S. split; [done|].
    by replace (a + Z.of_nat (S i)) with (a + 1 + Z.of_nat i) by lia.
Qed.

Lemma drive_spec_from (fuel : nat) (a : Z) (s : World) :
  max_retries policy ≤ U32_MAX → 0 ≤ a ≤ Z.max 0 (max_retries policy) →
  Z.max 0 (max_retries policy) - a < Z.of_nat fuel →
  ∃ steps, retried a s steps ∧ a + Z.of_nat (length steps) ≤ Z.max 0 (max_retries policy) ∧
    let n := length steps in
    let world := world_after (S n) s in
    match outcome n s with
    | Ok h => drive_with_retries run fuel engine a s =
                Some (world, retry_log a steps ++ print_stream h, Ok ())
    | Err e => decide_retry engine (a + Z.of_nat n) e = GiveUp ∧
               drive_with_retries run fuel engine a s =
                 Some (world, retry_log a steps ++ [E_Attempt (a + Z.of_nat n) e], Err e)
    end.
Proof.
  intros Hu. revert a s. induction fuel as [|fuel IH]; intros a s Ha Hf; [lia|].
  cbn [drive_with_retries]. destruct (run s) as [s' r] eqn:Er.
  assert (outcome 0 s = r ∧ world_after 1 s = s') as [Ho Hw] by (unfold outcome, world_after; cbn; by rewrite Er).
  destruct r as [h|e].
  - exists []. split; [intros ???; done|]. split; [cbn; lia|]. cbv zeta. cbn [length]. by rewrite Ho, Hw.
  - destruct (decide_retry engine a e) as [d|] eqn:Ed.
    + pose proof (decide_retry_bound _ _ _ _ _ Ed) as Hlt.
      assert (wrap_u32 (a + 1) = a + 1) as -> by (apply wrap_id; unfold is_u, U32_MAX in *; lia).
      destruct (IH (a + 1) s' ltac:(lia) ltac:(lia)) as (steps & Hr & Hn & Hm).
      exists ((e, d) :: steps). split; [apply retried_cons; by rewrite ?Er|].
      split; [cbn [length]; lia|]. cbv zeta in Hm |- *. cbn [length].
      rewrite outcome_S, world_after_S, Er. cbn [fst].
      replace (a + Z.of_nat (S (length steps))) with (a + 1 + Z.of_nat (length steps)) by lia.
      destruct (outcome (length steps) s') as [h'|e'].
      * rewrite Hm. done.
      * destruct Hm as [Hg ->]. done.
    + exists []. split; [intros ???; done|]. split; [cbn; lia|]. cbv zeta. cbn [length].
      rewrite Ho, Hw, Z.add_0_r. done.
Qed.
End retry_driver.

(** The retry driver always ends, whatever the runner and the server do: it stops at
    the first attempt that is answered, or that the engine gives up on, after at most
    [max_retries] retries; it prints each failed attempt with its number and sleeps the
    delay the engine decided, then prints the whole stream and succeeds, or returns that
    last error; the runner is called once per attempt and no more. *)
Theorem retry_driver_ends {Json World : Type} (run : World → World * InferenceResult (RunHandle (TokenChunk Json)))
    (policy : RetryPolicy) (idem : bool) (s : World) :
  0 ≤ max_retries policy ≤ U32_MAX →
  let engine := RetryEngine_new policy idem in
  ∃ steps, retried run policy idem 0 s steps ∧ Z.of_nat (length steps) ≤ max_retries policy ∧
    let n := length steps in
    let world := world_after run (S n) s in
    match outcome run n s with
    | Ok h => drive_with_retries run (retry_fuel engine) engine 0 s =
                Some (world, retry_log 0 steps ++ print_stream h, Ok ())
    | Err e => decide_retry engine (Z.of_nat n) e = GiveUp ∧
               drive_with_retries run (retry_fuel engine) engine 0 s =
                 Some (world, retry_log 0 steps ++ [E_Attempt (Z.of_nat n) e], Err e)
    end.
Proof.
  intros Hm engine.
  destruct (drive_spec_from run policy idem (retry_fuel engine) 0 s) as (steps & Hr & Hn & H);
    [lia|lia|unfold retry_fuel; cbn; lia|].
  exists steps. split; [done|]. split; [lia|]. exact H.
Qed.

(** ** The breaker driver, for any runner *)

Section breaker_driver.
Context {Json World : Type} (run : World → World * InferenceResult (RunHandle (TokenChunk Json))).

Lemma breaker_call_closed h c s e :
  in_range h (rc_now2 c) → cb_opened_at_ns h = 0 →
  snd (run s) = Err e → counts_as_circuit_failure e = true →
  breaker_call run h c s = (record_failure h (rc_now4 c), fst (run s), Err e).
Proof.
  intros Hr Ho He Hc. unfold breaker_call. destruct (run s) as [s' r]. cbn in He. subst r.
  assert (cb_state h (rc_now1 c) (rc_now2 c) = CS_Closed) as Hs.
  { rewrite abstract_state by done. unfold abstract. by rewrite Ho. }
  assert (cb_check h (rc_now1 c) (rc_now2 c) (rc_utc_ms c) (rc_now3 c) = Ok ()) as Hk
    by (unfold cb_check; by rewrite Hs).
  unfold cb_run. rewrite Hk. cbn. by rewrite Hc.
Qed.
Lemma breaker_call_open h c s :
  cb_state h (rc_now1 c) (rc_now2 c) = CS_Open →
  ∃ o r, breaker_call run h c s = (h, s, Err (CircuitOpen (cb_provider h) o r)).
Proof.
  intros Hs. unfold breaker_call, cb_run, cb_check. rewrite Hs. destruct (run s). cbn. eauto.
Qed.


Context (p : ProviderKind) (cfg : CircuitBreakerConfig) (epoch : Instant) (k : BreakerClocks).
Hypothesis threshold_ok : 1 ≤ failure_threshold cfg < 2 ^ 32 - 1.
Hypothesis duration_ok : 0 ≤ open_duration cfg < 2 ^ 64.
(** A reading no cast wraps on, and one inside the window a trip at [tau] opens. *)
Definition sane (x : Instant) : Prop := epoch < x < epoch + 2 ^ 64.
Definition shielded (tau x : Instant) : Prop := sane x ∧ tau ≤ x < tau + open_duration cfg.

Definition counting (f : Z) (h : CircuitBreakerHandle) : Prop :=
  h = set_counters (cb_new p cfg epoch) f 0.
Definition tripped (tau : Instant) (h : CircuitBreakerHandle) : Prop :=
  h = set_counters (cb_new p cfg epoch) (failure_threshold cfg) (tau - epoch).

Lemma counting_in_range f h x : counting f h → 0 ≤ f < failure_threshold cfg → sane x → in_range h x.
Proof. intros -> ? [? ?]. unfold in_range. cbn. split_and!; lia || done. Qed.
Lemma counting_closed f h x y : counting f h → 0 ≤ f < failure_threshold cfg → sane y → cb_state h x y = CS_Closed.
Proof. intros Hc Hf Hy. rewrite abstract_state by (by eapply counting_in_range). by rewrite Hc. Qed.
Lemma tripped_open tau h x y : tripped tau h → sane tau → shielded tau y → cb_state h x y = CS_Open.
Proof.
  intros Ht [Htl Htr] [[Hyl Hyr] Hw]. rewrite abstract_state.
  - rewrite Ht. unfold abstract. cbn. destruct (Z.eqb_spec (tau - epoch) 0); [lia|]. cbn [spec_state].
    by destruct (Z.leb_spec (open_duration cfg) (y - (epoch + (tau - epoch)))); [lia|].
  - rewrite Ht. unfold in_range. cbn. split_and!; lia || done.
Qed.
Lemma counting_failure f h x :
  counting f h → 0 ≤ f < failure_threshold cfg → sane x →
  if f + 1 =? failure_threshold cfg then tripped x (record_failure h x) else counting (f + 1) (record_failure h x).
Proof.
  intros Hc Hf Hx. unfold record_failure.
  rewrite elapsed_in_range by (by eapply counting_in_range). rewrite Hc.
  cbn [cb_failures set_counters cb_config cb_new cb_opened_at_ns cb_epoch Z.eqb].
  rewrite andb_true_r. rewrite wrap_id by (unfold is_u; lia).
  destruct (Z.leb_spec (failure_threshold cfg) (f + 1)), (Z.eqb_spec (f + 1) (failure_threshold cfg)); try lia.
  - unfold tripped. f_equal. lia.
  - done.
Qed.

(** What call [i] prints once the breaker is open. *)
Definition short_circuited (i : nat) (ev : Event) : Prop :=
  ∃ o r, ev = E_Call i (Err (CircuitOpen p o r)) CS_Open.

Lemma open_phase (tau : Instant) (n i : nat) h s :
  tripped tau h → sane tau → shielded tau (snd (bk_final k)) →
  (∀ j, (i ≤ j < i + n)%nat → shielded tau (rc_now2 (bk_call k j)) ∧ shielded tau (snd (bk_state k j))) →
  ∃ evs, breaker_loop run n i k h s = (h, s, evs ++ [E_Final CS_Open]) ∧ length evs = n ∧
    ∀ j ev, evs !! j = Some ev → short_circuited (i + j) ev.
Proof.
  intros Ht Hs Hfin. revert i. induction n as [|n IH]; intros i Hw; cbn [breaker_loop].
  - exists []. cbn. unfold state_at. by rewrite (tripped_open tau).
  - destruct (Hw i ltac:(lia)) as [H2 Hst].
    destruct (breaker_call_open h (bk_call k i) s) as (o & r & ->); [by eapply tripped_open|].
    destruct (IH (S i)) as (evs & -> & Hlen & Hev); [intros j Hj; apply Hw; lia|].
    unfold state_at. rewrite (tripped_open tau) by done.
    assert (cb_provider h = p) as -> by (by rewrite Ht).
    eexists (_ :: evs). split; [reflexivity|]. split; [cbn; lia|].
    intros [|j] ev Hj; cbn in Hj; simplify_eq; [rewrite Nat.add_0_r; unfold short_circuited; eauto|].
    by replace (i + S j)%nat with (S i + j)%nat by lia; apply Hev.
Qed.

Definition threshold : nat := Z.to_nat (failure_threshold cfg).
Definition trip_time : Instant := rc_now4 (bk_call k (threshold - 1)).
(** What call [i] prints: the runner's error up to the threshold, then a rejection. *)
Definition expected_call (s : World) (i : nat) (ev : Event) : Prop :=
  if (i <? threshold)%nat
  then ∃ e, outcome run i s = Err e ∧
         ev = E_Call i (Err e) (if (S i =? threshold)%nat then CS_Open else CS_Closed)
  else short_circuited i ev.
(** The clock readings of [n] calls: after the epoch, and once the breaker has tripped
    inside its window. *)
Definition readings_ok (n : nat) : Prop :=
  (∀ j, (j < n)%nat → sane (rc_now2 (bk_call k j)) ∧ sane (rc_now4 (bk_call k j)) ∧ sane (snd (bk_state k j))) ∧
  (∀ j, (threshold ≤ j < n)%nat → shielded trip_time (rc_now2 (bk_call k j))) ∧
  (∀ j, (threshold ≤ S j ≤ n)%nat → shielded trip_time (snd (bk_state k j))) ∧
  shielded trip_time (snd (bk_final k)).

Lemma closed_phase (n m i : nat) h s s0 :
  readings_ok n → (i + m = n)%nat → (i < threshold ≤ n)%nat →
  counting (Z.of_nat i) h → world_after run i s0 = s →
  (∀ j, (j < threshold)%nat → ∃ e, outcome run j s0 = Err e ∧ counts_as_circuit_failure e = true) →
  ∃ h' evs, breaker_loop run m i k h s = (h', world_after run threshold s0, evs ++ [E_Final CS_Open]) ∧
    length evs = m ∧ ∀ j ev, evs !! j = Some ev → expected_call s0 (i + j) ev.
Proof.
  intros (Hsane & Hcall & Hstate & Hfin) Hm. revert i h s Hm.
  induction m as [|m IH]; intros i h s Hm Hi Hc Hw He; [lia|]. cbn [breaker_loop].
  assert (0 ≤ Z.of_nat i < failure_threshold cfg) as Hf by (unfold threshold in Hi; lia).
  destruct (Hsane i ltac:(lia)) as (H2 & H4 & Hst).
  destruct (He i ltac:(lia)) as (e & Hoe & Hce).
  rewrite (breaker_call_closed h _ s e); [|by eapply counting_in_range|by rewrite Hc|by rewrite <-Hw|done].
  assert (fst (run s) = world_after run (S i) s0) as Hw' by (by rewrite <-Hw).
  pose proof (counting_failure _ _ _ Hc Hf H4) as Hstep.
  destruct (Z.eqb_spec (Z.of_nat i + 1) (failure_threshold cfg)) as [Heq|Hne].
  - assert (S i = threshold) as Ht by (unfold threshold; lia).
    assert (rc_now4 (bk_call k i) = trip_time) as Etau by (unfold trip_time; by rewrite <-Ht, Nat.sub_1_r).
    rewrite Etau in *. clear IH.
    destruct (open_phase trip_time m (S i) (record_failure h trip_time) (fst (run s)) Hstep H4 Hfin)
      as (evs & -> & Hlen & Hev).
    { intros j Hj. split; [apply Hcall; lia|apply Hstate; lia]. }
    unfold state_at. rewrite (tripped_open trip_time) by (done || apply Hstate; lia).
    rewrite Hw', Ht. eexists _, (_ :: evs). split; [reflexivity|]. split; [cbn; lia|].
    intros [|j] ev Hj; cbn in Hj; simplify_eq; unfold expected_call.
    + rewrite Nat.add_0_r, (proj2 (Nat.ltb_lt _ _)), (proj2 (Nat.eqb_eq _ _)) by lia. eauto.
    + rewrite (proj2 (Nat.ltb_ge _ _)) by lia.
      replace (i + S j)%nat with (S i + j)%nat by lia. by apply Hev.
  - assert (S i ≠ threshold) as Ht by (unfold threshold; lia).
    replace (Z.of_nat i + 1) with (Z.of_nat (S i)) in Hstep by lia.
    destruct (IH (S i) _ _ ltac:(lia) ltac:(lia) Hstep (eq_sym Hw') He) as (h' & evs & -> & Hlen & Hev).
    unfold state_at. rewrite (counting_closed (Z.of_nat (S i))) by (done || unfold threshold in *; lia).
    eexists _, (_ :: evs). split; [reflexivity|]. split; [cbn; lia|].
    intros [|j] ev Hj; cbn in Hj; simplify_eq.
    + unfold expected_call. rewrite Nat.add_0_r, (proj2 (Nat.ltb_lt _ _)), (proj2 (Nat.eqb_neq _ _)) by lia. eauto.
    + replace (i + S j)%nat with (S i + j)%nat by lia. by apply Hev.
Qed.

(** A fresh breaker in front of a runner that keeps failing shields it: each call up to
    the threshold reaches the runner and answers its error, the one that reaches the
    threshold leaves the breaker open, and every later call in the window is rejected
    without the runner, or the server behind it, being touched. *)
Theorem breaker_shields (n : nat) (s : World) :
  (threshold ≤ n)%nat → readings_ok n →
  (∀ j, (j < threshold)%nat → ∃ e, outcome run j s = Err e ∧ counts_as_circuit_failure e = true) →
  ∃ h' evs, breaker_loop run n 0 k (cb_new p cfg epoch) s =
      (h', world_after run threshold s, evs ++ [E_Final CS_Open]) ∧
    length evs = n ∧ ∀ j ev, evs !! j = Some ev → expected_call s j ev.
Proof.
  intros Ht Hr He. apply (closed_phase n n 0); try done. unfold threshold in *. lia.
Qed.
End breaker_driver.

(** ** The demo against its mock *)

Definition header_get (name : string) (hs : list (string * string)) : option string :=
  snd <$> List.find (λ kv, bool_decide (fst kv = name)) hs.
(** What [serde_json] reads in the chunk of the happy path. *)
Definition mock_chunk_read {Json} (content : string) : ChatChunk Json := {|
  ck_id := "mock";
  ck_choices := [{| ch_delta := {| cd_content := Some content; cd_tool_calls := None |};
                    ch_finish_reason := Some "stop" |}];
  ck_usage := Some {| prompt_tokens := 1; completion_tokens := 1;
                      prompt_tokens_details := None; completion_tokens_details := None |}
|}.

Section against_mock.
Context {Json : Type} `{!JsonOps Json} {Server : Type} {W : WireMock Server}.
Context {regex_match : string → string → bool} {L : @WireMockLaws regex_match Server W}.
Context {Client ReqwestError Url ParseError : Type}.
Context (url_join : Url → string → result ParseError Url) (url_parse : string → result ParseError Url).
Context (url_path : Url → string) (display_parse : ParseError → string).
Context (build_client : Timeouts → string → result ReqwestError Client).
Context (header_value : string → result string unit) (receive : ResponseTemplate → HttpAnswer).
Context (parse_chunk : string → result string (ChatChunk Json))
        (parse_response : HttpResponse → result string (ChatResponse Json))
        (parse_envelope : string → option ErrorBody) (parse_rfc2822 : string → option Z).
Context (display_string : string → string) (event_stream : string → list SseIn).

(** What the demo relies on: the client is built, an address with the path appended is the
    path's URL, the key is a valid header, a response arrives as it was sent, its events
    are the [data] lines, and the mock's chunk decodes to what it says. *)
Record Surroundings : Prop := {
  client_built : is_ok (build_client Timeouts_default "atomr-infer-demo/0.1.0") = true;
  urls_joined i : ∃ u v,
    url_parse (trim_end_matches slash_char (ms_uri (ms_start i)) +:+ "/v1/") = Ok u ∧
    url_join u "chat/completions" = Ok v ∧ url_path v = chat_path;
  key_valid : header_value ("Bearer " +:+ "sk-mock") = Ok ();
  received st hs s : receive {| rt_status := st; rt_headers := hs; rt_body := RB_String s |} =
    Ok {| resp_status := st; resp_retry_after := header_get "retry-after" hs; resp_text := Some s;
          resp_events := event_stream s |};
  events_decoded c : event_stream (sse_body (happy_json display_string c)) =
    [data_event (happy_json display_string c); data_event "[DONE]"];
  chunk_decoded c : parse_chunk (happy_json display_string c) = Ok (mock_chunk_read c)
}.
Hypothesis env : Surroundings.

Abbreviation exec := (execute_on url_path header_value receive parse_chunk parse_response parse_envelope
  parse_rfc2822).
Abbreviation happy := (mount_chat_happy_path display_string).

(** A runner as [build_runner] makes it. *)
Definition demo_runner (r : OpenAiRunner (Url := Url)) : Prop :=
  url_path (or_chat_url r) = chat_path ∧ is_ok (openai_auth_headers header_value r) = true.
Lemma build_runner_ok i s :
  ms_uri s = ms_uri (ms_start i) →
  ∃ r, build_runner url_join url_parse display_parse build_client (ms_uri s) = Ok r ∧ demo_runner r.
Proof.
  intros ->. destruct (urls_joined env i) as (u & v & Hu & Hv & Hp).
  pose proof (client_built env) as Hc. unfold build_runner.
  destruct (build_client _ _) as [cl|]; [|done].
  cbn [map_err StaticApiKey_token snd]. rewrite Hu. unfold openai_new.
  cbn [map_err demo_config oc_variant chat_completions_url]. rewrite Hv. eexists. split; [reflexivity|]. split; [done|].
  unfold openai_auth_headers, auth_headers. cbn. by rewrite (key_valid env).
Qed.

Lemma execute_on_eq r now b s :
  demo_runner r →
  exec r now b s = (fst (ms_serve chat_request s),
    openai_execute parse_chunk parse_response parse_envelope parse_rfc2822 now (Ok ())
      (receive (snd (ms_serve chat_request s))) b).
Proof.
  intros [Hp Hh]. unfold execute_on. destruct (openai_auth_headers header_value r); [|done]. cbn.
  rewrite Hp. change {| rq_method := "POST"; rq_path := chat_path |} with chat_request.
  by destruct (ms_serve chat_request s).
Qed.
(** The answers of the three handlers. *)
Abbreviation answer_to now t b := (openai_execute parse_chunk parse_response parse_envelope parse_rfc2822
  now (Ok ()) (receive t) b).
Lemma happy_answer now c b :
  stream b = true →
  ∃ h, answer_to now (mk_response (chat_happy display_string c)) b = Ok h ∧
    print_stream h = [E_Delta c; E_NewLine].
Proof.
  intros Hb. unfold chat_happy. cbn [mk_response]. rewrite (received env). unfold openai_execute. cbn.
  rewrite Hb, (events_decoded env). eexists. split; [reflexivity|].
  unfold print_stream, decode_sse_stream, lift_stream, data_event. cbn. unfold lift_chunk at 1. cbn [sse_data].
  rewrite decide_False by done. rewrite (chunk_decoded env). done.
Qed.
Lemma rate_limited_answer now b :
  answer_to now (mk_response (rate_limited_mock (post chat_path) "rate limited")) b =
  Err (RateLimited PK_OpenAi (Some (from_secs 1))).
Proof. cbn [mk_response rate_limited_mock]. by rewrite (received env). Qed.
Lemma busy_answer now b n :
  answer_to now (mk_response (busy_mock n)) b = Err (ServerError 503 (Some "upstream busy")).
Proof. cbn [mk_response busy_mock]. by rewrite (received env). Qed.

(** The first scenario: the mock answers, its content is printed. *)
Lemma happy_scenario r now b (s : Server) c :
  demo_runner r → stream b = true → mounted regex_match s = [chat_happy display_string c] →
  ∃ s', drain_one (exec r now b) s = (s', [E_Delta c; E_NewLine], Ok ()).
Proof.
  intros Hr Hb Hs. unfold drain_one. rewrite execute_on_eq by done.
  destruct (serve_head chat_request _ _ _ Hs eq_refl) as [-> _].
  destruct (happy_answer now c b Hb) as (h & -> & ->). eauto.
Qed.
(** The second: one 429, one sleep of the second the server asked for, then the content. *)
Lemma throttled_scenario r now b (s : Server) c :
  demo_runner r → stream b = true →
  mounted regex_match s = [rate_limited_mock (post chat_path) "rate limited"; chat_happy display_string c] →
  ∃ s', drive_with_retries (exec r now b) (retry_fuel (RetryEngine_new demo_policy true))
      (RetryEngine_new demo_policy true) 0 s =
    Some (s', [E_Attempt 0 (RateLimited PK_OpenAi (Some (from_secs 1))); E_Sleep (from_secs 1);
               E_Delta c; E_NewLine], Ok ()).
Proof.
  intros Hr Hb Hs. change (retry_fuel _) with 4%nat. cbn [drive_with_retries].
  rewrite !execute_on_eq by done.
  destruct (serve_head chat_request _ _ _ Hs eq_refl) as [-> Hs']. rewrite rate_limited_answer.
  change (decide_retry _ 0 _) with (Retry (from_secs 1)). cbv iota beta.
  destruct (serve_second chat_request _ _ _ _ Hs' eq_refl eq_refl) as [-> _].
  destruct (happy_answer now c b Hb) as (h & -> & ->). cbn. eauto.
Qed.
Lemma world_after_server r now b k (s : Server) :
  demo_runner r → world_after (exec r now b) k s = server_after chat_request k s.
Proof.
  intros Hr. induction k as [|k IH]; [done|].
  change (world_after _ (S k) s) with (fst (exec r now b (world_after (exec r now b) k s))).
  by rewrite IH, execute_on_eq.
Qed.
(** The third: three calls reach the server, the third opens the breaker, the fourth is
    rejected. *)
Lemma burst_scenario r now b (s : Server) c epoch k :
  demo_runner r → mounted regex_match s = [busy_mock 5; chat_happy display_string c] →
  readings_ok demo_breaker epoch k 4 →
  let busy := Err (ServerError 503 (Some "upstream busy")) in
  ∃ h' o t, drive_with_breaker (exec r now b) k (cb_new PK_OpenAi demo_breaker epoch) s =
    (h', server_after chat_request 3 s,
     [E_Call 0 busy CS_Closed; E_Call 1 busy CS_Closed; E_Call 2 busy CS_Open;
      E_Call 3 (Err (CircuitOpen PK_OpenAi o t)) CS_Open; E_Final CS_Open]).
Proof.
  intros Hr Hs Hk busy.
  assert (∀ j, (j < 5)%nat → outcome (exec r now b) j s = Err (ServerError 503 (Some "upstream busy"))) as Ho.
  { intros j Hj. unfold outcome. rewrite world_after_server, execute_on_eq by done. cbn [snd].
    destruct (limited_then_fallback chat_request (busy_mock 5) (chat_happy display_string c) 5 s j)
      as [-> _]; try done.
    rewrite (proj2 (Z.ltb_lt _ _)) by lia. apply busy_answer. }
  destruct (breaker_shields (exec r now b) PK_OpenAi demo_breaker epoch k ltac:(done) ltac:(done) 4 s)
    as (h' & evs & E & Hlen & Hev); [by vm_compute; lia|done| |].
  { intros j Hj. change (threshold demo_breaker) with 3%nat in Hj. rewrite Ho by lia. eauto. }
  change (threshold demo_breaker) with 3%nat in E. rewrite world_after_server in E by done.
  destruct evs as [|e0 [|e1 [|e2 [|e3 [|]]]]]; try done.
  destruct (Hev 0%nat e0 eq_refl) as (x0 & H0 & ->), (Hev 1%nat e1 eq_refl) as (x1 & H1 & ->),
    (Hev 2%nat e2 eq_refl) as (x2 & H2 & ->), (Hev 3%nat e3 eq_refl) as (o & t & ->).
  rewrite Ho in H0, H1, H2 by lia. simplify_eq.
  exists h', o, t. exact E.
Qed.

(** [C37] The demo does what it sets out to show.  On a mock that serves its handlers in
    mounting order, the program ends without an error: the happy path prints the mock's
    text; the 429 is slept out for the second the server asks for and the retry prints its
    text; the burst of 503s goes through three times, the third call opens the breaker and
    the fourth is rejected without reaching the server, and the breaker is open at the end. *)
Theorem demo_meets_exit_criteria (c : DemoClock) :
  readings_ok demo_breaker (dc_epoch c) (dc_breaker c) 4 →
  let busy := Err (ServerError 503 (Some "upstream busy")) in
  ∃ o t, demo_main url_join url_parse url_path display_parse build_client header_value receive
      parse_chunk parse_response parse_envelope parse_rfc2822 display_string c =
    Some ([E_Title "== happy path =="; E_Delta "Hello from the mock!"; E_NewLine;
           E_Title "== 429 retry =="; E_Attempt 0 (RateLimited PK_OpenAi (Some (from_secs 1)));
           E_Sleep (from_secs 1); E_Delta "succeeded after retry"; E_NewLine;
           E_Title "== circuit breaker =="; E_Call 0 busy CS_Closed; E_Call 1 busy CS_Closed;
           E_Call 2 busy CS_Open; E_Call 3 (Err (CircuitOpen PK_OpenAi o t)) CS_Open; E_Final CS_Open], Ok ()).
Proof.
  intros Hk busy. unfold demo_main, retry_scenario, breaker_scenario, mount_chat_happy_path, inject_429_once, inject_5xx_once.
  destruct (build_runner_ok 0 (ms_mount (chat_happy display_string "Hello from the mock!") (ms_start 0)))
    as (r0 & -> & Hr0); [by rewrite !(mount_uri regex_match)|].
  edestruct (happy_scenario r0 (dc_wall c) (batch (dc_ids c 0) "hi" true)) as [s0 ->]; [done|done| |].
  { by rewrite !mount_mounted, start_mounted. }
  edestruct (build_runner_ok 1) as (r1 & -> & Hr1); [by rewrite !(mount_uri regex_match)|].
  edestruct (throttled_scenario r1 (dc_wall c) (batch (dc_ids c 1) "hi" true)) as [s1 ->]; [done|done| |].
  { by rewrite !mount_mounted, start_mounted. }
  edestruct (build_runner_ok 2) as (r2 & -> & Hr2); [by rewrite !(mount_uri regex_match)|].
  edestruct (burst_scenario r2 (dc_wall c) (batch (dc_ids c 2) "hi" true)) as (h' & o & t & ->); [done| |done|].
  { by rewrite !mount_mounted, start_mounted. }
  exists o, t. done.
Qed.
End against_mock.

(** ** Witnesses *)

Fixpoint take_bytes (n : nat) (s : string) : string :=
  match n, s with
  | S n', String c r => String c (take_bytes n' r)
  | _, _ => EmptyString
  end.
Lemma take_bytes_app a b : take_bytes (String.length a) (a +:+ b) = a.
Proof. induction a as [|c a IH]; [by destruct b|]. cbn. by f_equal. Qed.
(** The text between two strings it is known to start and end with. *)
Definition between (pre post s : string) : string :=
  let r := drop_bytes (String.length pre) s in take_bytes (String.length r - String.length post) r.
Lemma between_app pre post c : between pre post (pre +:+ (c +:+ post)) = c.
Proof.
  unfold between. rewrite drop_bytes_app, length_append.
  replace (String.length c + String.length post - String.length post)%nat with (String.length c) by lia.
  apply take_bytes_app.
Qed.

Definition quoted (s : string) : string := dquote +:+ s +:+ dquote.
(** What comes before and after the content in the mock's chunk. *)
Definition happy_cut : nat := default 0%nat (S <$> String.index 0 (dquote +:+ dquote) (happy_json quoted "")).
Definition happy_pre : string := take_bytes happy_cut (happy_json quoted "").
Definition happy_post : string := drop_bytes happy_cut (happy_json quoted "").
Lemma happy_json_cut c : happy_json quoted c = happy_pre +:+ (c +:+ happy_post).
Proof. unfold happy_json, quoted. rewrite !string_app_assoc. reflexivity. Qed.

Definition body_tail : string := nl +:+ nl +:+ "data: [DONE]" +:+ nl +:+ nl.
Definition demo_events (body : string) : list SseIn :=
  [data_event (between "data: " body_tail body); data_event "[DONE]"].
Definition demo_chunk (d : string) : result string (ChatChunk DemoJson) :=
  Ok (mock_chunk_read (between happy_pre happy_post d)).
Definition demo_receive (t : ResponseTemplate) : HttpAnswer :=
  let text := match rt_body t with RB_String s => s | _ => "" end in
  Ok {| resp_status := rt_status t; resp_retry_after := header_get "retry-after" (rt_headers t);
        resp_text := Some text; resp_events := demo_events text |}.
(** A URL as its base and its path. *)
Definition demo_join (u : string * string) (p : string) : result unit (string * string) := Ok (fst u, snd u +:+ p).
Definition demo_url (s : string) : result unit (string * string) := Ok (s, "/v1/").
Lemma demo_surroundings :
  @Surroundings DemoJson _ (mounted_server (λ _ _, true)) unit unit _ unit demo_join demo_url snd
    (λ _ _, Ok ()) (λ _, Ok ()) demo_receive demo_chunk quoted demo_events.
Proof.
  split; try done.
  - intros i. eauto 10.
  - intros c. unfold demo_events.
    change (sse_body (happy_json quoted c)) with ("data: " +:+ (happy_json quoted c +:+ body_tail)).
    by rewrite between_app.
  - intros c. unfold demo_chunk. by rewrite happy_json_cut, between_app.
Qed.
(** Calls a millisecond apart, each reading of a call at one instant. *)
Definition demo_clock : DemoClock := {|
  dc_ids := Z.of_nat; dc_wall := 0; dc_epoch := 0;
  dc_breaker := {|
    bk_call i := example_clock (from_millis (Z.of_nat i + 1));
    bk_state i := (from_millis (Z.of_nat i + 1), from_millis (Z.of_nat i + 1));
    bk_final := (from_millis 9, from_millis 9)
  |}
|}.
Lemma demo_clock_ok : readings_ok demo_breaker 0 (dc_breaker demo_clock) 4.
Proof.
  unfold readings_ok, shielded, sane, trip_time. change (threshold demo_breaker) with 3%nat.
  cbn [dc_breaker demo_clock bk_call bk_state bk_final snd example_clock rc_now2 rc_now4 open_duration demo_breaker].
  unfold from_millis, from_secs, ns_per_ms, ns_per_s. split_and!; intros; split_and?; lia.
Qed.

Lemma demo_meets_exit_criteria_witness :
  readings_ok demo_breaker 0 (dc_breaker demo_clock) 4 ∧
  ∃ out, demo_main demo_join demo_url snd (λ _, "") (λ _ _, @Ok unit unit ()) (λ _, Ok ()) demo_receive
    demo_chunk (λ _, Err "unary") (λ _, None) (λ _, None) quoted demo_clock (Server := string * list Mock)
    (WireMock0 := mounted_server (λ _ _, true)) = Some (out, Ok ()) ∧ length out = 14%nat.
Proof.
  split; [exact demo_clock_ok|].
  destruct (demo_meets_exit_criteria (L := mounted_server_laws (λ _ _, true)) demo_join demo_url snd
    (λ _, "") (λ _ _, @Ok unit unit ()) (λ _, Ok ()) demo_receive demo_chunk (λ _, Err "unary") (λ _, None)
    (λ _, None) quoted demo_events demo_surroundings demo_clock demo_clock_ok) as (o & t & E).
  eexists. split; [exact E|reflexivity].
Defined.
Lemma retry_driver_ends_witness :
  0 ≤ max_retries demo_policy ≤ U32_MAX ∧
  ∃ n out, drive_with_retries (λ k : nat, (S k, Err (A := RunHandle (TokenChunk DemoJson)) (Timeout 1)))
    4 (RetryEngine_new demo_policy true) 0 0%nat = Some (n, out, Err (Timeout 1)).
Proof.
  assert (0 ≤ max_retries demo_policy ≤ U32_MAX) as H by done. split; [exact H|].
  destruct (retry_driver_ends (λ k : nat, (S k, Err (A := RunHandle (TokenChunk DemoJson)) (Timeout 1)))
    demo_policy true 0%nat H) as (steps & _ & _ & Hd).
  cbv zeta in Hd. unfold outcome in Hd. cbn [snd] in Hd. destruct Hd as [_ Hd].
  eexists _, _. exact Hd.
Defined.
