(* ===== verification/Anthropic.v ===== *)
(** * Anthropic runtime

    Models [inference-runtime-anthropic/src]: [wire.rs] (request construction, stream
    events), [config.rs], [error.rs], [cost.rs] and [runner.rs] (event lifting,
    [execute], cost estimate).  The decoders of the event and response types are serde
    derivations: parameters. *)
From Stdlib Require Import SpecFloat.
From S2P Require Import Prelude F64 Runtime Tokens Deployment Audio Runner Classify Http OpenAi.

Section anthropic.
Context {Json : Type} `{!JsonOps Json}.

(** ** Wire types (wire.rs) *)

Record MessagesMessage : Type := { mm_role : string; mm_content : Json }.
Record MessagesRequest : Type := {
  aq_model : string; aq_messages : list MessagesMessage; aq_system : option string;
  aq_max_tokens : option Z; aq_temperature : option spec_float; aq_top_p : option spec_float;
  aq_stop_sequences : list string; aq_stream : bool
}.

Definition serialize_part (p : ContentPart) : Json :=
  match p with
  | CP_Text t => v_object [("type", v_string "text"); ("text", v_string t)]
  | CP_ImageBase64 mime data =>
      v_object [("type", v_string "image");
                ("source", v_object [("type", v_string "base64"); ("media_type", v_string mime);
                                     ("data", v_string data)])]
  | CP_ImageUrl url =>
      v_object [("type", v_string "image");
                ("source", v_object [("type", v_string "url"); ("url", v_string url)])]
  end.
Definition content_value (c : MessageContent) : Json :=
  match c with MC_Text t => v_string t | MC_Parts parts => v_array (serialize_part <$> parts) end.

(** The body of [from_batch]'s loop: the system text and the messages so far. *)
Definition newline : string := String (ascii_of_N 10) EmptyString.
Definition from_batch_step (acc : option string * list MessagesMessage) (m : Message) :
  option string * list MessagesMessage :=
  let '(system, msgs) := acc in
  match role m with
  | Role_System =>
      match content m with
      | MC_Text s =>
          (match system with Some prev => Some (prev +:+ newline +:+ s) | None => Some s end, msgs)
      | MC_Parts _ => (system, msgs)
      end
  | Role_User | Role_Tool =>
      (system, msgs ++ [{| mm_role := "user"; mm_content := content_value (content m) |}])
  | Role_Assistant =>
      (system, msgs ++ [{| mm_role := "assistant"; mm_content := content_value (content m) |}])
  end.
Definition messages_from_batch (b : ExecuteBatch) : MessagesRequest :=
  let '(system, msgs) := foldl from_batch_step (None, []) (messages b) in {|
    aq_model := model b;
    aq_messages := msgs;
    aq_system := system;
    aq_max_tokens := match max_tokens (sampling b) with Some n => Some n | None => Some 1024 end;
    aq_temperature := temperature (sampling b);
    aq_top_p := top_p (sampling b);
    aq_stop_sequences := stop (sampling b);
    aq_stream := stream b
  |}.

Record AUsageDelta : Type := {
  au_input_tokens : Z; au_output_tokens : Z;
  au_cache_creation_input_tokens : Z; au_cache_read_input_tokens : Z
}.
Inductive BlockDelta : Type := BD_Text (text : string) | BD_InputJson (partial_json : string).
Inductive SseEvent : Type :=
  | AE_MessageStart (id : string) (usage : option AUsageDelta)
  | AE_ContentBlockStart (index : Z)
  | AE_ContentBlockDelta (index : Z) (delta : BlockDelta)
  | AE_ContentBlockStop (index : Z)
  | AE_MessageDelta (stop_reason : option string) (usage : option AUsageDelta)
  | AE_MessageStop
  | AE_Ping
  | AE_Error (kind message : string).
Inductive ResponseContent : Type :=
  | RC_Text (text : string) | RC_ToolUse (id name : string) (input : Json).
Record MessagesResponse : Type := {
  ap_id : string; ap_content : list ResponseContent; ap_stop_reason : option string;
  ap_usage : option AUsageDelta
}.

(** ** Lifting (runner.rs) *)

Definition map_stop_reason (s : string) : FinishReason :=
  if decide (s = "end_turn" ∨ s = "stop_sequence") then Fin_Stop
  else if decide (s = "max_tokens") then Fin_Length
  else if decide (s = "tool_use") then Fin_ToolCalls
  else Fin_Stop.
Definition anthropic_usage (u : AUsageDelta) : TokenUsage := {|
  input_tokens := au_input_tokens u; output_tokens := au_output_tokens u;
  reasoning_tokens := 0; cached_tokens := au_cache_read_input_tokens u
|}.
Definition mk_chunk (id text : string) (tool : option Json) (u : option TokenUsage)
    (fin : option FinishReason) : TokenChunk Json := {|
  c_request_id := id; text_delta := text; tool_call_delta := tool; usage := u; finish_reason := fin
|}.

(** [serde_json::from_str::<SseEvent>]. *)
Variable parse_event : string → result string SseEvent.
Variable parse_messages_response : HttpResponse → result string MessagesResponse.

Definition lift_sse_event (id : string) (e : SseEvent) : option (InferenceResult (TokenChunk Json)) :=
  match e with
  | AE_ContentBlockDelta _ (BD_Text t) => Some (Ok (mk_chunk id t None None None))
  | AE_ContentBlockDelta _ (BD_InputJson j) => Some (Ok (mk_chunk id "" (Some (v_string j)) None None))
  | AE_MessageDelta reason u =>
      Some (Ok (mk_chunk id "" None (anthropic_usage <$> u) (map_stop_reason <$> reason)))
  | AE_MessageStart _ _ => None
  | AE_MessageStop => Some (Ok (mk_chunk id "" None None (Some Fin_Stop)))
  | AE_Error kind message =>
      Some (Err (Internal ("anthropic stream error: " +:+ kind +:+ ": " +:+ message)))
  | _ => None
  end.
Definition lift_event (id : string) (sc : SseChunk) : option (InferenceResult (TokenChunk Json)) :=
  if decide (default "" (sse_event sc) = "ping" ∨ sse_data sc = "") then None
  else
    match parse_event (sse_data sc) with
    | Err e => Some (Err (Internal ("anthropic event decode: " +:+ e)))
    | Ok ev => lift_sse_event id ev
    end.

Definition response_text (cs : list ResponseContent) : string :=
  foldl (λ t c, match c with RC_Text s => t +:+ s | RC_ToolUse _ _ _ => t end) "" cs.
Definition anthropic_unary_chunk (id : string) (p : MessagesResponse) : TokenChunk Json :=
  mk_chunk id (response_text (ap_content p)) None (anthropic_usage <$> ap_usage p)
    (match ap_stop_reason p with Some s => Some (map_stop_reason s) | None => Some Fin_Stop end).

(** ** Errors (error.rs) *)

Record AErrorBody : Type := { ae_kind : string; ae_message : string }.
(** The envelope's inner error, if the body decodes. *)
Variable parse_error_envelope : string → option AErrorBody.
Variable parse_rfc2822 : string → option Z.
(** [str::to_lowercase] agrees with the ASCII one on what the needles can match. *)
Variable to_lowercase : string → string.

Definition classify_anthropic_error (now : Z) (status : Z) (retry_after_header : option string)
    (body : option string) : InferenceError :=
  let retry_after := parse_retry_after parse_rfc2822 now retry_after_header in
  let generic := classify_http_status PK_Anthropic status retry_after body in
  match body ≫= parse_error_envelope with
  | Some env =>
      if decide (ae_kind env = "invalid_request_error") then
        if contains "context length" (to_lowercase (ae_message env)) ||
           contains "too long" (to_lowercase (ae_message env))
        then ContextLengthExceeded 0 0 else generic
      else if decide (ae_kind env = "permission_error") then Forbidden (ae_message env)
      else generic
  | None => generic
  end.

(** ** [execute] *)

Definition anthropic_execute (now : Z) (headers : InferenceResult unit) (answer : HttpAnswer)
    (batch : ExecuteBatch) : InferenceResult (RunHandle (TokenChunk Json)) :=
  match headers with
  | Err e => Err e
  | Ok _ =>
      match answer with
      | Err m => Err (NetworkError m)
      | Ok resp =>
          if is_success resp then
            if stream batch then
              Ok (streaming (lift_stream (lift_event (request_id batch))
                               (decode_sse_stream (resp_events resp))))
            else
              match parse_messages_response resp with
              | Err e => Err (Internal ("anthropic decode: " +:+ e))
              | Ok parsed => Ok (streaming [Ok (anthropic_unary_chunk (request_id batch) parsed)])
              end
          else
            Err (classify_anthropic_error now (resp_status resp) (resp_retry_after resp) (resp_text resp))
      end
  end.

(** ** Configuration (config.rs) *)

Context {Url ParseError : Type}.
Variable url_join : Url → string → result ParseError Url.
Record AnthropicConfig : Type := {
  ac_endpoint : Url;
  ac_api_key : SecretRef;
  ac_anthropic_version : string;
  ac_rate_limits : RateLimits;
  ac_retry : RetryPolicy;
  ac_circuit_breaker : CircuitBreakerConfig;
  ac_timeouts : Timeouts
}.
Definition default_version : string := "2023-06-01".
Definition anthropic_defaults (default_endpoint : Url) (key : SecretRef) : AnthropicConfig := {|
  ac_endpoint := default_endpoint; ac_api_key := key; ac_anthropic_version := default_version;
  ac_rate_limits := RateLimits_default; ac_retry := RetryPolicy_default;
  ac_circuit_breaker := CircuitBreakerConfig_default; ac_timeouts := Timeouts_default
|}.
Definition messages_url (c : AnthropicConfig) : result ParseError Url :=
  url_join (ac_endpoint c) "messages".

(** ** The runner (runner.rs) *)

(** The configuration, the credential of the shared snapshot, and the URL computed once. *)
Record AnthropicRunner : Type := { ar_config : AnthropicConfig; ar_session : string; ar_messages_url : Url }.
Variable display_parse_error : ParseError → string.
Definition anthropic_new (config : AnthropicConfig) (session : string) : InferenceResult AnthropicRunner :=
  match messages_url config with
  | Ok u => Ok {| ar_config := config; ar_session := session; ar_messages_url := u |}
  | Err e => Err (Internal ("anthropic url: " +:+ display_parse_error e))
  end.
(** [header_value] is [HeaderValue::from_str], known by its error. *)
Definition anthropic_auth_headers (header_value : string → result string unit) (r : AnthropicRunner) :
  InferenceResult (list (string * string)) :=
  match header_value (ar_session r) with
  | Err e => Err (Internal ("invalid api key: " +:+ e))
  | Ok _ =>
      match header_value (ac_anthropic_version (ar_config r)) with
      | Err e => Err (Internal ("invalid version: " +:+ e))
      | Ok _ => Ok [("x-api-key", ar_session r); ("anthropic-version", ac_anthropic_version (ar_config r))]
      end
  end.
Definition anthropic_base : RunnerBase AnthropicRunner := {|
  runner_kind _ := RK_Anthropic;
  runner_transport _ := TK_RemoteNetwork PK_Anthropic;
  rebuild_session r _ := (r, Ok ());
  rate_limits r := Some (ac_rate_limits (ar_config r))
|}.

(** ** Request construction *)

(** System texts joined by newlines; everything else in order. *)
Definition system_texts (ms : list Message) : list string :=
  omap (λ m, match role m, content m with Role_System, MC_Text s => Some s | _, _ => None end) ms.
Fixpoint join_lines (l : list string) : option string :=
  match l with
  | [] => None
  | s :: r => Some (match join_lines r with Some t => s +:+ newline +:+ t | None => s end)
  end.
Definition turns (ms : list Message) : list (Role * MessageContent) :=
  omap (λ m, match role m with Role_System => None | r => Some (r, content m) end) ms.
Definition wire_turn (t : Role * MessageContent) : MessagesMessage := {|
  mm_role := match t.1 with Role_Assistant => "assistant" | _ => "user" end;
  mm_content := content_value t.2
|}.

Lemma join_lines_snoc l s :
  join_lines (l ++ [s]) = Some (match join_lines l with Some t => t +:+ newline +:+ s | None => s end).
Proof.
  induction l as [|x l IH]; [done|]. cbn [app join_lines]. rewrite IH.
  destruct (join_lines l) as [t|]; [|done]. by rewrite !string_app_assoc.
Qed.

(** Nothing said in the conversation is lost or reordered on the way to the
    Messages API: the non-system messages go out in order with their content, as
    user or assistant turns (a tool result is a user turn), and the system field is
    the system texts joined by newlines; only system messages given as content parts
    are dropped.  A token limit is always sent. *)
Theorem anthropic_request_faithful (b : ExecuteBatch) :
  let q := messages_from_batch b in
  aq_messages q = wire_turn <$> turns (messages b) ∧
  aq_system q = join_lines (system_texts (messages b)) ∧
  aq_model q = model b ∧ aq_stream q = stream b ∧
  aq_max_tokens q = Some (default 1024 (max_tokens (sampling b))) ∧
  (length (turns (messages b)) + length (system_texts (messages b)) +
   count_if (λ m, match role m, content m with Role_System, MC_Parts _ => true | _, _ => false end)
     (messages b) = length (messages b))%nat.
Proof.
  cbv zeta. unfold messages_from_batch.
  assert (foldl from_batch_step (None, []) (messages b) =
    (join_lines (system_texts (messages b)), wire_turn <$> turns (messages b))) as ->.
  { induction (messages b) as [|m ms IH] using rev_ind; [done|].
    rewrite foldl_app, IH. unfold system_texts, turns. rewrite !omap_app, fmap_app. cbn [foldl omap list_omap].
    unfold from_batch_step. destruct (role m) eqn:Er; cbn; rewrite ?app_nil_r; try done.
    destruct (content m) eqn:Ec; cbn; rewrite ?app_nil_r; [|done].
    rewrite join_lines_snoc. by destruct (join_lines _). }
  cbn [aq_messages aq_system aq_model aq_stream aq_max_tokens].
  split_and!; [done..|by destruct (max_tokens _)|].
  unfold turns, system_texts. induction (messages b) as [|m ms IH]; [done|].
  cbn [omap list_omap count_if length].
  destruct (role m); cbn [length]; try lia. destruct (content m); cbn [length]; lia.
Qed.

(** ** The end of a stream *)

(** The usual tail: the message delta with the stop reason, then the stop event. *)
Definition data_chunk (d : string) : SseChunk := {| sse_event := None; sse_data := d |}.

(** The stop event hides why generation ended: a stream that ends with a
    [message_delta] and a [message_stop] yields two finishing chunks, the second
    always [Stop]; a consumer that stops at the first reads the reason and the
    output usage, one that accumulates the whole stream reports [Stop] even when the
    model stopped to call a tool or ran out of tokens.  Usage reported at
    [message_start] reaches neither. *)
Theorem anthropic_stop_reason_overwritten (id d1 d2 d3 reason : string)
    (u0 u : option AUsageDelta) (mid : string) :
  d1 ≠ "" → d2 ≠ "" → d3 ≠ "" →
  parse_event d1 = Ok (AE_MessageStart mid u0) →
  parse_event d2 = Ok (AE_MessageDelta (Some reason) u) →
  parse_event d3 = Ok AE_MessageStop →
  ∃ c1 c2,
    lift_stream (lift_event id) (Ok <$> [data_chunk d1; data_chunk d2; data_chunk d3]) = [Ok c1; Ok c2] ∧
    finish_reason c1 = Some (map_stop_reason reason) ∧ usage c1 = anthropic_usage <$> u ∧
    t_finish_reason (foldl tokens_append Tokens_default [c1; c2]) = Some Fin_Stop ∧
    t_usage (foldl tokens_append Tokens_default [c1; c2]) =
      match u with Some u => usage_add TokenUsage_default (anthropic_usage u)
                 | None => TokenUsage_default end.
Proof.
  intros H1 H2 H3 E1 E2 E3.
  exists (mk_chunk id "" None (anthropic_usage <$> u) (Some (map_stop_reason reason))),
    (mk_chunk id "" None None (Some Fin_Stop)).
  assert (∀ d, d ≠ "" → lift_event id (data_chunk d) =
    match parse_event d with
    | Err e => Some (Err (Internal ("anthropic event decode: " +:+ e)))
    | Ok ev => lift_sse_event id ev
    end) as Hl.
  { intros d Hd. unfold lift_event. rewrite decide_False; [done|]. cbn. intros [?|?]; done. }
  split; [|by destruct u]. unfold lift_stream. cbn [fmap list_fmap omap list_omap].
  by rewrite !Hl, E1, E2, E3 by done.
Qed.

(** Provider errors carry the right retry decision: an Anthropic request whose
    transport fails, or that is answered 429 or 5xx, fails with a retryable error,
    unless the body names a permission error or an over-long prompt, which are final;
    every other failing status is final too; a 429 keeps the server's delay. *)
Theorem anthropic_error_retryable (now : Z) (answer : HttpAnswer) (batch : ExecuteBatch)
    (e : InferenceError) :
  match answer with Ok r => is_success r = false | Err _ => True end →
  anthropic_execute now (Ok ()) answer batch = Err e →
  let final env := ae_kind env = "permission_error" ∨
    ae_kind env = "invalid_request_error" ∧
    (contains "context length" (to_lowercase (ae_message env)) ||
     contains "too long" (to_lowercase (ae_message env))) = true in
  (is_retryable e = true ↔
   match answer with
   | Err _ => True
   | Ok r => (resp_status r = 429 ∨ 500 ≤ resp_status r < 600) ∧
             ¬ ∃ env, (resp_text r ≫= parse_error_envelope) = Some env ∧ final env
   end) ∧
  (∀ r p ra, answer = Ok r → e = RateLimited p ra →
     p = PK_Anthropic ∧ ra = parse_retry_after parse_rfc2822 now (resp_retry_after r)).
Proof.
  intros Hs H. cbv zeta. destruct answer as [resp|m]; cbn in H.
  2: { simplify_eq. split; [done|]. intros; done. }
  rewrite Hs in H. simplify_eq.
  match goal with |- ?A ∧ _ => cut (A ∧ ∀ p ra,
    classify_anthropic_error now (resp_status resp) (resp_retry_after resp) (resp_text resp) =
    RateLimited p ra → p = PK_Anthropic ∧
    ra = parse_retry_after parse_rfc2822 now (resp_retry_after resp)) end.
  { intros [HA HB]. split; [exact HA|]. intros r p ra [= <-]. apply HB. }
 unfold classify_anthropic_error.
  set (ra := parse_retry_after parse_rfc2822 now (resp_retry_after resp)).
  assert ((is_retryable (classify_http_status PK_Anthropic (resp_status resp) ra (resp_text resp)) = true ↔
    resp_status resp = 429 ∨ 500 ≤ resp_status resp < 600) ∧
    (∀ p ra', classify_http_status PK_Anthropic (resp_status resp) ra (resp_text resp) = RateLimited p ra' →
      p = PK_Anthropic ∧ ra' = ra)) as [Hg Hr].
  { unfold classify_http_status. repeat case_match; bool_to_prop; cbn; split;
      try (split; intros; done || lia); intros; simplify_eq; done. }
  destruct (resp_text resp ≫= parse_error_envelope) as [env|] eqn:Ee.
  - destruct (decide (ae_kind env = "invalid_request_error")) as [Ek|Ek].
    + destruct (_ || _) eqn:Ec.
      * cbn. split; [|done]. split; [done|]. intros [_ Hn]. exfalso. apply Hn. exists env. auto.
      * split; [|done]. rewrite Hg. split; [intros ?; split; [done|]|tauto].
        intros (env' & [= <-] & [Hp|[_ Hc]]); [by rewrite Ek in Hp|congruence].
    + destruct (decide (ae_kind env = "permission_error")) as [Ep|Ep].
      * cbn. split; [|done]. split; [done|]. intros [_ Hn]. exfalso. apply Hn. exists env. auto.
      * split; [|done]. rewrite Hg. split; [intros ?; split; [done|]|tauto].
        intros (env' & [= <-] & [Hp|[Hp _]]); done.
  - split; [|done]. rewrite Hg. split; [intros ?; split; [done|]|tauto]. intros (env & He & _). done.
Qed.
End anthropic.

(** ** Prices (cost.rs) *)

Definition anthropic_PRICING : list (string * ModelPrice) := [
  ("claude-opus-4", price 1500 7500); ("claude-sonnet-4", price 300 1500);
  ("claude-3-5-sonnet", price 300 1500); ("claude-3-5-haiku", price 80 400);
  ("claude-3-haiku", price 25 125)].
Definition anthropic_estimate_cost_usd : ExecuteBatch → f64 := estimate_with anthropic_PRICING.

(** ** Witnesses *)

Definition demo_parse_event (d : string) : result string SseEvent :=
  if decide (d = "start") then Ok (AE_MessageStart "m" None)
  else if decide (d = "delta") then Ok (AE_MessageDelta (Some "tool_use") None)
  else if decide (d = "stop") then Ok AE_MessageStop
  else Err "bad".
Lemma anthropic_stop_reason_overwritten_witness :
  ∃ c1 c2 : TokenChunk DemoJson,
    lift_stream (lift_event demo_parse_event "r")
      (Ok <$> [data_chunk "start"; data_chunk "delta"; data_chunk "stop"]) = [Ok c1; Ok c2] ∧
    finish_reason c1 = Some Fin_ToolCalls ∧
    t_finish_reason (foldl tokens_append Tokens_default [c1; c2]) = Some Fin_Stop.
Proof.
  destruct (anthropic_stop_reason_overwritten (Json:=DemoJson) demo_parse_event "r" "start" "delta" "stop"
    "tool_use" None None "m" ltac:(done) ltac:(done) ltac:(done) eq_refl eq_refl eq_refl)
    as (c1 & c2 & H1 & H2 & _ & H3 & _).
  by exists c1, c2.
Defined.
Lemma anthropic_error_retryable_witness :
  let resp := {| resp_status := 529; resp_retry_after := None; resp_text := None; resp_events := [] |} in
  is_retryable (ServerError 529 None) = true ∧ is_success resp = false.
Proof.
  intros resp. split; [|reflexivity].
  apply (proj1 (anthropic_error_retryable (Json:=DemoJson) demo_parse_event (λ _, Err "no") (λ _, None)
    (λ _, None) id 0 (Ok resp)
    {| request_id := "r"; model := "m"; messages := []; sampling := SamplingParams_default;
       stream := true; estimated_tokens_field := 1 |} (ServerError 529 None) eq_refl eq_refl)).
  split; [right; done|]. intros (env & He & _). done.
Defined.
