(* ===== verification/AudioProvider.v ===== *)
(** * What the audio and realtime providers share

    The operations on URLs the provider configurations use ([url] is another crate: the
    class [UrlOps]), the cutting of a body into chunks (the loops of
    [open_audio_input] in inference-runtime-deepgram/src/runner.rs and of the synthesis
    runners), the conversion of seconds to milliseconds, and the millisecond codec of
    the connect timeout (the module [duration_ms] of the config.rs files).  Reading a
    file is a parameter. *)
From Stdlib Require Import SpecFloat.
From S2P Require Import Prelude F64 Runtime Deployment Audio WsCore.

(** ** URLs *)

(** [Url::parse], [Url::join], [as_str] and [query_pairs_mut().append_pair]; errors by
    their text. *)
Class UrlOps (Url : Type) : Type := {
  url_parse : string → result string Url;
  url_join : Url → string → result string Url;
  url_as_str : Url → string;
  append_pair : Url → string * string → Url
}.
Definition append_pairs `{UrlOps Url} (u : Url) (qs : list (string * string)) : Url :=
  foldl append_pair u qs.
Definition bool_str (b : bool) : string := if b then "true" else "false".

(** URLs as far as the witnesses read them: a base and the query pairs. *)
Definition DemoUrl : Type := string * list (string * string).
#[global] Instance DemoUrl_ops : UrlOps DemoUrl := {|
  url_parse s := Ok (s, []);
  url_join u p := Ok (fst u +:+ p, []);
  url_as_str u := fst u;
  append_pair u q := (fst u, snd u ++ [q])
|}.

(** ** Input streams *)

(** [mpsc::Receiver<Bytes>]: what it will deliver, and whether a sender is still held
    after that. *)
Record ByteReceiver : Type := { br_items : list Bytes; br_open : bool }.

(** [mpsc::Receiver<RealtimeIn>]. *)
Record RealtimeReceiver : Type := { rv_items : list RealtimeIn; rv_open : bool }.

(** A connected [WsReceiver]: the frames it will yield, and whether the socket then stays
    open and silent instead of ending. *)
Record FrameReceiver : Type := { fr_items : list (result WsError Frame); fr_live : bool }.

Section cutting.
Context {A : Type}.
(** The cutting loop [while offset < total]: slices of at most [size] bytes.  One round
    per byte is enough, since a round moves the offset. *)
Fixpoint rechunk (fuel size offset : nat) (bytes : list A) : list (list A) :=
  match fuel with
  | O => []
  | S fuel' =>
      if (offset <? length bytes)%nat then
        let end_ := Nat.min (offset + size) (length bytes) in
        take (end_ - offset) (drop offset bytes) :: rechunk fuel' size end_ bytes
      else []
  end.
Definition chunks_of (size : nat) (bytes : list A) : list (list A) :=
  rechunk (length bytes) size 0 bytes.

Lemma rechunk_spec fuel size offset (bytes : list A) :
  (0 < size)%nat → (length bytes - offset ≤ fuel)%nat →
  concat (rechunk fuel size offset bytes) = drop offset bytes ∧
  Forall (λ c, (0 < length c ≤ size)%nat) (rechunk fuel size offset bytes).
Proof.
  intros Hs. revert offset. induction fuel as [|fuel IH]; intros offset Hf; cbn [rechunk concat].
  { rewrite drop_ge by lia. split; [done|constructor]. }
  destruct (Nat.ltb_spec offset (length bytes)) as [Hlt|Hge]; cbn [concat].
  - destruct (IH (Nat.min (offset + size) (length bytes))%nat ltac:(lia)) as [IHc IHf].
    rewrite IHc. split.
    + rewrite <-(take_drop (Nat.min (offset + size) (length bytes) - offset) (drop offset bytes)) at 2.
      rewrite drop_drop. do 2 f_equal. lia.
    + constructor; [|done]. rewrite length_take, length_drop. lia.
  - rewrite drop_ge by lia. split; [done|constructor].
Qed.
Lemma chunks_of_spec size (bytes : list A) : (0 < size)%nat →
  concat (chunks_of size bytes) = bytes ∧
  Forall (λ c, (0 < length c ≤ size)%nat) (chunks_of size bytes).
Proof. intros Hs. apply (rechunk_spec _ _ 0 bytes Hs). lia. Qed.
End cutting.

(** ** Times *)

(** [(s * 1_000.0).max(0.0) as u32] on [f32]. *)
Definition seconds_to_ms (s : f32) : Z :=
  f64_to_u 32 (f32_max (f32_mul s (f32_of_Z 1000)) (S754_zero false)).
Lemma f64_to_u_range w x : 0 ≤ w → is_u w (f64_to_u w x).
Proof.
  intros Hw. unfold is_u. pose proof (Z.pow_pos_nonneg 2 w ltac:(lia) Hw).
  unfold f64_to_u. destruct x as [| [|] | | [|] m e]; try lia.
  assert (0 ≤ trunc_pos m e); [|lia]. unfold trunc_pos.
  destruct (0 <=? e); [pose proof (Z.pow_nonneg 2 e); nia|]. apply Z_div_nonneg_nonneg; [lia|].
  by apply Z.pow_nonneg.
Qed.
Lemma seconds_to_ms_range s : is_u 32 (seconds_to_ms s).
Proof. by apply f64_to_u_range. Qed.
#[export] Hint Resolve f64_to_u_range seconds_to_ms_range : rust.

(** [ms] is a [u32] less than one millisecond away from the [f32] time [s], up to [2^24]
    ms (more than four hours); a negative time or a NaN is 0. *)
Definition near_ms (s : f32) (ms : Z) : Prop :=
  is_u 32 ms ∧
  match s with
  | S754_finite false m e =>
      -149 ≤ e → 1000 * Zpos m * 2 ^ (e + 149) < 2 ^ (24 + 149) →
      Z.abs (ms * 2 ^ 149 - 1000 * Zpos m * 2 ^ (e + 149)) < 2 ^ 149
  | S754_infinity false => ms = 2 ^ 32 - 1
  | _ => ms = 0
  end.
Lemma f32_thousand : f32_of_Z 1000 = S754_finite false 16384000 (-14).
Proof. reflexivity. Qed.
Lemma seconds_to_ms_finite (m : positive) (e : Z) :
  -149 ≤ e → 1000 * Zpos m * 2 ^ (e + 149) < 2 ^ (24 + 149) →
  Z.abs (seconds_to_ms (S754_finite false m e) * 2 ^ 149 - 1000 * Zpos m * 2 ^ (e + 149)) < 2 ^ 149.
Proof.
  intros He Hlt. assert (e ≤ 14) as He'.
  { destruct (Z_le_gt_dec e 14); [done|exfalso].
    assert (2 ^ 164 ≤ 2 ^ (e + 149)) by (apply Z.pow_le_mono_r; lia).
    assert (1000 * 2 ^ 164 ≤ 1000 * Zpos m * 2 ^ (e + 149)) by (apply Z.mul_le_mono_nonneg; lia).
    assert (2 ^ (24 + 149) = 512 * 2 ^ 164) by reflexivity. lia. }
  unfold seconds_to_ms. rewrite f32_thousand. unfold f32_mul. cbn [SFmul xorb].
  assert (2 ^ (24 + 149) = 2 ^ (e + 149) * 2 ^ (24 - e)) as E1.
  { rewrite <-Z.pow_add_r by lia. f_equal. lia. }
  assert (0 < 2 ^ (e + 149)) as Hp by (apply Z.pow_pos_nonneg; lia).
  assert (1000 * Zpos m < 2 ^ (24 - e)) as Hm by nia.
  destruct (f32_round_near (m * 16384000) (e + -14)) as [Hx Ht]; [lia|lia| |].
  { rewrite Pos2Z.inj_mul. replace (24 - (e + -14)) with ((24 - e) + 14) by lia.
    rewrite Z.pow_add_r by lia. change (2 ^ 14) with 16384. lia. }
  set (x := binary_round_aux _ _ _ _ _ _) in *.
  assert (f32_max x (S754_zero false) = x) as ->.
  { destruct Hx as [->|(m' & e' & ->)]; done. }
  set (t := f64_to_u 32 x) in *. rewrite Pos2Z.inj_mul in Ht.
  replace (- (e + -14)) with (14 - e) in Ht by lia.
  assert (2 ^ 149 * 2 ^ 14 = 2 ^ (14 - e) * 2 ^ (e + 149)) as E2.
  { rewrite <-!Z.pow_add_r by lia. f_equal. lia. }
  change (2 ^ 14) with 16384 in E2. nia.
Qed.
Lemma seconds_to_ms_near s : near_ms s (seconds_to_ms s).
Proof.
  split; [apply seconds_to_ms_range|]. destruct s as [[]|[]| |[] m e]; try reflexivity.
  - unfold seconds_to_ms. rewrite f32_thousand. unfold f32_mul. cbn [SFmul xorb].
    unfold binary_round_aux. by repeat case_match.
  - apply seconds_to_ms_finite.
Qed.

(** [duration_ms]: a connect timeout travels as a [u64] of milliseconds. *)
Definition duration_ms_serialize (d : Duration) : Z := wrap_u64 (as_millis d).
Definition duration_ms_deserialize (ms : Z) : Duration := from_millis ms.
Definition default_ws_connect_timeout : Duration := from_secs 5.

(** ** Chunk types *)

(** The types of a transcript chunk's fields: milliseconds are [u32]. *)
Definition word_typed (w : WordTiming) : Prop := is_u 32 (wt_start_ms w) ∧ is_u 32 (wt_end_ms w).
Definition transcript_typed (rid : string) (c : TranscriptChunk) : Prop :=
  tc_request_id c = rid ∧ is_u 32 (tc_start_ms c) ∧ is_u 32 (tc_end_ms c) ∧
  Forall word_typed (tc_words c).
