(* ===== verification/StreamStt.v ===== *)
(** * Streaming transcription over a WebSocket

    The two tasks that [execute_audio] spawns in the runners of
    inference-runtime-deepgram and inference-runtime-assemblyai (runner.rs in each): the
    uplink, which drains the caller's audio into binary frames, and the downlink, which
    turns the provider's envelopes into transcript chunks.  They run concurrently and
    share the output channel; a schedule is the sequence of tasks that take a step.  What
    the two providers do differently is the class [SttProvider], which [Deepgram] and
    [AssemblyAi] instantiate.

    A send on the output channel waits for room (16 places); the model gives it room when
    the client still listens.  [send_result n f] answers the uplink's [n]-th send. *)
From S2P Require Import Prelude Runtime Audio AudioProvider WsCore.

(** ** What a provider supplies *)

Record SttOptions : Type := {
  stt_request_id : string; emit_interim : bool; want_diarize : bool; want_words : bool
}.
Class SttProvider (Env : Type) : Type := {
  stt_name : string;
  (** The JSON text of the flush marker. *)
  close_json : string;
  (** [serde_json::from_str] of an envelope. *)
  decode_envelope : string → result string Env;
  (** The chunk an envelope yields, if it is of the kind that yields one and passes the
      interim filter. *)
  envelope_chunk : SttOptions → Env → option TranscriptChunk
}.
(** A provider's chunks carry the request's id and the envelope's times, as [times_ok]
    says. *)
Class SttProviderTimed (Env : Type) `{!SttProvider Env} (times_ok : SttOptions → Env → TranscriptChunk → Prop) : Prop :=
  envelope_chunk_timed o e c :
    envelope_chunk o e = Some c → tc_request_id c = stt_request_id o ∧ times_ok o e c.

(** ** Input (open_audio_input, materialize_payload) *)

Definition STATIC_CHUNK_BYTES : nat := 4096.
Section input.
Context {Url : Type} (name : string).
Variable fs_read : string → result string Bytes.

Definition materialize_payload (p : AudioPayload Url) : InferenceResult (Bytes * AudioParams) :=
  match p with
  | AP_Bytes data params => Ok (data, params)
  | AP_Path path params =>
      match fs_read path with
      | Ok data => Ok (data, params)
      | Err e => Err (BadRequest (name +:+ ": read " +:+ path +:+ ": " +:+ e))
      end
  | AP_Url _ _ =>
      Err (Unsupported "execute_audio: URL audio payloads (use Stream or Bytes)" RK_SpeechToText)
  end.
Definition open_audio_input (i : AudioInput Url ByteReceiver) :
  InferenceResult (AudioParams * ByteReceiver) :=
  match i with
  | AI_Static payload =>
      let? p := materialize_payload payload in
      Ok (snd p, {| br_items := chunks_of STATIC_CHUNK_BYTES (fst p); br_open := false |})
  | AI_Stream params rx => Ok (params, rx)
  end.
End input.

(** ** The two tasks *)

Abbreviation Item := (InferenceResult TranscriptChunk) (only parsing).
Inductive Downlink : Type :=
  | Dn_Loop (produced : list TranscriptChunk) (saw_final : bool)
  | Dn_Flush (rest : list TranscriptChunk)
  | Dn_Done.
Record SttTasks : Type := {
  up_input : ByteReceiver;
  up_done : bool;
  up_sent : list Frame;             (* accepted by the socket, in order *)
  up_sends : nat;                   (* sends attempted *)
  socket : FrameReceiver;           (* what [rx.next] will yield *)
  down : Downlink;
  out : list Item                   (* the output channel, in order *)
}.
Inductive Task : Type := T_Uplink | T_Downlink.

Section tasks.
Context {Env : Type} `{!SttProvider Env}.
Variable opts : SttOptions.
Variable send_result : nat → Frame → result WsError unit.
(** Whether the client still holds the receiver, given what it was sent. *)
Variable listening : list Item → bool.

Definition emit (i : Item) (l : list Item) : list Item := if listening l then l ++ [i] else l.
Definition send_error (e : WsError) : InferenceError :=
  NetworkError (stt_name +:+ " ws send: " +:+ ws_error_to_string e).

(** One round of [while let Some(chunk) = input_stream.recv().await], or what follows
    the loop; the uplink waits while the caller holds the sender of an empty channel. *)
Definition uplink_step (s : SttTasks) : SttTasks :=
  if up_done s then s else
  match br_items (up_input s) with
  | [] =>
      if br_open (up_input s) then s else
      let marker := Fr_Text close_json in
      {| up_input := up_input s; up_done := true; up_sends := S (up_sends s);
         up_sent := match send_result (up_sends s) marker with
                    | Ok _ => up_sent s ++ [marker] | Err _ => up_sent s end;
         socket := socket s; down := down s; out := out s |}
  | chunk :: rest =>
      let input := {| br_items := rest; br_open := br_open (up_input s) |} in
      match chunk with
      | [] => {| up_input := input; up_done := false; up_sends := up_sends s; up_sent := up_sent s;
                 socket := socket s; down := down s; out := out s |}
      | _ =>
          match send_result (up_sends s) (Fr_Binary chunk) with
          | Ok _ => {| up_input := input; up_done := false; up_sends := S (up_sends s);
                       up_sent := up_sent s ++ [Fr_Binary chunk];
                       socket := socket s; down := down s; out := out s |}
          | Err e => {| up_input := input; up_done := true; up_sends := S (up_sends s);
                        up_sent := up_sent s; socket := socket s; down := down s;
                        out := emit (Err (send_error e)) (out s) |}
          end
      end
  end.

Definition set_final (c : TranscriptChunk) : TranscriptChunk := {|
  tc_request_id := tc_request_id c; tc_is_final := true; tc_text := tc_text c;
  tc_start_ms := tc_start_ms c; tc_end_ms := tc_end_ms c; tc_speaker_id := tc_speaker_id c;
  tc_words := tc_words c; tc_usage := tc_usage c
|}.
Definition empty_final (rid : string) : TranscriptChunk := {|
  tc_request_id := rid; tc_is_final := true; tc_text := ""; tc_start_ms := 0; tc_end_ms := 0;
  tc_speaker_id := None; tc_words := []; tc_usage := None
|}.
(** After the loop: the last chunk is promoted, or an empty final one is made. *)
Definition promote_last (produced : list TranscriptChunk) (saw_final : bool) : list TranscriptChunk :=
  if saw_final then produced
  else match last produced with
       | Some c => take (length produced - 1) produced ++ [set_final c]
       | None => [empty_final (stt_request_id opts)]
       end.
Definition with_down (d : Downlink) (rx : list (result WsError Frame)) (o : list Item)
    (s : SttTasks) : SttTasks :=
  {| up_input := up_input s; up_done := up_done s; up_sent := up_sent s; up_sends := up_sends s;
     socket := {| fr_items := rx; fr_live := fr_live (socket s) |}; down := d; out := o |}.
Definition rx_frames (s : SttTasks) : list (result WsError Frame) := fr_items (socket s).
Definition normal_close (code : Z) : bool := (code =? 1000) || (code =? 1005) || (code =? 1006).

(** One round of the receive loop, or of the sending loop after it.  While the socket is
    open and silent [rx.next().await] does not return: the loop has no timeout. *)
Definition downlink_step (s : SttTasks) : SttTasks :=
  match down s with
  | Dn_Done => s
  | Dn_Flush [] => with_down Dn_Done (rx_frames s) (out s) s
  | Dn_Flush (c :: rest) =>
      if listening (out s) then with_down (Dn_Flush rest) (rx_frames s) (out s ++ [Ok c]) s
      else with_down Dn_Done (rx_frames s) (out s) s
  | Dn_Loop produced saw_final =>
      let break rx o := with_down (Dn_Flush (promote_last produced saw_final)) rx o s in
      let fail rx m := with_down Dn_Done rx (emit (Err (NetworkError m)) (out s)) s in
      match rx_frames s with
      | [] => if fr_live (socket s) then s else break [] (out s)
      | Err e :: rx => fail rx (stt_name +:+ " ws recv: " +:+ ws_error_to_string e)
      | Ok f :: rx =>
          match f with
          | Fr_Text text =>
              match decode_envelope text with
              | Ok env =>
                  match envelope_chunk opts env with
                  | None => with_down (Dn_Loop produced saw_final) rx (out s) s
                  | Some c =>
                      with_down (Dn_Loop (produced ++ [c]) (saw_final || tc_is_final c)) rx (out s) s
                  end
              | Err e => break rx (emit (Err (Internal (stt_name +:+ " envelope decode: " +:+ e))) (out s))
              end
          | Fr_Binary _ | Fr_Ping _ | Fr_Pong _ => with_down (Dn_Loop produced saw_final) rx (out s) s
          | Fr_Close code reason =>
              if negb (normal_close code)
              then fail rx (stt_name +:+ " closed code=" +:+ pretty code +:+ " reason=" +:+ reason)
              else break rx (out s)
          end
      end
  end.

Definition stt_step (t : Task) (s : SttTasks) : SttTasks :=
  match t with T_Uplink => uplink_step s | T_Downlink => downlink_step s end.
Definition stt_run (sched : list Task) (s : SttTasks) : SttTasks := foldl (λ s t, stt_step t s) s sched.
(** The state when [execute_audio] returns its handle. *)
Definition stt_start (input : ByteReceiver) (rx : FrameReceiver) : SttTasks := {|
  up_input := input; up_done := false; up_sent := []; up_sends := 0; socket := rx;
  down := Dn_Loop [] false; out := []
|}.
(** The client's stream ends when both tasks dropped their sender. *)
Definition stream_closed (s : SttTasks) : bool :=
  up_done s && match down s with Dn_Done => true | _ => false end.
End tasks.

(** ** What the client is promised *)

(** How a receive loop ends: the socket closes normally, a frame cannot be decoded, or
    the connection fails; on an open silent socket it does not end. *)
Inductive Ending : Type :=
  | E_Normal | E_Undecodable (m : string) | E_Failed (m : string) | E_Silent.

Section spec.
Context {Env : Type} `{!SttProvider Env}.
Variable opts : SttOptions.

Definition cons_env (env : Env) (p : list Env * Ending) : list Env * Ending := (env :: fst p, snd p).
(** The envelopes before the end, and how it ends. *)
Fixpoint session (live : bool) (rx : list (result WsError Frame)) : list Env * Ending :=
  match rx with
  | [] => ([], if live then E_Silent else E_Normal)
  | Err e :: _ => ([], E_Failed (stt_name +:+ " ws recv: " +:+ ws_error_to_string e))
  | Ok (Fr_Text t) :: r =>
      match decode_envelope t with
      | Ok env => cons_env env (session live r)
      | Err e => ([], E_Undecodable (stt_name +:+ " envelope decode: " +:+ e))
      end
  | Ok (Fr_Close code reason) :: _ =>
      if normal_close code then ([], E_Normal)
      else ([], E_Failed (stt_name +:+ " closed code=" +:+ pretty code +:+ " reason=" +:+ reason))
  | Ok _ :: r => session live r
  end.
(** What the downlink still owes after having kept [produced]. *)
Definition owed (produced : list TranscriptChunk) (saw : bool) (p : list Env * Ending) :
  list (InferenceResult TranscriptChunk) :=
  let new := omap (envelope_chunk opts) (fst p) in
  let chunks := Ok <$> promote_last opts (produced ++ new) (saw || existsb tc_is_final new) in
  match snd p with
  | E_Normal => chunks
  | E_Undecodable m => Err (Internal m) :: chunks
  | E_Failed m => [Err (NetworkError m)]
  | E_Silent => []
  end.
Definition transcript_spec (rx : FrameReceiver) := owed [] false (session (fr_live rx) (fr_items rx)).
Definition remaining (s : SttTasks) : list (InferenceResult TranscriptChunk) :=
  match down s with
  | Dn_Done => []
  | Dn_Flush rest => Ok <$> rest
  | Dn_Loop produced saw => owed produced saw (session (fr_live (socket s)) (rx_frames s))
  end.

Lemma owed_cons env produced saw p :
  owed produced saw (cons_env env p) =
  match envelope_chunk opts env with
  | None => owed produced saw p
  | Some c => owed (produced ++ [c]) (saw || tc_is_final c) p
  end.
Proof.
  unfold owed, cons_env. cbn [fst snd omap list_omap].
  destruct (envelope_chunk opts env) as [c|]; [|done].
  cbn [existsb]. by rewrite <-(app_assoc produced), orb_assoc.
Qed.

Variable send_result : nat → Frame → result WsError unit.
Abbreviation always := (λ _ : list (InferenceResult TranscriptChunk), true).
Abbreviation step := (stt_step opts send_result always).

Lemma downlink_step_delivers s :
  let s' := downlink_step opts always s in
  ∃ new, out s' = out s ++ new ∧ new ++ remaining s' = remaining s ∧ up_done s' = up_done s.
Proof.
  cbv zeta. unfold downlink_step, remaining, emit, rx_frames.
  destruct (down s) as [produced saw|[|c rest]|] eqn:Ed; cbn [down out socket fr_items fr_live up_done with_down].
  - destruct (fr_items (socket s)) as [|[[b|t|p|p|code reason]|e] rx] eqn:Erx; cbn [session].
    + destruct (fr_live (socket s)) eqn:El; exists []; rewrite app_nil_r; [by rewrite Ed, Erx, El|].
      unfold owed. cbn. by rewrite app_nil_r, orb_false_r.
    + exists []. by rewrite app_nil_r.
    + destruct (decode_envelope t) as [env|e]; [|eexists; split; [reflexivity|]].
      * exists []. rewrite owed_cons, app_nil_r. by destruct (envelope_chunk opts env).
      * unfold owed. cbn. by rewrite app_nil_r, orb_false_r.
    + exists []. by rewrite app_nil_r.
    + exists []. by rewrite app_nil_r.
    + destruct (normal_close code); cbn [negb down out rx_frames up_done with_down].
      * exists []. rewrite app_nil_r. unfold owed. cbn. by rewrite app_nil_r, orb_false_r.
      * eexists. split; [reflexivity|]. done.
    + eexists. split; [reflexivity|]. done.
  - exists []. by rewrite app_nil_r.
  - exists [Ok c]. done.
  - exists []. rewrite app_nil_r, Ed. done.
Qed.
Lemma uplink_step_delivers s :
  let s' := uplink_step send_result always s in
  remaining s' = remaining s ∧
  (out s' = out s ∨
   up_done s = false ∧ up_done s' = true ∧ ∃ e, out s' = out s ++ [Err (send_error e)]).
Proof.
  cbv zeta. unfold uplink_step, remaining, emit. destruct (up_done s) eqn:Eu; [eauto|].
  destruct (br_items (up_input s)) as [|[|b chunk] rest]; [destruct (br_open (up_input s))| |];
    [eauto..|]. destruct (send_result _ _); cbn; eauto 6.
Qed.

(** The client has been sent the promised items so far, with at most one extra item, a
    send error of the uplink. *)
Definition delivered (promised : list (InferenceResult TranscriptChunk)) (s : SttTasks) : Prop :=
  ∃ l1 u l2, out s = l1 ++ u ++ l2 ∧ l1 ++ l2 ++ remaining s = promised ∧
    (u = [] ∨ up_done s = true ∧ ∃ e, u = [Err (send_error e)]).
Lemma delivered_step promised t s : delivered promised s → delivered promised (step t s).
Proof.
  intros (l1 & u & l2 & Ho & Hp & Hu). destruct t; cbn [stt_step].
  - destruct (uplink_step_delivers s) as [Hr [Hs|(Hd & Hd' & e & Hs)]].
    + exists l1, u, l2. rewrite Hs, Hr. split_and!; [done..|]. destruct Hu as [|[Hd ?]]; [by left|right].
      split; [|done]. unfold uplink_step. by rewrite Hd.
    + exists (l1 ++ l2), [Err (send_error e)], []. rewrite Hs, Hr, Ho.
      destruct Hu as [->|[Hd2 _]]; [|congruence].
      split_and!; [by rewrite app_nil_r|by rewrite <-app_assoc|eauto].
  - destruct (downlink_step_delivers s) as (new & Hs & Hr & Hd).
    exists l1, u, (l2 ++ new). rewrite Hs, Hd, Ho. split_and!; [by rewrite <-!app_assoc| |done].
    by rewrite <-app_assoc, Hr.
Qed.
Lemma delivered_run promised sched s : delivered promised s → delivered promised (stt_run opts send_result always sched s).
Proof.
  revert s. induction sched as [|t sched IH]; intros s Hs; [done|]. cbn [stt_run foldl].
  apply IH. by apply delivered_step.
Qed.

(** [C4] Transcript delivery: in every interleaving of the two tasks, once the downlink has
    finished the client has received exactly the chunks of the envelopes that passed the
    filter, in order, the last promoted to final if none was; after an undecodable frame
    the error comes first; after a failed connection only the error, every transcript
    received before it being lost.  The uplink adds at most one send error. *)
Theorem stt_stream_spec (input : ByteReceiver) (rx : FrameReceiver) (sched : list Task) :
  let s := stt_run opts send_result always sched (stt_start input rx) in
  down s = Dn_Done →
  ∃ l1 u l2, out s = l1 ++ u ++ l2 ∧ l1 ++ l2 = transcript_spec rx ∧
    (u = [] ∨ ∃ e, u = [Err (send_error e)]).
Proof.
  intros s Hd.
  destruct (delivered_run (transcript_spec rx) sched (stt_start input rx)) as (l1 & u & l2 & Ho & Hp & Hu).
  { exists [], [], []. eauto. }
  exists l1, u, l2. fold s in Ho, Hp, Hu. unfold remaining in Hp. rewrite Hd, app_nil_r in Hp.
  split_and!; [done..|]. destruct Hu as [|[_ ?]]; eauto.
Qed.

(** ** The tasks end *)

Definition terminal_item (i : InferenceResult TranscriptChunk) : bool :=
  match i with Ok c => tc_is_final c | Err _ => true end.
Lemma existsb_app_true {A} (f : A → bool) l1 l2 : existsb f (l1 ++ l2) = existsb f l1 || existsb f l2.
Proof. apply existsb_app. Qed.
Lemma promote_last_final l : existsb tc_is_final (promote_last opts l (existsb tc_is_final l)) = true.
Proof.
  unfold promote_last. destruct (existsb tc_is_final l) eqn:E; [done|].
  destruct (last l); [rewrite existsb_app|]; [|done]. cbn. by rewrite orb_true_r.
Qed.
Lemma existsb_fmap {A B} (f : B → bool) (g : A → B) l : existsb f (g <$> l) = existsb (f ∘ g) l.
Proof. induction l as [|x l IH]; [done|]. cbn. by rewrite <-IH. Qed.
(** What ends the receive loop: the end of the connection, an error, a close frame or a
    text that is not an envelope. *)
Definition ends_session (f : result WsError Frame) : bool :=
  match f with
  | Err _ | Ok (Fr_Close _ _) => true
  | Ok (Fr_Text t) => match decode_envelope (Env := Env) t with Ok _ => false | Err _ => true end
  | Ok _ => false
  end.
Definition socket_ends (rx : FrameReceiver) : bool := negb (fr_live rx) || existsb ends_session (fr_items rx).
Lemma session_ends live rx :
  negb live || existsb ends_session rx =
  match snd (session live rx) with E_Silent => false | _ => true end.
Proof.
  induction rx as [|[[b|t|p|p|code reason]|e] rx IH]; cbn [session existsb ends_session];
    [by destruct live|exact IH| |exact IH|exact IH| |by rewrite orb_true_r].
  - destruct (decode_envelope t); [exact IH|by rewrite orb_true_r].
  - rewrite orb_true_r. by destruct (normal_close code).
Qed.
Lemma transcript_spec_terminal rx : socket_ends rx = true → existsb terminal_item (transcript_spec rx) = true.
Proof.
  unfold socket_ends, transcript_spec, owed. rewrite session_ends.
  destruct (session (fr_live rx) (fr_items rx)) as [envs [|m|m|]]; cbn [fst snd app orb]; [|done..]. intros _.
  rewrite existsb_fmap. apply (promote_last_final (omap (envelope_chunk opts) envs)).
Qed.

(** Steps the downlink may still take, and the uplink when its input ends. *)
Definition down_rank (s : SttTasks) : nat :=
  match down s with
  | Dn_Done => 0
  | Dn_Flush rest => 1 + length rest
  | Dn_Loop produced _ =>
      if socket_ends (socket s) then 3 + length produced + 2 * length (rx_frames s) else 0
  end.
Definition up_rank (s : SttTasks) : nat :=
  if up_done s || br_open (up_input s) then 0 else 1 + length (br_items (up_input s)).

Lemma promote_last_length produced saw : (length (promote_last opts produced saw) ≤ S (length produced))%nat.
Proof.
  unfold promote_last. destruct saw; [lia|]. destruct (last produced); [|cbn; lia].
  rewrite length_app, length_take. cbn. lia.
Qed.
Lemma downlink_step_rank s : (0 < down_rank s → down_rank (downlink_step opts always s) < down_rank s)%nat.
Proof.
  unfold downlink_step, down_rank, rx_frames, socket_ends.
  destruct (down s) as [produced saw|[|c rest]|]; cbn [down socket fr_items fr_live with_down length]; [|lia..].
  pose proof (promote_last_length produced saw) as Hl.
  destruct (fr_items (socket s)) as [|[[b|t|p|p|code reason]|e] rx] eqn:Ei;
    cbn [down socket fr_items fr_live with_down length existsb ends_session orb]; rewrite ?orb_true_r.
  - destruct (fr_live (socket s)); cbn; lia.
  - case_match; cbn; lia.
  - destruct (decode_envelope t) as [env|e]; [|rewrite ?orb_true_r; cbn; lia]. cbn [orb].
    destruct (envelope_chunk opts env); cbn [down socket fr_items fr_live with_down]; case_match;
      rewrite ?length_app; cbn; lia.
  - case_match; cbn; lia.
  - case_match; cbn; lia.
  - destruct (normal_close code); cbn; lia.
  - cbn; lia.
Qed.
Lemma uplink_step_down s :
  down (uplink_step send_result always s) = down s ∧
  socket (uplink_step send_result always s) = socket s.
Proof. unfold uplink_step. by repeat case_match. Qed.
Lemma uplink_step_down_rank s : down_rank (uplink_step send_result always s) = down_rank s.
Proof. unfold down_rank, rx_frames. by destruct (uplink_step_down s) as [-> ->]. Qed.
Lemma uplink_step_rank s : (0 < up_rank s → up_rank (uplink_step send_result always s) < up_rank s)%nat.
Proof.
  unfold uplink_step, up_rank. destruct (up_done s); [cbn; lia|]. cbn [orb].
  destruct (br_open (up_input s)) eqn:Eo; [lia|].
  destruct (br_items (up_input s)) as [|[|b chunk] rest]; [cbn; lia|cbn; rewrite ?Eo; lia|].
  destruct (send_result _ _); cbn; rewrite ?Eo; cbn; lia.
Qed.
Lemma downlink_step_up s :
  up_done (downlink_step opts always s) = up_done s ∧
  up_input (downlink_step opts always s) = up_input s.
Proof. unfold downlink_step. by repeat case_match. Qed.
Lemma downlink_step_up_rank s : up_rank (downlink_step opts always s) = up_rank s.
Proof. unfold up_rank. by destruct (downlink_step_up s) as [-> ->]. Qed.
Lemma uplink_step_open s :
  br_open (up_input (uplink_step send_result always s)) = br_open (up_input s).
Proof. unfold uplink_step. by repeat case_match. Qed.
Lemma uplink_step_rank_le s : (up_rank (uplink_step send_result always s) ≤ up_rank s)%nat.
Proof.
  destruct (decide (0 < up_rank s)%nat) as [|Hz]; [pose proof (uplink_step_rank s); lia|].
  unfold up_rank in Hz |- *. rewrite uplink_step_open. destruct (up_done s) eqn:Eu.
  - unfold uplink_step. rewrite !Eu. cbn. rewrite ?Eu. cbn. lia.
  - destruct (br_open (up_input s)); [by rewrite orb_true_r; cbn|cbn in Hz; lia].
Qed.
(** A loop on a socket that ends keeps it: it consumes no ending frame and goes on. *)
Definition loop_ends (b : bool) (s : SttTasks) : Prop :=
  match down s with Dn_Loop _ _ => socket_ends (socket s) = b | _ => b = true end.
Lemma loop_ends_step b t s : loop_ends b s → loop_ends b (step t s).
Proof.
  destruct t; cbn [stt_step]; unfold loop_ends.
  { by destruct (uplink_step_down s) as [-> ->]. }
  unfold downlink_step, rx_frames, socket_ends.
  destruct (down s) as [produced saw|[|c rest]|] eqn:Ed; [|done|done|intros; by rewrite Ed].
  destruct (fr_items (socket s)) as [|[[x|t|p|p|code reason]|e] rx] eqn:Ei; cbn [existsb ends_session orb];
    rewrite ?orb_true_r.
  - destruct (fr_live (socket s)) eqn:El; cbn; [intros H; by rewrite Ed, Ei, El|done].
  - done.
  - destruct (decode_envelope t) as [env|e]; [|rewrite orb_true_r; done].
    by destruct (envelope_chunk opts env).
  - done.
  - done.
  - by destruct (normal_close code).
  - done.
Qed.
Lemma downlink_step_rank_le s : (down_rank (downlink_step opts always s) ≤ down_rank s)%nat.
Proof.
  destruct (decide (0 < down_rank s)%nat) as [|Hz]; [pose proof (downlink_step_rank s); lia|].
  destruct (down s) as [produced saw|rest|] eqn:E.
  - destruct (socket_ends (socket s)) eqn:Es; unfold down_rank in Hz; rewrite E, ?Es in Hz; [lia|].
    pose proof (loop_ends_step false T_Downlink s) as H. unfold loop_ends in H. rewrite E in H.
    specialize (H Es). cbn [stt_step] in H. unfold down_rank.
    destruct (down (downlink_step opts always s)); [rewrite H; lia|done..|lia].
  - unfold down_rank in Hz; rewrite E in Hz; lia.
  - unfold downlink_step. by rewrite E.
Qed.
Lemma step_open b t s : br_open (up_input s) = b → br_open (up_input (step t s)) = b.
Proof.
  intros <-. destruct t; cbn [stt_step]; [apply uplink_step_open|].
  by rewrite (proj2 (downlink_step_up s)).
Qed.
Lemma run_sched_stt sched s n : run_sched step sched s n = stt_run opts send_result always (sched <$> seq 0 n) s.
Proof. done. Qed.

(** On a socket that stays open and silent the client is sent no transcript at all. *)
Definition withheld (s : SttTasks) : Prop :=
  (∃ produced saw, down s = Dn_Loop produced saw) ∧ remaining s = [] ∧
  (out s = [] ∨ ∃ e, out s = [Err (send_error e)]).
Lemma withheld_run input rx sched m :
  socket_ends rx = false → withheld (run_sched step sched (stt_start input rx) m).
Proof.
  intros He. rewrite run_sched_stt. set (s := stt_run _ _ _ _ _).
  assert (loop_ends false s) as Hl.
  { unfold s. rewrite <-run_sched_stt. apply run_sched_ind; [exact He|]. intros. by apply loop_ends_step. }
  destruct (delivered_run (transcript_spec rx) (sched <$> seq 0 m) (stt_start input rx)) as (l1 & u & l2 & Ho & Hp & Hu).
  { exists [], [], []. eauto. }
  fold s in Ho, Hp, Hu. revert He. unfold transcript_spec, owed, socket_ends in *. rewrite session_ends.
  destruct (snd (session (fr_live rx) (fr_items rx))); [done..|intros _].
  apply app_eq_nil in Hp as [-> [-> Hr]%app_eq_nil]. unfold withheld. rewrite Ho, app_nil_r. cbn.
  split_and!; [|done|destruct Hu as [->|[_ [e ->]]]; eauto].
  unfold loop_ends in Hl. destruct (down s); eauto; done.
Qed.
Lemma uplink_ends input rx sched :
  fair sched T_Uplink → br_open input = false →
  ∃ n, ∀ m, (n ≤ m)%nat → up_done (run_sched step sched (stt_start input rx) m) = true.
Proof.
  intros Hfu Ho.
  destruct (fair_lowers step up_rank sched T_Uplink (stt_start input rx)) as [n H]; [| |done|].
  { intros [] x; cbn [stt_step]; [|by rewrite downlink_step_up_rank].
    apply uplink_step_rank_le. }
  { intros x Hx. by apply uplink_step_rank. }
  exists n. intros m Hm. specialize (H m Hm). unfold up_rank in H.
  assert (br_open (up_input (run_sched step sched (stt_start input rx) m)) = false) as Ho'
    by (apply run_sched_ind; [done|intros; by apply step_open]).
  rewrite Ho', orb_false_r in H. by destruct (up_done _).
Qed.

(** [C5] Liveness.  Suppose both tasks keep being scheduled; sends may fail.  If the
    provider ends its socket, or sends an error, a close frame or an undecodable text, then
    from some point on the downlink has finished and the client has received a final chunk
    or an error; and if the caller ended its input, its stream is closed.  If instead the
    provider keeps the socket open and silent, the downlink waits at every moment: it never
    finishes, the stream never closes and no transcript received before is ever delivered
    (at most the uplink's send error is), since the loop has no timeout. *)
Theorem stt_stream_ends (input : ByteReceiver) (rx : FrameReceiver) (sched : nat → Task) :
  fair sched T_Uplink → fair sched T_Downlink →
  if socket_ends rx then
    ∃ n, ∀ m, (n ≤ m)%nat →
      let s := run_sched step sched (stt_start input rx) m in
      down s = Dn_Done ∧ existsb terminal_item (out s) = true ∧
      (br_open input = false → stream_closed s = true)
  else
    ∀ m, let s := run_sched step sched (stt_start input rx) m in
      down s ≠ Dn_Done ∧ stream_closed s = false ∧ (out s = [] ∨ ∃ e, out s = [Err (send_error e)]).
Proof.
  intros Hfu Hfd. destruct (socket_ends rx) eqn:He.
  2:{ intros m. destruct (withheld_run input rx sched m He) as ((p & saw & Hd) & _ & Ho).
      unfold stream_closed. cbv zeta. rewrite Hd. by split_and!; [|destruct (up_done _)|]. }
  destruct (fair_lowers step down_rank sched T_Downlink (stt_start input rx)) as [n1 H1]; [| |done|].
  { intros [] x; cbn [stt_step]; [by rewrite uplink_step_down_rank|].
    apply downlink_step_rank_le. }
  { intros x Hx. by apply downlink_step_rank. }
  assert (∃ n2, ∀ m, (n2 ≤ m)%nat → br_open input = false →
    up_done (run_sched step sched (stt_start input rx) m) = true) as [n2 H2].
  { destruct (br_open input) eqn:Eo; [by exists 0%nat|].
    destruct (uplink_ends input rx sched Hfu Eo) as [n H]. exists n. intros. by apply H. }
  exists (Nat.max n1 n2). intros m Hm. cbv zeta. set (s := run_sched _ _ _ m).
  specialize (H1 m ltac:(lia)). specialize (H2 m ltac:(lia)). fold s in H1, H2.
  assert (loop_ends true s) as Hl
    by (apply run_sched_ind; [exact He|intros; by apply loop_ends_step]).
  assert (down s = Dn_Done) as Hd.
  { unfold down_rank in H1. unfold loop_ends in Hl. by destruct (down s); [rewrite Hl in H1| |]. }
  split_and!; [done| |].
  - destruct (delivered_run (transcript_spec rx) (sched <$> seq 0 m) (stt_start input rx)) as (l1 & u & l2 & Ho & Hp & _).
    { exists [], [], []. eauto. }
    rewrite <-run_sched_stt in Ho, Hp. fold s in Ho, Hp. unfold remaining in Hp. rewrite Hd, app_nil_r in Hp.
    rewrite Ho. pose proof (transcript_spec_terminal rx He) as Ht.
    rewrite <-Hp, existsb_app in Ht. rewrite !existsb_app. destruct (existsb terminal_item l1); [done|].
    cbn in *. by rewrite Ht, orb_true_r.
  - intros Ho. unfold stream_closed. by rewrite Hd, (H2 Ho).
Qed.

(** The caller's open input keeps the transcript stream open: while the caller holds the
    sender of its audio and sends succeed, no schedule closes the stream, even after the
    provider closed the socket and the final chunk was delivered. *)
Theorem stt_stream_held_open (input : ByteReceiver) (rx : FrameReceiver) (sched : list Task) :
  br_open input = true → (∀ k f, send_result k f = Ok ()) →
  stream_closed (stt_run opts send_result always sched (stt_start input rx)) = false.
Proof.
  intros Ho Hs.
  assert (∀ s, br_open (up_input s) = true ∧ up_done s = false →
    up_done (stt_run opts send_result always sched s) = false) as H.
  { induction sched as [|t sched IH]; intros s [Ho' Hd]; [done|]. cbn [stt_run foldl]. apply IH.
    split; [by apply step_open|]. destruct t; cbn [stt_step]; [|by rewrite (proj1 (downlink_step_up s))].
    unfold uplink_step. rewrite Hd, Ho'. destruct (br_items _) as [|[|b c] r]; [done..|].
    by rewrite Hs. }
  unfold stream_closed. by rewrite (H (stt_start input rx) (conj Ho eq_refl)).
Qed.
End spec.

(** ** What the provider is sent *)

Section uplink.
Context {Env : Type} `{!SttProvider Env}.
Variables (opts : SttOptions) (send_result : nat → Frame → result WsError unit)
  (listening : list (InferenceResult TranscriptChunk) → bool).

(** The frames an input stands for. *)
Definition audio_frames (items : list Bytes) : list Frame :=
  omap (λ c, match c with [] => None | _ => Some (Fr_Binary c) end) items.
Definition wire_spec (items : list Bytes) : list Frame := audio_frames items ++ [Fr_Text close_json].
Definition sent_so_far (all : list Frame) (s : SttTasks) : Prop :=
  ∃ rest, up_sent s ++ rest = all ∧
    (up_done s = false → rest = wire_spec (br_items (up_input s))) ∧
    (up_done s = true → (∀ k f, send_result k f = Ok ()) → rest = []).

Lemma uplink_step_sent all s :
  sent_so_far all s → sent_so_far all (uplink_step send_result listening s).
Proof.
  intros (rest & Hs & Hf & Ht). unfold uplink_step. destruct (up_done s) eqn:Ed.
  { exists rest. by rewrite Ed. }
  rewrite (Hf eq_refl) in Hs. unfold sent_so_far.
  destruct (br_items (up_input s)) as [|[|b c] r] eqn:Ei.
  - destruct (br_open (up_input s)).
    { exists (wire_spec []). rewrite Ed, Ei. by split_and!. }
    cbn [up_sent up_done]. destruct (send_result _ _) as [[]|e] eqn:Es.
    + exists []. by rewrite app_nil_r.
    + exists [Fr_Text close_json]. split_and!; [done|done|]. intros _ H. by rewrite H in Es.
  - exists (wire_spec r). by cbn.
  - destruct (send_result _ _) as [[]|e] eqn:Es; cbn [up_sent up_done up_input br_items].
    + exists (wire_spec r). rewrite <-app_assoc. by split_and!.
    + exists (wire_spec ((b :: c) :: r)). split_and!; [done|done|]. intros _ H. by rewrite H in Es.
Qed.
Lemma downlink_step_sent all s :
  sent_so_far all s → sent_so_far all (downlink_step opts listening s).
Proof.
  intros (rest & Hs & Hf & Ht). exists rest.
  assert (up_sent (downlink_step opts listening s) = up_sent s ∧
    up_done (downlink_step opts listening s) = up_done s ∧
    up_input (downlink_step opts listening s) = up_input s) as (-> & -> & ->); [|done].
  unfold downlink_step. by repeat case_match.
Qed.
Lemma stt_run_sent all sched s :
  sent_so_far all s → sent_so_far all (stt_run opts send_result listening sched s).
Proof.
  revert s. induction sched as [|t sched IH]; intros s Hs; [done|]. cbn [stt_run foldl]. apply IH.
  destruct t; [by apply uplink_step_sent|by apply downlink_step_sent].
Qed.

(** Uplink round trip: a materialized payload reaches the provider as binary frames of 1
    to 4096 bytes whose concatenation is the payload, then one flush marker.  At any
    moment of any schedule the frames sent are a prefix of that; when the task is over and
    no send failed, they are all of it. *)
Theorem stt_uplink_roundtrip {Url : Type} (name : string) (fs_read : string → result string Bytes)
    (payload : AudioPayload Url) (data : Bytes) (params : AudioParams)
    (rx : FrameReceiver) (sched : list Task) :
  materialize_payload name fs_read payload = Ok (data, params) →
  ∃ input, open_audio_input name fs_read (AI_Static payload) = Ok (params, input) ∧
    let s := stt_run opts send_result listening sched (stt_start input rx) in
    ∃ frames rest,
      up_sent s ++ rest = (Fr_Binary <$> frames) ++ [Fr_Text close_json] ∧
      concat frames = data ∧ Forall (λ c, 1 ≤ len c ≤ 4096) frames ∧
      (up_done s = true → (∀ k f, send_result k f = Ok ()) → rest = []).
Proof.
  intros Hm. unfold open_audio_input. rewrite Hm. cbn [fst snd].
  destruct (chunks_of_spec STATIC_CHUNK_BYTES data ltac:(unfold STATIC_CHUNK_BYTES; lia)) as [Hc Hl].
  eexists. split; [reflexivity|]. set (s := stt_run _ _ _ _ _). exists (chunks_of STATIC_CHUNK_BYTES data).
  assert (audio_frames (chunks_of STATIC_CHUNK_BYTES data) = Fr_Binary <$> chunks_of STATIC_CHUNK_BYTES data) as Ea.
  { clear -Hl. induction Hl as [|c l Hc _ IH]; [done|]. unfold audio_frames in *. cbn.
    destruct c; [cbn in Hc; lia|]. by f_equal. }
  destruct (stt_run_sent (wire_spec (chunks_of STATIC_CHUNK_BYTES data)) sched
    (stt_start {| br_items := chunks_of STATIC_CHUNK_BYTES data; br_open := false |} rx)) as (rest & Hs & _ & Ht).
  { eexists. split_and!; [reflexivity|done|done]. }
  exists rest. fold s in Hs, Ht. unfold wire_spec in Hs. rewrite Ea in Hs. split_and!; [done..| |done].
  eapply Forall_impl; [exact Hl|]. intros c. unfold len, STATIC_CHUNK_BYTES. lia.
Qed.
End uplink.

(** ** Where a chunk comes from *)

Section source.
Context {Env : Type} `{!SttProvider Env}.
Variables (opts : SttOptions) (send_result : nat → Frame → result WsError unit)
  (listening : list (InferenceResult TranscriptChunk) → bool).
Variable rx0 : FrameReceiver.

(** A chunk made for an envelope the socket delivered, up to the promotion to final, or
    the empty final one. *)
Definition chunk_from (c : TranscriptChunk) : Prop :=
  c = empty_final (stt_request_id opts) ∨
  ∃ text env c0, Ok (Fr_Text text) ∈ fr_items rx0 ∧ decode_envelope text = Ok env ∧
    envelope_chunk opts env = Some c0 ∧ (c = c0 ∨ c = set_final c0).
Definition item_from (i : InferenceResult TranscriptChunk) : Prop :=
  match i with Ok c => chunk_from c | Err _ => True end.
Definition tasks_from (s : SttTasks) : Prop :=
  (∃ seen, fr_items rx0 = seen ++ rx_frames s) ∧ Forall item_from (out s) ∧
  match down s with
  | Dn_Loop produced _ => Forall chunk_from produced | Dn_Flush rest => Forall chunk_from rest
  | Dn_Done => True
  end.

Lemma emit_from i l : item_from i → Forall item_from l → Forall item_from (emit listening i l).
Proof. intros. unfold emit. destruct (listening l); auto using Forall_app_snoc. Qed.
Lemma set_final_from c : chunk_from c → chunk_from (set_final c).
Proof.
  intros [->|(t & env & c0 & Ht & He & Hc & Hcc)]; [by left|right].
  exists t, env, c0. split_and!; [done..|right]. by destruct Hcc as [->| ->].
Qed.
Lemma promote_last_from produced saw :
  Forall chunk_from produced → Forall chunk_from (promote_last opts produced saw).
Proof.
  intros H. unfold promote_last. destruct saw; [done|]. destruct (last produced) as [c|] eqn:E.
  - apply Forall_app_snoc; [by apply Forall_take|]. apply last_Some_elem_of in E.
    apply (proj1 (Forall_forall _ _) H) in E. by apply set_final_from.
  - repeat constructor.
Qed.
Lemma uplink_step_from s : tasks_from s → tasks_from (uplink_step send_result listening s).
Proof.
  intros (Hr & Ho & Hd). unfold uplink_step, tasks_from, rx_frames.
  destruct (up_done s); [done|].
  destruct (br_items (up_input s)) as [|[|b c] r]; [by destruct (br_open _)|done|].
  destruct (send_result _ _); [done|]. split_and!; [done|by apply emit_from|done].
Qed.
Lemma downlink_step_from s : tasks_from s → tasks_from (downlink_step opts listening s).
Proof.
  intros ([seen Hr] & Ho & Hd). unfold downlink_step.
  destruct (down s) as [produced saw|[|c rest]|] eqn:Ed.
  2:{ by split; [exists seen|]. }
  2:{ apply Forall_cons in Hd as [Hc Hd]. destruct (listening (out s)); split;
        [by exists seen|split; [by apply Forall_app_snoc|done]|by exists seen|done]. }
  2:{ split; [by exists seen|]. by rewrite Ed. }
  assert (Forall chunk_from (promote_last opts produced saw)) by by apply promote_last_from.
  destruct (rx_frames s) as [|f rx] eqn:Ei.
  { destruct (fr_live (socket s)).
    - split; [exists seen; by rewrite Ei|]. by rewrite Ed.
    - by split; [exists seen|]. }
  assert (∃ seen', fr_items rx0 = seen' ++ rx) as Hseen.
  { exists (seen ++ [f]). by rewrite <-app_assoc. }
  destruct f as [[b|t|p|p|code reason]|e]; [by split| |by split|by split| |].
  - destruct (decode_envelope t) as [env|e] eqn:Et; [|split_and!; [done|by apply emit_from|done]].
    destruct (envelope_chunk opts env) as [c|] eqn:Ec; [|by split].
    split_and!; [done|done|]. apply Forall_app_snoc; [done|]. right. exists t, env, c. split_and!; [|done|done|by left].
    rewrite Hr. apply elem_of_app. right. apply list_elem_of_here.
  - destruct (normal_close code); [by split|]. split_and!; [done|by apply emit_from|done].
  - split_and!; [done|by apply emit_from|done].
Qed.
Lemma stt_run_from input sched :
  Forall item_from (out (stt_run opts send_result listening sched (stt_start input rx0))).
Proof.
  assert (∀ s, tasks_from s → tasks_from (stt_run opts send_result listening sched s)) as H.
  { induction sched as [|t sched IH]; intros s Hs; [done|]. cbn [stt_run foldl]. apply IH.
    destruct t; [by apply uplink_step_from|by apply downlink_step_from]. }
  apply H. split_and!; [by exists []|constructor|constructor].
Qed.

(** What a client may conclude from a chunk: its id, and that its times are those of an
    envelope the provider sent, or zero in the empty final chunk. *)
Definition chunk_timed (times_ok : SttOptions → Env → TranscriptChunk → Prop) (c : TranscriptChunk) : Prop :=
  tc_request_id c = stt_request_id opts ∧
  (c = empty_final (stt_request_id opts) ∨
   ∃ text env, Ok (Fr_Text text) ∈ fr_items rx0 ∧ decode_envelope text = Ok env ∧ times_ok opts env c).
Lemma stt_run_timed {times_ok} `{!SttProviderTimed Env times_ok} input sched :
  (∀ env c, times_ok opts env c → times_ok opts env (set_final c)) →
  Forall (λ i, match i with Ok c => chunk_timed times_ok c | Err _ => True end)
    (out (stt_run opts send_result listening sched (stt_start input rx0))).
Proof.
  intros Hf. eapply Forall_impl; [apply stt_run_from|]. intros [c|e]; [|done].
  intros [->|(t & env & c0 & Ht & He & Hc & Hcc)]; [by split; [|left]|].
  apply envelope_chunk_timed in Hc as [Hi Ht0]. split; [by destruct Hcc as [->| ->]|right].
  exists t, env. split_and!; [done..|]. destruct Hcc as [->| ->]; [done|by apply Hf].
Qed.
End source.
