(* ===== verification/Deepgram.v ===== *)
(** * Deepgram runtime

    Models [inference-runtime-deepgram/src]: [wire.rs] (envelopes), [config.rs],
    [error.rs], [cost.rs] and [runner.rs] ([execute_audio], the encoding table, the
    conversion of a result to a chunk).  The two tasks it spawns are those of
    [StreamStt].  Decoding an envelope, reading a file and the WebSocket connection are
    parameters; a connection is the frames it will deliver and whether it then stays open
    and silent. *)
From Stdlib Require Import SpecFloat.
From S2P Require Import Prelude F64 Runtime Deployment Audio Runner AudioProvider WsCore StreamStt.

(** ** Wire types (wire.rs) *)

Record DeepgramWord : Type := {
  dw_word : string; dw_punctuated_word : option string; dw_start : f32; dw_end : f32;
  dw_confidence : option f32; dw_speaker : option Z
}.
Record TranscriptAlternative : Type := {
  ta_transcript : string; ta_confidence : option f32; ta_words : list DeepgramWord
}.
Record ResultsChannel : Type := { alternatives : list TranscriptAlternative }.
Record ResultsEnvelope : Type := {
  re_start : f32; re_duration : f32; re_is_final : bool; re_speech_final : bool;
  re_channel : ResultsChannel
}.
(** The metadata envelope's [model_info] is JSON nobody reads. *)
Record MetadataEnvelope : Type := { me_request_id : option string }.
Inductive InboundEnvelope : Type :=
  | IE_Results (r : ResultsEnvelope) | IE_Metadata (m : MetadataEnvelope) | IE_Other.
(** [serde_json::to_string(&CloseStream::new())]. *)
Definition CloseStream_json : string :=
  "{" +:+ debug_str "type" +:+ ":" +:+ debug_str "CloseStream" +:+ "}".

(** ** Errors (error.rs) *)

Inductive DeepgramError : Type :=
  | DE_FeatureDisabled | DE_Unsupported (method : string)
  | DE_BadRequest (message : string) | DE_UnsupportedFormat (message : string).
Definition deepgram_error_into (e : DeepgramError) : InferenceError :=
  match e with
  | DE_FeatureDisabled => Internal "stt-deepgram feature disabled at build time"
  | DE_Unsupported method => Unsupported method RK_SpeechToText
  | DE_BadRequest m => BadRequest m
  | DE_UnsupportedFormat m => UnsupportedAudioFormat m
  end.

(** ** Prices (cost.rs) *)

Definition per_minute_usd (model : string) : f64 :=
  if decide (model = "nova-2" ∨ model = "nova-2-general") then f64_lit 43 10000
  else if decide (model = "nova-2-phonecall") then f64_lit 58 10000
  else if decide (model = "nova-2-meeting") then f64_lit 58 10000
  else if decide (model = "nova") then f64_lit 125 10000
  else if decide (model = "enhanced") then f64_lit 145 10000
  else if decide (model = "base") then f64_lit 125 10000
  else S754_zero false.
Definition estimate_usd (model : string) (audio_seconds : Z) : f64 :=
  f64_div (f64_mul (per_minute_usd model) (f64_of_Z audio_seconds)) (f64_of_Z 60).

(** ** Conversion (runner.rs) *)

Definition deepgram_encoding (f : AudioFormat) : InferenceResult string :=
  match f with
  | AF_Pcm16Le => Ok "linear16"
  | AF_PcmF32Le => Ok "linear32"
  | AF_OggOpus => Ok "opus"
  | AF_Flac => Ok "flac"
  | AF_Mp3 => Ok "mp3"
  | AF_Wav => Ok "wav"
  | AF_Pcm24Le => Err (deepgram_error_into (DE_UnsupportedFormat
      "Deepgram does not accept 24-bit PCM directly; resample to 16-bit"))
  end.

Definition deepgram_word (w : DeepgramWord) : WordTiming := {|
  wt_text := default (dw_word w) (dw_punctuated_word w);
  wt_start_ms := seconds_to_ms (dw_start w);
  wt_end_ms := seconds_to_ms (dw_end w);
  wt_confidence := dw_confidence w
|}.
Definition results_to_chunk (request_id : string) (r : ResultsEnvelope) (want_diarize want_words : bool) :
  TranscriptChunk :=
  let alt := default {| ta_transcript := ""; ta_confidence := None; ta_words := [] |}
               (head (alternatives (re_channel r))) in {|
    tc_request_id := request_id;
    tc_is_final := re_speech_final r;
    tc_text := ta_transcript alt;
    tc_start_ms := seconds_to_ms (re_start r);
    tc_end_ms := seconds_to_ms (f32_add (re_start r) (re_duration r));
    tc_speaker_id := if want_diarize
                     then find_map (λ w, pretty <$> dw_speaker w) (ta_words alt) else None;
    tc_words := if want_words then deepgram_word <$> ta_words alt else [];
    tc_usage := None
  |}.
(** The arms of the receive loop for a decoded envelope. *)
Definition deepgram_envelope_chunk (o : SttOptions) (e : InboundEnvelope) : option TranscriptChunk :=
  match e with
  | IE_Results r =>
      if negb (emit_interim o) && negb (re_is_final r) then None
      else Some (results_to_chunk (stt_request_id o) r (want_diarize o) (want_words o))
  | IE_Metadata _ | IE_Other => None
  end.
Definition Deepgram_provider (parse : string → result string InboundEnvelope) :
  SttProvider InboundEnvelope := {|
    stt_name := "deepgram"; close_json := CloseStream_json;
    decode_envelope := parse; envelope_chunk := deepgram_envelope_chunk
  |}.
(** The times of a result: its span, its words' spans when they were asked for, no words
    otherwise; the text is the first alternative's. *)
Definition results_times (o : SttOptions) (e : InboundEnvelope) (c : TranscriptChunk) : Prop :=
  ∃ r, e = IE_Results r ∧ (emit_interim o = true ∨ re_is_final r = true) ∧
    tc_text c = from_option ta_transcript "" (head (alternatives (re_channel r))) ∧
    near_ms (re_start r) (tc_start_ms c) ∧ near_ms (f32_add (re_start r) (re_duration r)) (tc_end_ms c) ∧
    Forall2 (λ w t, near_ms (dw_start w) (wt_start_ms t) ∧ near_ms (dw_end w) (wt_end_ms t))
      (if want_words o then from_option ta_words [] (head (alternatives (re_channel r))) else []) (tc_words c).
#[global] Instance Deepgram_timed parse : @SttProviderTimed _ (Deepgram_provider parse) results_times.
Proof.
  intros o e c H. cbn in H. destruct e as [r|m|]; [|done..]. cbn in H.
  destruct (emit_interim o) eqn:Eo, (re_is_final r) eqn:Er; cbn in H; simplify_eq; (split; [done|]);
    exists r; rewrite ?Eo, ?Er; (split_and!; [done|by auto|cbn; by destruct (alternatives _)|apply seconds_to_ms_near|apply seconds_to_ms_near|]);
    cbn [results_to_chunk tc_words]; destruct (want_words o), (head (alternatives (re_channel r))); cbn; try (apply Forall2_nil; done);
    apply Forall2_fmap_r, Forall_Forall2_diag, Forall_true; split; apply seconds_to_ms_near.
Qed.

(** ** Configuration (config.rs) *)

Inductive DeepgramSecret : Type := DS_Env (name : string) | DS_File (path : string).
Section deepgram.
Context {Url : Type} `{!UrlOps Url}.
Record DeepgramSttConfig : Type := {
  dg_ws_endpoint : Url;
  dg_api_key : DeepgramSecret;
  dg_ws_connect_timeout : Duration;
  dg_smart_format : bool;
  dg_rate_limits : RateLimits;
  dg_retry : RetryPolicy;
  dg_circuit_breaker : CircuitBreakerConfig;
  dg_timeouts : Timeouts
}.
(** [None]: the static URL did not parse, a panic. *)
Definition defaults_for_deepgram (key : DeepgramSecret) : option DeepgramSttConfig :=
  u ← result_ok (url_parse "wss://api.deepgram.com/v1/");
  Some {|
    dg_ws_endpoint := u; dg_api_key := key; dg_ws_connect_timeout := default_ws_connect_timeout;
    dg_smart_format := false; dg_rate_limits := RateLimits_default; dg_retry := RetryPolicy_default;
    dg_circuit_breaker := CircuitBreakerConfig_default; dg_timeouts := Timeouts_default
  |}.
Definition with_ws_endpoint (c : DeepgramSttConfig) (u : Url) : DeepgramSttConfig := {|
  dg_ws_endpoint := u; dg_api_key := dg_api_key c; dg_ws_connect_timeout := dg_ws_connect_timeout c;
  dg_smart_format := dg_smart_format c; dg_rate_limits := dg_rate_limits c; dg_retry := dg_retry c;
  dg_circuit_breaker := dg_circuit_breaker c; dg_timeouts := dg_timeouts c
|}.
Definition listen_url (c : DeepgramSttConfig) : result string Url := url_join (dg_ws_endpoint c) "listen".

(** ** [execute_audio] *)

Variable fs_read : string → result string Bytes.
(** [WsClient::connect_with_headers(url, headers, timeout)]. *)
Variable connect : string → list (string * string) → Duration →
  result WsError FrameReceiver.
Variable parse_envelope : string → result string InboundEnvelope.

Definition listen_query (config : DeepgramSttConfig) (model encoding : string) (params : AudioParams)
    (opts : TranscribeOptions) : list (string * string) :=
  [("model", model); ("encoding", encoding); ("sample_rate", pretty (sample_rate_hz params));
   ("channels", pretty (channels params)); ("interim_results", bool_str (interim_results opts))] ++
  (if diarize opts then [("diarize", "true")] else []) ++
  (if dg_smart_format config then [("smart_format", "true")] else []) ++
  match to_language opts with Some lang => [("language", lang)] | None => [] end ++
  [("endpointing", "300")].

(** The output channel after the two spawned tasks ran by a schedule. *)
Definition deepgram_stream (o : SttOptions) (send_result : nat → Frame → result WsError unit)
    (listening : list (InferenceResult TranscriptChunk) → bool) (sched : list Task)
    (input : ByteReceiver) (rx : FrameReceiver) : list (InferenceResult TranscriptChunk) :=
  let _ := Deepgram_provider parse_envelope in
  out (stt_run o send_result listening sched (stt_start input rx)).
(** The handle: the output of the two tasks under a schedule.  [api_key] is the
    credential of the session's current snapshot. *)
Definition execute_audio (config : DeepgramSttConfig) (api_key : string)
    (batch : AudioBatch Url ByteReceiver) (send_result : nat → Frame → result WsError unit)
    (listening : list (InferenceResult TranscriptChunk) → bool) (sched : list Task) :
  InferenceResult (RunHandle TranscriptChunk) :=
  match ab_options batch with
  | AO_Audio2Face _ => Err (deepgram_error_into (DE_BadRequest
      "deepgram: AudioOptions::Audio2Face is not supported"))
  | AO_Transcribe opts =>
      let? pi := open_audio_input "deepgram" fs_read (ab_input batch) in
      let '(params, input) := pi in
      let? encoding := deepgram_encoding (format params) in
      let? url := map_err (λ e, Internal ("deepgram listen url: " +:+ e)) (listen_url config) in
      let url := append_pairs url (listen_query config (ab_model batch) encoding params opts) in
      let? rx := map_err (λ e, NetworkError ("deepgram ws connect: " +:+ ws_error_to_string e))
        (connect (url_as_str url) [("Authorization", "Token " +:+ api_key)]
           (dg_ws_connect_timeout config)) in
      let o := {| stt_request_id := ab_request_id batch; emit_interim := interim_results opts;
                  want_diarize := diarize opts; want_words := word_timestamps opts |} in
      Ok (streaming (deepgram_stream o send_result listening sched input rx))
  end.

(** The runner: its configuration and the credential of the shared snapshot. *)
Record DeepgramSttRunner : Type := { dg_config : DeepgramSttConfig; dg_session : string }.
Definition deepgram_new (config : DeepgramSttConfig) (session : string) : InferenceResult DeepgramSttRunner :=
  Ok {| dg_config := config; dg_session := session |}.
Definition deepgram_base : RunnerBase DeepgramSttRunner := {|
  runner_kind _ := RK_SpeechToText;
  runner_transport _ := TK_RemoteNetwork PK_Deepgram;
  rebuild_session r _ := (r, Ok ());
  rate_limits r := Some (dg_rate_limits (dg_config r))
|}.
#[local] Existing Instance deepgram_base.
Definition deepgram_runner send_result listening sched : AudioRunner Url ByteReceiver DeepgramSttRunner :=
  λ r batch, (r, execute_audio (dg_config r) (dg_session r) batch send_result listening sched).
End deepgram.
Arguments DeepgramSttConfig Url : clear implicits.
Arguments DeepgramSttRunner Url : clear implicits.

(** ** Witnesses *)

Definition demo_results (text : string) (seg speech : bool) : InboundEnvelope :=
  IE_Results {| re_start := f32_of_Z 1; re_duration := f32_of_Z 2; re_is_final := seg;
    re_speech_final := speech;
    re_channel := {| alternatives := [{| ta_transcript := text; ta_confidence := None; ta_words := [] |}] |} |}.
Definition demo_parse (s : string) : result string InboundEnvelope :=
  if decide (s = "meta") then Ok (IE_Metadata {| me_request_id := None |})
  else if decide (s = "interim") then Ok (demo_results "hel" false false)
  else if decide (s = "segment") then Ok (demo_results "hello" true false)
  else if decide (s = "bad") then Err "eof" else Ok (demo_results s true true).
Definition demo_opts : SttOptions :=
  {| stt_request_id := "r"; emit_interim := false; want_diarize := false; want_words := true |}.
Definition demo_rx : FrameReceiver := {|
  fr_items := [Ok (Fr_Text "meta"); Ok (Fr_Text "interim"); Ok (Fr_Text "segment"); Ok (Fr_Close 1000 "")];
  fr_live := true |}.
(** The provider sends a final transcript, then neither closes nor sends anything. *)
Definition demo_silent : FrameReceiver := {| fr_items := [Ok (Fr_Text "meta"); Ok (Fr_Text "hi")]; fr_live := true |}.
Definition send_ok (_ : nat) (_ : Frame) : result WsError unit := Ok ().
Definition demo_params : AudioParams := {| sample_rate_hz := 16000; channels := 1; format := AF_Pcm16Le |}.
Definition demo_payload : AudioPayload DemoUrl := AP_Bytes [1; 2; 3] demo_params.
Definition demo_input : ByteReceiver := {| br_items := [[1; 2]; []; [3]]; br_open := false |}.
Definition alternate : nat → Task := alternating T_Downlink T_Uplink.
#[local] Instance demo_provider : SttProvider InboundEnvelope := Deepgram_provider demo_parse.
Definition send_second_fails (n : nat) (_ : Frame) : result WsError unit :=
  if (n =? 1)%nat then Err (WE_Io "gone") else Ok ().

(** The interim result is filtered; the segment is promoted; the uplink's error is extra. *)
Lemma stt_stream_spec_witness :
  ∃ l1 u l2,
    out (stt_run demo_opts send_second_fails (λ _, true) (alternate <$> seq 0 14) (stt_start demo_input demo_rx)) =
      l1 ++ u ++ l2 ∧
    l1 ++ l2 = [Ok (set_final (results_to_chunk "r" {| re_start := f32_of_Z 1; re_duration := f32_of_Z 2;
      re_is_final := true; re_speech_final := false; re_channel := {| alternatives :=
        [{| ta_transcript := "hello"; ta_confidence := None; ta_words := [] |}] |} |} false true))].
Proof.
  assert (down (stt_run demo_opts send_second_fails (λ _, true) (alternate <$> seq 0 14)
    (stt_start demo_input demo_rx)) = Dn_Done) as Hd by (vm_compute; reflexivity).
  destruct (stt_stream_spec demo_opts send_second_fails demo_input demo_rx (alternate <$> seq 0 14) Hd)
    as (l1 & u & l2 & Ho & Hp & _).
  exists l1, u, l2. split; [exact Ho|]. rewrite Hp. vm_compute. reflexivity.
Defined.
Lemma stt_stream_ends_witness :
  ∃ n, ∀ m, (n ≤ m)%nat →
    stream_closed (run_sched (stt_step demo_opts send_ok (λ _, true)) alternate (stt_start demo_input demo_rx) m) = true ∧
    stream_closed (run_sched (stt_step demo_opts send_ok (λ _, true)) alternate (stt_start demo_input demo_silent) m) = false.
Proof.
  pose proof (alternating_fair _ _ _ (or_intror eq_refl) : fair alternate T_Uplink) as Hu.
  pose proof (alternating_fair _ _ _ (or_introl eq_refl) : fair alternate T_Downlink) as Hd.
  destruct (stt_stream_ends demo_opts send_ok demo_input demo_rx alternate Hu Hd) as [n Hn].
  exists n. intros m Hm. split; [exact (proj2 (proj2 (Hn m Hm)) eq_refl)|].
  exact (proj1 (proj2 (stt_stream_ends demo_opts send_ok demo_input demo_silent alternate Hu Hd m))).
Defined.
Lemma stt_stream_held_open_witness :
  let s := stt_run demo_opts send_ok (λ _, true) (alternate <$> seq 0 20)
    (stt_start {| br_items := [[1]]; br_open := true |} demo_rx) in
  down s = Dn_Done ∧ existsb terminal_item (out s) = true ∧ stream_closed s = false.
Proof.
  intros s. split_and!; [vm_compute; reflexivity..|].
  exact (stt_stream_held_open demo_opts send_ok {| br_items := [[1]]; br_open := true |}
    demo_rx (alternate <$> seq 0 20) eq_refl (λ _ _, eq_refl)).
Defined.
Lemma stt_uplink_roundtrip_witness :
  ∃ input, open_audio_input "deepgram" (λ _, Err "") (AI_Static demo_payload) =
      Ok (demo_params, input) ∧
    ∃ frames, up_sent (stt_run demo_opts send_ok (λ _, true) (alternate <$> seq 0 8) (stt_start input demo_rx)) =
      (Fr_Binary <$> frames) ++ [Fr_Text CloseStream_json] ∧ concat frames = [1; 2; 3].
Proof.
  destruct (stt_uplink_roundtrip demo_opts send_ok (λ _, true) "deepgram" (λ _, Err "") demo_payload
    [1; 2; 3] demo_params demo_rx (alternate <$> seq 0 8) eq_refl)
    as (input & Hi & frames & rest & Hs & Hc & _ & Hr).
  exists input. split; [exact Hi|]. exists frames. injection Hi as <-.
  rewrite Hr, app_nil_r in Hs; [split; [exact Hs|exact Hc]|vm_compute; reflexivity|done].
Defined.

(** [C36] Typing and times: every chunk a caller can receive from Deepgram, in any schedule
    and however early it stops listening, carries the id of its request and is either the
    empty final chunk or made from a [Results] envelope the socket delivered that passed
    the interim filter; its start and end, and those of each of its words when words were
    asked for, are [u32] milliseconds less than one millisecond away from the provider's
    times (the end from the [f32] sum of start and duration), up to 2^24 ms. *)
Theorem deepgram_stream_timed (parse : string → result string InboundEnvelope) (o : SttOptions)
    (send_result : nat → Frame → result WsError unit)
    (listening : list (InferenceResult TranscriptChunk) → bool) (sched : list Task)
    (input : ByteReceiver) (rx : FrameReceiver) :
  Forall (λ i, match i with
    | Err _ => True
    | Ok c => tc_request_id c = stt_request_id o ∧
        (c = empty_final (stt_request_id o) ∨
         ∃ text e, Ok (Fr_Text text) ∈ fr_items rx ∧ parse text = Ok e ∧ results_times o e c)
    end) (deepgram_stream parse o send_result listening sched input rx).
Proof.
  unfold deepgram_stream.
  apply (@stt_run_timed _ (Deepgram_provider parse) o send_result listening rx _ (Deepgram_timed parse)).
  intros env c (r & -> & Hr). by exists r.
Qed.
