(* ===== verification/AssemblyAi.v ===== *)
(** * AssemblyAI runtime

    Models [inference-runtime-assemblyai/src]: [wire.rs] (envelopes), [config.rs],
    [error.rs], [cost.rs] and [runner.rs] ([execute_audio], the format check, the
    conversion of a turn to a chunk).  The two tasks it spawns are those of
    [StreamStt]; the parameters are those of [Deepgram]. *)
From Stdlib Require Import SpecFloat.
From S2P Require Import Prelude F64 Runtime Deployment Audio Runner AudioProvider WsCore StreamStt.

(** ** Wire types (wire.rs) *)

Record BeginEnvelope : Type := { be_id : option string; be_expires_at : option Z }.
Record AssemblyWord : Type := {
  aw_text : string; aw_start : Z; aw_end : Z; aw_confidence : option f32; aw_word_is_final : bool
}.
Record TurnEnvelope : Type := {
  te_turn_order : Z; te_turn_is_formatted : bool; te_end_of_turn : bool;
  te_end_of_turn_confidence : option f32; te_transcript : string; te_words : list AssemblyWord
}.
Record TerminationEnvelope : Type := {
  tm_audio_duration_seconds : option f32; tm_session_duration_seconds : option f32
}.
Inductive InboundEnvelope : Type :=
  | AE_Begin (b : BeginEnvelope) | AE_Turn (t : TurnEnvelope)
  | AE_Termination (t : TerminationEnvelope) | AE_Other.
(** [serde_json::to_string(&Terminate::new())]. *)
Definition Terminate_json : string :=
  "{" +:+ debug_str "type" +:+ ":" +:+ debug_str "Terminate" +:+ "}".

(** ** Errors (error.rs) *)

Inductive AssemblyAiError : Type :=
  | AAE_FeatureDisabled | AAE_Unsupported (method : string)
  | AAE_BadRequest (message : string) | AAE_UnsupportedFormat (message : string).
Definition assemblyai_error_into (e : AssemblyAiError) : InferenceError :=
  match e with
  | AAE_FeatureDisabled => Internal "stt-assemblyai feature disabled at build time"
  | AAE_Unsupported method => Unsupported method RK_SpeechToText
  | AAE_BadRequest m => BadRequest m
  | AAE_UnsupportedFormat m => UnsupportedAudioFormat m
  end.

(** ** Prices (cost.rs) *)

Definition per_hour_usd (model : string) : f64 :=
  if decide (model = "universal" ∨ model = "universal-streaming" ∨ model = "universal-v3")
  then f64_lit 15 100 else S754_zero false.
Definition estimate_usd (model : string) (audio_seconds : Z) : f64 :=
  f64_div (f64_mul (per_hour_usd model) (f64_of_Z audio_seconds)) (f64_of_Z 3600).

(** ** Conversion (runner.rs) *)

Definition assert_format_supported (f : AudioFormat) : InferenceResult unit :=
  match f with
  | AF_Pcm16Le => Ok ()
  | other => Err (assemblyai_error_into (AAE_UnsupportedFormat
      ("AssemblyAI Streaming v3 only accepts 16-bit PCM mono (got " +:+ debug_AudioFormat other +:+
       "); resample upstream")))
  end.
Definition assembly_word (w : AssemblyWord) : WordTiming := {|
  wt_text := aw_text w; wt_start_ms := aw_start w; wt_end_ms := aw_end w;
  wt_confidence := aw_confidence w
|}.
Definition turn_to_chunk (request_id : string) (t : TurnEnvelope) (want_words : bool) : TranscriptChunk := {|
  tc_request_id := request_id;
  tc_is_final := te_end_of_turn t;
  tc_text := te_transcript t;
  tc_start_ms := default 0 (aw_start <$> head (te_words t));
  tc_end_ms := default 0 (aw_end <$> last (te_words t));
  tc_speaker_id := None;
  tc_words := if want_words then assembly_word <$> te_words t else [];
  tc_usage := None
|}.
(** The arms of the receive loop for a decoded envelope; [want_diarize] is not read. *)
Definition assemblyai_envelope_chunk (o : SttOptions) (e : InboundEnvelope) : option TranscriptChunk :=
  match e with
  | AE_Turn t =>
      if negb (emit_interim o) && negb (te_end_of_turn t) then None
      else Some (turn_to_chunk (stt_request_id o) t (want_words o))
  | AE_Begin _ | AE_Termination _ | AE_Other => None
  end.
Definition AssemblyAi_provider (parse : string → result string InboundEnvelope) :
  SttProvider InboundEnvelope := {|
    stt_name := "assemblyai"; close_json := Terminate_json;
    decode_envelope := parse; envelope_chunk := assemblyai_envelope_chunk
  |}.

(** The times of a turn: from the start of its first word to the end of its last one, both
    0 without words; the words' own times when they were asked for. *)
Definition turn_times (o : SttOptions) (e : InboundEnvelope) (c : TranscriptChunk) : Prop :=
  ∃ t, e = AE_Turn t ∧ (emit_interim o = true ∨ te_end_of_turn t = true) ∧
    match te_words t with
    | [] => tc_start_ms c = 0 ∧ tc_end_ms c = 0
    | w :: ws => tc_start_ms c = aw_start w ∧ tc_end_ms c = aw_end (default w (last ws))
    end ∧
    Forall2 (λ w s, aw_start w = wt_start_ms s ∧ aw_end w = wt_end_ms s)
      (if want_words o then te_words t else []) (tc_words c).
#[global] Instance AssemblyAi_timed parse : @SttProviderTimed _ (AssemblyAi_provider parse) turn_times.
Proof.
  intros o e c H. cbn in H. destruct e as [b|t|m|]; [done| |done..]. cbn in H.
  destruct (emit_interim o) eqn:Eo, (te_end_of_turn t) eqn:Er; cbn in H; simplify_eq; (split; [done|]);
    exists t; rewrite ?Eo, ?Er; (split_and!; [done|by auto| |]); cbn [turn_to_chunk tc_start_ms tc_end_ms tc_words].
  1,3,5: destruct (te_words t) as [|w ws]; [done|]; split; [done|]; rewrite last_cons; by destruct (last ws).
  all: destruct (want_words o); [|constructor]; apply Forall2_fmap_r, Forall_Forall2_diag, Forall_true; done.
Qed.

(** ** Configuration (config.rs) *)

Inductive AssemblyAiSecret : Type := AS_Env (name : string) | AS_File (path : string).
Section assemblyai.
Context {Url : Type} `{!UrlOps Url}.
Record AssemblyAiSttConfig : Type := {
  aa_ws_endpoint : Url;
  aa_api_key : AssemblyAiSecret;
  aa_ws_connect_timeout : Duration;
  aa_format_turns : bool;
  aa_rate_limits : RateLimits;
  aa_retry : RetryPolicy;
  aa_circuit_breaker : CircuitBreakerConfig;
  aa_timeouts : Timeouts
}.
(** [None]: the static URL did not parse, a panic. *)
Definition defaults_for_assemblyai (key : AssemblyAiSecret) : option AssemblyAiSttConfig :=
  u ← result_ok (url_parse "wss://streaming.assemblyai.com/");
  Some {|
    aa_ws_endpoint := u; aa_api_key := key; aa_ws_connect_timeout := default_ws_connect_timeout;
    aa_format_turns := false; aa_rate_limits := RateLimits_default; aa_retry := RetryPolicy_default;
    aa_circuit_breaker := CircuitBreakerConfig_default; aa_timeouts := Timeouts_default
  |}.
Definition with_ws_endpoint (c : AssemblyAiSttConfig) (u : Url) : AssemblyAiSttConfig := {|
  aa_ws_endpoint := u; aa_api_key := aa_api_key c; aa_ws_connect_timeout := aa_ws_connect_timeout c;
  aa_format_turns := aa_format_turns c; aa_rate_limits := aa_rate_limits c; aa_retry := aa_retry c;
  aa_circuit_breaker := aa_circuit_breaker c; aa_timeouts := aa_timeouts c
|}.
Definition listen_url (c : AssemblyAiSttConfig) : result string Url := url_join (aa_ws_endpoint c) "v3/ws".

(** ** [execute_audio] *)

Variable fs_read : string → result string Bytes.
Variable connect : string → list (string * string) → Duration →
  result WsError FrameReceiver.
Variable parse_envelope : string → result string InboundEnvelope.

Definition listen_query (config : AssemblyAiSttConfig) (params : AudioParams) : list (string * string) :=
  ("sample_rate", pretty (sample_rate_hz params)) ::
  if aa_format_turns config then [("format_turns", "true")] else [].

(** The output channel after the two spawned tasks ran by a schedule. *)
Definition assemblyai_stream (o : SttOptions) (send_result : nat → Frame → result WsError unit)
    (listening : list (InferenceResult TranscriptChunk) → bool) (sched : list Task)
    (input : ByteReceiver) (rx : FrameReceiver) : list (InferenceResult TranscriptChunk) :=
  let _ := AssemblyAi_provider parse_envelope in
  out (stt_run o send_result listening sched (stt_start input rx)).
Definition execute_audio (config : AssemblyAiSttConfig) (api_key : string)
    (batch : AudioBatch Url ByteReceiver) (send_result : nat → Frame → result WsError unit)
    (listening : list (InferenceResult TranscriptChunk) → bool) (sched : list Task) :
  InferenceResult (RunHandle TranscriptChunk) :=
  match ab_options batch with
  | AO_Audio2Face _ => Err (assemblyai_error_into (AAE_BadRequest
      "assemblyai: AudioOptions::Audio2Face is not supported"))
  | AO_Transcribe opts =>
      let? pi := open_audio_input "assemblyai" fs_read (ab_input batch) in
      let '(params, input) := pi in
      let? _ := assert_format_supported (format params) in
      if negb (channels params =? 1) then
        Err (assemblyai_error_into (AAE_UnsupportedFormat
          ("assemblyai: only mono audio is supported (got " +:+ pretty (channels params) +:+ " channels)")))
      else
        let? url := map_err (λ e, Internal ("assemblyai listen url: " +:+ e)) (listen_url config) in
        let url := append_pairs url (listen_query config params) in
        let? rx := map_err (λ e, NetworkError ("assemblyai ws connect: " +:+ ws_error_to_string e))
          (connect (url_as_str url) [("Authorization", api_key)] (aa_ws_connect_timeout config)) in
        let o := {| stt_request_id := ab_request_id batch; emit_interim := interim_results opts;
                    want_diarize := diarize opts; want_words := word_timestamps opts |} in
        Ok (streaming (assemblyai_stream o send_result listening sched input rx))
  end.

Record AssemblyAiSttRunner : Type := { aa_config : AssemblyAiSttConfig; aa_session : string }.
Definition assemblyai_new (config : AssemblyAiSttConfig) (session : string) :
  InferenceResult AssemblyAiSttRunner := Ok {| aa_config := config; aa_session := session |}.
Definition assemblyai_base : RunnerBase AssemblyAiSttRunner := {|
  runner_kind _ := RK_SpeechToText;
  runner_transport _ := TK_RemoteNetwork PK_AssemblyAi;
  rebuild_session r _ := (r, Ok ());
  rate_limits r := Some (aa_rate_limits (aa_config r))
|}.
#[local] Existing Instance assemblyai_base.
Definition assemblyai_runner send_result listening sched : AudioRunner Url ByteReceiver AssemblyAiSttRunner :=
  λ r batch, (r, execute_audio (aa_config r) (aa_session r) batch send_result listening sched).
End assemblyai.

(** Typing and times: every chunk a caller can receive from AssemblyAI carries the id of
    its request and is either the empty final chunk or made from a [Turn] envelope the
    socket delivered that passed the filter, with exactly the provider's milliseconds. *)
Theorem assemblyai_stream_timed (parse : string → result string InboundEnvelope) (o : SttOptions)
    (send_result : nat → Frame → result WsError unit)
    (listening : list (InferenceResult TranscriptChunk) → bool) (sched : list Task)
    (input : ByteReceiver) (rx : FrameReceiver) :
  Forall (λ i, match i with
    | Err _ => True
    | Ok c => tc_request_id c = stt_request_id o ∧
        (c = empty_final (stt_request_id o) ∨
         ∃ text e, Ok (Fr_Text text) ∈ fr_items rx ∧ parse text = Ok e ∧ turn_times o e c)
    end) (assemblyai_stream parse o send_result listening sched input rx).
Proof.
  unfold assemblyai_stream.
  apply (@stt_run_timed _ (AssemblyAi_provider parse) o send_result listening rx _ (AssemblyAi_timed parse)).
  intros env c (t & -> & Ht). by exists t.
Qed.
Arguments AssemblyAiSttConfig Url : clear implicits.
Arguments AssemblyAiSttRunner Url : clear implicits.
