(* ===== verification/Synthesis.v ===== *)
(** * What the synthesis providers share

    The cutting of a response body into speech chunks, as written in [speak_https] of
    inference-runtime-elevenlabs/src/runner.rs and in [speak] of
    inference-runtime-openai-tts/src/runner.rs, and the shape of the HTTP answer both
    work on. *)
From S2P Require Import Prelude Runtime Audio AudioProvider.

(** A response, as the audio runners look at it: [bytes().await] may fail. *)
Record AudioResponse : Type := {
  ar_status : Z;
  ar_retry_after : option string;
  ar_text : option string;
  ar_bytes : result string Bytes
}.
Definition ar_success (r : AudioResponse) : bool := (200 <=? ar_status r) && (ar_status r <? 300).

Definition speech_chunk (request_id : string) (params : AudioParams) (is_final : bool) (audio : Bytes) :
  SpeechChunk := {|
    sc_request_id := request_id; sc_is_final := is_final; sc_audio_pcm_chunk := audio;
    sc_params := params; sc_alignment := None; sc_usage := None
  |}.
(** [while offset < total]: a slice, and whether it reaches the end. *)
Fixpoint body_loop (fuel size offset : nat) (bytes : Bytes) : list (Bytes * bool) :=
  match fuel with
  | O => []
  | S fuel' =>
      if (offset <? length bytes)%nat then
        let end_ := Nat.min (offset + size) (length bytes) in
        (take (end_ - offset) (drop offset bytes), (end_ =? length bytes)%nat)
          :: body_loop fuel' size end_ bytes
      else []
  end.
(** [chunk_bytes] is the configured size, of which at least 1 is used. *)
Definition speech_chunks (request_id : string) (params : AudioParams) (chunk_bytes : Z) (bytes : Bytes) :
  list (InferenceResult SpeechChunk) :=
  let size := Z.to_nat (Z.max chunk_bytes 1) in
  match bytes with
  | [] => [Ok (speech_chunk request_id params true [])]
  | _ => (λ '(slice, is_final), Ok (speech_chunk request_id params is_final slice))
           <$> body_loop (length bytes) size 0 bytes
  end.

Lemma body_loop_rechunk fuel size offset bytes :
  fst <$> body_loop fuel size offset bytes = rechunk fuel size offset bytes.
Proof.
  revert offset. induction fuel as [|fuel IH]; intros offset; [done|]. cbn [body_loop rechunk].
  destruct (offset <? length bytes)%nat; [|done]. by rewrite fmap_cons, IH.
Qed.
(** The last slice, and only it, is final. *)
Lemma body_loop_final fuel size offset bytes :
  (0 < size)%nat → (length bytes - offset ≤ fuel)%nat → (offset < length bytes)%nat →
  ∃ init x, body_loop fuel size offset bytes = init ++ [(x, true)] ∧ Forall (λ p, snd p = false) init.
Proof.
  intros Hs. revert offset. induction fuel as [|fuel IH]; intros offset Hf Ho; [lia|]. cbn [body_loop].
  rewrite (proj2 (Nat.ltb_lt _ _) Ho). set (e := Nat.min (offset + size) (length bytes)).
  destruct (Nat.eqb_spec e (length bytes)) as [He|He].
  - exists [], (take (e - offset) (drop offset bytes)). split; [|constructor].
    assert (body_loop fuel size e bytes = []) as ->; [|done].
    destruct fuel; [done|]. cbn [body_loop]. by rewrite He, Nat.ltb_irrefl.
  - destruct (IH e ltac:(lia) ltac:(lia)) as (init & x & -> & Hi).
    exists ((take (e - offset) (drop offset bytes), false) :: init), x. split; [done|by constructor].
Qed.

(** [C23] A synthesized body reaches the client whole: whatever its length and the configured
    chunk size, 0 included, the chunks' audio concatenates to the body, each chunk has at
    most that many bytes (at least 1) and none is empty unless the body is, every one
    carries the request id and the parameters, and exactly the last one is final. *)
Theorem speech_chunks_spec (request_id : string) (params : AudioParams) (chunk_bytes : Z) (bytes : Bytes) :
  ∃ init last_,
    speech_chunks request_id params chunk_bytes bytes = Ok <$> (init ++ [last_]) ∧
    concat (sc_audio_pcm_chunk <$> (init ++ [last_])) = bytes ∧
    Forall (λ c, sc_request_id c = request_id ∧ sc_params c = params ∧
                 Z.of_nat (length (sc_audio_pcm_chunk c)) ≤ Z.max chunk_bytes 1 ∧
                 (bytes ≠ [] → sc_audio_pcm_chunk c ≠ [])) (init ++ [last_]) ∧
    Forall (λ c, sc_is_final c = false) init ∧ sc_is_final last_ = true.
Proof.
  set (mk := λ p : Bytes * bool, speech_chunk request_id params (snd p) (fst p)).
  set (size := Z.to_nat (Z.max chunk_bytes 1)).
  destruct bytes as [|b bytes'] eqn:Eb.
  { exists [], (mk ([], true)). split_and!; [done..| |constructor|done].
    repeat constructor; cbn; [lia|done]. }
  rewrite <-Eb. assert (0 < length bytes)%nat as Hl by (rewrite Eb; cbn; lia).
  assert (0 < size)%nat as Hs by lia.
  destruct (body_loop_final (length bytes) size 0 bytes Hs ltac:(lia) Hl) as (init & x & Hb & Hi).
  destruct (chunks_of_spec size bytes Hs) as [Hc Hf].
  unfold chunks_of in Hc, Hf. rewrite <-body_loop_rechunk in Hc, Hf.
  assert (mk <$> body_loop (length bytes) size 0 bytes = (mk <$> init) ++ [mk (x, true)]) as Em
    by (by rewrite Hb, fmap_app).
  exists (mk <$> init), (mk (x, true)). rewrite <-Em. split_and!.
  - unfold speech_chunks. rewrite Eb, <-Eb. fold size. rewrite <-list_fmap_compose.
    apply list_fmap_ext. by intros ? [].
  - rewrite <-list_fmap_compose. exact Hc.
  - apply Forall_fmap. apply Forall_fmap in Hf. eapply Forall_impl; [exact Hf|].
    intros [c f] H. cbn in *. split_and!; [done..|lia|]. intros _ ->. cbn in H. lia.
  - by apply Forall_fmap.
  - done.
Qed.
