(* ===== verification/ElevenLabs.v ===== *)
(** * ElevenLabs runtime

    Models [inference-runtime-elevenlabs/src]: [wire.rs], [config.rs], [error.rs],
    [cost.rs] and [runner.rs]: voice resolution, cloning, the HTTPS and the WebSocket
    synthesis path, error classification and alignment.  The HTTP client, header
    validation, the base64 crate, the decoding of a frame and the WebSocket connection
    are parameters; a connection is the frames it will deliver before it ends, so what is
    proved of a finished stream says nothing of a socket that stays open and silent. *)
From Stdlib Require Import SpecFloat.
From S2P Require Import Prelude F64 Runtime Deployment Audio Runner Classify AudioProvider WsCore Synthesis.

(** ** Wire types (wire.rs) *)

Record VoiceSettings : Type := {
  vs_stability : option f32; vs_similarity_boost : option f32; vs_style : option f32;
  vs_use_speaker_boost : option bool
}.
Record SpeechRequest : Type := {
  sq_model_id : string; sq_text : string; sq_voice_settings : option VoiceSettings
}.
Record WsGenerationConfig : Type := { chunk_length_schedule : option (list Z) }.
Record WsInitMessage : Type := {
  wi_text : string; wi_model_id : string; wi_xi_api_key : string;
  wi_voice_settings : option VoiceSettings; wi_generation_config : option WsGenerationConfig
}.
Record WsTextMessage : Type := { wt_msg_text : string; wt_try_trigger_generation : option bool }.
Record WsAlignment : Type := {
  chars : list string; char_start_times_ms : list Z; char_durations_ms : list Z
}.
Record WsInboundFrame : Type := {
  wf_audio : option string; wf_alignment : option WsAlignment; wf_is_final : option bool
}.

(** ** Errors (error.rs) *)

Inductive ElevenLabsError : Type :=
  | EE_FeatureDisabled | EE_Unsupported (method : string)
  | EE_BadRequest (message : string) | EE_UnsupportedFormat (message : string).
Definition elevenlabs_error_into (e : ElevenLabsError) : InferenceError :=
  match e with
  | EE_FeatureDisabled => Internal "tts-elevenlabs feature disabled at build time"
  | EE_Unsupported method => Unsupported method RK_TextToSpeech
  | EE_BadRequest m => BadRequest m
  | EE_UnsupportedFormat m => UnsupportedAudioFormat m
  end.

(** [classify_elevenlabs_error] of runner.rs. *)
Definition or_body (message : string) (body : string) : string :=
  if is_empty_str body then message else body.
Definition classify_elevenlabs_error (status : Z) (retry_after : option string) (body : option string) :
  InferenceError :=
  let body := default "" body in
  let st := "(status " +:+ pretty status +:+ ")" in
  if status =? 429 then RateLimited PK_ElevenLabs (from_secs <$> (retry_after ≫= parse_u64))
  else if status =? 401 then Unauthorized (or_body ("elevenlabs auth failed " +:+ st) body)
  else if status =? 403 then Forbidden (or_body ("elevenlabs forbidden " +:+ st) body)
  else if (400 <=? status) && (status <=? 499) then
    BadRequest (or_body ("elevenlabs rejected request " +:+ st) body)
  else if (500 <=? status) && (status <=? 599) then
    ServerError status (if is_empty_str body then None else Some body)
  else Internal ("elevenlabs returned unexpected status " +:+ pretty status +:+ ": " +:+ body).

(** ** Prices (cost.rs) *)

Definition per_million_chars_usd (model : string) : f64 :=
  if decide (model = "eleven_multilingual_v2") then f64_of_Z 300
  else if decide (model = "eleven_turbo_v2_5") then f64_of_Z 150
  else if decide (model = "eleven_flash_v2_5") then f64_of_Z 50
  else S754_zero false.
Definition estimate_usd (model : string) (chars : Z) : f64 :=
  f64_div (f64_mul (per_million_chars_usd model) (f64_of_Z chars)) (f64_of_Z 1000000).

(** ** Formats and alignment (runner.rs) *)

Definition elevenlabs_output_format (f : option AudioFormat) : InferenceResult string :=
  match default AF_Mp3 f with
  | AF_Pcm16Le => Ok "pcm_24000"
  | AF_Pcm24Le => Ok "pcm_24000"
  | AF_PcmF32Le => Err (elevenlabs_error_into (EE_UnsupportedFormat
      "ElevenLabs does not emit PcmF32Le; choose Pcm16Le, Mp3, or OggOpus"))
  | AF_Mp3 => Ok "mp3_44100_128"
  | AF_OggOpus => Ok "opus_48000_64"
  | AF_Flac | AF_Wav => Err (elevenlabs_error_into (EE_UnsupportedFormat
      "ElevenLabs does not support Flac/Wav output; choose Mp3, Pcm16Le, or OggOpus"))
  end.
Definition output_params (requested : option AudioFormat) : AudioParams :=
  let f := default AF_Mp3 requested in {|
    sample_rate_hz := match f with AF_Pcm16Le | AF_Pcm24Le => 24000 | AF_OggOpus => 48000 | _ => 44100 end;
    channels := 1; format := f
  |}.

(** [for i in 0..n]: the three lists are indexed below their least length. *)
Definition alignment_word (text : string) (start duration : Z) : WordTiming := {|
  wt_text := text; wt_start_ms := start; wt_end_ms := saturating_add 32 start duration;
  wt_confidence := None
|}.
Fixpoint alignment_loop (n : nat) (cs : list string) (starts durations : list Z) : list WordTiming :=
  match n, cs, starts, durations with
  | S n', c :: cs', s :: starts', d :: durations' =>
      alignment_word c s d :: alignment_loop n' cs' starts' durations'
  | _, _, _, _ => []
  end.
Definition ws_alignment_to_delta (a : WsAlignment) : AlignmentDelta :=
  let n := Nat.min (Nat.min (length (chars a)) (length (char_start_times_ms a)))
                   (length (char_durations_ms a)) in {|
    al_words := alignment_loop n (chars a) (char_start_times_ms a) (char_durations_ms a);
    al_visemes := []
  |}.

Section elevenlabs.
Context {Url : Type} `{!UrlOps Url}.

Definition voice_settings_from_batch (batch : SpeechBatch Url) : option VoiceSettings :=
  let style := (λ s, f32_clamp (f32_div (f32_add s (f32_of_Z 12)) (f32_of_Z 24)) (S754_zero false) (f32_of_Z 1))
                 <$> so_pitch_semitones (sb_options batch) in
  match style with
  | Some _ => Some {| vs_stability := None; vs_similarity_boost := None; vs_style := style;
                      vs_use_speaker_boost := None |}
  | None => None
  end.

(** ** Configuration (config.rs) *)

Inductive ElevenLabsSecret : Type := ES_Env (name : string) | ES_File (path : string).
Record ElevenLabsTtsConfig : Type := {
  el_endpoint : Url;
  el_ws_endpoint : Url;
  el_api_key : ElevenLabsSecret;
  el_default_voice_id : option string;
  el_chunk_bytes : Z;
  el_ws_connect_timeout : Duration;
  el_rate_limits : RateLimits;
  el_retry : RetryPolicy;
  el_circuit_breaker : CircuitBreakerConfig;
  el_timeouts : Timeouts
}.
Definition default_chunk_bytes : Z := 8192.
(** [None]: a static URL did not parse, a panic. *)
Definition defaults_for_elevenlabs (key : ElevenLabsSecret) : option ElevenLabsTtsConfig :=
  u ← result_ok (url_parse "https://api.elevenlabs.io/v1/");
  w ← result_ok (url_parse "wss://api.elevenlabs.io/v1/");
  Some {|
    el_endpoint := u; el_ws_endpoint := w; el_api_key := key; el_default_voice_id := None;
    el_chunk_bytes := default_chunk_bytes; el_ws_connect_timeout := default_ws_connect_timeout;
    el_rate_limits := RateLimits_default; el_retry := RetryPolicy_default;
    el_circuit_breaker := CircuitBreakerConfig_default; el_timeouts := Timeouts_default
  |}.
Definition set_endpoints (e w : Url) (c : ElevenLabsTtsConfig) : ElevenLabsTtsConfig := {|
  el_endpoint := e; el_ws_endpoint := w; el_api_key := el_api_key c;
  el_default_voice_id := el_default_voice_id c; el_chunk_bytes := el_chunk_bytes c;
  el_ws_connect_timeout := el_ws_connect_timeout c; el_rate_limits := el_rate_limits c;
  el_retry := el_retry c; el_circuit_breaker := el_circuit_breaker c; el_timeouts := el_timeouts c
|}.
Definition with_endpoint (c : ElevenLabsTtsConfig) (u : Url) := set_endpoints u (el_ws_endpoint c) c.
Definition with_ws_endpoint (c : ElevenLabsTtsConfig) (u : Url) := set_endpoints (el_endpoint c) u c.
Definition speech_url (c : ElevenLabsTtsConfig) (voice_id : string) : result string Url :=
  url_join (el_endpoint c) ("text-to-speech/" +:+ voice_id).
Definition speech_stream_url (c : ElevenLabsTtsConfig) (voice_id : string) : result string Url :=
  url_join (el_ws_endpoint c) ("text-to-speech/" +:+ voice_id +:+ "/stream-input").
Definition add_voice_url (c : ElevenLabsTtsConfig) : result string Url :=
  url_join (el_endpoint c) "voices/add".

(** ** The runner (runner.rs) *)

(** The configuration and the credential of the shared snapshot. *)
Record ElevenLabsTtsRunner : Type := { el_config : ElevenLabsTtsConfig; el_session : string }.
Definition elevenlabs_new (config : ElevenLabsTtsConfig) (session : string) :
  InferenceResult ElevenLabsTtsRunner := Ok {| el_config := config; el_session := session |}.

(** [HeaderValue::from_str]. *)
Variable header_value : string → result string unit.
Definition auth_header_value (r : ElevenLabsTtsRunner) : InferenceResult string :=
  match header_value (el_session r) with
  | Ok _ => Ok (el_session r)
  | Err e => Err (Internal ("invalid xi-api-key: " +:+ e))
  end.
Definition resolve_voice_id (r : ElevenLabsTtsRunner) (voice : VoiceRef Url) : InferenceResult string :=
  match voice with
  | VR_Id s | VR_Named s => Ok s
  | VR_ClonedFrom _ =>
      match el_default_voice_id (el_config r) with
      | Some id => Ok id
      | None => Err (elevenlabs_error_into (EE_BadRequest
          "ClonedFrom requires prior /v1/voices/add; pass VoiceRef::Id(new_id) to speak, or set ElevenLabsTtsConfig::default_voice_id"))
      end
  end.

(** [clone_voice]: the multipart form and its answer. *)
Record VoiceForm : Type := {
  vf_name : string; vf_files : Bytes; vf_file_name : string; vf_description : option string
}.
Variable post_voice : Url → list (string * string) → VoiceForm → result string AudioResponse.
(** [resp.json::<AddVoiceResponse>()]: the voice id. *)
Variable decode_add_voice : AudioResponse → result string string.
Definition clone_voice (r : ElevenLabsTtsRunner) (name : string) (sample : AudioPayload Url)
    (description : option string) : InferenceResult string :=
  let? url := map_err (λ e, Internal ("voices/add url: " +:+ e)) (add_voice_url (el_config r)) in
  match sample with
  | AP_Path _ _ | AP_Url _ _ => Err (elevenlabs_error_into (EE_BadRequest
      "clone_voice requires AudioPayload::Bytes; resolve Path/Url to bytes first"))
  | AP_Bytes data _ =>
      let form := {| vf_name := name; vf_files := data; vf_file_name := "sample.wav";
                     vf_description := description |} in
      let? key := auth_header_value r in
      let? resp := map_err NetworkError (post_voice url [("xi-api-key", key)] form) in
      if ar_success resp then
        map_err (λ e, NetworkError ("decode voices/add: " +:+ e)) (decode_add_voice resp)
      else Err (classify_elevenlabs_error (ar_status resp) None (Some (default "" (ar_text resp))))
  end.

Variable post : Url → list (string * string) → SpeechRequest → result string AudioResponse.
Definition speak_https (r : ElevenLabsTtsRunner) (batch : SpeechBatch Url) :
  InferenceResult (RunHandle SpeechChunk) :=
  let? voice_id := resolve_voice_id r (sb_voice batch) in
  let? url := map_err (λ e, Internal ("elevenlabs speech url: " +:+ e)) (speech_url (el_config r) voice_id) in
  let? format_query := elevenlabs_output_format (so_format (sb_options batch)) in
  let url := append_pair url ("output_format", format_query) in
  let body := {| sq_model_id := sb_model batch; sq_text := sb_text batch;
                 sq_voice_settings := voice_settings_from_batch batch |} in
  let? key := auth_header_value r in
  let? resp := map_err NetworkError (post url [("xi-api-key", key); ("accept", "audio/*")] body) in
  if ar_success resp then
    let? bytes := map_err (λ e, NetworkError ("read elevenlabs body: " +:+ e)) (ar_bytes resp) in
    Ok (streaming (speech_chunks (sb_request_id batch) (output_params (so_format (sb_options batch)))
                     (el_chunk_bytes (el_config r)) bytes))
  else Err (classify_elevenlabs_error (ar_status resp) (ar_retry_after resp) (ar_text resp)).

(** ** The WebSocket path *)

Abbreviation Item := (InferenceResult SpeechChunk) (only parsing).
(** [serde_json::from_str] of a frame, and the base64 crate's standard decoder. *)
Variable parse_frame : string → result string WsInboundFrame.
Variable b64_standard : string → result string Bytes.

Section ws_loop.
Variables (request_id : string) (params : AudioParams) (emit_alignment : bool).
(** Whether the client still holds the receiver, given what it was sent. *)
Variable listening : list Item → bool.

Definition frame_audio (f : WsInboundFrame) : result string Bytes :=
  match wf_audio f with
  | Some b64 => if is_empty_str b64 then Ok [] else b64_standard b64
  | None => Ok []
  end.
Definition frame_chunk (f : WsInboundFrame) (audio : Bytes) : SpeechChunk := {|
  sc_request_id := request_id; sc_is_final := default false (wf_is_final f);
  sc_audio_pcm_chunk := audio; sc_params := params;
  sc_alignment := if emit_alignment then ws_alignment_to_delta <$> wf_alignment f else None;
  sc_usage := None
|}.
(** No audio, no alignment, not the final frame. *)
Definition silent (c : SpeechChunk) : bool :=
  match sc_audio_pcm_chunk c, sc_alignment c with
  | [], None => negb (sc_is_final c)
  | _, _ => false
  end.
(** [let _ = out_tx.send(i).await]. *)
Definition offer (i : Item) (l : list Item) : list Item := if listening l then l ++ [i] else l.

(** The receive loop: what was sent on the output channel, and [sent_final]. *)
Fixpoint receive_loop (rx : list (result WsError Frame)) (sent : list Item) : list Item * bool :=
  match rx with
  | [] => (sent, false)
  | Err e :: _ => (offer (Err (NetworkError ("ws recv: " +:+ ws_error_to_string e))) sent, false)
  | Ok (Fr_Text text) :: rest =>
      match parse_frame text with
      | Err e => (offer (Err (Internal ("ws frame decode: " +:+ e))) sent, false)
      | Ok frame =>
          match frame_audio frame with
          | Err e => (offer (Err (Internal ("ws audio b64: " +:+ e))) sent, false)
          | Ok audio =>
              let c := frame_chunk frame audio in
              if silent c then receive_loop rest sent
              else if listening sent then
                if sc_is_final c then (sent ++ [Ok c], true) else receive_loop rest (sent ++ [Ok c])
              else (sent, false)
          end
      end
  | Ok (Fr_Close code reason) :: _ =>
      (if negb (code =? 1000)
       then offer (Err (NetworkError ("ws closed code=" +:+ pretty code +:+ " reason=" +:+ reason))) sent
       else sent, false)
  | Ok _ :: rest => receive_loop rest sent
  end.
(** The spawned task: the loop, a synthetic final chunk if none was sent, and the frame
    that closes the socket. *)
Definition ws_task (rx : list (result WsError Frame)) : list Item * list Frame :=
  let '(sent, sent_final) := receive_loop rx [] in
  (if sent_final then sent else offer (Ok (speech_chunk request_id params true [])) sent,
   [Fr_Close 1000 "done"]).
End ws_loop.

(** [WsClient::connect]: what is sent, and the frames received; [ws_send n] answers the
    [n]-th send.  The two messages are given before their JSON encoding, whose result is
    [encode_init] and [encode_text]. *)
Variable ws_connect : string → Duration → result WsError (list (result WsError Frame)).
Variable ws_send : nat → Frame → result WsError unit.
Variable encode_init : WsInitMessage → result string string.
Variable encode_text : WsTextMessage → result string string.

Definition ws_init (batch : SpeechBatch Url) (api_key : string) : WsInitMessage := {|
  wi_text := if is_empty_str (sb_text batch) then " " else sb_text batch;
  wi_model_id := sb_model batch; wi_xi_api_key := api_key;
  wi_voice_settings := voice_settings_from_batch batch; wi_generation_config := None
|}.
Definition ws_flush : WsTextMessage := {| wt_msg_text := ""; wt_try_trigger_generation := Some true |}.
Definition speak_ws (r : ElevenLabsTtsRunner) (batch : SpeechBatch Url) (listening : list Item → bool) :
  InferenceResult (RunHandle SpeechChunk) :=
  let? voice_id := resolve_voice_id r (sb_voice batch) in
  let? url := map_err (λ e, Internal ("elevenlabs ws url: " +:+ e)) (speech_stream_url (el_config r) voice_id) in
  let? format_query := elevenlabs_output_format (so_format (sb_options batch)) in
  let url := append_pair url ("output_format", format_query) in
  let? rx := map_err (λ e, NetworkError ("ws connect: " +:+ ws_error_to_string e))
    (ws_connect (url_as_str url) (el_ws_connect_timeout (el_config r))) in
  let? init_json := map_err (λ e, Internal ("encode ws init: " +:+ e)) (encode_init (ws_init batch (el_session r))) in
  let? _ := map_err (λ e, NetworkError ("ws init send: " +:+ ws_error_to_string e)) (ws_send 0 (Fr_Text init_json)) in
  let? flush_json := map_err (λ e, Internal ("encode ws flush: " +:+ e)) (encode_text ws_flush) in
  let? _ := map_err (λ e, NetworkError ("ws flush send: " +:+ ws_error_to_string e)) (ws_send 1 (Fr_Text flush_json)) in
  Ok (streaming (fst (ws_task (sb_request_id batch) (output_params (so_format (sb_options batch)))
                        (sb_emit_alignment batch) listening rx))).

Definition elevenlabs_base : RunnerBase ElevenLabsTtsRunner := {|
  runner_kind _ := RK_TextToSpeech;
  runner_transport _ := TK_RemoteNetwork PK_ElevenLabs;
  rebuild_session r _ := (r, Ok ());
  rate_limits r := Some (el_rate_limits (el_config r))
|}.
#[local] Existing Instance elevenlabs_base.
(** [SpeechRunner::speak]. *)
Definition elevenlabs_speak (listening : list Item → bool) : SpeechRunner Url ElevenLabsTtsRunner :=
  λ r batch, (r, if sb_stream batch then speak_ws r batch listening else speak_https r batch).

(** ** What the client receives over the WebSocket *)

(** The frames the loop decodes with their audio, to the first final one or the first
    that cannot be decoded. *)
Fixpoint decoded_frames (rx : list (result WsError Frame)) : list (WsInboundFrame * Bytes) :=
  match rx with
  | Ok (Fr_Text text) :: rest =>
      match parse_frame text with
      | Err _ => []
      | Ok f =>
          match frame_audio f with
          | Err _ => []
          | Ok a => (f, a) :: if default false (wf_is_final f) then [] else decoded_frames rest
          end
      end
  | Ok (Fr_Binary _ | Fr_Ping _ | Fr_Pong _) :: rest => decoded_frames rest
  | _ => []
  end.

Abbreviation always := (λ _ : list (InferenceResult SpeechChunk), true).
Section post.
Variables (rid : string) (params : AudioParams).
Definition own_chunk (c : SpeechChunk) : Prop :=
  sc_request_id c = rid ∧ sc_params c = params ∧ silent c = false.
(** What a run of the loop adds to [sent], for the frames it decoded: chunks that are not
    silent and carry the frames' audio, then at most one error; no final chunk among
    them, or the last one and no error. *)
Definition loop_post (sent : list (InferenceResult SpeechChunk)) (frames : list (WsInboundFrame * Bytes))
    (r : list (InferenceResult SpeechChunk) * bool) : Prop :=
  ∃ cs err, fst r = sent ++ (Ok <$> cs) ++ err ∧ Forall own_chunk cs ∧
    concat (sc_audio_pcm_chunk <$> cs) = concat (snd <$> frames) ∧
    if snd r
    then err = [] ∧ ∃ init f, cs = init ++ [f] ∧ Forall (λ c, sc_is_final c = false) init ∧ sc_is_final f = true
    else (err = [] ∨ ∃ e, err = [Err e]) ∧ Forall (λ c, sc_is_final c = false) cs.

Lemma post_end sent err : (err = [] ∨ ∃ e : InferenceError, err = [Err e]) → loop_post sent [] (sent ++ err, false).
Proof. intros He. exists [], err. by split_and!. Qed.
Lemma post_end_nil sent : loop_post sent [] (sent, false).
Proof. rewrite <-(app_nil_r sent) at 2. apply post_end. by left. Qed.
Lemma post_skip sent f frames r : loop_post sent frames r → loop_post sent ((f, []) :: frames) r.
Proof. done. Qed.
Lemma post_final sent f c : own_chunk c → sc_is_final c = true →
  loop_post sent [(f, sc_audio_pcm_chunk c)] (sent ++ [Ok c], true).
Proof.
  intros Hc Hf. exists [c], []. split_and!; [done|by apply Forall_singleton|done|]. split; [done|].
  exists [], c. by split_and!.
Qed.
Lemma post_chunk sent f c frames r : own_chunk c → sc_is_final c = false →
  loop_post (sent ++ [Ok c]) frames r → loop_post sent ((f, sc_audio_pcm_chunk c) :: frames) r.
Proof.
  intros Hc Hn (cs & err & Ho & Hcs & Ha & Hr). exists (c :: cs), err.
  split_and!; [by rewrite Ho, <-app_assoc|by constructor|by rewrite !fmap_cons, !concat_cons, Ha|].
  destruct (snd r); [destruct Hr as [-> (init & f' & -> & Hi & Hf)]|destruct Hr as [? Hr]; split; [done|by constructor]].
  split; [done|]. exists (c :: init), f'. split_and!; [done|by constructor|done].
Qed.
Lemma receive_loop_post al rx sent :
  loop_post sent (decoded_frames rx) (receive_loop rid params al always rx sent).
Proof.
  revert sent. induction rx as [|[f|e] rx IH]; intros sent; cbn [receive_loop decoded_frames];
    [apply post_end_nil| |apply post_end; eauto].
  destruct f as [b|text|q|q|code reason]; [apply IH| |apply IH..|].
  - destruct (parse_frame text) as [f|e]; [|apply post_end; eauto].
    destruct (frame_audio f) as [a|e]; [|apply post_end; eauto].
    set (c := frame_chunk rid params al f a). change a with (sc_audio_pcm_chunk c).
    change (default false (wf_is_final f)) with (sc_is_final c).
    destruct (silent c) eqn:Es.
    + assert (sc_audio_pcm_chunk c = [] ∧ sc_is_final c = false) as [-> ->].
      { unfold silent in Es. repeat case_match; simplify_eq. by apply negb_true_iff in Es. }
      apply post_skip, IH.
    + destruct (sc_is_final c) eqn:Ef; [by apply post_final|by apply post_chunk].
  - destruct (negb (code =? 1000)); [apply post_end; eauto|apply post_end_nil].
Qed.
End post.

(** [C22] Every synthesis stream over a WebSocket that ends does so well-formed: whatever frames
    the provider sends before it closes, a client that keeps listening receives chunks with the request's id and
    parameters whose audio is exactly that of the decoded frames in order, at most one
    error, and exactly one final chunk, which is the last item even after an error;
    silent frames are not forwarded. *)
Theorem ws_stream_one_final (request_id : string) (params : AudioParams) (emit_alignment : bool)
    (rx : list (result WsError Frame)) :
  ∃ cs err f,
    fst (ws_task request_id params emit_alignment always rx) = (Ok <$> cs) ++ err ++ [Ok f] ∧
    Forall (λ c, sc_request_id c = request_id ∧ sc_params c = params ∧
                 silent c = false ∧ sc_is_final c = false) cs ∧
    sc_request_id f = request_id ∧ sc_params f = params ∧ sc_is_final f = true ∧
    (err = [] ∨ ∃ e, err = [Err e]) ∧
    concat (sc_audio_pcm_chunk <$> cs ++ [f]) = concat (snd <$> decoded_frames rx).
Proof.
  unfold ws_task, offer.
  destruct (receive_loop_post request_id params emit_alignment rx []) as (cs & err & Ho & Hcs & Ha & Hr).
  destruct (receive_loop _ _ _ _ _ _) as [sent fin]. cbn [fst snd] in *. subst sent. destruct fin.
  - destruct Hr as [-> (init & f & -> & Hi & Hf)]. apply Forall_app in Hcs as [Hcs (Hid & Hp & _)%Forall_singleton].
    exists init, [], f. rewrite app_nil_r, fmap_app. split_and!; [done| |done..|by left|done].
    eapply Forall_impl2; [exact Hcs|exact Hi|]. intros c (?&?&?) ?. by split_and!.
  - destruct Hr as [He Hn]. exists cs, err, (speech_chunk request_id params true []).
    split_and!; [cbn [app]; by rewrite <-app_assoc| |done..|].
    + eapply Forall_impl2; [exact Hcs|exact Hn|]. intros c (?&?&?) ?. by split_and!.
    + by rewrite fmap_app, concat_app, Ha, app_nil_r.
Qed.
End elevenlabs.
Arguments ElevenLabsTtsConfig Url : clear implicits.
Arguments ElevenLabsTtsRunner Url : clear implicits.

(** ** Alignment *)

Definition alignment_typed (a : WsAlignment) : Prop :=
  Forall (is_u 32) (char_start_times_ms a) ∧ Forall (is_u 32) (char_durations_ms a).
Lemma alignment_loop_spec n cs starts durations :
  (n ≤ length cs)%nat → (n ≤ length starts)%nat → (n ≤ length durations)%nat →
  Forall (is_u 32) starts → Forall (is_u 32) durations →
  let words := alignment_loop n cs starts durations in
  wt_text <$> words = take n cs ∧ wt_start_ms <$> words = take n starts ∧
  Forall (λ w, word_is_valid w = true ∧ word_typed w) words.
Proof.
  revert cs starts durations. induction n as [|n IH]; intros cs starts durations Hc Hs Hd Fs Fd; [done|].
  destruct cs as [|c cs], starts as [|s starts], durations as [|d durations]; cbn [length] in *; try lia.
  apply Forall_cons in Fs as [Fs1 Fs], Fd as [Fd1 Fd].
  destruct (IH cs starts durations ltac:(lia) ltac:(lia) ltac:(lia) Fs Fd) as (Ht & Hw & Hv).
  cbn [alignment_loop take]. split_and!; [by rewrite fmap_cons, Ht|by rewrite fmap_cons, Hw|].
  constructor; [|done]. unfold is_u in *. split.
  - unfold word_is_valid, alignment_word, saturating_add. cbn [wt_start_ms wt_end_ms wt_confidence].
    rewrite andb_true_r. apply Z.leb_le. lia.
  - split; cbn; [done|]. unfold saturating_add, is_u. lia.
Qed.
(** Alignment: the word timings built from a provider's per-character alignment are
    well-typed and valid (a start never after its end, even where start plus duration
    overflows 32 bits), one per character for which text, start and duration are all
    given, with that character and start. *)
Theorem alignment_words_valid (a : WsAlignment) :
  alignment_typed a →
  let n := Nat.min (Nat.min (length (chars a)) (length (char_start_times_ms a))) (length (char_durations_ms a)) in
  let words := al_words (ws_alignment_to_delta a) in
  wt_text <$> words = take n (chars a) ∧ wt_start_ms <$> words = take n (char_start_times_ms a) ∧
  Forall (λ w, word_is_valid w = true ∧ word_typed w) words.
Proof. intros [Hs Hd] n. apply alignment_loop_spec; [lia..|done|done]. Qed.

Lemma alignment_words_valid_witness :
  let a := {| chars := ["h"; "i"]; char_start_times_ms := [0; 4294967290]; char_durations_ms := [50; 60; 70] |} in
  (wt_end_ms <$> al_words (ws_alignment_to_delta a)) = [50; 4294967295] ∧
  Forall (λ w, word_is_valid w = true ∧ word_typed w) (al_words (ws_alignment_to_delta a)).
Proof.
  intros a. split; [reflexivity|].
  refine (proj2 (proj2 (alignment_words_valid a _))). split; repeat constructor; done.
Defined.

(** A caller that asks for 24-bit PCM is given the 16-bit stream under a 24-bit label. *)
Lemma pcm24_mislabelled :
  elevenlabs_output_format (Some AF_Pcm24Le) = elevenlabs_output_format (Some AF_Pcm16Le) ∧
  format (output_params (Some AF_Pcm24Le)) = AF_Pcm24Le.
Proof. done. Qed.
