(* ===== verification/OpenAiTts.v ===== *)
(** * OpenAI synthesis runtime

    Models [inference-runtime-openai-tts/src]: [wire.rs], [config.rs], [error.rs],
    [cost.rs] and [runner.rs].  The HTTP client and header validation are parameters;
    the body is cut by [Synthesis]. *)
From Stdlib Require Import SpecFloat.
From S2P Require Import Prelude F64 Runtime Deployment Audio Runner AudioProvider Synthesis OpenAi.

(** ** Wire types (wire.rs) *)

Record SpeechRequest : Type := {
  tq_model : string; tq_input : string; tq_voice : string; tq_response_format : string;
  tq_speed : option f32; tq_instructions : option string
}.
Definition response_format_str (f : AudioFormat) : option string :=
  match f with
  | AF_Pcm16Le | AF_PcmF32Le | AF_Pcm24Le => Some "pcm"
  | AF_Mp3 => Some "mp3"
  | AF_OggOpus => Some "opus"
  | AF_Flac => Some "flac"
  | AF_Wav => Some "wav"
  end.

(** ** Errors (error.rs), prices (cost.rs) *)

Inductive OpenAiTtsError : Type := OTE_UnsupportedFormat (message : string) | OTE_FeatureDisabled.
Definition openai_tts_error_into (e : OpenAiTtsError) : InferenceError :=
  match e with
  | OTE_UnsupportedFormat m => UnsupportedAudioFormat m
  | OTE_FeatureDisabled => Internal "tts-openai feature disabled at build time"
  end.
Definition per_million_chars_usd (model : string) : f64 :=
  if decide (model = "tts-1") then f64_of_Z 15
  else if decide (model = "tts-1-hd") then f64_of_Z 30
  else if decide (model = "gpt-4o-mini-tts") then f64_of_Z 12
  else S754_zero false.
Definition estimate_usd (model : string) (chars : Z) : f64 :=
  f64_div (f64_mul (per_million_chars_usd model) (f64_of_Z chars)) (f64_of_Z 1000000).

Definition output_params (requested : option AudioFormat) : AudioParams :=
  let f := default AF_Pcm16Le requested in {|
    sample_rate_hz := match f with AF_Pcm16Le | AF_Pcm24Le | AF_PcmF32Le => 24000 | _ => 24000 end;
    channels := 1; format := f
  |}.

Section openai_tts.
Context {Url : Type} `{!UrlOps Url}.

Definition voice_name (v : VoiceRef Url) : string :=
  match v with VR_Named s | VR_Id s => s | VR_ClonedFrom _ => "alloy" end.
Definition speech_from_batch (batch : SpeechBatch Url) (response_format : string) : SpeechRequest := {|
  tq_model := sb_model batch; tq_input := sb_text batch; tq_voice := voice_name (sb_voice batch);
  tq_response_format := response_format; tq_speed := so_speed (sb_options batch);
  tq_instructions := so_emotion (sb_options batch)
|}.

(** ** Configuration (config.rs) *)

Record OpenAiTtsConfig : Type := {
  ot_endpoint : Url;
  ot_api_key : SecretRef;
  ot_organization : option string;
  ot_project : option string;
  ot_chunk_bytes : Z;
  ot_rate_limits : RateLimits;
  ot_retry : RetryPolicy;
  ot_circuit_breaker : CircuitBreakerConfig;
  ot_timeouts : Timeouts
}.
Definition default_chunk_bytes : Z := 8192.
Definition tts_defaults (key : SecretRef) : option OpenAiTtsConfig :=
  u ← result_ok (url_parse "https://api.openai.com/v1/");
  Some {|
    ot_endpoint := u; ot_api_key := key; ot_organization := None; ot_project := None;
    ot_chunk_bytes := default_chunk_bytes; ot_rate_limits := RateLimits_default;
    ot_retry := RetryPolicy_default; ot_circuit_breaker := CircuitBreakerConfig_default;
    ot_timeouts := Timeouts_default
  |}.
Definition tts_with_endpoint (c : OpenAiTtsConfig) (u : Url) : OpenAiTtsConfig := {|
  ot_endpoint := u; ot_api_key := ot_api_key c; ot_organization := ot_organization c;
  ot_project := ot_project c; ot_chunk_bytes := ot_chunk_bytes c; ot_rate_limits := ot_rate_limits c;
  ot_retry := ot_retry c; ot_circuit_breaker := ot_circuit_breaker c; ot_timeouts := ot_timeouts c
|}.
Definition tts_speech_url (c : OpenAiTtsConfig) : result string Url := url_join (ot_endpoint c) "audio/speech".

(** ** The runner (runner.rs) *)

Record OpenAiTtsRunner : Type := { ot_config : OpenAiTtsConfig; ot_session : string; ot_speech_url : Url }.
Definition tts_new (config : OpenAiTtsConfig) (session : string) : InferenceResult OpenAiTtsRunner :=
  let? u := map_err (λ e, Internal ("openai-tts endpoint url: " +:+ e)) (tts_speech_url config) in
  Ok {| ot_config := config; ot_session := session; ot_speech_url := u |}.

Variable header_value : string → result string unit.
Variable post : Url → list (string * string) → SpeechRequest → result string AudioResponse.
Variable parse_envelope : string → option ErrorBody.
Variable parse_rfc2822 : string → option Z.

Definition tts_auth_headers (r : OpenAiTtsRunner) : InferenceResult (list (string * string)) :=
  auth_headers header_value (ot_session r) (ot_organization (ot_config r)) (ot_project (ot_config r)).
Definition tts_speak (now : Z) (r : OpenAiTtsRunner) (batch : SpeechBatch Url) :
  InferenceResult (RunHandle SpeechChunk) :=
  let? response_format :=
    match so_format (sb_options batch) with
    | Some fmt =>
        match response_format_str fmt with
        | Some s => Ok s
        | None => Err (UnsupportedAudioFormat
            ("openai-tts: response_format for " +:+ debug_AudioFormat fmt +:+ " not supported"))
        end
    | None => Ok "pcm"
    end in
  let body := speech_from_batch batch response_format in
  let? headers := tts_auth_headers r in
  let? resp := map_err NetworkError (post (ot_speech_url r) headers body) in
  if ar_success resp then
    let? bytes := map_err (λ e, NetworkError ("read tts body: " +:+ e)) (ar_bytes resp) in
    Ok (streaming (speech_chunks (sb_request_id batch) (output_params (so_format (sb_options batch)))
                     (ot_chunk_bytes (ot_config r)) bytes))
  else Err (classify_openai_error parse_envelope parse_rfc2822 now (ar_status resp)
              (ar_retry_after resp) (ar_text resp)).
Definition openai_tts_base : RunnerBase OpenAiTtsRunner := {|
  runner_kind _ := RK_TextToSpeech;
  runner_transport _ := TK_RemoteNetwork PK_OpenAi;
  rebuild_session r _ := (r, Ok ());
  rate_limits r := Some (ot_rate_limits (ot_config r))
|}.
#[local] Existing Instance openai_tts_base.
Definition openai_tts_speak (now : Z) : SpeechRunner Url OpenAiTtsRunner :=
  λ r batch, (r, tts_speak now r batch).
End openai_tts.
Arguments OpenAiTtsConfig Url : clear implicits.
Arguments OpenAiTtsRunner Url : clear implicits.

(** Every PCM width is requested as the provider's one 16-bit stream, and labelled as
    the width the caller asked for. *)
Lemma pcm_mislabelled f : is_pcm f = true →
  response_format_str f = response_format_str AF_Pcm16Le ∧ format (output_params (Some f)) = f.
Proof. by destruct f. Qed.
