(* ===== verification/OpenAiStt.v ===== *)
(** * OpenAI transcription runtime

    Models [inference-runtime-openai-stt/src]: [wire.rs], [config.rs], [error.rs],
    [cost.rs] and [runner.rs].  The HTTP client, header validation, reading a file, the
    decoding of the answer, and the decimal text of an [f32] are parameters. *)
From Stdlib Require Import SpecFloat.
From S2P Require Import Prelude F64 Runtime Deployment Audio Runner AudioProvider Synthesis OpenAi.

(** ** Wire types (wire.rs) *)

Record PlainResponse : Type := { pr_text : string }.
Record VerboseSegment : Type := {
  sg_start : f32; sg_end : f32; sg_text : string; sg_avg_logprob : option f32
}.
Record VerboseWord : Type := { vw_word : string; vw_start : f32; vw_end : f32 }.
Record VerboseResponse : Type := {
  vr_text : string; vr_segments : list VerboseSegment; vr_words : list VerboseWord
}.

(** ** Errors (error.rs), prices (cost.rs) *)

Inductive OpenAiSttError : Type :=
  | OSE_FeatureDisabled | OSE_Unsupported (method : string) | OSE_BadRequest (message : string).
Definition openai_stt_error_into (e : OpenAiSttError) : InferenceError :=
  match e with
  | OSE_FeatureDisabled => Internal "stt-openai feature disabled at build time"
  | OSE_Unsupported method => Unsupported method RK_SpeechToText
  | OSE_BadRequest m => BadRequest m
  end.
Definition per_minute_usd (model : string) : f64 :=
  if decide (model = "whisper-1") then f64_lit 6 1000
  else if decide (model = "gpt-4o-transcribe") then f64_lit 6 1000
  else if decide (model = "gpt-4o-mini-transcribe") then f64_lit 3 1000
  else S754_zero false.
Definition estimate_usd (model : string) (audio_seconds : Z) : f64 :=
  f64_div (f64_mul (per_minute_usd model) (f64_of_Z audio_seconds)) (f64_of_Z 60).

(** ** Conversion (runner.rs) *)

Definition min_opt (l : list Z) : option Z :=
  match l with [] => None | x :: r => Some (foldl Z.min x r) end.
Definition max_opt (l : list Z) : option Z :=
  match l with [] => None | x :: r => Some (foldl Z.max x r) end.
Definition verbose_word (w : VerboseWord) : WordTiming := {|
  wt_text := vw_word w; wt_start_ms := seconds_to_ms (vw_start w); wt_end_ms := seconds_to_ms (vw_end w);
  wt_confidence := None
|}.
Definition word_in_range (start end_ : Z) (w : WordTiming) : bool :=
  (start <=? wt_start_ms w) && (wt_end_ms w <=? end_).
Definition segment_chunk (request_id : string) (words_ms : list WordTiming) (last_idx i : nat)
    (seg : VerboseSegment) : TranscriptChunk :=
  let start := seconds_to_ms (sg_start seg) in
  let end_ := seconds_to_ms (sg_end seg) in {|
    tc_request_id := request_id; tc_is_final := (i =? last_idx)%nat; tc_text := sg_text seg;
    tc_start_ms := start; tc_end_ms := end_; tc_speaker_id := None;
    tc_words := filter (λ w, word_in_range start end_ w = true) words_ms; tc_usage := None
  |}.
Definition verbose_to_chunks (request_id : string) (parsed : VerboseResponse) :
  list (InferenceResult TranscriptChunk) :=
  let words_ms := verbose_word <$> vr_words parsed in
  match vr_segments parsed with
  | [] => [Ok {|
      tc_request_id := request_id; tc_is_final := true; tc_text := vr_text parsed;
      tc_start_ms := default 0 (min_opt (wt_start_ms <$> words_ms));
      tc_end_ms := default 0 (max_opt (wt_end_ms <$> words_ms));
      tc_speaker_id := None; tc_words := words_ms; tc_usage := None |}]
  | segments => Ok <$> imap (segment_chunk request_id words_ms (length segments - 1)) segments
  end.
Definition plain_chunk (request_id : string) (parsed : PlainResponse) : TranscriptChunk := {|
  tc_request_id := request_id; tc_is_final := true; tc_text := pr_text parsed; tc_start_ms := 0;
  tc_end_ms := 0; tc_speaker_id := None; tc_words := []; tc_usage := None
|}.

(** [Path::file_name] and [to_str] on text: the last component, unless it is [..]. *)
Fixpoint split_slash (cur s : string) : list string :=
  match s with
  | EmptyString => [cur]
  | String c r => if decide (c = ascii_of_N 47) then cur :: split_slash "" r
                  else split_slash (cur +:+ String c "") r
  end.
Definition file_name (path : string) : option string :=
  let comps := filter (λ s, s ≠ "" ∧ s ≠ ".") (split_slash "" path) in
  n ← last comps; if decide (n = "..") then None else Some n.
Definition default_filename (f : AudioFormat) : string :=
  match f with
  | AF_Pcm16Le | AF_Pcm24Le | AF_PcmF32Le => "audio.pcm"
  | AF_Wav => "audio.wav"
  | AF_OggOpus => "audio.ogg"
  | AF_Mp3 => "audio.mp3"
  | AF_Flac => "audio.flac"
  end.

Section openai_stt.
Context {Url Receiver : Type} `{!UrlOps Url}.

(** ** Configuration (config.rs) *)

Record OpenAiSttConfig : Type := {
  ost_endpoint : Url;
  ost_api_key : SecretRef;
  ost_organization : option string;
  ost_project : option string;
  ost_rate_limits : RateLimits;
  ost_retry : RetryPolicy;
  ost_circuit_breaker : CircuitBreakerConfig;
  ost_timeouts : Timeouts
}.
Definition stt_defaults (key : SecretRef) : option OpenAiSttConfig :=
  u ← result_ok (url_parse "https://api.openai.com/v1/");
  Some {|
    ost_endpoint := u; ost_api_key := key; ost_organization := None; ost_project := None;
    ost_rate_limits := RateLimits_default; ost_retry := RetryPolicy_default;
    ost_circuit_breaker := CircuitBreakerConfig_default; ost_timeouts := Timeouts_default
  |}.
Definition stt_with_endpoint (c : OpenAiSttConfig) (u : Url) : OpenAiSttConfig := {|
  ost_endpoint := u; ost_api_key := ost_api_key c; ost_organization := ost_organization c;
  ost_project := ost_project c; ost_rate_limits := ost_rate_limits c; ost_retry := ost_retry c;
  ost_circuit_breaker := ost_circuit_breaker c; ost_timeouts := ost_timeouts c
|}.
Definition transcriptions_url (c : OpenAiSttConfig) : result string Url :=
  url_join (ost_endpoint c) "audio/transcriptions".

(** ** The runner (runner.rs) *)

Record OpenAiSttRunner : Type := { ost_config : OpenAiSttConfig; ost_session : string; ost_url : Url }.
Definition stt_new (config : OpenAiSttConfig) (session : string) : InferenceResult OpenAiSttRunner :=
  let? u := map_err (λ e, Internal ("openai-stt endpoint url: " +:+ e)) (transcriptions_url config) in
  Ok {| ost_config := config; ost_session := session; ost_url := u |}.

(** The multipart form: text fields in order, then the file. *)
Record Form : Type := { fm_fields : list (string * string); fm_file : Bytes; fm_file_name : string }.
Variable fs_read : string → result string Bytes.
Variable header_value : string → result string unit.
Variable post : Url → list (string * string) → Form → result string AudioResponse.
Variable decode_verbose : AudioResponse → result string VerboseResponse.
Variable decode_plain : AudioResponse → result string PlainResponse.
Variable parse_envelope : string → option ErrorBody.
Variable parse_rfc2822 : string → option Z.
Variable display_f32 : f32 → string.

Definition materialize_payload (p : AudioPayload Url) : InferenceResult (Bytes * string) :=
  match p with
  | AP_Bytes data params => Ok (data, default_filename (format params))
  | AP_Path path params =>
      match fs_read path with
      | Err e => Err (BadRequest ("openai-stt: read " +:+ path +:+ ": " +:+ e))
      | Ok data => Ok (data, default (default_filename (format params)) (file_name path))
      end
  | AP_Url _ _ => Err (openai_stt_error_into
      (OSE_Unsupported "execute_audio: URL audio payloads not implemented (M6)"))
  end.
Definition transcription_fields (model : string) (opts : TranscribeOptions) (want_verbose : bool) :
  list (string * string) :=
  [("model", model); ("response_format", if want_verbose then "verbose_json" else "json")] ++
  match to_language opts with Some l => [("language", l)] | None => [] end ++
  match to_prompt opts with Some p => [("prompt", p)] | None => [] end ++
  match to_temperature opts with Some t => [("temperature", display_f32 t)] | None => [] end ++
  (if word_timestamps opts
   then [("timestamp_granularities[]", "word"); ("timestamp_granularities[]", "segment")] else []).
Definition stt_auth_headers (r : OpenAiSttRunner) : InferenceResult (list (string * string)) :=
  auth_headers header_value (ost_session r) (ost_organization (ost_config r)) (ost_project (ost_config r)).
Definition execute_audio (now : Z) (r : OpenAiSttRunner) (batch : AudioBatch Url Receiver) :
  InferenceResult (RunHandle TranscriptChunk) :=
  match ab_options batch with
  | AO_Audio2Face _ => Err (openai_stt_error_into
      (OSE_BadRequest "openai-stt: AudioOptions::Audio2Face is not supported"))
  | AO_Transcribe opts =>
      match ab_input batch with
      | AI_Stream _ _ => Err (openai_stt_error_into
          (OSE_Unsupported "execute_audio: streaming inputs require the realtime endpoint"))
      | AI_Static payload =>
          let? pf := materialize_payload payload in
          let want_verbose := word_timestamps opts || interim_results opts in
          let form := {| fm_fields := transcription_fields (ab_model batch) opts want_verbose;
                         fm_file := fst pf; fm_file_name := snd pf |} in
          let? headers := stt_auth_headers r in
          let? resp := map_err NetworkError (post (ost_url r) headers form) in
          if ar_success resp then
            if want_verbose then
              let? parsed := map_err (λ e, Internal ("openai-stt verbose decode: " +:+ e)) (decode_verbose resp) in
              Ok (streaming (verbose_to_chunks (ab_request_id batch) parsed))
            else
              let? parsed := map_err (λ e, Internal ("openai-stt plain decode: " +:+ e)) (decode_plain resp) in
              Ok (streaming [Ok (plain_chunk (ab_request_id batch) parsed)])
          else Err (classify_openai_error parse_envelope parse_rfc2822 now (ar_status resp)
                      (ar_retry_after resp) (ar_text resp))
      end
  end.
Definition openai_stt_base : RunnerBase OpenAiSttRunner := {|
  runner_kind _ := RK_SpeechToText;
  runner_transport _ := TK_RemoteNetwork PK_OpenAi;
  rebuild_session r _ := (r, Ok ());
  rate_limits r := Some (ost_rate_limits (ost_config r))
|}.
#[local] Existing Instance openai_stt_base.
Definition openai_stt_runner (now : Z) : AudioRunner Url Receiver OpenAiSttRunner :=
  λ r batch, (r, execute_audio now r batch).
End openai_stt.
Arguments OpenAiSttConfig Url : clear implicits.
Arguments OpenAiSttRunner Url : clear implicits.

(** ** Chunks of a verbose answer *)

Lemma fold_opt_typed (op : Z → Z → Z) (l : list Z) x :
  (∀ a b, is_u 32 a → is_u 32 b → is_u 32 (op a b)) →
  is_u 32 x → Forall (is_u 32) l → is_u 32 (foldl op x l).
Proof.
  intros Hop. revert x. induction l as [|y l IH]; intros x Hx Hl; [done|]. apply Forall_cons in Hl as [Hy Hl].
  cbn. auto.
Qed.
Lemma verbose_words_typed ws : Forall word_typed (verbose_word <$> ws).
Proof. apply Forall_fmap, Forall_true. intros w. split; cbn; auto with rust. Qed.
Lemma whole_chunk_typed rid parsed c :
  vr_segments parsed = [] → verbose_to_chunks rid parsed = [Ok c] → transcript_typed rid c.
Proof.
  intros Hs Hc. unfold verbose_to_chunks in Hc. rewrite Hs in Hc. simplify_eq.
  pose proof (verbose_words_typed (vr_words parsed)) as Hw. rewrite Forall_forall in Hw.
  split_and!; cbn; [done| | |by apply Forall_forall]; destruct (vr_words parsed) as [|w ws]; [done| |done|].
  all: cbn; apply fold_opt_typed; [unfold is_u; lia|auto with rust|].
  all: rewrite <-!list_fmap_compose; apply Forall_fmap, Forall_true; intros v; cbn; auto with rust.
Qed.

(** A verbose transcription becomes one chunk per segment, in order (one chunk with the
    whole text and every word when there is no segment): each carries the request id and
    its segment's text and times as 32-bit milliseconds, exactly the last one is final,
    and a word is on a chunk exactly when its whole range lies within the segment's. *)
Theorem verbose_chunks_spec (request_id : string) (parsed : VerboseResponse) :
  let segs := vr_segments parsed in
  let chunks := verbose_to_chunks request_id parsed in
  length chunks = Nat.max 1 (length segs) ∧
  Forall (λ i, ∃ c, i = Ok c ∧ transcript_typed request_id c) chunks ∧
  (segs = [] → ∃ c, chunks = [Ok c] ∧ tc_is_final c = true ∧ tc_text c = vr_text parsed ∧
    tc_words c = verbose_word <$> vr_words parsed) ∧
  (∀ i seg, segs !! i = Some seg → ∃ c, chunks !! i = Some (Ok c) ∧
    tc_text c = sg_text seg ∧ (tc_is_final c = true ↔ S i = length segs) ∧
    tc_start_ms c = seconds_to_ms (sg_start seg) ∧ tc_end_ms c = seconds_to_ms (sg_end seg) ∧
    ∀ w, w ∈ tc_words c ↔ w ∈ verbose_word <$> vr_words parsed ∧
      tc_start_ms c ≤ wt_start_ms w ∧ wt_end_ms w ≤ tc_end_ms c).
Proof.
  cbv zeta. destruct (vr_segments parsed) as [|s0 segs'] eqn:Es.
  - assert (∃ c, verbose_to_chunks request_id parsed = [Ok c]) as [c Hc]
      by (unfold verbose_to_chunks; rewrite Es; eauto).
    rewrite Hc. split_and!; [done| | |by intros].
    + apply Forall_singleton. exists c. split; [done|]. by eapply whole_chunk_typed.
    + intros _. exists c. unfold verbose_to_chunks in Hc. rewrite Es in Hc. by simplify_eq.
  - set (mk := segment_chunk request_id (verbose_word <$> vr_words parsed) (length (s0 :: segs') - 1)).
    assert (verbose_to_chunks request_id parsed = Ok <$> imap mk (s0 :: segs')) as ->
      by (unfold verbose_to_chunks; by rewrite Es).
    split_and!; [rewrite length_fmap, length_imap; cbn [length]; lia| |done|].
    + apply Forall_fmap, Forall_forall. intros c (i & seg & -> & _)%elem_of_lookup_imap_1.
      exists (mk i seg). split; [done|]. split_and!; cbn; auto with rust.
      pose proof (verbose_words_typed (vr_words parsed)) as Hw. rewrite Forall_forall in Hw |- *.
      intros w [_ Hin]%list_elem_of_filter. by apply Hw.
    + intros i seg Hi. exists (mk i seg). rewrite list_lookup_fmap, list_lookup_imap, Hi.
      split_and!; [done..| |done|done|].
      * cbn. rewrite Nat.eqb_eq. cbn [length]. lia.
      * intros w. cbn. rewrite list_elem_of_filter. unfold word_in_range.
        rewrite andb_true_iff, !Z.leb_le. tauto.
Qed.
(** A word that crosses every segment's boundary is on no chunk. *)
Lemma straddling_word_dropped rid parsed w :
  Forall (λ s, word_in_range (seconds_to_ms (sg_start s)) (seconds_to_ms (sg_end s)) w = false) (vr_segments parsed) →
  vr_segments parsed ≠ [] →
  ∀ c, Ok c ∈ verbose_to_chunks rid parsed → w ∉ tc_words c.
Proof.
  intros Hf Hn c Hc Hw. unfold verbose_to_chunks in Hc. destruct (vr_segments parsed) as [|s segs]; [done|].
  apply list_elem_of_fmap in Hc as (c' & E & (i & seg & -> & Hi)%elem_of_lookup_imap_1). simplify_eq.
  apply list_elem_of_filter in Hw as [Hr _]. rewrite Forall_forall in Hf.
  apply list_elem_of_lookup_2, Hf in Hi. congruence.
Qed.
