(* ===== verification/Gemini.v ===== *)
(** * Gemini runtime

    Models [inference-runtime-gemini/src]: [wire.rs] (request construction, response
    types), [config.rs] (endpoint choice), [error.rs], [cost.rs] and [runner.rs]
    (authentication, chunk lifting, [execute]).  The decoders of the response types are
    serde derivations, and sending the request is the HTTP client's: parameters. *)
From Stdlib Require Import SpecFloat.
From S2P Require Import Prelude F64 Runtime Tokens Deployment Audio Runner Classify Http OpenAi Anthropic AudioProvider.

(** ** Wire types (wire.rs) *)

Record SafetySetting : Type := { category : string; threshold : string }.
Record InlineData : Type := { id_mime_type : string; id_data : string }.
Record FileData : Type := { fd_mime_type : string; fd_file_uri : string }.
Inductive Part : Type :=
  | Pt_Text (text : string) | Pt_InlineData (d : InlineData) | Pt_FileData (d : FileData).
Record Content : Type := { gc_role : string; gc_parts : list Part }.
Record GenerationConfig : Type := {
  gg_temperature : option f32; gg_top_p : option f32; gg_top_k : option Z;
  gg_max_output_tokens : option Z; gg_stop_sequences : list string
}.
Record GenerateContentRequest : Type := {
  gq_contents : list Content; gq_system_instruction : option Content;
  gq_generation_config : option GenerationConfig; gq_safety_settings : list SafetySetting
}.

Definition gemini_part (p : ContentPart) : Part :=
  match p with
  | CP_Text t => Pt_Text t
  | CP_ImageBase64 mime data => Pt_InlineData {| id_mime_type := mime; id_data := data |}
  | CP_ImageUrl url => Pt_FileData {| fd_mime_type := "image/jpeg"; fd_file_uri := url |}
  end.
Definition gemini_parts (c : MessageContent) : list Part :=
  match c with MC_Text t => [Pt_Text t] | MC_Parts parts => gemini_part <$> parts end.
(** The body of [from_batch]'s loop: the system text and the contents so far. *)
Definition gemini_batch_step (acc : option string * list Content) (m : Message) :
  option string * list Content :=
  let '(system, contents) := acc in
  match role m with
  | Role_System =>
      match content m with
      | MC_Text t =>
          (Some (match system with Some s => s +:+ newline +:+ t | None => t end), contents)
      | MC_Parts _ => (system, contents)
      end
  | Role_User | Role_Tool =>
      (system, contents ++ [{| gc_role := "user"; gc_parts := gemini_parts (content m) |}])
  | Role_Assistant =>
      (system, contents ++ [{| gc_role := "model"; gc_parts := gemini_parts (content m) |}])
  end.
Definition gemini_from_batch (b : ExecuteBatch) (safety : list SafetySetting) : GenerateContentRequest :=
  let '(system, contents) := foldl gemini_batch_step (None, []) (messages b) in {|
    gq_contents := contents;
    gq_system_instruction := (λ t, {| gc_role := "system"; gc_parts := [Pt_Text t] |}) <$> system;
    gq_generation_config := Some {|
      gg_temperature := temperature (sampling b); gg_top_p := top_p (sampling b);
      gg_top_k := top_k (sampling b); gg_max_output_tokens := max_tokens (sampling b);
      gg_stop_sequences := stop (sampling b) |};
    gq_safety_settings := safety
  |}.

Record ResponsePart : Type := { rp_text : option string }.
Record GResponseContent : Type := { rc_parts : list ResponsePart }.
Record Candidate : Type := { cn_content : option GResponseContent; cn_finish_reason : option string }.
Record UsageMetadata : Type := {
  prompt_token_count : Z; candidates_token_count : Z; cached_content_token_count : Z
}.
Record GenerateContentResponse : Type := {
  gr_candidates : list Candidate; gr_usage_metadata : option UsageMetadata
}.

(** ** Configuration (config.rs) *)

Inductive GeminiSecretRef : Type :=
  | GS_Env (name : string) | GS_File (path : string) | GS_Inline (value : string) | GS_Adc.
Section gemini.
Context {Json Url : Type} `{!UrlOps Url}.
Inductive GeminiVariant : Type :=
  | GV_AiStudio (endpoint : Url) | GV_Vertex (project region : string).
Record GeminiConfig : Type := {
  gm_variant : GeminiVariant;
  gm_credential : GeminiSecretRef;
  gm_safety : list SafetySetting;
  gm_rate_limits : RateLimits;
  gm_retry : RetryPolicy;
  gm_circuit_breaker : CircuitBreakerConfig;
  gm_timeouts : Timeouts
}.
(** [None]: the static URL did not parse, a panic. *)
Definition default_aistudio_endpoint : option Url :=
  result_ok (url_parse "https://generativelanguage.googleapis.com/v1beta/").
Definition generate_content_url (c : GeminiConfig) (model : string) (stream : bool) : result string Url :=
  let suffix := if stream then ":streamGenerateContent?alt=sse" else ":generateContent" in
  match gm_variant c with
  | GV_AiStudio endpoint => url_join endpoint ("models/" +:+ model +:+ suffix)
  | GV_Vertex project region =>
      url_parse ("https://" +:+ region +:+ "-aiplatform.googleapis.com/v1/projects/" +:+ project +:+
        "/locations/" +:+ region +:+ "/publishers/google/models/" +:+ model +:+ suffix)
  end.

(** ** Errors (error.rs) *)

Record GErrorBody : Type := { ge_message : string; ge_status : string }.
(** The envelope's inner error, if the body decodes. *)
Variable parse_error_envelope : string → option GErrorBody.
Variable parse_rfc2822 : string → option Z.
Variable to_lowercase : string → string.
Definition classify_gemini_error (now : Z) (status : Z) (retry_after_header body : option string) :
  InferenceError :=
  let retry_after := parse_retry_after parse_rfc2822 now retry_after_header in
  let generic := classify_http_status PK_Gemini status retry_after body in
  match body ≫= parse_error_envelope with
  | Some env =>
      if decide (ge_status env = "RESOURCE_EXHAUSTED") then RateLimited PK_Gemini retry_after
      else if contains "safety" (to_lowercase (ge_message env)) ||
              contains "blocked" (to_lowercase (ge_message env))
      then ContentFiltered (ge_message env)
      else generic
  | None => generic
  end.

(** ** Lifting (runner.rs) *)

Definition map_finish (s : string) : FinishReason :=
  if decide (s = "STOP") then Fin_Stop
  else if decide (s = "MAX_TOKENS") then Fin_Length
  else if decide (s = "SAFETY") then Fin_ContentFilter
  else Fin_Stop.
Definition candidate_text (c : Candidate) : string :=
  match cn_content c with
  | Some content => foldl (λ t p, match rp_text p with Some s => t +:+ s | None => t end) "" (rc_parts content)
  | None => ""
  end.
(** The loop over the candidates, which the stream and the unary path share: the text
    appended part by part, the last reason kept. *)
Definition candidate_step (acc : string * option FinishReason) (c : Candidate) :
  string * option FinishReason :=
  let '(text, fin) := acc in
  let text := match cn_content c with
              | Some content =>
                  foldl (λ t p, match rp_text p with Some s => t +:+ s | None => t end) text (rc_parts content)
              | None => text
              end in
  (text, match cn_finish_reason c with Some s => Some (map_finish s) | None => fin end).
Definition collect_candidates (cs : list Candidate) : string * option FinishReason :=
  foldl candidate_step ("", None) cs.
Definition gemini_usage (u : UsageMetadata) : TokenUsage := {|
  input_tokens := prompt_token_count u; output_tokens := candidates_token_count u;
  reasoning_tokens := 0; cached_tokens := cached_content_token_count u
|}.
(** [serde_json::from_str] and [resp.json()] at [GenerateContentResponse]. *)
Variable parse_generate : string → result string GenerateContentResponse.
Variable parse_generate_response : HttpResponse → result string GenerateContentResponse.

Definition response_chunk (id : string) (parsed : GenerateContentResponse) : TokenChunk Json :=
  let '(text, fin) := collect_candidates (gr_candidates parsed) in {|
    c_request_id := id; text_delta := text; tool_call_delta := None;
    usage := gemini_usage <$> gr_usage_metadata parsed; finish_reason := fin
  |}.
Definition gemini_lift_chunk (id : string) (sc : SseChunk) : option (InferenceResult (TokenChunk Json)) :=
  if is_empty_str (sse_data sc) then None
  else
    match parse_generate (sse_data sc) with
    | Err e => Some (Err (Internal ("gemini chunk decode: " +:+ e)))
    | Ok parsed => Some (Ok (response_chunk id parsed))
    end.
Definition gemini_unary_chunk (id : string) (parsed : GenerateContentResponse) : TokenChunk Json :=
  let '(text, fin) := collect_candidates (gr_candidates parsed) in {|
    c_request_id := id; text_delta := text; tool_call_delta := None;
    usage := gemini_usage <$> gr_usage_metadata parsed;
    finish_reason := match fin with Some f => Some f | None => Some Fin_Stop end
  |}.

(** ** [execute] *)

(** The configuration and the credential of the shared snapshot. *)
Record GeminiRunner : Type := { gm_config : GeminiConfig; gm_session : string }.
Definition gemini_new (config : GeminiConfig) (session : string) : GeminiRunner :=
  {| gm_config := config; gm_session := session |}.
(** A request being built: the client keeps its own copy of the URL. *)
Record GeminiRequest : Type := {
  rq_url : Url; rq_headers : list (string * string); rq_body : GenerateContentRequest
}.
Variable header_value : string → result string unit.
Variable send : GeminiRequest → HttpAnswer.

(** The builder and the caller's [url], which is updated in place. *)
Definition auth_apply (r : GeminiRunner) (builder : GeminiRequest) (url : Url) :
  InferenceResult (GeminiRequest * Url) :=
  match gm_variant (gm_config r) with
  | GV_AiStudio _ => Ok (builder, append_pair url ("key", gm_session r))
  | GV_Vertex _ _ =>
      let value := "Bearer " +:+ gm_session r in
      match header_value value with
      | Ok _ => Ok ({| rq_url := rq_url builder; rq_headers := rq_headers builder ++ [("authorization", value)];
                       rq_body := rq_body builder |}, url)
      | Err e => Err (Internal ("invalid bearer token: " +:+ e))
      end
  end.
(** What [execute] sends. *)
Definition gemini_request (r : GeminiRunner) (batch : ExecuteBatch) : InferenceResult GeminiRequest :=
  let? url := map_err (λ e, Internal ("gemini url: " +:+ e))
    (generate_content_url (gm_config r) (model batch) (stream batch)) in
  let body := gemini_from_batch batch (gm_safety (gm_config r)) in
  let request := {| rq_url := url; rq_headers := []; rq_body := body |} in
  let? ru := auth_apply r request url in
  Ok (fst ru).
Definition gemini_execute (now : Z) (r : GeminiRunner) (batch : ExecuteBatch) :
  InferenceResult (RunHandle (TokenChunk Json)) :=
  let? request := gemini_request r batch in
  match send request with
  | Err m => Err (NetworkError m)
  | Ok resp =>
      if is_success resp then
        if stream batch then
          Ok (streaming (lift_stream (gemini_lift_chunk (request_id batch)) (decode_sse_stream (resp_events resp))))
        else
          let? parsed := map_err (λ e, Internal ("gemini decode: " +:+ e)) (parse_generate_response resp) in
          Ok (streaming [Ok (gemini_unary_chunk (request_id batch) parsed)])
      else Err (classify_gemini_error now (resp_status resp) (resp_retry_after resp) (resp_text resp))
  end.
Definition gemini_base : RunnerBase GeminiRunner := {|
  runner_kind _ := RK_Gemini;
  runner_transport _ := TK_RemoteNetwork PK_Gemini;
  rebuild_session r _ := (r, Ok ());
  rate_limits r := Some (gm_rate_limits (gm_config r))
|}.

(** ** The API key of AI Studio *)

(** The AI Studio key never leaves the process: the request is built from a copy of the
    URL before the key is appended to the original, so what is sent, and the outcome, are
    the same for every credential and carry no authentication, whereas a Vertex request
    carries the bearer token. *)
Theorem gemini_ai_studio_unauthenticated (now : Z) (config : GeminiConfig) (batch : ExecuteBatch) :
  match gm_variant config with
  | GV_AiStudio _ =>
      ∀ key key',
        gemini_execute now (gemini_new config key) batch = gemini_execute now (gemini_new config key') batch ∧
        ∀ q, gemini_request (gemini_new config key) batch = Ok q →
          rq_headers q = [] ∧ generate_content_url config (model batch) (stream batch) = Ok (rq_url q)
  | GV_Vertex _ _ =>
      ∀ token q, gemini_request (gemini_new config token) batch = Ok q →
        rq_headers q = [("authorization", "Bearer " +:+ token)]
  end.
Proof.
  destruct (gm_variant config) as [endpoint|project region] eqn:Ev.
  - intros key key'.
    assert (∀ k, gemini_request (gemini_new config k) batch =
      let? url := map_err (λ e, Internal ("gemini url: " +:+ e))
        (generate_content_url config (model batch) (stream batch)) in
      Ok {| rq_url := url; rq_headers := []; rq_body := gemini_from_batch batch (gm_safety config) |}) as Hq.
    { intros k. unfold gemini_request, auth_apply. cbn [gm_config gemini_new]. rewrite Ev.
      by destruct (generate_content_url _ _ _). }
    split; [unfold gemini_execute; by rewrite !Hq|].
    intros q. rewrite Hq. destruct (generate_content_url _ _ _); cbn; intros; by simplify_eq.
  - intros token q. unfold gemini_request, auth_apply. cbn [gm_config gm_session gemini_new]. rewrite Ev.
    destruct (generate_content_url _ _ _); cbn; [|done].
    destruct (header_value _); cbn; intros; by simplify_eq.
Qed.

(** ** Streaming and unary answers *)

Definition candidates_text (cs : list Candidate) : string := foldr (λ c s, candidate_text c +:+ s) "" cs.
Definition last_finish (cs : list Candidate) : option FinishReason :=
  last (omap (λ c, map_finish <$> cn_finish_reason c) cs).
Lemma parts_text_acc t (ps : list ResponsePart) :
  foldl (λ t p, match rp_text p with Some s => t +:+ s | None => t end) t ps =
  t +:+ foldl (λ t p, match rp_text p with Some s => t +:+ s | None => t end) "" ps.
Proof.
  revert t. induction ps as [|p ps IH]; intros t; cbn; [by rewrite string_app_nil_r|].
  rewrite IH, (IH (match rp_text p with Some s => _ | None => "" end)).
  destruct (rp_text p); cbn; [by rewrite string_app_assoc|done].
Qed.
Lemma candidate_fold text fin cs :
  foldl candidate_step (text, fin) cs =
  (text +:+ candidates_text cs, match last_finish cs with Some f => Some f | None => fin end).
Proof.
  unfold last_finish. revert text fin. induction cs as [|c cs IH]; intros text fin; cbn [foldl candidates_text foldr].
  { by rewrite string_app_nil_r. }
  cbn [candidate_step]. rewrite IH. f_equal.
  - unfold candidate_text. destruct (cn_content c) as [co|]; [|done].
    by rewrite (parts_text_acc text), string_app_assoc.
  - cbn [omap list_omap]. destruct (cn_finish_reason c); cbn [fmap option_fmap option_map]; [|done].
    rewrite last_cons. by destruct (last _).
Qed.
Lemma collect_candidates_spec cs : collect_candidates cs = (candidates_text cs, last_finish cs).
Proof. unfold collect_candidates. rewrite candidate_fold. by destruct (last_finish cs). Qed.
Lemma response_chunk_fields id p :
  text_delta (response_chunk id p) = candidates_text (gr_candidates p) ∧
  finish_reason (response_chunk id p) = last_finish (gr_candidates p).
Proof. unfold response_chunk. by rewrite collect_candidates_spec. Qed.
Lemma candidates_text_app l1 l2 : candidates_text (l1 ++ l2) = candidates_text l1 +:+ candidates_text l2.
Proof.
  induction l1 as [|c l1 IH]; [done|]. change (candidates_text ((c :: l1) ++ l2)) with
    (candidate_text c +:+ candidates_text (l1 ++ l2)). by rewrite IH, <-string_app_assoc.
Qed.
Lemma last_finish_app l1 l2 :
  last_finish (l1 ++ l2) = match last_finish l2 with Some f => Some f | None => last_finish l1 end.
Proof. unfold last_finish. rewrite omap_app. apply last_app. Qed.
Lemma lift_events id (ds : list string) ps :
  Forall2 (λ d p, d ≠ "" ∧ parse_generate d = Ok p) ds ps →
  lift_stream (gemini_lift_chunk id) (decode_sse_stream (data_event <$> ds)) = Ok <$> (response_chunk id <$> ps).
Proof.
  induction 1 as [|d p ds ps [Hd Hp] _ IH]; [done|].
  rewrite !fmap_cons. etrans; [apply (lift_stream_event (gemini_lift_chunk id) d)|].
  unfold gemini_lift_chunk at 1. cbn [sse_data]. destruct (is_empty_str d) eqn:E; [by destruct d|].
  by rewrite Hp, IH.
Qed.

(** Gemini's streamed and unary answers agree: whatever sequence of decodable responses a
    stream delivers, the client accumulates the same text, and the same finish reason,
    as from the one unary response that has all their candidates in order. *)
Theorem gemini_stream_matches_unary (now : Z) (config : GeminiConfig) (key : string) (b : ExecuteBatch)
    (resp : HttpResponse) (ds : list string) (ps : list GenerateContentResponse) (q : GeminiRequest) :
  stream b = true → gemini_request (gemini_new config key) b = Ok q → send q = Ok resp →
  is_success resp = true → resp_events resp = data_event <$> ds →
  Forall2 (λ d p, d ≠ "" ∧ parse_generate d = Ok p) ds ps →
  ∃ h, gemini_execute now (gemini_new config key) b = Ok h ∧
    Forall (λ i, is_ok i = true) (into_stream h) ∧
    let t := foldl tokens_append Tokens_default (omap result_ok (into_stream h)) in
    let unary := gemini_unary_chunk (request_id b)
      {| gr_candidates := concat (gr_candidates <$> ps); gr_usage_metadata := None |} in
    t_text t = text_delta unary ∧ finish_reason unary = Some (default Fin_Stop (t_finish_reason t)).
Proof.
  intros Hst Hq Hsend Hok Hev Hds. unfold gemini_execute. rewrite Hq, Hsend, Hok, Hst. eexists.
  split; [reflexivity|]. cbn [into_stream streaming rh_inner]. rewrite Hev, (lift_events _ _ _ Hds).
  split; [apply Forall_fmap, Forall_true; done|]. cbv zeta. rewrite omap_result_ok.
  change (foldl tokens_append Tokens_default (response_chunk (request_id b) <$> ps)) with
    (tokens_of Tokens_default (response_chunk (request_id b) <$> ps)).
  rewrite tokens_of_text, tokens_of_finish. unfold gemini_unary_chunk. cbn [gr_candidates t_text t_finish_reason Tokens_default].
  rewrite collect_candidates_spec. cbn [text_delta finish_reason].
  assert (concat_text (response_chunk (request_id b) <$> ps) = candidates_text (concat (gr_candidates <$> ps)) ∧
    last (omap finish_reason (response_chunk (request_id b) <$> ps)) = last_finish (concat (gr_candidates <$> ps))) as [-> ->].
  { clear. induction ps as [|p ps [IH1 IH2]]; [done|]. rewrite !fmap_cons. cbn [concat].
    rewrite candidates_text_app, last_finish_app, <-IH1, <-IH2.
    destruct (response_chunk_fields (request_id b) p) as [Et Ef]. cbn [concat_text foldr omap list_omap].
    rewrite Et, Ef. split; [done|].
    destruct (last_finish (gr_candidates p)); [|by destruct (last _)].
    rewrite last_cons. by destruct (last _). }
  split; [done|]. by destruct (last_finish _).
Qed.
End gemini.
Arguments GeminiVariant Url : clear implicits.
Arguments GeminiConfig Url : clear implicits.
Arguments GeminiRunner Url : clear implicits.

(** ** Prices (cost.rs) *)

Definition gemini_price (i o : Z) : ModelPrice :=
  {| input_per_mtok_usd := f64_lit i 1000; output_per_mtok_usd := f64_lit o 1000 |}.
Definition gemini_PRICING : list (string * ModelPrice) := [
  ("gemini-2.0-pro", gemini_price 1250 5000); ("gemini-1.5-pro", gemini_price 1250 5000);
  ("gemini-1.5-flash", gemini_price 75 300); ("gemini-2.0-flash", gemini_price 75 300)].
Definition gemini_estimate_cost_usd : ExecuteBatch → f64 := estimate_with gemini_PRICING.

(** ** Witnesses *)

Definition demo_gemini (v : GeminiVariant DemoUrl) : GeminiConfig DemoUrl := {|
  gm_variant := v; gm_credential := GS_Adc; gm_safety := []; gm_rate_limits := RateLimits_default;
  gm_retry := RetryPolicy_default; gm_circuit_breaker := CircuitBreakerConfig_default;
  gm_timeouts := Timeouts_default
|}.
Definition demo_studio : GeminiConfig DemoUrl := demo_gemini (GV_AiStudio ("https://g/", [])).
Definition demo_batch (s : bool) : ExecuteBatch := {|
  request_id := "r"; model := "m"; messages := []; sampling := SamplingParams_default; stream := s;
  estimated_tokens_field := 1
|}.
Definition demo_response (s : string) (fin : option string) : GenerateContentResponse := {|
  gr_candidates := [{| cn_content := Some {| rc_parts := [{| rp_text := Some s |}] |}; cn_finish_reason := fin |}];
  gr_usage_metadata := None
|}.
Definition demo_generate (d : string) : result string GenerateContentResponse :=
  Ok (demo_response d (if decide (d = "lo") then Some "MAX_TOKENS" else None)).
Definition demo_http (evs : list SseIn) : HttpResponse :=
  {| resp_status := 200; resp_retry_after := None; resp_text := None; resp_events := evs |}.
Definition demo_send (_ : GeminiRequest (Url := DemoUrl)) : HttpAnswer :=
  Ok (demo_http [data_event "Hel"; data_event "lo"]).
Definition demo_exec := gemini_execute (Json := DemoJson) (λ _, None) (λ _, None) id demo_generate
  (λ _, Err "") (λ _, Ok ()) demo_send.

Lemma gemini_ai_studio_unauthenticated_witness :
  demo_exec 0 (gemini_new demo_studio "secret") (demo_batch true) =
  demo_exec 0 (gemini_new demo_studio "other") (demo_batch true) ∧
  ∃ q, gemini_request (λ _, Ok ()) (gemini_new demo_studio "secret") (demo_batch true) = Ok q ∧
    rq_headers q = [] ∧ snd (rq_url q) = [].
Proof.
  destruct (gemini_ai_studio_unauthenticated (Json := DemoJson) (λ _, None) (λ _, None) id demo_generate
    (λ _, Err "") (λ _, Ok ()) demo_send 0 demo_studio (demo_batch true) "secret" "other") as [He Hq].
  split; [exact He|]. eexists. split; [reflexivity|]. split; [exact (proj1 (Hq _ eq_refl))|reflexivity].
Defined.
Lemma gemini_stream_matches_unary_witness :
  ∃ h, demo_exec 0 (gemini_new demo_studio "k") (demo_batch true) = Ok h ∧
    t_text (foldl tokens_append Tokens_default (omap result_ok (into_stream h))) = "Hello".
Proof.
  assert (∃ q, gemini_request (λ _, Ok ()) (gemini_new demo_studio "k") (demo_batch true) = Ok q) as [q Hq]
    by (eexists; reflexivity).
  destruct (gemini_stream_matches_unary (Json := DemoJson) (λ _, None) (λ _, None) id demo_generate
    (λ _, Err "") (λ _, Ok ()) demo_send 0 demo_studio "k" (demo_batch true)
    (demo_http [data_event "Hel"; data_event "lo"]) ["Hel"; "lo"]
    [demo_response "Hel" None; demo_response "lo" (Some "MAX_TOKENS")] q
    eq_refl Hq eq_refl eq_refl eq_refl ltac:(by repeat constructor))
    as (h & Hh & _ & Ht & _).
  exists h. split; [exact Hh|]. rewrite Ht. reflexivity.
Defined.
