(* ===== verification/LiteLlm.v ===== *)
(** * LiteLLM runtime

    Models [inference-runtime-litellm/src/lib.rs]: a configuration translated to an
    OpenAI one, and a runner that delegates to the OpenAI runner under its own kind. *)
From S2P Require Import Prelude F64 Runtime Tokens Deployment Audio Runner Http OpenAi.

Section litellm.
Context {Url ParseError : Type}.

Inductive LiteLlmSecretRef : Type :=
  | LS_Env (name : string) | LS_File (path : string) | LS_Inline (value : string).
Record LiteLlmConfig : Type := {
  ll_endpoint : Url;
  ll_api_key : LiteLlmSecretRef;
  ll_rate_limits : RateLimits;
  ll_retry : RetryPolicy;
  ll_circuit_breaker : CircuitBreakerConfig;
  ll_timeouts : Timeouts
}.
Definition default_retry : RetryPolicy := {|
  max_retries := 1;
  initial_backoff := initial_backoff RetryPolicy_default;
  max_backoff := max_backoff RetryPolicy_default;
  backoff_multiplier := backoff_multiplier RetryPolicy_default;
  jitter := jitter RetryPolicy_default;
  respect_retry_after := respect_retry_after RetryPolicy_default
|}.
Definition into_openai (c : LiteLlmConfig) (openai_secret : SecretRef) : OpenAiConfig (Url := Url) := {|
  oc_variant := OV_Direct (ll_endpoint c);
  oc_api_key := openai_secret;
  oc_organization := None;
  oc_project := None;
  oc_rate_limits := ll_rate_limits c;
  oc_retry := ll_retry c;
  oc_circuit_breaker := ll_circuit_breaker c;
  oc_timeouts := ll_timeouts c
|}.

Variables (url_join : Url → string → result ParseError Url) (url_parse : string → result ParseError Url).
Variable display_error : ParseError → string.
Record LiteLlmRunner : Type := { ll_inner : OpenAiRunner (Url := Url) }.
Definition litellm_new (config : OpenAiConfig (Url := Url)) (session : string) : InferenceResult LiteLlmRunner :=
  let? inner := openai_new url_join url_parse display_error config session in
  Ok {| ll_inner := inner |}.

(** [RunnerBase] of the wrapper, and the [ModelRunner] it gets from one of the inner. *)
Definition litellm_base : RunnerBase LiteLlmRunner :=
  let _ := openai_base (Url := Url) in {|
    runner_kind _ := RK_LiteLlm;
    runner_transport _ := TK_RemoteNetwork PK_LiteLlm;
    rebuild_session r cause :=
      let '(inner, res) := rebuild_session (ll_inner r) cause in ({| ll_inner := inner |}, res);
    rate_limits r := rate_limits (ll_inner r)
  |}.
#[local] Existing Instances openai_base litellm_base.
Definition litellm_runner {Json Ctx : Type} (inner : ModelRunner Json (OpenAiRunner (Url := Url)) Ctx) :
  ModelRunner Json LiteLlmRunner Ctx := {|
    execute r batch :=
      let '(i, res) := execute (ll_inner r) batch in ({| ll_inner := i |}, res);
    load_weights := load_weights_default;
    estimate_cost_usd r batch := estimate_cost_usd (ll_inner r) batch
  |}.

(** A runner built from a LiteLLM configuration posts to the proxy's chat endpoint and
    reports the proxy's limits, under the LiteLLM kind and transport. *)
Lemma litellm_targets_proxy c secret session r :
  litellm_new (into_openai c secret) session = Ok r →
  url_join (ll_endpoint c) "chat/completions" = Ok (or_chat_url (ll_inner r)) ∧
  or_session (ll_inner r) = session ∧ rate_limits r = Some (ll_rate_limits c) ∧
  runner_transport r = transport_of_runtime (runner_kind r).
Proof.
  unfold litellm_new, openai_new. cbn. destruct (url_join _ _) as [u|e]; cbn; intros; by simplify_eq.
Qed.
End litellm.
