(* ===== verification/OpenAiRealtime.v ===== *)
(** * OpenAI Realtime runtime

    Models [inference-runtime-openai-realtime/src]: [wire.rs], [config.rs], [error.rs],
    [cost.rs] and [runner.rs] ([open_session], the adapter task, the two translations).
    The adapter runs a [select!] over the caller's channel and the socket, so a run is a
    sequence of the branches taken, or of a cancellation.  The JSON text of a message,
    the decoding of an event, the base64 crate, environment variables and the WebSocket
    connection are parameters; a connection is the frames it will deliver and whether it
    then stays open and silent. *)
From Stdlib Require Import SpecFloat.
From S2P Require Import Prelude F64 Runtime Deployment Audio Runner AudioProvider WsCore Http.

(** ** Wire types (wire.rs) *)

Record InputAudioTranscription : Type := { it_model : string }.
Definition InputAudioTranscription_default : InputAudioTranscription := {| it_model := "whisper-1" |}.
Record SessionConfig : Type := {
  sn_voice : string; sn_modalities : list string; sn_input_audio_format : string;
  sn_output_audio_format : string; sn_input_audio_transcription : InputAudioTranscription
}.
Record ContentItem : Type := { ci_type : string; ci_text : string }.
Record ConversationItem : Type := { cv_type : string; cv_role : string; cv_content : list ContentItem }.
(** The six messages, each a struct with its constant [type] field. *)
Inductive ClientMessage : Type :=
  | CM_SessionUpdate (session : SessionConfig)
  | CM_InputAudioAppend (audio : string)
  | CM_InputAudioCommit
  | CM_ResponseCancel
  | CM_ConversationItemCreate (item : ConversationItem)
  | CM_ResponseCreate.
Definition message_type (m : ClientMessage) : string :=
  match m with
  | CM_SessionUpdate _ => "session.update"
  | CM_InputAudioAppend _ => "input_audio_buffer.append"
  | CM_InputAudioCommit => "input_audio_buffer.commit"
  | CM_ResponseCancel => "response.cancel"
  | CM_ConversationItemCreate _ => "conversation.item.create"
  | CM_ResponseCreate => "response.create"
  end.
Definition user_text (text : string) : ClientMessage :=
  CM_ConversationItemCreate {|
    cv_type := "message"; cv_role := "user"; cv_content := [{| ci_type := "input_text"; ci_text := text |}]
  |}.

(** The inbound payloads; [ErrorBody::kind] is not read. *)
Inductive InboundEvent : Type :=
  | EV_ResponseAudioDelta (delta : string)
  | EV_ResponseAudioTranscriptDelta (delta : string)
  | EV_ResponseAudioTranscriptDone (transcript : string)
  | EV_InputAudioTranscriptionCompleted (transcript : string)
  | EV_ResponseDone
  | EV_Error (message : string)
  | EV_Other.

(** ** Errors (error.rs) *)

Definition classify_realtime_error (error_body : option string) : InferenceError :=
  ServerError 500 error_body.
Definition classify_ws_close (code : Z) (reason : option string) : InferenceError :=
  if code =? 4001 then Unauthorized (default "unauthorized" reason)
  else if code =? 4003 then Forbidden (default "forbidden" reason)
  else if code =? 4004 then BadRequest (default "bad request" reason)
  else if code =? 4029 then RateLimited PK_OpenAi None
  else ServerError code reason.

(** ** Prices (cost.rs) *)

Record RealtimeModelPrice : Type := {
  input_text_per_mtok_usd : f64; output_text_per_mtok_usd : f64;
  input_audio_per_mtok_usd : f64; output_audio_per_mtok_usd : f64
}.
Definition realtime_price (it ot ia oa : Z) : RealtimeModelPrice := {|
  input_text_per_mtok_usd := f64_lit it 100; output_text_per_mtok_usd := f64_lit ot 100;
  input_audio_per_mtok_usd := f64_lit ia 100; output_audio_per_mtok_usd := f64_lit oa 100
|}.
Definition realtime_PRICING : list (string * RealtimeModelPrice) := [
  ("gpt-4o-realtime-preview", realtime_price 500 2000 10000 20000);
  ("gpt-4o-realtime-preview-2024-12-17", realtime_price 500 2000 10000 20000);
  ("gpt-4o-mini-realtime-preview", realtime_price 60 240 1000 2000)].
Definition realtime_price_get (model : string) : option RealtimeModelPrice :=
  price_lookup realtime_PRICING model.

(** ** Configuration (config.rs) *)

Inductive ApiKeySource : Type := AK_Env (name : string) | AK_Inline (value : string).
Record OpenAiRealtimeConfig : Type := {
  rc_api_key : ApiKeySource; rc_endpoint : string; rc_handshake_timeout_ms : Z
}.
Definition default_endpoint : string := "wss://api.openai.com/v1/realtime".
Definition default_handshake_timeout_ms : Z := 10000.
Definition new_with_env_key (env_var : string) : OpenAiRealtimeConfig := {|
  rc_api_key := AK_Env env_var; rc_endpoint := default_endpoint;
  rc_handshake_timeout_ms := default_handshake_timeout_ms
|}.
(** [env] is [std::env::var], [None] on any error. *)
Definition resolve_api_key (env : string → option string) (c : OpenAiRealtimeConfig) : result string string :=
  match rc_api_key c with
  | AK_Env name =>
      match env name with Some v => Ok v | None => Err ("env var `" +:+ name +:+ "` not set") end
  | AK_Inline value => if is_empty_str value then Err "inline api_key is empty" else Ok value
  end.
Definition handshake_timeout (c : OpenAiRealtimeConfig) : Duration := from_millis (rc_handshake_timeout_ms c).
Definition ws_url (c : OpenAiRealtimeConfig) (model : string) : string :=
  let base :=
    if contains "/" (rc_endpoint c) &&
       default false ((λ '(_, rest), contains "/" rest) <$> split_once "://" (rc_endpoint c))
    then rc_endpoint c else rc_endpoint c +:+ "/" in
  base +:+ "?model=" +:+ model.

(** ** Translations (runner.rs) *)

Definition realtime_out_params : AudioParams :=
  {| sample_rate_hz := 24000; channels := 1; format := AF_Pcm16Le |}.
Definition resolve_voice {Url} (v : VoiceRef Url) : InferenceResult string :=
  match v with
  | VR_Named s | VR_Id s => Ok s
  | VR_ClonedFrom _ => Err (BadRequest "OpenAI Realtime does not support voice cloning")
  end.

Section realtime.
(** [serde_json::to_string] and [from_str]; the base64 crate's standard engine. *)
Variable to_json : ClientMessage → result string string.
Variable parse_event : string → result string InboundEvent.
Variables (b64_enc : Bytes → string) (b64_dec : string → result string Bytes).

Definition one_frame (m : ClientMessage) : list Frame :=
  match to_json m with Ok s => [Fr_Text s] | Err _ => [] end.
Definition translate_inbound_to_frames (msg : RealtimeIn) : list Frame :=
  match msg with
  | RI_AudioFrame pcm _ => one_frame (CM_InputAudioAppend (b64_enc pcm))
  | RI_Text text =>
      match to_json (user_text text), to_json CM_ResponseCreate with
      | Ok i, Ok r => [Fr_Text i; Fr_Text r]
      | _, _ => []
      end
  | RI_Commit => one_frame CM_InputAudioCommit
  | RI_Interrupt => one_frame CM_ResponseCancel
  | RI_Close => []
  end.
Definition translate_outbound (ev : InboundEvent) (params : AudioParams) : option RealtimeOut :=
  match ev with
  | EV_ResponseAudioDelta d => pcm ← result_ok (b64_dec d); Some (RO_AudioFrame pcm params)
  | EV_ResponseAudioTranscriptDelta d => Some (RO_Transcript TR_Assistant d false)
  | EV_ResponseAudioTranscriptDone t => Some (RO_Transcript TR_Assistant t true)
  | EV_InputAudioTranscriptionCompleted t => Some (RO_Transcript TR_User t true)
  | EV_ResponseDone => Some RO_Done
  | EV_Error m => Some (RO_Error (classify_realtime_error (Some m)))
  | EV_Other => None
  end.

(** ** The adapter task *)

Record Adapter : Type := {
  ad_inbound : RealtimeReceiver;
  ad_stream : FrameReceiver;
  ad_sends : nat;                            (* sends attempted on the socket *)
  ad_sent : list Frame;                      (* accepted by it, in order *)
  ad_out : list RealtimeOut;                 (* sent to the caller, in order *)
  ad_done : bool
}.
(** The branch a round of [select!] takes, or the caller's [cancel]. *)
Inductive Branch : Type := Br_Uplink | Br_Downlink | Br_Cancel.

Variable send_result : nat → Frame → result WsError unit.
(** Whether the caller still holds its receiver, given what it was sent. *)
Variable listening : list RealtimeOut → bool.

Definition sink_send (f : Frame) (a : Adapter) : Adapter * bool :=
  match send_result (ad_sends a) f with
  | Ok _ => ({| ad_inbound := ad_inbound a; ad_stream := ad_stream a; ad_sends := S (ad_sends a);
                ad_sent := ad_sent a ++ [f]; ad_out := ad_out a; ad_done := ad_done a |}, true)
  | Err _ => ({| ad_inbound := ad_inbound a; ad_stream := ad_stream a; ad_sends := S (ad_sends a);
                 ad_sent := ad_sent a; ad_out := ad_out a; ad_done := ad_done a |}, false)
  end.
(** [for frame in frames]: a failing send leaves this loop only. *)
Fixpoint send_frames (fs : list Frame) (a : Adapter) : Adapter :=
  match fs with
  | [] => a
  | f :: r => let '(a, ok) := sink_send f a in if ok then send_frames r a else a
  end.
Definition finish (a : Adapter) : Adapter :=
  {| ad_inbound := ad_inbound a; ad_stream := ad_stream a; ad_sends := ad_sends a;
     ad_sent := ad_sent a; ad_out := ad_out a; ad_done := true |}.
Definition with_inbound (r : RealtimeReceiver) (a : Adapter) : Adapter :=
  {| ad_inbound := r; ad_stream := ad_stream a; ad_sends := ad_sends a; ad_sent := ad_sent a;
     ad_out := ad_out a; ad_done := ad_done a |}.
Definition with_stream (s : FrameReceiver) (o : list RealtimeOut) (a : Adapter) : Adapter :=
  {| ad_inbound := ad_inbound a; ad_stream := s; ad_sends := ad_sends a; ad_sent := ad_sent a;
     ad_out := o; ad_done := ad_done a |}.
Definition close_frame : Frame := Fr_Close 1000 "".
Definition deliver (o : option RealtimeOut) (l : list RealtimeOut) : list RealtimeOut :=
  match o with Some x => if listening l then l ++ [x] else l | None => l end.

Definition uplink_branch (a : Adapter) : Adapter :=
  let hang_up a := finish (fst (sink_send close_frame a)) in
  match rv_items (ad_inbound a) with
  | [] => if rv_open (ad_inbound a) then a else hang_up a
  | msg :: rest =>
      let a := with_inbound {| rv_items := rest; rv_open := rv_open (ad_inbound a) |} a in
      match msg with
      | RI_Close => hang_up a
      | _ => send_frames (translate_inbound_to_frames msg) a
      end
  end.
Definition downlink_branch (a : Adapter) : Adapter :=
  match fr_items (ad_stream a) with
  | [] => if fr_live (ad_stream a) then a else finish a
  | Err _ :: _ => finish a
  | Ok f :: items =>
      let rest := {| fr_items := items; fr_live := fr_live (ad_stream a) |} in
      match f with
      | Fr_Text text =>
          let out := match parse_event text with
                     | Ok ev => translate_outbound ev realtime_out_params | Err _ => None end in
          with_stream rest (deliver out (ad_out a)) a
      | Fr_Close _ _ => finish a
      | _ => with_stream rest (ad_out a) a
      end
  end.
Definition adapter_step (b : Branch) (a : Adapter) : Adapter :=
  if ad_done a then a
  else match b with
       | Br_Uplink => uplink_branch a | Br_Downlink => downlink_branch a | Br_Cancel => finish a
       end.
Definition adapter_run (bs : list Branch) (a : Adapter) : Adapter := foldl (λ a b, adapter_step b a) a bs.

(** ** What a session does *)

Definition frame_event (i : result WsError Frame) : option RealtimeOut :=
  match i with
  | Ok (Fr_Text t) =>
      match parse_event t with Ok ev => translate_outbound ev realtime_out_params | Err _ => None end
  | _ => None
  end.
Definition is_close (m : RealtimeIn) : bool := match m with RI_Close => true | _ => false end.
Definition ends_stream (i : result WsError Frame) : bool :=
  match i with Err _ | Ok (Fr_Close _ _) => true | Ok _ => false end.
Definition caller_ends (r : RealtimeReceiver) : bool := negb (rv_open r) || existsb is_close (rv_items r).
Definition provider_ends (s : FrameReceiver) : bool := negb (fr_live s) || existsb ends_stream (fr_items s).

Lemma send_frames_fields fs a :
  let a' := send_frames fs a in
  ad_inbound a' = ad_inbound a ∧ ad_stream a' = ad_stream a ∧ ad_out a' = ad_out a ∧ ad_done a' = ad_done a.
Proof.
  revert a. induction fs as [|f fs IH]; intros a; [done|]. cbn [send_frames]. unfold sink_send.
  destruct (send_result _ _); [|done]. destruct (IH {| ad_inbound := ad_inbound a; ad_stream := ad_stream a;
    ad_sends := S (ad_sends a); ad_sent := ad_sent a ++ [f]; ad_out := ad_out a; ad_done := ad_done a |})
    as (-> & -> & -> & ->). done.
Qed.
Lemma send_frames_sent fs a : (∀ n f, send_result n f = Ok ()) → ad_sent (send_frames fs a) = ad_sent a ++ fs.
Proof.
  intros Hok. revert a. induction fs as [|f fs IH]; intros a; cbn [send_frames]; [by rewrite app_nil_r|].
  unfold sink_send. rewrite Hok, IH. cbn. by rewrite <-app_assoc.
Qed.
Lemma sink_send_fields f a :
  let a' := fst (sink_send f a) in
  ad_inbound a' = ad_inbound a ∧ ad_stream a' = ad_stream a ∧ ad_out a' = ad_out a ∧ ad_done a' = ad_done a.
Proof. cbv zeta. unfold sink_send. by destruct (send_result _ _). Qed.

(** The two branches as the caller and the provider see them. *)
Lemma uplink_branch_spec a :
  let a' := uplink_branch a in
  ad_stream a' = ad_stream a ∧ ad_out a' = ad_out a ∧
  match rv_items (ad_inbound a) with
  | [] => ad_inbound a' = ad_inbound a ∧ ad_done a' = ad_done a || negb (rv_open (ad_inbound a))
  | m :: rest => ad_inbound a' = {| rv_items := rest; rv_open := rv_open (ad_inbound a) |} ∧
                 ad_done a' = ad_done a || is_close m
  end.
Proof.
  cbv zeta. unfold uplink_branch. destruct (rv_items (ad_inbound a)) as [|m rest].
  - destruct (rv_open (ad_inbound a)); cbn [negb]; [by rewrite orb_false_r|].
    destruct (sink_send_fields close_frame a) as (Hi & Hs & Ho & _). cbn [finish ad_stream ad_out ad_inbound ad_done].
    by rewrite Hi, Hs, Ho, orb_true_r.
  - set (a1 := with_inbound _ a).
    assert (∀ fs, ad_stream (send_frames fs a1) = ad_stream a ∧ ad_out (send_frames fs a1) = ad_out a ∧
      ad_inbound (send_frames fs a1) = ad_inbound a1 ∧ ad_done (send_frames fs a1) = ad_done a || false) as Hsf.
    { intros fs. rewrite orb_false_r. destruct (send_frames_fields fs a1) as (-> & -> & -> & ->). done. }
    destruct m; cbn [is_close]; [apply Hsf..|].
    destruct (sink_send_fields close_frame a1) as (Hi & Hs & Ho & _). cbn [finish ad_stream ad_out ad_inbound ad_done].
    by rewrite Hi, Hs, Ho, orb_true_r.
Qed.
Lemma uplink_branch_sent a :
  (∀ n f, send_result n f = Ok ()) →
  ad_sent (uplink_branch a) = ad_sent a ++
    match rv_items (ad_inbound a) with
    | [] => if rv_open (ad_inbound a) then [] else [close_frame]
    | RI_Close :: _ => [close_frame]
    | m :: _ => translate_inbound_to_frames m
    end.
Proof.
  intros Hok. unfold uplink_branch, sink_send. rewrite !Hok.
  destruct (rv_items (ad_inbound a)) as [|m rest]; [destruct (rv_open _); [by rewrite app_nil_r|done]|].
  destruct m; try (rewrite send_frames_sent; [reflexivity|exact Hok]). cbn. by rewrite Hok.
Qed.
Lemma downlink_branch_spec a :
  let a' := downlink_branch a in
  ad_inbound a' = ad_inbound a ∧ ad_sent a' = ad_sent a ∧
  match fr_items (ad_stream a) with
  | [] => ad_stream a' = ad_stream a ∧ ad_out a' = ad_out a ∧
          ad_done a' = ad_done a || negb (fr_live (ad_stream a))
  | i :: rest =>
      if ends_stream i then ad_done a' = true ∧ ad_out a' = ad_out a
      else ad_stream a' = {| fr_items := rest; fr_live := fr_live (ad_stream a) |} ∧
           ad_done a' = ad_done a ∧ ad_out a' = deliver (frame_event i) (ad_out a)
  end.
Proof.
  cbv zeta. unfold downlink_branch. destruct (fr_items (ad_stream a)) as [|[[]|] rest]; cbn; try done.
  destruct (fr_live (ad_stream a)); cbn; by rewrite ?orb_false_r, ?orb_true_r.
Qed.
Lemma adapter_step_done b a : ad_done a = true → adapter_step b a = a.
Proof. intros H. unfold adapter_step. by rewrite H. Qed.

(** *** Who ends a session *)

Definition caller_rank (a : Adapter) : nat :=
  if ad_done a || negb (caller_ends (ad_inbound a)) then 0 else 1 + length (rv_items (ad_inbound a)).
Definition provider_rank (a : Adapter) : nat :=
  if ad_done a || negb (provider_ends (ad_stream a)) then 0 else 1 + length (fr_items (ad_stream a)).

Lemma uplink_branch_rank a : ad_done a = false →
  (caller_rank (uplink_branch a) ≤ caller_rank a ∧ provider_rank (uplink_branch a) ≤ provider_rank a ∧
   (0 < caller_rank a → caller_rank (uplink_branch a) < caller_rank a))%nat.
Proof.
  intros Hd. destruct (uplink_branch_spec a) as (Hs & _ & Hi). unfold caller_rank, provider_rank, caller_ends.
  rewrite Hs, Hd. destruct (rv_items (ad_inbound a)) as [|m rest] eqn:Er; destruct Hi as [Hi Hd'].
  - rewrite Hd', Hi, Hd, Er. destruct (rv_open _), (provider_ends _); cbn; lia.
  - rewrite Hd', Hi, Hd. cbn [rv_items rv_open existsb length orb].
    destruct (rv_open _), (is_close m), (existsb is_close rest), (provider_ends _); cbn; lia.
Qed.
Lemma downlink_branch_rank a : ad_done a = false →
  (caller_rank (downlink_branch a) ≤ caller_rank a ∧ provider_rank (downlink_branch a) ≤ provider_rank a ∧
   (0 < provider_rank a → provider_rank (downlink_branch a) < provider_rank a))%nat.
Proof.
  intros Hd. destruct (downlink_branch_spec a) as (Hi & _ & Hs). unfold caller_rank, provider_rank, provider_ends.
  rewrite Hi, Hd. destruct (fr_items (ad_stream a)) as [|i rest] eqn:Er.
  - destruct Hs as (Hs & _ & Hd'). rewrite Hd', Hs, Hd, Er. destruct (fr_live _), (caller_ends _); cbn; lia.
  - destruct (ends_stream i) eqn:Ei.
    + destruct Hs as [-> _]. cbn [orb existsb]. rewrite Ei.
      destruct (fr_live _), (caller_ends _); cbn; lia.
    + destruct Hs as (-> & -> & _). rewrite Hd. cbn [fr_items fr_live existsb length orb]. rewrite Ei.
      destruct (fr_live _), (existsb ends_stream rest), (caller_ends _); cbn; lia.
Qed.
Lemma adapter_step_rank b a :
  (caller_rank (adapter_step b a) ≤ caller_rank a ∧ provider_rank (adapter_step b a) ≤ provider_rank a)%nat.
Proof.
  unfold adapter_step. destruct (ad_done a) eqn:Hd; [lia|].
  destruct b; [destruct (uplink_branch_rank a Hd); tauto|destruct (downlink_branch_rank a Hd); tauto|].
  unfold caller_rank, provider_rank. cbn. lia.
Qed.
(** That someone ends the session is not forgotten before it is over. *)
Lemma adapter_step_ends b a :
  (ad_done a || caller_ends (ad_inbound a) = true →
   ad_done (adapter_step b a) || caller_ends (ad_inbound (adapter_step b a)) = true) ∧
  (ad_done a || provider_ends (ad_stream a) = true →
   ad_done (adapter_step b a) || provider_ends (ad_stream (adapter_step b a)) = true) ∧
  (ad_done a || caller_ends (ad_inbound a) || provider_ends (ad_stream a) = false → b ≠ Br_Cancel →
   let a' := adapter_step b a in
   ad_done a' || caller_ends (ad_inbound a') || provider_ends (ad_stream a') = false).
Proof.
  unfold adapter_step. destruct (ad_done a) eqn:Hd; [rewrite Hd; done|]. cbn [orb].
  destruct b; [| |done].
  - destruct (uplink_branch_spec a) as (Hs & _ & Hi). cbv zeta. rewrite Hs. unfold caller_ends.
    destruct (rv_items (ad_inbound a)) as [|m rest] eqn:Er; destruct Hi as [Hi Hd']; rewrite Hd', Hi, Hd.
    + rewrite Er. destruct (rv_open _), (provider_ends _); done.
    + cbn [rv_items rv_open existsb orb].
      destruct (rv_open _), (is_close m), (existsb is_close rest), (provider_ends _); done.
  - destruct (downlink_branch_spec a) as (Hi & _ & Hs). cbv zeta. rewrite Hi. unfold provider_ends.
    destruct (fr_items (ad_stream a)) as [|i rest] eqn:Er.
    + destruct Hs as (Hs & _ & Hd'). rewrite Hd', Hs, Hd, Er. destruct (fr_live _), (caller_ends _); done.
    + destruct (ends_stream i) eqn:Ei; [destruct Hs as [-> _]|destruct Hs as (-> & -> & _)];
        cbn [fr_items fr_live existsb orb]; rewrite ?Hd, ?Ei;
        destruct (fr_live _), (existsb ends_stream rest), (caller_ends _); done.
Qed.

(** A realtime session ends exactly when someone ends it: if both branches of the
    adapter keep being taken and the session is not cancelled, it finishes if and only if
    the caller closes (a Close message, or its channel dropped) or the provider does
    (a close frame, an error, or the end of the socket), whatever else is exchanged and
    however sends fare. *)
Theorem realtime_ends_iff (a : Adapter) (sched : nat → Branch) :
  ad_done a = false → fair sched Br_Uplink → fair sched Br_Downlink → (∀ n, sched n ≠ Br_Cancel) →
  (∃ n, ad_done (run_sched adapter_step sched a n) = true) ↔
  caller_ends (ad_inbound a) || provider_ends (ad_stream a) = true.
Proof.
  intros Hd Hfu Hfd Hnc. split.
  - intros [n Hn]. apply not_false_iff_true. intros Hne.
    assert (∀ m, let x := run_sched adapter_step sched a m in
      ad_done x || caller_ends (ad_inbound x) || provider_ends (ad_stream x) = false) as Hall.
    { induction m as [|m IH]; cbv zeta; [by cbn; rewrite Hd|]. rewrite run_sched_S.
      by apply (proj2 (proj2 (adapter_step_ends (sched m) _))). }
    specialize (Hall n). cbv zeta in Hall. by rewrite Hn in Hall.
  - intros [Hc|Hp]%orb_true_iff.
    + destruct (fair_reaches adapter_step caller_rank (λ x, ad_done x || caller_ends (ad_inbound x) = true)
        (λ x, ad_done x = true) sched Br_Uplink a) as [n Hn]; [| | | | |done|exists n; by apply Hn].
      * by rewrite Hc, orb_true_r.
      * intros t x. apply adapter_step_ends.
      * intros. apply adapter_step_rank.
      * intros x Hx. unfold adapter_step. destruct (ad_done x) eqn:Hdx; [|by apply uplink_branch_rank].
        unfold caller_rank in Hx. rewrite Hdx in Hx. cbn in Hx. lia.
      * intros x Hi Hr. unfold caller_rank in Hr. destruct (ad_done x); [done|]. cbn in Hi, Hr. by rewrite Hi in Hr.
    + destruct (fair_reaches adapter_step provider_rank (λ x, ad_done x || provider_ends (ad_stream x) = true)
        (λ x, ad_done x = true) sched Br_Downlink a) as [n Hn]; [| | | | |done|exists n; by apply Hn].
      * by rewrite Hp, orb_true_r.
      * intros t x. apply adapter_step_ends.
      * intros. apply adapter_step_rank.
      * intros x Hx. unfold adapter_step. destruct (ad_done x) eqn:Hdx; [|by apply downlink_branch_rank].
        unfold provider_rank in Hx. rewrite Hdx in Hx. cbn in Hx. lia.
      * intros x Hi Hr. unfold provider_rank in Hr. destruct (ad_done x); [done|]. cbn in Hi, Hr. by rewrite Hi in Hr.
Qed.
(** *** What is exchanged *)

(** The caller hung up after the messages [cin]: a Close message was the last of them, or
    they are all it sent and its sender is gone. *)
Definition hung_up (r0 : RealtimeReceiver) (cin : list RealtimeIn) : Prop :=
  last cin = Some RI_Close ∨ cin = rv_items r0 ∧ rv_open r0 = false.
(** The provider ended the socket where [rest] was still to be read. *)
Definition provider_gone (s0 : FrameReceiver) (rest : list (result WsError Frame)) : Prop :=
  match rest with i :: _ => ends_stream i = true | [] => fr_live s0 = false end.
(** The two directions of a session so far: [cin] and [cdn] were taken from them, the rest
    is still there; [cancelled] says whether the session may have been cancelled. *)
Definition exchanged (r0 : RealtimeReceiver) (s0 : FrameReceiver) (sent0 : list Frame) (cancelled : Prop)
    (a : Adapter) : Prop :=
  ∃ cin cdn rest,
    r0 = {| rv_items := cin ++ rv_items (ad_inbound a); rv_open := rv_open (ad_inbound a) |} ∧
    fr_items s0 = cdn ++ rest ∧ Forall (λ i, ends_stream i = false) cdn ∧
    ad_out a = omap frame_event cdn ∧
    let relayed := sent0 ++ concat (translate_inbound_to_frames <$> cin) in
    if ad_done a then
      ad_sent a = relayed ++ [close_frame] ∧ hung_up r0 cin ∨
      ad_sent a = relayed ∧ (provider_gone s0 rest ∨ cancelled)
    else ad_sent a = relayed ∧ Forall (λ m, is_close m = false) cin ∧
         ad_stream a = {| fr_items := rest; fr_live := fr_live s0 |}.

Lemma exchanged_step r0 s0 sent0 (cancelled : Prop) b a :
  (∀ n f, send_result n f = Ok ()) → (∀ l, listening l = true) → (b = Br_Cancel → cancelled) →
  exchanged r0 s0 sent0 cancelled a → exchanged r0 s0 sent0 cancelled (adapter_step b a).
Proof.
  intros Hok Hl Hc Hex. unfold adapter_step. destruct (ad_done a) eqn:Hd; [exact Hex|].
  destruct Hex as (cin & cdn & rest & Hin & Hdn & Hf & Ho & Hrest). rewrite Hd in Hrest.
  destruct Hrest as (Hsent & Hnc & Hst0). destruct b.
  - destruct (uplink_branch_spec a) as (Hs & Ho' & Hi). pose proof (uplink_branch_sent a Hok) as Hse.
    unfold exchanged. rewrite Hse, Hs, Ho', Hsent.
    destruct (rv_items (ad_inbound a)) as [|m restin] eqn:Er; destruct Hi as [-> ->]; rewrite Hd; cbn [orb rv_items rv_open].
    + exists cin, cdn, rest. rewrite Er. destruct (rv_open (ad_inbound a)) eqn:Eo; cbn [negb].
      * rewrite !app_nil_r in *. by split_and!.
      * split_and!; [done..|]. left. split; [done|right]. rewrite Hin, app_nil_r. done.
    + exists (cin ++ [m]), cdn, rest. rewrite fmap_app, concat_app, <-!app_assoc. cbn [app].
      split_and!; [by rewrite Hin|done..|]. cbn [fmap list_fmap concat]. rewrite app_nil_r. destruct (is_close m) eqn:Em.
      * left. destruct m; try done. cbn. rewrite ?app_nil_r. split; [done|left]. by rewrite last_snoc.
      * split_and!; [by destruct m|by apply Forall_app_snoc|done].
  - destruct (downlink_branch_spec a) as (Hi & Hs & Hst). unfold exchanged. rewrite Hi, Hs, Hsent.
    rewrite Hst0 in Hst. cbn [fr_items fr_live] in Hst. destruct rest as [|i restdn].
    + destruct Hst as (-> & -> & ->). exists cin, cdn, []. rewrite Hd. cbn [orb].
      split_and!; [done..|]. destruct (fr_live s0) eqn:El; cbn [negb]; [by split_and!|right; split; [done|by left]].
    + destruct (ends_stream i) eqn:Ei.
      * destruct Hst as (-> & ->). exists cin, cdn, (i :: restdn). split_and!; [done..|].
        right. split; [done|by left].
      * destruct Hst as (-> & -> & ->). exists cin, (cdn ++ [i]), restdn. rewrite Hd.
        split_and!; [done|by rewrite <-app_assoc|by apply Forall_app_snoc| |done..].
        rewrite omap_app, Ho. unfold deliver. cbn [omap list_omap]. rewrite Hl.
        destruct (frame_event i); [done|by rewrite app_nil_r].
  - exists cin, cdn, rest. split_and!; [done..|]. right. split; [done|right; by apply Hc].
Qed.
Lemma exchanged_run r0 s0 su bs :
  (∀ n f, send_result n f = Ok ()) → (∀ l, listening l = true) →
  exchanged r0 s0 [su] (Br_Cancel ∈ bs)
    (adapter_run bs {| ad_inbound := r0; ad_stream := s0; ad_sends := 1; ad_sent := [su];
                       ad_out := []; ad_done := false |}).
Proof.
  intros Hok Hl. set (x := {| ad_inbound := r0 |}). set (P := Br_Cancel ∈ bs).
  assert (∀ b, b ∈ bs → b = Br_Cancel → P) as Hb by (unfold P; by intros b ? ->).
  assert (exchanged r0 s0 [su] P x) as Hx.
  { exists [], [], (fr_items s0). split_and!; [by destruct r0|done|by apply Forall_nil|done|]. cbn.
    split_and!; [done|by apply Forall_nil|by destruct s0]. }
  clearbody x P. revert x Hx. induction bs as [|b bs IH]; intros x Hx; [done|]. cbn [adapter_run foldl].
  apply IH; [intros; eapply Hb; [by apply list_elem_of_further|done]|].
  apply exchanged_step; [done..| |done]. apply Hb. apply list_elem_of_here.
Qed.
(** What a session that goes on has left unread, on either side. *)
Definition unheard (a : Adapter) : nat := if ad_done a then 0 else length (rv_items (ad_inbound a)).
Definition unseen (a : Adapter) : nat := if ad_done a then 0 else length (fr_items (ad_stream a)).
Lemma adapter_step_unread b a :
  (unheard (adapter_step b a) ≤ unheard a ∧ unseen (adapter_step b a) ≤ unseen a ∧
   (b = Br_Uplink → 0 < unheard a → unheard (adapter_step b a) < unheard a) ∧
   (b = Br_Downlink → 0 < unseen a → unseen (adapter_step b a) < unseen a))%nat.
Proof.
  unfold unheard, unseen, adapter_step. destruct (ad_done a) eqn:Hd; [rewrite Hd; split_and!; intros; lia|].
  destruct b; [| |cbn; split_and!; intros; done || lia].
  - destruct (uplink_branch_spec a) as (-> & _ & Hi).
    destruct (rv_items (ad_inbound a)) as [|m rest] eqn:Er; destruct Hi as [-> ->]; rewrite Hd, ?Er; cbn;
      split_and!; intros; try done; repeat case_match; lia.
  - destruct (downlink_branch_spec a) as (-> & _ & Hst).
    destruct (fr_items (ad_stream a)) as [|i rest] eqn:Er; [|destruct (ends_stream i)].
    + destruct Hst as (-> & _ & ->). rewrite Hd, Er. cbn.
      split_and!; intros; try done; repeat case_match; lia.
    + destruct Hst as (-> & _). cbn. split_and!; intros; try done; repeat case_match; lia.
    + destruct Hst as (-> & -> & _). rewrite Hd. cbn. split_and!; intros; try done; repeat case_match; lia.
Qed.
Lemma relay_drains sched a :
  fair sched Br_Uplink → fair sched Br_Downlink →
  ∃ n, ∀ m, (n ≤ m)%nat → let a' := run_sched adapter_step sched a m in
    ad_done a' = true ∨ rv_items (ad_inbound a') = [] ∧ fr_items (ad_stream a') = [].
Proof.
  intros Hfu Hfd.
  destruct (fair_lowers adapter_step unheard sched Br_Uplink a) as [n1 H1];
    [intros u x; apply adapter_step_unread|intros x; by apply adapter_step_unread|done|].
  destruct (fair_lowers adapter_step unseen sched Br_Downlink a) as [n2 H2];
    [intros u x; apply adapter_step_unread|intros x; by apply adapter_step_unread|done|].
  exists (Nat.max n1 n2). intros m Hm. specialize (H1 m ltac:(lia)). specialize (H2 m ltac:(lia)).
  unfold unheard, unseen in H1, H2. cbv zeta. destruct (ad_done _); [by left|right].
  by apply length_zero_iff_nil in H1, H2.
Qed.

(** ** [open_session] *)

Context {Url Sender : Type}.
Variable env : string → option string.
Variable connect : string → list (string * string) → Duration →
  result WsError FrameReceiver.
Record OpenAiRealtimeRunner : Type := { ort_config : OpenAiRealtimeConfig }.
Definition openai_realtime_new (c : OpenAiRealtimeConfig) : OpenAiRealtimeRunner := {| ort_config := c |}.
(** The handle and the adapter as it starts. *)
Definition open_session (r : OpenAiRealtimeRunner) (batch : RealtimeBatch Url RealtimeReceiver Sender) :
  InferenceResult (RealtimeSession * Adapter) :=
  let config := ort_config r in
  let? voice_str := resolve_voice (rb_voice batch) in
  let? api_key := map_err Unauthorized (resolve_api_key env config) in
  let? stream := map_err (λ e, NetworkError ("openai realtime ws connect: " +:+ ws_error_to_string e))
    (connect (ws_url config (rb_model batch))
       [("Authorization", "Bearer " +:+ api_key); ("OpenAI-Beta", "realtime=v1")]
       (handshake_timeout config)) in
  let update := CM_SessionUpdate {|
    sn_voice := voice_str; sn_modalities := ["audio"; "text"]; sn_input_audio_format := "pcm16";
    sn_output_audio_format := "pcm16"; sn_input_audio_transcription := InputAudioTranscription_default |} in
  let? su_json := map_err (λ e, Internal ("serialize session.update: " +:+ e)) (to_json update) in
  let? _ := map_err (λ e, NetworkError (ws_error_to_string e)) (send_result 0 (Fr_Text su_json)) in
  Ok (RealtimeSession_new (rb_request_id batch),
      {| ad_inbound := rb_inbound batch; ad_stream := stream; ad_sends := 1;
         ad_sent := [Fr_Text su_json]; ad_out := []; ad_done := false |}).
Definition openai_realtime_base : RunnerBase OpenAiRealtimeRunner := {|
  runner_kind _ := RK_RealtimeSpeech;
  runner_transport _ := TK_RemoteNetwork PK_OpenAi;
  rebuild_session r _ := (r, Ok ());
  rate_limits := rate_limits_default
|}.
End realtime.

(** ** Witnesses *)

Definition demo_json (m : ClientMessage) : result string string := Ok (message_type m).
Definition demo_event (s : string) : result string InboundEvent :=
  if decide (s = "done") then Ok EV_ResponseDone else Ok (EV_ResponseAudioTranscriptDelta s).
Definition demo_adapter (r : RealtimeReceiver) (s : FrameReceiver) : Adapter := {|
  ad_inbound := r; ad_stream := s; ad_sends := 1; ad_sent := [Fr_Text "session.update"];
  ad_out := []; ad_done := false
|}.
Definition demo_in : RealtimeReceiver := {| rv_items := [RI_Text "hi"; RI_Close]; rv_open := true |}.
Definition demo_frames : FrameReceiver := {| fr_items := [Ok (Fr_Text "he"); Ok (Fr_Close 4001 "bad key")]; fr_live := true |}.
Definition demo_ok (_ : nat) (_ : Frame) : result WsError unit := Ok ().
Definition alternate : nat → Branch := alternating Br_Downlink Br_Uplink.
Definition alternate_up : fair alternate Br_Uplink := alternating_fair _ _ _ (or_intror eq_refl).
Definition alternate_down : fair alternate Br_Downlink := alternating_fair _ _ _ (or_introl eq_refl).
Lemma alternate_no_cancel n : alternate n ≠ Br_Cancel.
Proof. unfold alternate, alternating. by destruct (Nat.even n). Qed.

Lemma realtime_ends_iff_witness :
  ∃ n, ad_done (run_sched (adapter_step demo_json demo_event (λ _, "") (λ _, Err "") demo_ok (λ _, true))
    alternate (demo_adapter demo_in demo_frames) n) = true.
Proof.
  apply (proj2 (realtime_ends_iff demo_json demo_event (λ _, "") (λ _, Err "") demo_ok (λ _, true)
    (demo_adapter demo_in demo_frames) alternate eq_refl alternate_up alternate_down alternate_no_cancel)).
  reflexivity.
Defined.
