(* ===== verification/GeminiLive.v ===== *)
(** * Gemini Live runtime

    Models [inference-runtime-gemini-live/src]: [wire.rs], [config.rs], [error.rs],
    [cost.rs] and [runner.rs]: the setup handshake of [open_session], and the session as
    two concurrent tasks.  [session_adapter] spawns the uplink on its own and becomes the
    downlink, and only [session_adapter] is abortable; a run is a sequence of the tasks
    that take a step, or a cancellation.  The JSON text of a message, the decoding of an
    envelope, the base64 crate and the WebSocket connection are parameters.  The local
    [pending_text] is written and never read, and left out. *)
From Stdlib Require Import SpecFloat.
From S2P Require Import Prelude F64 Runtime Deployment Audio Runner AudioProvider WsCore.

(** ** Wire types (wire.rs) *)

Record SetupConfig : Type := { su_model : string; su_response_modalities : list string }.
Record ContentTurn : Type := { ct_role : string; ct_parts : list string }.
Record ClientContentInner : Type := { turns : option (list ContentTurn); turn_complete : bool }.
Record MediaChunk : Type := { mc_mime_type : string; mc_data : string }.
(** The three messages the client sends. *)
Inductive ClientMessage : Type :=
  | LM_Setup (setup : SetupConfig)
  | LM_ClientContent (client_content : ClientContentInner)
  | LM_RealtimeInput (media_chunks : list MediaChunk).

Record InlineData : Type := { in_mime_type : string; in_data : string }.
Record ModelPart : Type := { mp_inline_data : option InlineData; mp_text : option string }.
Record ModelTurn : Type := { mt_parts : list ModelPart }.
Record ServerContentEnvelope : Type := {
  sc_model_turn : option ModelTurn; sc_turn_complete : option bool; sc_interrupted : option bool
}.
Inductive Inbound : Type :=
  | IB_SetupComplete | IB_ServerContent (sc : ServerContentEnvelope) | IB_ToolCall | IB_Other.

(** ** Errors (error.rs), prices (cost.rs) *)

Inductive GeminiLiveError : Type :=
  | GLE_FeatureDisabled | GLE_Unsupported (method : string) | GLE_BadRequest (message : string)
  | GLE_UnsupportedFormat (message : string) | GLE_ServerError (body : string)
  | GLE_SessionClosed (reason : string).
Definition gemini_live_error_into (e : GeminiLiveError) : InferenceError :=
  match e with
  | GLE_FeatureDisabled => Internal "tts-gemini-live feature disabled at build time"
  | GLE_Unsupported method => Unsupported method RK_RealtimeSpeech
  | GLE_BadRequest m => BadRequest m
  | GLE_UnsupportedFormat m => UnsupportedAudioFormat m
  | GLE_ServerError body => ServerError 500 (Some body)
  | GLE_SessionClosed reason => RealtimeClosed reason
  end.
Definition per_minute_usd (model : string) : f64 :=
  if decide (model = "gemini-2.0-flash-exp") then S754_zero false else f64_lit 5 100.
Definition per_million_tokens_usd (model : string) : f64 := S754_zero false.
Definition estimate_usd (model : string) (audio_seconds : Z) : f64 :=
  f64_div (f64_mul (per_minute_usd model) (f64_of_Z audio_seconds)) (f64_of_Z 60).

(** ** Configuration (config.rs) *)

Inductive GeminiLiveApiKey : Type := GK_Env (name : string) | GK_File (path : string).
Section config.
Context {Url : Type} `{!UrlOps Url}.
Record GeminiLiveConfig : Type := {
  gl_ws_endpoint : Url;
  gl_api_key : GeminiLiveApiKey;
  gl_ws_connect_timeout : Duration;
  gl_rate_limits : RateLimits;
  gl_retry : RetryPolicy;
  gl_circuit_breaker : CircuitBreakerConfig;
  gl_timeouts : Timeouts
}.
Definition default_ws_connect_timeout : Duration := from_secs 10.
Definition defaults_for_gemini_live (key : GeminiLiveApiKey) : option GeminiLiveConfig :=
  u ← result_ok (url_parse "wss://generativelanguage.googleapis.com/");
  Some {|
    gl_ws_endpoint := u; gl_api_key := key; gl_ws_connect_timeout := default_ws_connect_timeout;
    gl_rate_limits := RateLimits_default; gl_retry := RetryPolicy_default;
    gl_circuit_breaker := CircuitBreakerConfig_default; gl_timeouts := Timeouts_default
  |}.
Definition with_ws_endpoint (c : GeminiLiveConfig) (u : Url) : GeminiLiveConfig := {|
  gl_ws_endpoint := u; gl_api_key := gl_api_key c; gl_ws_connect_timeout := gl_ws_connect_timeout c;
  gl_rate_limits := gl_rate_limits c; gl_retry := gl_retry c;
  gl_circuit_breaker := gl_circuit_breaker c; gl_timeouts := gl_timeouts c
|}.
Definition live_url (c : GeminiLiveConfig) (api_key : string) : result string Url :=
  let? url := url_join (gl_ws_endpoint c)
    "ws/google.ai.generativelanguage.v1beta.GenerativeService.BidiGenerateContent" in
  Ok (append_pair url ("key", api_key)).
End config.
Arguments GeminiLiveConfig Url : clear implicits.

Section live.
Variable to_json : ClientMessage → result string string.
(** [from_str::<Inbound>]; whether the text is JSON with a top-level [error]. *)
Variable parse_inbound : string → result string Inbound.
Variable has_error : string → bool.
Variables (b64_enc : Bytes → string) (b64_dec : string → result string Bytes).

(** ** The handshake *)

(** The loop that waits for [setupComplete]: the frames after it, an error, or [None] when
    the socket stays open and silent. *)
Fixpoint await_setup (items : list (result WsError Frame)) (live : bool) :
  option (InferenceResult (list (result WsError Frame))) :=
  match items with
  | [] =>
      if live then None
      else Some (Err (gemini_live_error_into (GLE_SessionClosed "connection closed before setupComplete")))
  | Err e :: _ => Some (Err (NetworkError ("gemini live setup recv: " +:+ ws_error_to_string e)))
  | Ok (Fr_Text text) :: rest =>
      match parse_inbound text with
      | Ok IB_SetupComplete => Some (Ok rest)
      | _ => if has_error text then Some (Err (gemini_live_error_into (GLE_ServerError text)))
             else await_setup rest live
      end
  | Ok (Fr_Close code reason) :: _ =>
      Some (Err (gemini_live_error_into (GLE_SessionClosed
        ("closed during setup: code=" +:+ pretty code +:+ " reason=" +:+ reason))))
  | Ok _ :: rest => await_setup rest live
  end.

(** ** The two tasks *)

(** The downlink: receiving, sending what a frame gives (each item with whether a failing
    send ends the task) and then going on or ending, or over. *)
Inductive Downlink : Type :=
  | LD_Recv | LD_Emit (queue : list (bool * RealtimeOut)) (last : bool) | LD_Done.
Record Session : Type := {
  ls_inbound : RealtimeReceiver;
  ls_stream : FrameReceiver;
  ls_started : bool;               (* [session_adapter] was polled: the uplink is spawned *)
  ls_up_done : bool;
  ls_down : Downlink;
  ls_sends : nat;
  ls_sent : list Frame;
  ls_out : list RealtimeOut
}.
Inductive Step : Type := St_Uplink | St_Adapter | St_Cancel.
#[global] Instance Step_eq_dec : EqDecision Step.
Proof. solve_decision. Defined.

Variable send_result : nat → Frame → result WsError unit.
Variable listening : list RealtimeOut → bool.
Definition offer_out (o : RealtimeOut) (l : list RealtimeOut) : list RealtimeOut :=
  if listening l then l ++ [o] else l.

Definition with_up (rest : list RealtimeIn) (done : bool) (sends : nat) (sent : list Frame)
    (o : list RealtimeOut) (s : Session) : Session := {|
  ls_inbound := {| rv_items := rest; rv_open := rv_open (ls_inbound s) |}; ls_stream := ls_stream s;
  ls_started := ls_started s; ls_up_done := done; ls_down := ls_down s; ls_sends := sends;
  ls_sent := sent; ls_out := o
|}.
Definition with_down (d : Downlink) (st : FrameReceiver) (o : list RealtimeOut) (s : Session) : Session := {|
  ls_inbound := ls_inbound s; ls_stream := st; ls_started := ls_started s; ls_up_done := ls_up_done s;
  ls_down := d; ls_sends := ls_sends s; ls_sent := ls_sent s; ls_out := o
|}.

(** What [uplink_task] does with a message: a payload to send, an error for the caller that
    ends the task, or the end. *)
Inductive UplinkAction : Type := UA_Send (m : ClientMessage) | UA_Fail (e : InferenceError) | UA_Stop.
Definition uplink_action (msg : RealtimeIn) : UplinkAction :=
  match msg with
  | RI_Text text => UA_Send (LM_ClientContent
      {| turns := Some [{| ct_role := "user"; ct_parts := [text] |}]; turn_complete := true |})
  | RI_AudioFrame pcm params =>
      if bool_decide (format params = AF_Pcm16Le)
      then UA_Send (LM_RealtimeInput [{| mc_mime_type := "audio/pcm;rate=" +:+ pretty (sample_rate_hz params);
                                         mc_data := b64_enc pcm |}])
      else UA_Fail (UnsupportedAudioFormat
        ("Gemini Live requires Pcm16Le; got " +:+ debug_AudioFormat (format params)))
  | RI_Commit => UA_Send (LM_ClientContent {| turns := None; turn_complete := true |})
  | RI_Interrupt => UA_Fail (Unsupported "interrupt" RK_RealtimeSpeech)
  | RI_Close => UA_Stop
  end.
Definition uplink_task (s : Session) : Session :=
  match rv_items (ls_inbound s) with
  | [] => if rv_open (ls_inbound s) then s else with_up [] true (ls_sends s) (ls_sent s) (ls_out s) s
  | msg :: rest =>
      match uplink_action msg with
      | UA_Send m =>
          match to_json m with
          | Ok json =>
              match send_result (ls_sends s) (Fr_Text json) with
              | Ok _ => with_up rest false (S (ls_sends s)) (ls_sent s ++ [Fr_Text json]) (ls_out s) s
              | Err _ => with_up rest true (S (ls_sends s)) (ls_sent s) (ls_out s) s
              end
          | Err _ => with_up rest false (ls_sends s) (ls_sent s) (ls_out s) s
          end
      | UA_Fail e => with_up rest true (ls_sends s) (ls_sent s) (offer_out (RO_Error e) (ls_out s)) s
      | UA_Stop => with_up rest true (ls_sends s) (ls_sent s) (ls_out s) s
      end
  end.

Definition live_out_params : AudioParams := {| sample_rate_hz := 24000; channels := 1; format := AF_Pcm16Le |}.
Definition part_items (p : ModelPart) : list (bool * RealtimeOut) :=
  match mp_inline_data p with
  | Some inline => match b64_dec (in_data inline) with
                   | Ok pcm => [(true, RO_AudioFrame pcm live_out_params)] | Err _ => [] end
  | None => []
  end ++
  match mp_text p with Some t => [(true, RO_Transcript TR_Assistant t false)] | None => [] end.
Definition content_items (sc : ServerContentEnvelope) : list (bool * RealtimeOut) :=
  match sc_model_turn sc with Some turn => concat (part_items <$> mt_parts turn) | None => [] end ++
  (if decide (sc_turn_complete sc = Some true) then [(false, RO_Transcript TR_Assistant "" true)] else []).
(** A text frame: the items it gives, and whether it ends the loop. *)
Definition text_items (text : string) : list (bool * RealtimeOut) * bool :=
  if has_error text then ([(false, RO_Error (gemini_live_error_into (GLE_ServerError text)))], true)
  else match parse_inbound text with
       | Ok (IB_ServerContent sc) => (content_items sc, false)
       | _ => ([], false)
       end.
Definition done_item : bool * RealtimeOut := (false, RO_Done).
Definition downlink_task (s : Session) : Session :=
  let st := ls_stream s in
  match ls_down s with
  | LD_Done => s
  | LD_Emit [] last => with_down (if last then LD_Done else LD_Recv) st (ls_out s) s
  | LD_Emit ((must, item) :: q) last =>
      if listening (ls_out s) then with_down (LD_Emit q last) st (ls_out s ++ [item]) s
      else if must then with_down LD_Done st (ls_out s) s
      else with_down (LD_Emit q last) st (ls_out s) s
  | LD_Recv =>
      match fr_items st with
      | [] => if fr_live st then s else with_down (LD_Emit [done_item] true) st (ls_out s) s
      | i :: items =>
          let rest := {| fr_items := items; fr_live := fr_live st |} in
          match i with
          | Ok (Fr_Text text) =>
              let '(q, stop) := text_items text in
              with_down (LD_Emit (if stop then q ++ [done_item] else q) stop) rest (ls_out s) s
          | Ok (Fr_Close _ _) => with_down (LD_Emit [done_item] true) rest (ls_out s) s
          | Ok _ => with_down LD_Recv rest (ls_out s) s
          | Err e => with_down (LD_Emit [(false, RO_Error (NetworkError
                       ("gemini live ws recv: " +:+ ws_error_to_string e))); done_item] true) rest (ls_out s) s
          end
      end
  end.
(** The first poll of [session_adapter] spawns the uplink; [cancel] drops the future. *)
Definition start (s : Session) : Session := {|
  ls_inbound := ls_inbound s; ls_stream := ls_stream s; ls_started := true; ls_up_done := ls_up_done s;
  ls_down := ls_down s; ls_sends := ls_sends s; ls_sent := ls_sent s; ls_out := ls_out s
|}.
Definition cancel (s : Session) : Session := {|
  ls_inbound := ls_inbound s; ls_stream := ls_stream s; ls_started := ls_started s;
  ls_up_done := ls_up_done s || negb (ls_started s); ls_down := LD_Done; ls_sends := ls_sends s;
  ls_sent := ls_sent s; ls_out := ls_out s
|}.
Definition session_step (t : Step) (s : Session) : Session :=
  match t with
  | St_Uplink => if ls_started s && negb (ls_up_done s) then uplink_task s else s
  | St_Adapter =>
      match ls_down s with
      | LD_Done => s
      | _ => if ls_started s then downlink_task s else start s
      end
  | St_Cancel => cancel s
  end.
Definition session_run (ts : list Step) (s : Session) : Session := foldl (λ s t, session_step t s) s ts.
(** The caller's [outbound] ends when both tasks dropped their sender. *)
Definition outbound_closed (s : Session) : bool :=
  ls_up_done s && match ls_down s with LD_Done => true | _ => false end.

(** ** What a session guarantees *)

(** A frame the handshake skips. *)
Definition ignorable (i : result WsError Frame) : Prop :=
  match i with
  | Ok (Fr_Text t) => parse_inbound t ≠ Ok IB_SetupComplete ∧ has_error t = false
  | Ok (Fr_Close _ _) | Err _ => False
  | Ok _ => True
  end.
Lemma await_setup_ok items live rest :
  await_setup items live = Some (Ok rest) ↔
  ∃ pre t, items = pre ++ Ok (Fr_Text t) :: rest ∧ parse_inbound t = Ok IB_SetupComplete ∧ Forall ignorable pre.
Proof.
  split.
  - induction items as [|i items IH]; cbn; [by destruct live|]. intros H.
    assert ((∃ t, i = Ok (Fr_Text t) ∧ parse_inbound t = Ok IB_SetupComplete ∧ rest = items) ∨
            ignorable i ∧ await_setup items live = Some (Ok rest)) as [(t & -> & Ht & ->)|[Hi Hr]].
    { destruct i as [[|t| | |]|]; try done; try (by right).
      destruct (parse_inbound t) as [[]|] eqn:Hp; [left; by exists t; simplify_eq|..];
        right; cbn; rewrite Hp; destruct (has_error t); done. }
    + by exists [], t.
    + destruct (IH Hr) as (pre & t & -> & Ht & Hf). exists (i :: pre), t. split_and!; [done..|by constructor].
  - intros (pre & t & -> & Ht & Hf). induction Hf as [|i pre Hi Hf IH]; cbn; [by rewrite Ht|].
    destruct i as [[|u| | |]|]; try done. destruct Hi as [Hp He]. rewrite He.
    by destruct (parse_inbound u) as [[]|].
Qed.

Definition uplink_frame (msg : RealtimeIn) : option Frame :=
  match uplink_action msg with
  | UA_Send m => match to_json m with Ok j => Some (Fr_Text j) | Err _ => None end
  | _ => None
  end.
Definition uplink_error (msg : RealtimeIn) : option RealtimeOut :=
  match uplink_action msg with UA_Fail e => Some (RO_Error e) | _ => None end.
Definition relayable (msg : RealtimeIn) : Prop := match uplink_action msg with UA_Send _ => True | _ => False end.
#[local] Instance relayable_dec msg : Decision (relayable msg).
Proof. unfold relayable. destruct (uplink_action msg); apply _. Defined.
(** Everything the downlink says about the frames of a connection. *)
Fixpoint live_script (items : list (result WsError Frame)) (live : bool) : list RealtimeOut :=
  match items with
  | [] => if live then [] else [RO_Done]
  | Ok (Fr_Text t) :: rest =>
      (text_items t).1.*2 ++ (if (text_items t).2 then [RO_Done] else live_script rest live)
  | Ok (Fr_Close _ _) :: _ => [RO_Done]
  | Ok _ :: rest => live_script rest live
  | Err e :: _ => [RO_Error (NetworkError ("gemini live ws recv: " +:+ ws_error_to_string e)); RO_Done]
  end.
(** What the downlink has left to say. *)
Definition pending (s : Session) : list RealtimeOut :=
  let later := live_script (fr_items (ls_stream s)) (fr_live (ls_stream s)) in
  match ls_down s with
  | LD_Recv => later
  | LD_Emit q last => q.*2 ++ (if last then [] else later)
  | LD_Done => []
  end.

Lemma downlink_task_spec s :
  (∀ l, listening l = true) →
  ∃ d, ls_out (downlink_task s) = ls_out s ++ d ∧ pending s = d ++ pending (downlink_task s) ∧
    ls_inbound (downlink_task s) = ls_inbound s ∧ ls_sent (downlink_task s) = ls_sent s ∧
    ls_up_done (downlink_task s) = ls_up_done s ∧ ls_started (downlink_task s) = ls_started s.
Proof.
  intros Hl. unfold downlink_task, pending. destruct (ls_down s) as [|[|[must item] q] last|] eqn:Hd.
  - destruct (ls_stream s) as [items live] eqn:Hs. cbn. destruct items as [|[[|t| | |]|] items]; cbn;
      try (exists []; rewrite app_nil_r; split_and!; done).
    + exists []. destruct live; [rewrite Hd, Hs|]; cbn; rewrite app_nil_r; done.
    + exists []. destruct (text_items t) as [q stop]; destruct stop; cbn;
        rewrite ?fmap_app, ?app_nil_r; done.
  - exists []. destruct last; cbn; rewrite app_nil_r; done.
  - exists [item]. rewrite Hl. done.
  - exists []. rewrite Hd, app_nil_r. done.
Qed.
Lemma uplink_task_spec s :
  (∀ n f, send_result n f = Ok ()) → (∀ l, listening l = true) →
  uplink_task s = s ∧ rv_items (ls_inbound s) = [] ∧ rv_open (ls_inbound s) = true ∨
  uplink_task s = with_up [] true (ls_sends s) (ls_sent s) (ls_out s) s ∧
    rv_items (ls_inbound s) = [] ∧ rv_open (ls_inbound s) = false ∨
  ∃ m rest n, rv_items (ls_inbound s) = m :: rest ∧
    ∃ d, (d = false ↔ relayable m) ∧
    uplink_task s = with_up rest d n (ls_sent s ++ option_list (uplink_frame m))
      (ls_out s ++ option_list (uplink_error m)) s.
Proof.
  intros Hs Hl. unfold uplink_task, uplink_frame, uplink_error, relayable.
  destruct (rv_items (ls_inbound s)) as [|m rest].
  { destruct (rv_open (ls_inbound s)); [left|right; left]; done. }
  right; right. exists m, rest. destruct (uplink_action m) as [msg|e|].
  - destruct (to_json msg); [rewrite Hs|]; eexists; (split; [done|]); exists false; cbn; rewrite ?app_nil_r; done.
  - unfold offer_out. rewrite Hl. eexists. split; [done|]. exists true. cbn. rewrite ?app_nil_r. done.
  - eexists. split; [done|]. exists true. cbn. rewrite ?app_nil_r. done.
Qed.

(** Why the uplink is over: a message it cannot relay was the last it took, or the caller
    sent no more and dropped its sender. *)
Definition stopped (r0 : RealtimeReceiver) (cin : list RealtimeIn) : Prop :=
  (∃ m, last cin = Some m ∧ ¬ relayable m) ∨ cin = rv_items r0 ∧ rv_open r0 = false.
(** What was exchanged so far: [cin] was taken from the caller; [lost] is what a
    cancellation kept from it. *)
Definition talked (r0 : RealtimeReceiver) (script : list RealtimeOut) (sent0 : list Frame) (cancelled : Prop)
    (lost : list RealtimeOut) (s : Session) : Prop :=
  ∃ cin down,
    r0 = {| rv_items := cin ++ rv_items (ls_inbound s); rv_open := rv_open (ls_inbound s) |} ∧
    ls_sent s = sent0 ++ omap uplink_frame cin ∧ Forall relayable (removelast cin) ∧
    (ls_started s = false → cin = []) ∧
    (if ls_up_done s then stopped r0 cin ∨ cancelled ∧ cin = [] else Forall relayable cin) ∧
    down `sublist_of` ls_out s ∧ ls_out s ≡ₚ down ++ omap uplink_error cin ∧
    script = down ++ pending s ++ lost.
Lemma talked_uplink r0 script sent0 cancelled lost s :
  (∀ n f, send_result n f = Ok ()) → (∀ l, listening l = true) → ls_started s = true → ls_up_done s = false →
  talked r0 script sent0 cancelled lost s → talked r0 script sent0 cancelled lost (uplink_task s).
Proof.
  intros Hs Hl Hst Hup (cin & down & Hi & Ht & Hl' & Hc & Hr & Hsub & Hp & Hsc). rewrite Hup in Hr.
  destruct (uplink_task_spec s Hs Hl) as [[-> _]|[[-> [Hn Hop]]|(m & rest & n & Hm & d & Hd & ->)]].
  - exists cin, down. by rewrite Hup.
  - exists cin, down. cbn. rewrite Hn in Hi. split_and!; [done..| |done|done|done]. left; right.
    by rewrite Hi, Hop, app_nil_r.
  - exists (cin ++ [m]), down. cbn. rewrite Hi, Hm, Ht, <-!app_assoc, !omap_app, removelast_last, Hst. cbn.
    split_and!; try done.
    + destruct d.
      * left; left. exists m. rewrite last_snoc. split; [done|]. intros Hre. by apply Hd in Hre.
      * apply Forall_app. split; [done|]. constructor; [by apply Hd|done].
    + by apply sublist_inserts_r.
    + rewrite Hp, <-app_assoc. by destruct (uplink_error m).
Qed.
Lemma talked_downlink r0 script sent0 cancelled lost s :
  (∀ l, listening l = true) →
  talked r0 script sent0 cancelled lost s → talked r0 script sent0 cancelled lost (downlink_task s).
Proof.
  intros Hl Ht. destruct (downlink_task_spec s Hl) as (d & Ho & Hpe & Hin & Hse & Hup & Hst).
  destruct Ht as (cin & down & Hi & Ht & Hl' & Hc & Hr & Hsub & Hp & Hsc).
  exists cin, (down ++ d). rewrite Hin, Hse, Hup, Ho, Hst, Hsc, Hpe, <-!app_assoc.
  split_and!; try done; [by apply sublist_app|].
  rewrite Hp, <-app_assoc. apply Permutation_app_head, Permutation_app_comm.
Qed.
Lemma talked_step r0 script sent0 (cancelled : Prop) lost t s :
  (∀ n f, send_result n f = Ok ()) → (∀ l, listening l = true) → (t = St_Cancel → cancelled) →
  talked r0 script sent0 cancelled lost s →
  ∃ lost', talked r0 script sent0 cancelled lost' (session_step t s) ∧ (t ≠ St_Cancel → lost' = lost).
Proof.
  intros Hs Hl Hcn Ht. destruct t; cbn.
  - exists lost. split; [|done]. destruct (ls_started s) eqn:Hst, (ls_up_done s) eqn:Hu; cbn; [done| |done..].
    by apply talked_uplink.
  - exists lost. split; [|done].
    assert (talked r0 script sent0 cancelled lost (start s)).
    { destruct Ht as (cin & down & Ht). exists cin, down. destruct Ht as (? & ? & ? & ? & ? & ? & ? & ?).
      cbn. by split_and!. }
    destruct (ls_down s), (ls_started s); auto using talked_downlink.
  - exists (pending s ++ lost). split; [|done].
    destruct Ht as (cin & down & Hi & Ht & Hl' & Hc & Hr & Hsub & Hp & Hsc).
    exists cin, down. unfold pending at 1. cbn. split_and!; try done.
    destruct (ls_up_done s); [done|]. cbn. destruct (ls_started s); cbn; [done|]. right. auto.
Qed.
Lemma talked_run r0 st0 su ts :
  (∀ n f, send_result n f = Ok ()) → (∀ l, listening l = true) →
  ∃ lost, talked r0 (live_script (fr_items st0) (fr_live st0)) [su] (St_Cancel ∈ ts) lost
      (session_run ts {| ls_inbound := r0; ls_stream := st0; ls_started := false; ls_up_done := false;
        ls_down := LD_Recv; ls_sends := 1; ls_sent := [su]; ls_out := [] |}) ∧
    (St_Cancel ∉ ts → lost = []).
Proof.
  intros Hs Hl. set (x := {| ls_inbound := r0 |}). set (P := St_Cancel ∈ ts).
  assert (∀ t, t ∈ ts → t = St_Cancel → P) as Hts by (unfold P; by intros t ? ->).
  assert (talked r0 (live_script (fr_items st0) (fr_live st0)) [su] P [] x) as Hx.
  { exists [], []. unfold pending. cbn. rewrite app_nil_r. split_and!; try constructor. by destruct r0. }
  assert (∀ y lost, talked r0 (live_script (fr_items st0) (fr_live st0)) [su] P lost y →
    ∃ lost', talked r0 (live_script (fr_items st0) (fr_live st0)) [su] P lost' (session_run ts y) ∧
      (St_Cancel ∉ ts → lost' = lost)) as Hrun; [|by apply (Hrun x [])].
  clear Hx. clearbody P. induction ts as [|t ts IH]; intros y lost Hy; [by exists lost|].
  destruct (talked_step _ _ _ _ _ t y Hs Hl (Hts t (list_elem_of_here _ _)) Hy) as (l1 & H1 & E1).
  destruct (IH (λ t' Ht', Hts t' (list_elem_of_further _ _ _ Ht')) _ _ H1) as (l2 & H2 & E2).
  exists l2. split; [exact H2|]. intros [? ?]%not_elem_of_cons. rewrite E2, E1; done.
Qed.

(** Without a Close, what the uplink took is what it relayed and at most one message it
    could not. *)
Lemma cut_failed r0 cin s su (cancelled : Prop) down :
  (∀ m, ∃ j, to_json m = Ok j) → RI_Close ∉ rv_items r0 → (∃ rest, rv_items r0 = cin ++ rest) →
  ls_sent s = [su] ++ omap uplink_frame cin → Forall relayable (removelast cin) →
  (if ls_up_done s then stopped r0 cin ∨ cancelled ∧ cin = [] else Forall relayable cin) →
  down `sublist_of` ls_out s → ls_out s ≡ₚ down ++ omap uplink_error cin →
  ∃ relayed failed, cin = relayed ++ option_list failed ∧
    (∃ frames, ls_sent s = su :: frames ∧ Forall2 (λ m f, uplink_frame m = Some f) relayed frames) ∧
    (ls_up_done s = false → failed = None) ∧
    (∀ m, failed = Some m → ∃ e, uplink_action m = UA_Fail e) ∧
    (ls_up_done s = true → is_Some failed ∨ cin = rv_items r0 ∧ rv_open r0 = false ∨ cancelled ∧ cin = []) ∧
    down `sublist_of` ls_out s ∧ ls_out s ≡ₚ down ++ omap uplink_error (option_list failed).
Proof.
  intros Hj Hnc [rest Hr0] Hse Hr Hup Hsub Hp.
  assert (∀ l, Forall relayable l →
    Forall2 (λ m f, uplink_frame m = Some f) l (omap uplink_frame l) ∧ omap uplink_error l = []) as Hrel.
  { induction 1 as [|m l Hm _ [IH1 IH2]]; [done|]. unfold uplink_frame, uplink_error, relayable in *. cbn.
    destruct (uplink_action m) as [a| |] eqn:Ea; [|done..]. destruct (Hj a) as [j Hja]. rewrite Hja. cbn.
    split; [constructor; [by rewrite Ea, Hja|done]|done]. }
  destruct (decide (Forall relayable cin)) as [Hall|Hnall].
  - exists cin, None. rewrite app_nil_r. destruct (Hrel cin Hall) as [H1 H2]. rewrite H2 in Hp.
    split_and!; try done; [by eexists|]. intros Hu. rewrite Hu in Hup.
    destruct Hup as [[(m & Hm & Hn)|?]|?]; [|by auto..]. apply last_Some_elem_of in Hm.
    exfalso. apply Hn. by apply (proj1 (Forall_forall _ _) Hall).
  - destruct cin as [|m cin _] using rev_ind; [by destruct Hnall|]. rewrite removelast_last in Hr.
    destruct (Hrel cin Hr) as [H1 H2]. rewrite omap_app, H2 in Hp.
    assert (¬ relayable m) as Hm by (intros H; apply Hnall, Forall_app; split; [done|by constructor]).
    assert (∃ e, uplink_action m = UA_Fail e) as [e He].
    { unfold relayable in Hm. destruct (uplink_action m) eqn:Ea; [done|eauto|]. exfalso. apply Hnc. rewrite Hr0.
      destruct m; cbn in Ea; try done; [by case_bool_decide|]. set_solver. }
    exists cin, (Some m). split_and!; try done; [| |intros ? [= ->]; eauto|eauto].
    + exists (omap uplink_frame cin). split; [|done]. rewrite Hse, omap_app. cbn. f_equal.
      unfold uplink_frame at 2. cbn. by rewrite He, app_nil_r.
    + intros Hu. by rewrite Hu in Hup.
Qed.

(** *** The session drains *)

Fixpoint script_cost (items : list (result WsError Frame)) (live : bool) : nat :=
  match items with
  | [] => if live then 0 else 3
  | Ok (Fr_Text t) :: rest =>
      2 + length (text_items t).1 + (if (text_items t).2 then 1 else script_cost rest live)
  | Ok (Fr_Close _ _) :: _ => 3
  | Ok _ :: rest => 1 + script_cost rest live
  | Err _ :: _ => 4
  end.
Definition down_left (s : Session) : nat :=
  let later := script_cost (fr_items (ls_stream s)) (fr_live (ls_stream s)) in
  match ls_down s with
  | LD_Recv => later
  | LD_Emit q last => 1 + length q + (if last then 0 else later)
  | LD_Done => 0
  end.
Definition up_left (s : Session) : nat :=
  if ls_up_done s then 0
  else length (rv_items (ls_inbound s)) + (if rv_open (ls_inbound s) then 0 else 1).
Definition work_left (s : Session) : nat := (if ls_started s then 0 else 1) + up_left s + down_left s.

Lemma downlink_task_left s :
  up_left (downlink_task s) = up_left s ∧ ls_started (downlink_task s) = ls_started s ∧
  (down_left (downlink_task s) ≤ down_left s ∧
   (0 < down_left s → down_left (downlink_task s) < down_left s))%nat.
Proof.
  unfold up_left, down_left, downlink_task. destruct (ls_stream s) as [items live] eqn:Es.
  destruct (ls_down s) as [|[|[must item] q] last|] eqn:Ed; cbn.
  - destruct items as [|[[b|t|p|p|code reason]|e] items]; cbn.
    + destruct live; cbn; rewrite ?Es, ?Ed; cbn; split_and!; try done; lia.
    + split_and!; [done..|lia|lia].
    + destruct (text_items t) as [q stop]. destruct stop; cbn; rewrite ?length_app; cbn;
        split_and!; try done; lia.
    + split_and!; [done..|lia|lia].
    + split_and!; [done..|lia|lia].
    + split_and!; [done..|lia|lia].
    + split_and!; [done..|lia|lia].
  - destruct last; cbn; split_and!; try done; lia.
  - destruct (listening _); [|destruct must]; cbn; split_and!; try done; destruct last; cbn; lia.
  - rewrite Ed. split_and!; try done; lia.
Qed.
Lemma uplink_task_left s :
  ls_up_done s = false →
  down_left (uplink_task s) = down_left s ∧ ls_started (uplink_task s) = ls_started s ∧
  (up_left (uplink_task s) ≤ up_left s ∧
   (0 < up_left s → up_left (uplink_task s) < up_left s))%nat.
Proof.
  intros Eu. unfold up_left, down_left, uplink_task. rewrite Eu.
  destruct (rv_items (ls_inbound s)) as [|m rest] eqn:Er;
    [destruct (rv_open (ls_inbound s)) eqn:Eo; cbn; rewrite ?Er, ?Eo, ?Eu
    |destruct (uplink_action m); [destruct (to_json _); [destruct (send_result _ _)|]|..]; cbn];
    split_and!; try done; try destruct (rv_open (ls_inbound s)); cbn; lia.
Qed.
Lemma start_up_left s : up_left (start s) = up_left s.
Proof. done. Qed.
Lemma start_down_left s : down_left (start s) = down_left s.
Proof. done. Qed.
Lemma down_left_pending s : down_left s = 0%nat → pending s = [].
Proof.
  unfold down_left, pending. destruct (ls_down s); [|lia|done].
  destruct (ls_stream s) as [[|[[]|] items] live]; cbn; [by destruct live|lia..].
Qed.
(** What a started session was told or sent gets through, when both tasks are polled
    again and again. *)
Lemma session_drains sched s :
  ls_started s = false → ls_up_done s = false → ls_down s = LD_Recv →
  fair sched St_Uplink → fair sched St_Adapter → (∀ n, sched n ≠ St_Cancel) →
  ∃ n, ∀ m, (n ≤ m)%nat → let s' := run_sched session_step sched s m in
    (ls_up_done s' = true ∨ rv_items (ls_inbound s') = []) ∧ down_left s' = 0%nat.
Proof.
  intros Hst Hup Hd Hfu Hfa Hnc.
  destruct (fair_helpful session_step (λ t, t ≠ St_Cancel) (λ x, ls_started x = false → ls_down x = LD_Recv)
    work_left (λ t x, t = St_Adapter ∧ (ls_started x = false ∨ (0 < down_left x)%nat) ∨
                      t = St_Uplink ∧ ls_started x = true ∧ ls_up_done x = false ∧ (0 < up_left x)%nat)
    sched s) as [n Hn]; [done|done|..].
  - intros [] x Hu Hx; cbn; [| |done].
    + destruct (ls_started x) eqn:Es; cbn; [|by intros _; apply Hx]. destruct (ls_up_done x) eqn:Eu; cbn; [by rewrite Es|].
      by rewrite (proj1 (proj2 (uplink_task_left x Eu))), Es.
    + destruct (ls_started x) eqn:Es; [|rewrite (Hx eq_refl); done].
      destruct (downlink_task_left x) as (_ & Hs' & _). destruct (ls_down x); rewrite ?Hs', Es; done.
  - intros [] x Hu Hx; cbn; [| |done]; unfold work_left.
    + destruct (ls_started x) eqn:Es, (ls_up_done x) eqn:Eu; cbn; rewrite ?Es; try lia.
      destruct (uplink_task_left x Eu) as (-> & -> & Hl & _). rewrite Es. lia.
    + destruct (ls_started x) eqn:Es; [|rewrite (Hx eq_refl); cbn; rewrite start_up_left, start_down_left; lia].
      destruct (downlink_task_left x) as (Hu' & Hs' & Hl & _).
      destruct (ls_down x) eqn:Ed; rewrite ?Hu', ?Hs', ?Es; lia.
  - intros x Hx Hr. unfold work_left in Hr. destruct (ls_started x) eqn:Es; [|exists St_Adapter; auto].
    destruct (decide (0 < down_left x)%nat); [exists St_Adapter; auto|].
    exists St_Uplink. split; [done|right]. split_and!; [done..| |lia]. unfold up_left in Hr.
    destruct (ls_up_done x); [lia|done].
  - intros t x Hx [[-> Hh]|(-> & Es & Eu & Hh)]; cbn; unfold work_left.
    + destruct (ls_started x) eqn:Es.
      * destruct Hh as [?|Hh]; [done|]. destruct (downlink_task_left x) as (Hu' & Hs' & _ & Hl).
        specialize (Hl Hh). destruct (ls_down x) eqn:Ed; rewrite ?Hu', ?Hs', ?Es; [lia|lia|].
        unfold down_left in Hh. rewrite Ed in Hh. lia.
      * rewrite (Hx eq_refl). cbn. rewrite start_up_left, start_down_left. lia.
    + rewrite Es, Eu. cbn. destruct (uplink_task_left x Eu) as (-> & -> & _ & Hl). rewrite Es. lia.
  - intros u t x Hu Hx [[-> Hh]|(-> & Es & Eu & Hh)]; destruct u; cbn; try done; unfold work_left.
    + right; left. split; [done|]. destruct (ls_started x) eqn:Es, (ls_up_done x) eqn:Eu; cbn; rewrite ?Es; try done.
      destruct (uplink_task_left x Eu) as (-> & -> & _). by rewrite Es.
    + left. destruct (ls_started x) eqn:Es.
      * destruct Hh as [?|Hh]; [done|]. destruct (downlink_task_left x) as (Hu' & Hs' & _ & Hl).
        specialize (Hl Hh). destruct (ls_down x) eqn:Ed; rewrite ?Hu', ?Hs', ?Es; [lia|lia|].
        unfold down_left in Hh. rewrite Ed in Hh. lia.
      * rewrite (Hx eq_refl). cbn. rewrite start_up_left, start_down_left. lia.
    + left. rewrite Es, Eu. cbn. destruct (uplink_task_left x Eu) as (-> & -> & _ & Hl). rewrite Es. lia.
    + right; right. split; [done|]. rewrite Es. destruct (downlink_task_left x) as (Hu' & Hs' & _).
      assert (ls_up_done (downlink_task x) = ls_up_done x) as Hud.
      { unfold downlink_task. by repeat case_match. }
      destruct (ls_down x); rewrite ?Hud, ?Hu', ?Hs', ?Es, ?Eu; done.
  - exists n. intros m Hm. destruct (Hn m Hm) as [_ Hr]. cbv zeta. unfold work_left, up_left in Hr.
    set (x := run_sched _ _ _ _) in *. destruct (ls_up_done x) eqn:Eu; (split; [|lia]); [by left|right].
    apply length_zero_iff_nil. lia.
Qed.

(** [C10] Relay of a Gemini Live session on a working socket, for a caller that sends no
    Close.  In every interleaving of its two tasks and any cancellation, with [cin] what the
    uplink has taken from the caller's queue (the rest is still there): the provider was
    sent [setup] and then one text frame for each message of [cin] it can relay, in order,
    and nothing else; those are all of [cin] while the uplink runs, and it ends only at a
    message it cannot relay, at the end of the caller's input, or when the session is
    cancelled before it started.  The caller hears, in order, [down], mixed with at most
    the one error that ended the uplink; [down] is what the downlink says about the frames
    up to what is still pending, unless a cancellation drops the rest.  And if both tasks
    keep being polled, then from some point on the uplink is over or has relayed all its
    input, and the caller has heard all the downlink says, [Done] included when the
    provider ended. *)
Theorem live_relay (r0 : RealtimeReceiver) (st0 : FrameReceiver) (su : Frame) :
  (∀ n f, send_result n f = Ok ()) → (∀ l, listening l = true) → (∀ m, ∃ j, to_json m = Ok j) →
  RI_Close ∉ rv_items r0 →
  let start := {| ls_inbound := r0; ls_stream := st0; ls_started := false; ls_up_done := false;
    ls_down := LD_Recv; ls_sends := 1; ls_sent := [su]; ls_out := [] |} in
  let script := live_script (fr_items st0) (fr_live st0) in
  (∀ ts, let s := session_run ts start in
    ∃ cin down,
      rv_items r0 = cin ++ rv_items (ls_inbound s) ∧
      (∃ relayed failed, cin = relayed ++ option_list failed ∧
        (∃ frames, ls_sent s = su :: frames ∧ Forall2 (λ m f, uplink_frame m = Some f) relayed frames) ∧
        (ls_up_done s = false → failed = None) ∧
        (∀ m, failed = Some m → ∃ e, uplink_action m = UA_Fail e) ∧
        (ls_up_done s = true → is_Some failed ∨ cin = rv_items r0 ∧ rv_open r0 = false ∨ St_Cancel ∈ ts ∧ cin = []) ∧
        down `sublist_of` ls_out s ∧ ls_out s ≡ₚ down ++ omap uplink_error (option_list failed)) ∧
      down `prefix_of` script ∧ (St_Cancel ∉ ts → script = down ++ pending s)) ∧
  (∀ sched, fair sched St_Uplink → fair sched St_Adapter → (∀ n, sched n ≠ St_Cancel) →
    ∃ n, ∀ m, (n ≤ m)%nat → let s := run_sched session_step sched start m in
      (ls_up_done s = true ∨ rv_items (ls_inbound s) = []) ∧ pending s = []).
Proof.
  intros Hs Hl Hj Hnc start script. split.
  - intros ts s. destruct (talked_run r0 st0 su ts Hs Hl) as (lost & (cin & down & Ht) & Hlost).
    fold start s script in Ht. destruct Ht as (Hi & Hse & Hr & _ & Hup & Hsub & Hp & Hsc).
    exists cin, down. split; [exact (f_equal rv_items Hi)|].
    split; [|split; [by eexists|]].
    + apply (cut_failed r0 cin); try done. eexists. exact (f_equal rv_items Hi).
    + intros Hc. by rewrite (Hlost Hc), app_nil_r in Hsc.
  - intros sched Hfu Hfa Hnca. destruct (session_drains sched start) as [n Hn]; [done..|].
    exists n. intros m Hm. destruct (Hn m Hm) as [Hu Hd]. split; [done|by apply down_left_pending].
Qed.

(** A Close ends nothing but the uplink (audio.rs documents it as tearing down the session):
    whatever the caller sends, no close frame reaches the provider, and while the provider
    keeps sending harmless frames or stays silent, the caller's [outbound] does not close. *)
Definition harmless (i : result WsError Frame) : Prop :=
  match i with
  | Ok (Fr_Text t) => has_error t = false | Ok (Fr_Close _ _) | Err _ => False | Ok _ => True
  end.
Theorem live_close_keeps_session (r0 : RealtimeReceiver) (st0 : FrameReceiver) (su : Frame) (ts : list Step) :
  (∀ n f, send_result n f = Ok ()) → (∀ l, listening l = true) →
  fr_live st0 = true → Forall harmless (fr_items st0) → St_Cancel ∉ ts →
  let s := session_run ts {| ls_inbound := r0; ls_stream := st0; ls_started := false; ls_up_done := false;
    ls_down := LD_Recv; ls_sends := 1; ls_sent := [su]; ls_out := [] |} in
  (∃ frames, ls_sent s = su :: frames ∧ Forall (λ f, ∃ t, f = Fr_Text t) frames) ∧ outbound_closed s = false.
Proof.
  intros Hs Hl Hlive Hf Hc s. split.
  - destruct (talked_run r0 st0 su ts Hs Hl) as (lost & (cin & down & _ & Hse & _) & _).
    fold s in Hse. exists (omap uplink_frame cin). split; [exact Hse|].
    apply Forall_forall. intros f (m & _ & Hm)%list_elem_of_omap. unfold uplink_frame in Hm.
    repeat case_match; simplify_eq; eauto.
  - assert (∀ x, fr_live (ls_stream x) = true ∧ Forall harmless (fr_items (ls_stream x)) ∧
      match ls_down x with LD_Recv => True | LD_Emit _ last => last = false | LD_Done => False end →
      outbound_closed (session_run ts x) = false) as H; [|by apply H].
    clear s. induction ts as [|t ts IH]; intros x (H1 & H2 & H3).
    { unfold outbound_closed. cbn. destruct (ls_down x); [by destruct (ls_up_done x)..|done]. }
    apply not_elem_of_cons in Hc as [Hc1 Hc]. cbn [session_run foldl]. apply (IH Hc). destruct t; [| |done].
    + cbn. destruct (ls_started x && negb (ls_up_done x)); [|done].
      assert (ls_stream (uplink_task x) = ls_stream x ∧ ls_down (uplink_task x) = ls_down x) as [-> ->]; [|done].
      unfold uplink_task. by repeat case_match.
    + cbn. destruct (ls_down x) as [|[|[must item] q] last|] eqn:Ed; destruct (ls_started x); cbn;
        rewrite ?Ed; try done; unfold downlink_task; rewrite Ed; cbn.
      * destruct (fr_items (ls_stream x)) as [|i items] eqn:Ei;
          [rewrite H1, Ed, Ei; by split_and!|].
        apply Forall_cons in H2 as [Hi H2]. destruct i as [[|t| | |]|]; try done. cbn in Hi.
        unfold text_items. rewrite Hi. by destruct (parse_inbound t) as [[]|].
      * by rewrite H3.
      * rewrite Hl. done.
Qed.


(** The uplink polls of a run. *)
Definition uplink_turns (ts : list Step) : nat :=
  length (List.filter (λ t, match t with St_Uplink => true | _ => false end) ts).
Lemma uplink_drains ts s :
  (∀ n f, send_result n f = Ok ()) →
  ls_started s = true → ls_up_done s = false → rv_open (ls_inbound s) = true →
  Forall relayable (rv_items (ls_inbound s)) →
  ls_up_done (session_run ts s) = false ∧
  ls_sent (session_run ts s) = ls_sent s ++ omap uplink_frame (take (uplink_turns ts) (rv_items (ls_inbound s))).
Proof.
  intros Hs. revert s. induction ts as [|t ts IH]; intros s Hst Hup Hop Hf; [by rewrite app_nil_r|].
  assert (∀ d st o, let s' := with_down d st o s in
    ls_up_done (session_run ts s') = false ∧
    ls_sent (session_run ts s') = ls_sent s ++ omap uplink_frame (take (uplink_turns ts) (rv_items (ls_inbound s))))
    as Hdown by (intros d st o; apply (IH (with_down d st o s)); done).
  change (session_run (t :: ts) s) with (session_run ts (session_step t s)). destruct t.
  - cbn. rewrite Hst, Hup. cbn. unfold uplink_task, uplink_frame, uplink_turns.
    destruct (rv_items (ls_inbound s)) as [|m rest] eqn:Hm.
    { rewrite Hop. destruct (IH s Hst Hup Hop) as [H1 H2]; [by rewrite Hm|]. rewrite Hm, take_nil in H2. done. }
    apply Forall_cons in Hf as [Hm1 Hf]. unfold relayable in Hm1. cbn.
    destruct (uplink_action m) as [msg| |]; [|done..].
    destruct (to_json msg) as [j|e]; [rewrite Hs|];
      match goal with |- context [session_run ts ?x] => destruct (IH x) as [H1 H2]; [done..|] end;
      (split; [exact H1|]); rewrite H2; cbn; by rewrite <-?app_assoc.
  - assert (∃ d st o, session_step St_Adapter s = with_down d st o s) as (d & st & o & ->); [|apply Hdown].
    cbn. rewrite Hst. unfold downlink_task.
    assert (∃ d st o, s = with_down d st o s) as Hid.
    { exists (ls_down s), (ls_stream s), (ls_out s). by destruct s as [[]]. }
    repeat case_match; eauto.
  - assert (session_step St_Cancel s = with_down LD_Done (ls_stream s) (ls_out s) s) as ->; [|apply Hdown].
    cbn. unfold cancel, with_down. rewrite Hst, Hup. by destruct s as [[]].
Qed.
(** A cancelled session is not over: once its adapter has started, [cancel] only stops the
    downlink.  While the caller's input is open, whatever is polled afterwards, the caller's
    [outbound] does not close (the documentation of [cancel] says it does shortly after) and
    the messages sent after the cancellation still reach the provider. *)
Theorem live_cancel_keeps_uplink (ts : list Step) (s : Session) :
  (∀ n f, send_result n f = Ok ()) →
  ls_started s = true → ls_up_done s = false → rv_open (ls_inbound s) = true →
  Forall relayable (rv_items (ls_inbound s)) →
  outbound_closed (session_run (St_Cancel :: ts) s) = false ∧
  (length (rv_items (ls_inbound s)) ≤ uplink_turns ts →
   ls_sent (session_run (St_Cancel :: ts) s) = ls_sent s ++ omap uplink_frame (rv_items (ls_inbound s)))%nat.
Proof.
  intros Hs Hst Hup Hop Hf. destruct (uplink_drains (St_Cancel :: ts) s Hs Hst Hup Hop Hf) as [H1 H2].
  split; [unfold outbound_closed; by rewrite H1|]. intros Hn. rewrite H2. f_equal.
  change (uplink_turns (St_Cancel :: ts)) with (uplink_turns ts). by rewrite take_ge.
Qed.

(** ** [open_session] *)

Context {Url Sender : Type} `{!UrlOps Url}.
Variable connect : string → Duration → result WsError FrameReceiver.
Record GeminiLiveRunner : Type := { gl_config : GeminiLiveConfig Url; gl_session : string }.
Definition gemini_live_new (c : GeminiLiveConfig Url) (session : string) : InferenceResult GeminiLiveRunner :=
  Ok {| gl_config := c; gl_session := session |}.
(** [None]: the handshake never ends. *)
Definition open_session (r : GeminiLiveRunner) (batch : RealtimeBatch Url RealtimeReceiver Sender) :
  option (InferenceResult (RealtimeSession * Session)) :=
  match rb_voice batch with
  | VR_ClonedFrom _ => Some (Err (gemini_live_error_into
      (GLE_BadRequest "Gemini Live does not support VoiceRef::ClonedFrom")))
  | _ =>
      let connected : InferenceResult (FrameReceiver * string) :=
        let? url := map_err (λ e, Internal ("gemini live url: " +:+ e)) (live_url (gl_config r) (gl_session r)) in
        let? rx := map_err (λ e, NetworkError ("gemini live ws connect: " +:+ ws_error_to_string e))
          (connect (url_as_str url) (gl_ws_connect_timeout (gl_config r))) in
        let setup := LM_Setup {| su_model := "models/" +:+ rb_model batch; su_response_modalities := ["AUDIO"] |} in
        let? json := map_err (λ e, Internal ("setup serialize: " +:+ e)) (to_json setup) in
        let? _ := map_err (λ e, NetworkError ("gemini live setup send: " +:+ ws_error_to_string e))
          (send_result 0 (Fr_Text json)) in
        Ok (rx, json) in
      match connected with
      | Err e => Some (Err e)
      | Ok (rx, json) =>
          match await_setup (fr_items rx) (fr_live rx) with
          | None => None
          | Some (Err e) => Some (Err e)
          | Some (Ok rest) =>
              Some (Ok (RealtimeSession_new (rb_request_id batch), {|
                ls_inbound := rb_inbound batch; ls_stream := {| fr_items := rest; fr_live := fr_live rx |};
                ls_started := false; ls_up_done := false; ls_down := LD_Recv; ls_sends := 1;
                ls_sent := [Fr_Text json]; ls_out := [] |}))
          end
      end
  end.
(** Gating of the handshake: a session is only handed to the caller after the provider
    said [setupComplete], and up to then the provider was sent the setup message and nothing
    of the caller's input; the frames skipped are no errors, and those after are kept. *)
Theorem open_session_gated (r : GeminiLiveRunner) (batch : RealtimeBatch Url RealtimeReceiver Sender)
    (h : RealtimeSession) (s : Session) :
  open_session r batch = Some (Ok (h, s)) →
  ∃ u timeout rx json pre t,
    connect u timeout = Ok rx ∧ fr_items rx = pre ++ Ok (Fr_Text t) :: fr_items (ls_stream s) ∧
    parse_inbound t = Ok IB_SetupComplete ∧ Forall ignorable pre ∧
    to_json (LM_Setup {| su_model := "models/" +:+ rb_model batch; su_response_modalities := ["AUDIO"] |}) = Ok json ∧
    ls_sent s = [Fr_Text json] ∧ ls_inbound s = rb_inbound batch ∧ ls_out s = [] ∧
    (∀ id, rb_voice batch ≠ VR_ClonedFrom id).
Proof.
  unfold open_session. intros H.
  destruct (live_url (gl_config r) (gl_session r)) as [url|] eqn:Hu;
    [|by destruct (rb_voice batch)].
  destruct (connect (url_as_str url) (gl_ws_connect_timeout (gl_config r))) as [rx|] eqn:Hc;
    [|by cbn in H; rewrite Hc in H; destruct (rb_voice batch)].
  cbn in H. rewrite Hc in H.
  match type of H with context [to_json ?m] => destruct (to_json m) as [json|] eqn:Hj end;
    [|by cbn in H; destruct (rb_voice batch)].
  cbn in H. destruct (send_result 0 (Fr_Text json)) as [|] eqn:Hsd; [|by cbn in H; destruct (rb_voice batch)].
  cbn in H. destruct (await_setup (fr_items rx) (fr_live rx)) as [[rest|]|] eqn:Hw;
    [|by destruct (rb_voice batch)..].
  apply await_setup_ok in Hw as (pre & t & Hi & Ht & Hf).
  exists (url_as_str url), (gl_ws_connect_timeout (gl_config r)), rx, json, pre, t.
  destruct (rb_voice batch); simplify_eq; done.
Qed.
Definition gemini_live_base : RunnerBase GeminiLiveRunner := {|
  runner_kind _ := RK_RealtimeSpeech;
  runner_transport _ := TK_RemoteNetwork PK_Gemini;
  rebuild_session r _ := (r, Ok ());
  rate_limits r := Some (gl_rate_limits (gl_config r))
|}.
End live.
Arguments GeminiLiveRunner Url : clear implicits.

(** ** Witnesses *)

Definition demo_message (m : ClientMessage) : result string string :=
  Ok match m with LM_Setup _ => "setup" | LM_ClientContent _ => "turn" | LM_RealtimeInput _ => "audio" end.
Definition demo_says (t : string) : Inbound := IB_ServerContent {|
  sc_model_turn := Some {| mt_parts := [{| mp_inline_data := None; mp_text := Some t |}] |};
  sc_turn_complete := Some true; sc_interrupted := None |}.
Definition demo_inbound (t : string) : result string Inbound :=
  if decide (t = "ready") then Ok IB_SetupComplete else Ok (demo_says t).
Definition demo_error (t : string) : bool := bool_decide (t = "error").
Definition demo_socket : FrameReceiver :=
  {| fr_items := [Ok (Fr_Text "hello"); Ok (Fr_Close 1000 "bye")]; fr_live := true |}.
Definition demo_caller : RealtimeReceiver := {| rv_items := [RI_Text "hi"; RI_Commit; RI_Close]; rv_open := true |}.
Definition demo_session : Session := {|
  ls_inbound := demo_caller; ls_stream := demo_socket; ls_started := false; ls_up_done := false;
  ls_down := LD_Recv; ls_sends := 1; ls_sent := [Fr_Text "setup"]; ls_out := []
|}.
Definition demo_talking : Session := {|
  ls_inbound := {| rv_items := [RI_Text "still there?"]; rv_open := true |}; ls_stream := demo_socket;
  ls_started := true; ls_up_done := false; ls_down := LD_Recv; ls_sends := 1;
  ls_sent := [Fr_Text "setup"]; ls_out := []
|}.
Definition demo_run : list Step → Session → Session :=
  session_run demo_message demo_inbound demo_error (λ _, "") (λ _, Err "") (λ _ _, Ok ()) (λ _, true).
Definition demo_turns : list Step :=
  [St_Adapter; St_Adapter; St_Uplink; St_Uplink; St_Adapter; St_Uplink; St_Adapter; St_Adapter; St_Adapter;
   St_Adapter; St_Adapter].
(** Two turns are relayed and answered; then neither side has anything more to say. *)
Definition demo_quiet : RealtimeReceiver := {| rv_items := [RI_Text "hi"; RI_Commit]; rv_open := true |}.
Lemma demo_quiet_no_close : RI_Close ∉ rv_items demo_quiet.
Proof. intros [?|[?|[]%elem_of_nil]%elem_of_cons]%elem_of_cons; done. Qed.
Lemma live_relay_witness :
  (∃ cin, rv_items demo_quiet = cin ++ [] ∧
    ls_sent (demo_run demo_turns {| ls_inbound := demo_quiet; ls_stream := demo_socket; ls_started := false;
      ls_up_done := false; ls_down := LD_Recv; ls_sends := 1; ls_sent := [Fr_Text "setup"]; ls_out := [] |}) =
      Fr_Text "setup" :: omap (uplink_frame demo_message (λ _, "")) cin) ∧
  ∃ down, live_script demo_inbound demo_error (λ _, Err "") (fr_items demo_socket) true = down ++ [].
Proof.
  destruct (proj1 (live_relay demo_message demo_inbound demo_error (λ _, "") (λ _, Err "") (λ _ _, Ok ()) (λ _, true)
    demo_quiet demo_socket (Fr_Text "setup") (λ _ _, eq_refl) (λ _, eq_refl) (λ m, ex_intro _ _ eq_refl)
    demo_quiet_no_close) demo_turns) as (cin & down & Hi & _ & _ & Hd).
  split.
  - exists cin. split; [exact Hi|]. rewrite app_nil_r in Hi. rewrite <-Hi. reflexivity.
  - exists down. apply Hd. apply (bool_decide_unpack _). vm_compute. exact I.
Defined.
Lemma live_cancel_keeps_uplink_witness :
  outbound_closed (demo_run [St_Cancel; St_Adapter; St_Uplink] demo_talking) = false ∧
  ls_sent (demo_run [St_Cancel; St_Adapter; St_Uplink] demo_talking) = [Fr_Text "setup"; Fr_Text "turn"].
Proof.
  destruct (live_cancel_keeps_uplink demo_message demo_inbound demo_error (λ _, "") (λ _, Err "") (λ _ _, Ok ())
    (λ _, true) [St_Adapter; St_Uplink] demo_talking (λ _ _, eq_refl) eq_refl eq_refl eq_refl) as [H1 H2].
  { repeat constructor. }
  split; [exact H1|]. apply H2. vm_compute. reflexivity.
Defined.
Definition demo_runner : GeminiLiveRunner DemoUrl := {|
  gl_config := {| gl_ws_endpoint := ("wss://g/", []); gl_api_key := GK_Env "KEY";
    gl_ws_connect_timeout := default_ws_connect_timeout; gl_rate_limits := RateLimits_default;
    gl_retry := RetryPolicy_default; gl_circuit_breaker := CircuitBreakerConfig_default;
    gl_timeouts := Timeouts_default |};
  gl_session := "secret" |}.
Definition demo_batch : RealtimeBatch DemoUrl RealtimeReceiver unit := {|
  rb_request_id := "r"; rb_model := "flash"; rb_voice := VR_Named "v"; rb_options := SynthOptions_default;
  rb_inbound := demo_caller; rb_outbound := () |}.
Definition demo_connect (_ : string) (_ : Duration) : result WsError FrameReceiver :=
  Ok {| fr_items := [Ok (Fr_Ping []); Ok (Fr_Text "ready"); Ok (Fr_Text "hello")]; fr_live := true |}.
Lemma open_session_gated_witness :
  ∃ pre t, ([Ok (Fr_Ping []); Ok (Fr_Text "ready"); Ok (Fr_Text "hello")] : list (result WsError Frame)) =
      pre ++ Ok (Fr_Text t) :: [Ok (Fr_Text "hello")] ∧
    demo_inbound t = Ok IB_SetupComplete ∧ Forall (ignorable demo_inbound demo_error) pre.
Proof.
  assert (open_session demo_message demo_inbound demo_error (λ _ _, Ok ()) demo_connect demo_runner demo_batch =
    Some (Ok (RealtimeSession_new "r", {| ls_inbound := demo_caller;
      ls_stream := {| fr_items := [Ok (Fr_Text "hello")]; fr_live := true |}; ls_started := false;
      ls_up_done := false; ls_down := LD_Recv; ls_sends := 1; ls_sent := [Fr_Text "setup"]; ls_out := [] |})))
    as Hopen by (vm_compute; reflexivity).
  destruct (open_session_gated demo_message demo_inbound demo_error (λ _ _, Ok ()) demo_connect _ _ _ _ Hopen)
    as (u & timeout & rx & json & pre & t & Hc & Hi & Ht & Hf & _).
  exists pre, t. split; [|split; [exact Ht|exact Hf]]. unfold demo_connect in Hc. injection Hc as <-. exact Hi.
Defined.
