(* ===== verification/WavDecode.v ===== *)
(** * Audio decoding for the local Whisper runtime

    Models [inference-runtime-whisper-local/src/audio_decode.rs]: materializing a
    payload as 16 kHz mono samples, with its hand-written RIFF/WAVE reader.  Reading a
    file is a parameter.  Every slice and index of the source is checked: [None] is
    a panic, or fuel exhausted; both are excluded by [payload_decode_total].  The only
    error of the module is [WhisperError::UnsupportedAudio], known by its message. *)
From Stdlib Require Import SpecFloat.
From S2P Require Import Prelude F64 Runtime Audio.

Abbreviation Bytes := (list Z) (only parsing).

(** ** [f32] *)

(** [f32::from_bits]. *)
Definition f32_from_bits (b : Z) : f32 :=
  let sign := 2 ^ 31 <=? b in
  let exponent := (b `div` 2 ^ 23) `mod` 256 in
  let mantissa := b `mod` 2 ^ 23 in
  if exponent =? 255 then (if mantissa =? 0 then S754_infinity sign else S754_nan)
  else if exponent =? 0 then
    match mantissa with Zpos m => S754_finite sign m (-149) | _ => S754_zero sign end
  else match mantissa + 2 ^ 23 with Zpos m => S754_finite sign m (exponent - 150) | _ => S754_nan end.
(** [i16::from_le_bytes]. *)
Definition as_i16 (x : Z) : Z := if x <? 2 ^ 15 then x else x - 2 ^ 16.
Definition pcm16_sample (s : Z) : f32 := f32_div (f32_of_Z s) (f32_of_Z 32767).

(** ** Slices *)

Definition blen (l : Bytes) : Z := Z.of_nat (length l).
Definition slice (data : Bytes) (a b : Z) : option Bytes :=
  if (0 <=? a) && (a <=? b) && (b <=? blen data)
  then Some (take (Z.to_nat (b - a)) (drop (Z.to_nat a) data)) else None.

(** [chunks_exact(n)], mapped. *)
Fixpoint chunks2 {A} (f : Z → Z → A) (l : Bytes) : list A :=
  match l with a :: b :: r => f a b :: chunks2 f r | _ => [] end.
Fixpoint chunks4 {A} (f : Z → Z → Z → Z → A) (l : Bytes) : list A :=
  match l with a :: b :: c :: d :: r => f a b c d :: chunks4 f r | _ => [] end.

Definition decode_pcm16 (data : Bytes) : result string (list f32) :=
  if negb (blen data `mod` 2 =? 0) then
    Err ("Pcm16Le payload byte length " +:+ pretty (blen data) +:+ " is not a multiple of 2")
  else Ok (chunks2 (λ a b, pcm16_sample (as_i16 (of_le_bytes [a; b]))) data).
Definition decode_pcm_f32 (data : Bytes) : result string (list f32) :=
  if negb (blen data `mod` 4 =? 0) then
    Err ("PcmF32Le payload byte length " +:+ pretty (blen data) +:+ " is not a multiple of 4")
  else Ok (chunks4 (λ a b c d, f32_from_bits (of_le_bytes [a; b; c; d])) data).

(** ** The RIFF reader *)

Record WavState : Type := {
  fmt_tag : option Z; w_channels : option Z; w_sample_rate : option Z;
  bits_per_sample : option Z; w_audio : option Bytes
}.
Definition WavState_empty : WavState :=
  {| fmt_tag := None; w_channels := None; w_sample_rate := None; bits_per_sample := None;
     w_audio := None |}.

Section wav.
(** [String::from_utf8_lossy]. *)
Variable lossy : Bytes → string.

(** The [match id] of the loop. *)
Definition wav_chunk (id body : Bytes) (st : WavState) : option WavState :=
  if decide (id = string_bytes "fmt " ∧ 16 ≤ blen body) then
    t ← slice body 0 2; c ← slice body 2 4; r ← slice body 4 8; b ← slice body 14 16;
    Some {| fmt_tag := Some (of_le_bytes t); w_channels := Some (of_le_bytes c);
            w_sample_rate := Some (of_le_bytes r); bits_per_sample := Some (of_le_bytes b);
            w_audio := w_audio st |}
  else if decide (id = string_bytes "data") then
    Some {| fmt_tag := fmt_tag st; w_channels := w_channels st; w_sample_rate := w_sample_rate st;
            bits_per_sample := bits_per_sample st; w_audio := Some body |}
  else Some st.

(** [while pos + 8 <= data.len()]. *)
Fixpoint wav_loop (fuel : nat) (data : Bytes) (pos : Z) (st : WavState) :
  option (result string WavState) :=
  match fuel with
  | O => None
  | S fuel' =>
      if pos + 8 <=? blen data then
        id ← slice data pos (pos + 4);
        sz ← slice data (pos + 4) (pos + 8);
        let size := of_le_bytes sz in
        let body_start := pos + 8 in
        let body_end := body_start + size in
        if 2 ^ 64 <=? body_end then Some (Err "WAV: chunk size overflow")
        else if blen data <? body_end then
          Some (Err ("WAV: chunk `" +:+ lossy id +:+ "` extends past EOF"))
        else
          body ← slice data body_start body_end;
          st' ← wav_chunk id body st;
          let advance := if size `mod` 2 =? 0 then size else size + 1 in
          wav_loop fuel' data (body_start + advance) st'
      else Some (Ok st)
  end.

(** What follows the loop. *)
Definition finish_wav (st : WavState) : result string (list f32) :=
  match fmt_tag st with
  | None => Err "WAV: missing fmt chunk"
  | Some tag =>
      let channels := default 0 (w_channels st) in
      let rate := default 0 (w_sample_rate st) in
      let bits := default 0 (bits_per_sample st) in
      match w_audio st with
      | None => Err "WAV: missing data chunk"
      | Some audio =>
          if negb (channels =? 1) then
            Err ("WAV: expected mono, got " +:+ pretty channels +:+ " channels")
          else if negb (rate =? 16000) then
            Err ("WAV: expected 16000 Hz, got " +:+ pretty rate +:+ " Hz")
          else if (tag =? 1) && (bits =? 16) then decode_pcm16 audio
          else if (tag =? 3) && (bits =? 32) then decode_pcm_f32 audio
          else Err ("WAV: only PCM-16 (fmt 1, 16-bit) or IEEE-FLOAT (fmt 3, 32-bit) supported; got fmt "
                    +:+ pretty tag +:+ "/" +:+ pretty bits +:+ "-bit")
      end
  end.

Definition decode_wav (data : Bytes) : option (result string (list f32)) :=
  let bad := Some (Err "WAV: missing RIFF/WAVE header") in
  if blen data <? 12 then bad
  else
    riff ← slice data 0 4; wave ← slice data 8 12;
    if decide (riff ≠ string_bytes "RIFF" ∨ wave ≠ string_bytes "WAVE") then bad
    else
      res ← wav_loop (S (length data)) data 12 WavState_empty;
      Some (let? st := res in finish_wav st).

(** ** Payloads *)

Definition check_params (p : AudioParams) (cfg_sample_rate : Z) : result string unit :=
  if negb (sample_rate_hz p =? cfg_sample_rate) then
    Err ("expected " +:+ pretty cfg_sample_rate +:+ " Hz, got " +:+ pretty (sample_rate_hz p) +:+
         " Hz (resample upstream — whisper.cpp is hard-coded to 16 kHz)")
  else if negb (channels p =? 1) then
    Err ("expected mono, got " +:+ pretty (channels p) +:+ " channels (mix down upstream)")
  else Ok ().

Definition decode_bytes (data : Bytes) (p : AudioParams) : option (result string (list f32)) :=
  match format p with
  | AF_Pcm16Le => Some (decode_pcm16 data)
  | AF_PcmF32Le => Some (decode_pcm_f32 data)
  | AF_Wav => decode_wav data
  | other => Some (Err ("format " +:+ debug_AudioFormat other +:+
      " not handled by whisper-local; supply Pcm16Le, PcmF32Le or Wav"))
  end.

Section payload.
Context {Url : Type}.
(** [std::fs::read]: whether the error is [NotFound], and its text. *)
Variable fs_read : string → result (bool * string) Bytes.
Definition read_file (path : string) : result string Bytes :=
  map_err (λ '(not_found, e),
    if not_found : bool then "audio file not found at " +:+ path
    else "audio file io error at " +:+ path +:+ ": " +:+ e) (fs_read path).

Definition payload_to_f32_pcm (payload : AudioPayload Url) (cfg_sample_rate : Z) :
  option (result string (list f32)) :=
  match payload with
  | AP_Bytes data params =>
      match check_params params cfg_sample_rate with
      | Err e => Some (Err e)
      | Ok _ => decode_bytes data params
      end
  | AP_Path path params =>
      match check_params params cfg_sample_rate with
      | Err e => Some (Err e)
      | Ok _ =>
          match read_file path with
          | Err e => Some (Err e)
          | Ok bytes => decode_bytes bytes params
          end
      end
  | AP_Url _ _ =>
      Some (Err "AudioPayload::Url not implemented for local whisper.cpp; fetch upstream")
  end.

End payload.

(** ** The reader is total *)

Lemma slice_some data a b : 0 ≤ a ≤ b → b ≤ blen data → ∃ s, slice data a b = Some s ∧ blen s = b - a.
Proof.
  intros H1 H2. unfold slice. rewrite !(proj2 (Z.leb_le _ _)) by lia. eexists. split; [done|].
  unfold blen in *. rewrite length_take, length_drop. lia.
Qed.
Lemma wav_chunk_some id body st : is_Some (wav_chunk id body st).
Proof.
  unfold wav_chunk. case_decide as H; [|by case_decide].
  destruct H as [_ H].
  destruct (slice_some body 0 2) as (? & -> & _); [lia..|].
  destruct (slice_some body 2 4) as (? & -> & _); [lia..|].
  destruct (slice_some body 4 8) as (? & -> & _); [lia..|].
  destruct (slice_some body 14 16) as (? & -> & _); [lia..|]. done.
Qed.
Lemma of_le_bytes_nonneg l : Forall (is_u 8) l → 0 ≤ of_le_bytes l.
Proof. induction 1 as [|x l [Hx _] _ IH]; cbn [of_le_bytes]; lia. Qed.
Lemma slice_bytes data a b s : Forall (is_u 8) data → slice data a b = Some s → Forall (is_u 8) s.
Proof. unfold slice. case_match; intros; simplify_eq. by apply Forall_take, Forall_drop. Qed.

Lemma wav_loop_total fuel data pos st :
  Forall (is_u 8) data → 0 ≤ pos → blen data - pos < Z.of_nat fuel → 0 < Z.of_nat fuel →
  is_Some (wav_loop fuel data pos st).
Proof.
  intros Hd. revert pos st. induction fuel as [|fuel IH]; intros pos st Hp Hf H0; [lia|].
  cbn [wav_loop]. destruct (Z.leb_spec (pos + 8) (blen data)); [|done].
  destruct (slice_some data pos (pos + 4)) as (id & -> & _); [lia..|].
  destruct (slice_some data (pos + 4) (pos + 8)) as (sz & Hsz & _); [lia..|]. rewrite Hsz.
  cbn [mbind option_bind].
  pose proof (of_le_bytes_nonneg sz (slice_bytes _ _ _ _ Hd Hsz)) as Hs.
  destruct (2 ^ 64 <=? pos + 8 + of_le_bytes sz); [done|].
  destruct (Z.ltb_spec (blen data) (pos + 8 + of_le_bytes sz)); [done|].
  destruct (slice_some data (pos + 8) (pos + 8 + of_le_bytes sz)) as (body & -> & _); [lia..|].
  cbn [mbind option_bind]. destruct (wav_chunk_some id body st) as [st' ->]. cbn [mbind option_bind].
  apply IH; destruct (of_le_bytes sz `mod` 2 =? 0); lia.
Qed.

(** ** Reading back what a writer produces

    A RIFF file as a list of chunks (id, body): the body is preceded by its length and
    padded to an even one. *)
Definition chunk_bytes (c : Bytes * Bytes) : Bytes :=
  c.1 ++ to_le_bytes 4 (blen c.2) ++ c.2 ++ (if blen c.2 `mod` 2 =? 0 then [] else [0]).
Definition riff_bytes (chunks : list (Bytes * Bytes)) : Bytes :=
  let payload := concat (map chunk_bytes chunks) in
  string_bytes "RIFF" ++ to_le_bytes 4 (4 + blen payload) ++ string_bytes "WAVE" ++ payload.
Definition fmt_chunk (tag ch rate bits : Z) (extra : Bytes) : Bytes * Bytes :=
  (string_bytes "fmt ",
   to_le_bytes 2 tag ++ to_le_bytes 2 ch ++ to_le_bytes 4 rate ++
   to_le_bytes 4 (rate * (ch * (bits `div` 8))) ++ to_le_bytes 2 (ch * (bits `div` 8)) ++
   to_le_bytes 2 bits ++ extra).
(** [i16::to_le_bytes] of each sample. *)
Definition pcm16_bytes (samples : list Z) : Bytes :=
  concat (map (λ s, to_le_bytes 2 (s `mod` 2 ^ 16)) samples).
Definition chunk_ok (c : Bytes * Bytes) : Prop := length c.1 = 4%nat ∧ blen c.2 < 2 ^ 32.

Lemma blen_app a b : blen (a ++ b) = blen a + blen b.
Proof. unfold blen. rewrite length_app. lia. Qed.
Lemma blen_nonneg a : 0 ≤ blen a.
Proof. unfold blen. lia. Qed.
Lemma blen_le n x : blen (to_le_bytes n x) = Z.of_nat n.
Proof. unfold blen. by rewrite length_to_le_bytes. Qed.
Lemma slice_app_r a b m e :
  blen a ≤ m → slice (a ++ b) m e = slice b (m - blen a) (e - blen a).
Proof.
  intros Hm. unfold slice. rewrite blen_app. pose proof (blen_nonneg a).
  rewrite (proj2 (Z.leb_le 0 m)), (proj2 (Z.leb_le 0 (m - blen a))) by lia. cbn [andb].
  replace (e - blen a <=? blen b) with (e <=? blen a + blen b)
    by (apply eq_true_iff_eq; rewrite !Z.leb_le; lia).
  replace (m - blen a <=? e - blen a) with (m <=? e)
    by (apply eq_true_iff_eq; rewrite !Z.leb_le; lia).
  destruct (_ && _); [|done]. f_equal. replace (e - blen a - (m - blen a)) with (e - m) by lia.
  f_equal. replace (Z.to_nat m) with (length a + Z.to_nat (m - blen a))%nat by (unfold blen in *; lia).
  by rewrite <- drop_drop, drop_app_length.
Qed.
Lemma slice_prefix b c e : e = blen b → slice (b ++ c) 0 e = Some b.
Proof.
  intros ->. unfold slice. rewrite blen_app. pose proof (blen_nonneg b). pose proof (blen_nonneg c).
  rewrite !(proj2 (Z.leb_le _ _)) by lia. cbn [andb]. f_equal. unfold blen. rewrite drop_0.
  by rewrite Z.sub_0_r, Nat2Z.id, take_app_length.
Qed.
Lemma slice_mid a b c m e : m = blen a → e = blen a + blen b → slice (a ++ b ++ c) m e = Some b.
Proof. intros -> ->. rewrite slice_app_r, Z.sub_diag by lia. apply slice_prefix. lia. Qed.

Lemma wav_loop_chunk fuel a id body rest st :
  length id = 4%nat → blen body < 2 ^ 32 → blen (a ++ chunk_bytes (id, body) ++ rest) < 2 ^ 63 →
  wav_loop (S fuel) (a ++ chunk_bytes (id, body) ++ rest) (blen a) st =
  st' ← wav_chunk id body st;
  wav_loop fuel ((a ++ chunk_bytes (id, body)) ++ rest) (blen (a ++ chunk_bytes (id, body))) st'.
Proof.
  intros Hid Hb Hlen. rewrite <- app_assoc. set (data := a ++ chunk_bytes (id, body) ++ rest) in *.
  assert (blen id = 4) as Hi by (unfold blen; lia). pose proof (blen_nonneg body) as Hb0.
  pose proof (blen_nonneg a). pose proof (blen_nonneg rest).
  assert (blen (chunk_bytes (id, body)) =
    8 + (if blen body `mod` 2 =? 0 then blen body else blen body + 1)) as Hc.
  { unfold chunk_bytes. cbn [fst snd]. rewrite !blen_app, blen_le, Hi.
    destruct (_ =? 0); unfold blen; cbn [length]; lia. }
  assert (blen data = blen a + (blen (chunk_bytes (id, body)) + blen rest)) as Hd
    by (unfold data; by rewrite !blen_app).
  set (pad := if blen body `mod` 2 =? 0 then [] else [0]).
  assert (slice data (blen a) (blen a + 4) = Some id) as S1.
  { unfold data, chunk_bytes. cbn [fst snd]. rewrite <- app_assoc. apply slice_mid; lia. }
  assert (slice data (blen a + 4) (blen a + 8) = Some (to_le_bytes 4 (blen body))) as S2.
  { unfold data, chunk_bytes. cbn [fst snd]. rewrite <- !app_assoc, app_assoc.
    apply slice_mid; rewrite ?blen_app, ?blen_le; lia. }
  assert (slice data (blen a + 8) (blen a + 8 + blen body) = Some body) as S3.
  { unfold data, chunk_bytes. cbn [fst snd]. rewrite <- !app_assoc, app_assoc, (app_assoc (a ++ id)).
    apply slice_mid; rewrite ?blen_app, ?blen_le; lia. }
  cbn [wav_loop]. rewrite (proj2 (Z.leb_le _ _)) by (destruct (blen body `mod` 2 =? 0); lia).
  rewrite S1, S2. cbn [mbind option_bind]. rewrite of_to_le_bytes by lia.
  rewrite (proj2 (Z.leb_gt (2 ^ 64) _)) by (destruct (blen body `mod` 2 =? 0); lia).
  rewrite (proj2 (Z.ltb_ge (blen data) _)) by (destruct (blen body `mod` 2 =? 0); lia).
  rewrite S3. cbn [mbind option_bind]. destruct (wav_chunk id body st) as [st'|]; [|done].
  cbn [mbind option_bind]. f_equal. rewrite blen_app, Hc. destruct (blen body `mod` 2 =? 0); lia.
Qed.

(** The walk reads the chunks one after the other. *)
Lemma wav_loop_chunks fuel a chunks st :
  Forall chunk_ok chunks → blen (a ++ concat (map chunk_bytes chunks)) < 2 ^ 63 →
  (length chunks < fuel)%nat →
  wav_loop fuel (a ++ concat (map chunk_bytes chunks)) (blen a) st =
  Ok <$> foldl (λ o c, st ← o; wav_chunk c.1 c.2 st) (Some st) chunks.
Proof.
  intros Hok. revert fuel a st.
  induction Hok as [|[id body] chunks [Hid Hb] Hok IH]; intros fuel a st Hlen Hf; cbn [length] in Hf;
    (destruct fuel as [|fuel]; [lia|]).
  - cbn [map concat wav_loop foldl]. rewrite app_nil_r. by rewrite (proj2 (Z.leb_gt _ _)) by lia.
  - cbn [map concat foldl fst snd mbind option_bind] in *. rewrite wav_loop_chunk by done.
    destruct (wav_chunk_some id body st) as [st' ->]. cbn [mbind option_bind].
    apply IH; [|lia]. by rewrite <- app_assoc.
Qed.
Lemma length_chunks chunks : (length chunks ≤ length (concat (map chunk_bytes chunks)))%nat.
Proof.
  induction chunks as [|c chunks IH]; cbn [map concat length]; [lia|].
  rewrite length_app. unfold chunk_bytes at 1. rewrite !length_app, length_to_le_bytes. lia.
Qed.
Lemma decode_wav_riff chunks :
  Forall chunk_ok chunks → blen (riff_bytes chunks) < 2 ^ 63 →
  decode_wav (riff_bytes chunks) =
  st ← foldl (λ o c, st ← o; wav_chunk c.1 c.2 st) (Some WavState_empty) chunks;
  Some (finish_wav st).
Proof.
  intros Hok Hlen. unfold decode_wav.
  set (head := string_bytes "RIFF" ++ to_le_bytes 4 (4 + blen (concat (map chunk_bytes chunks))) ++
               string_bytes "WAVE").
  assert (riff_bytes chunks = head ++ concat (map chunk_bytes chunks)) as Hr.
  { unfold riff_bytes, head. by rewrite <- !app_assoc. }
  assert (blen head = 12) as Hh.
  { unfold head. rewrite !blen_app, blen_le. done. }
  pose proof (blen_nonneg (concat (map chunk_bytes chunks))).
  rewrite (proj2 (Z.ltb_ge _ _)) by (rewrite Hr, blen_app; lia).
  assert (slice (riff_bytes chunks) 0 4 = Some (string_bytes "RIFF")) as -> by (by apply slice_prefix).
  assert (slice (riff_bytes chunks) 8 12 = Some (string_bytes "WAVE")) as ->.
  { unfold riff_bytes. rewrite app_assoc. apply slice_mid; rewrite !blen_app, blen_le; done. }
  cbn [mbind option_bind]. rewrite decide_False by (intros [[]|[]]; done).
  pose proof (wav_loop_chunks (S (length (riff_bytes chunks))) head chunks WavState_empty Hok) as HL.
  rewrite <- Hr, Hh in HL. rewrite HL; [by destruct (foldl _ _ chunks)|done|].
  rewrite Hr, length_app. pose proof (length_chunks chunks). lia.
Qed.

Lemma foldl_ignored chunks st :
  Forall (λ c, c.1 ≠ string_bytes "fmt " ∧ c.1 ≠ string_bytes "data") chunks →
  foldl (λ o c, st ← o; wav_chunk c.1 c.2 st) (Some st) chunks = Some st.
Proof.
  induction 1 as [|[id body] chunks [H1 H2] _ IH]; cbn [foldl fst snd mbind option_bind] in *; [done|].
  unfold wav_chunk at 2. rewrite decide_False by (by intros [? _]). by rewrite decide_False.
Qed.
Lemma wav_chunk_fmt tag ch rate bits extra st :
  is_u 16 tag → is_u 16 ch → is_u 32 rate → is_u 16 bits →
  wav_chunk (fmt_chunk tag ch rate bits extra).1 (fmt_chunk tag ch rate bits extra).2 st =
  Some {| fmt_tag := Some tag; w_channels := Some ch; w_sample_rate := Some rate;
          bits_per_sample := Some bits; w_audio := w_audio st |}.
Proof.
  intros Ht Hc Hr Hb. unfold is_u in *. unfold wav_chunk, fmt_chunk. cbn [fst snd].
  rewrite decide_True by (split; [done|]; rewrite !blen_app, !blen_le; pose proof (blen_nonneg extra); lia).
  rewrite slice_prefix by (by rewrite blen_le).
  rewrite (slice_mid _ _ _ 2 4) by (by rewrite ?blen_le).
  rewrite (app_assoc (to_le_bytes 2 tag)), (slice_mid _ _ _ 4 8) by (by rewrite ?blen_app, ?blen_le).
  rewrite (app_assoc _ (to_le_bytes 4 rate)), (app_assoc _ (to_le_bytes 4 _)),
    (app_assoc _ (to_le_bytes 2 (ch * _))), (slice_mid _ _ _ 14 16) by (by rewrite ?blen_app, ?blen_le).
  cbn [mbind option_bind]. by rewrite !of_to_le_bytes by lia.
Qed.
Lemma decode_pcm16_bytes samples :
  Forall (λ s, - 2 ^ 15 ≤ s < 2 ^ 15) samples →
  decode_pcm16 (pcm16_bytes samples) = Ok (map pcm16_sample samples).
Proof.
  intros Hs. assert (blen (pcm16_bytes samples) = 2 * Z.of_nat (length samples)) as Hl.
  { clear Hs. unfold pcm16_bytes. induction samples as [|s l IH]; [done|].
    cbn [map concat length]. rewrite blen_app, blen_le, IH. lia. }
  unfold decode_pcm16. rewrite Hl, Z.mul_comm, Z.mod_mul by done. cbn [Z.eqb negb]. f_equal. clear Hl.
  induction Hs as [|s l Hs _ IH]; [done|].
  change (pcm16_bytes (s :: l)) with (to_le_bytes 2 (s `mod` 2 ^ 16) ++ pcm16_bytes l).
  cbn [to_le_bytes app chunks2 map]. rewrite IH. f_equal. f_equal.
  change [(s `mod` 2 ^ 16) `mod` 256; ((s `mod` 2 ^ 16) `div` 256) `mod` 256]
    with (to_le_bytes 2 (s `mod` 2 ^ 16)).
  rewrite of_to_le_bytes by (apply Z.mod_pos_bound; lia). unfold as_i16.
  change (2 ^ 16) with 65536 in *. change (2 ^ 15) with 32768 in *.
  destruct (Z.ltb_spec (s `mod` 65536) 32768); Z.to_euclidean_division_equations; lia.
Qed.

(** [C29] WAV round trip: a RIFF file that holds a 16 kHz mono 16-bit PCM format chunk
    (extended or not) and then a data chunk with the samples, with any other chunks of
    any length before, between and after them, decodes to exactly those samples, each
    divided by 32767 in single precision, in order: padding bytes, unknown chunks and
    the declared block sizes never leak into the audio. *)
Theorem wav_roundtrip (samples : list Z) (extra : Bytes) (junk1 junk2 junk3 : list (Bytes * Bytes)) :
  let chunks := junk1 ++ fmt_chunk 1 1 16000 16 extra ::
                junk2 ++ (string_bytes "data", pcm16_bytes samples) :: junk3 in
  Forall (λ s, - 2 ^ 15 ≤ s < 2 ^ 15) samples →
  Forall (λ c, c.1 ≠ string_bytes "fmt " ∧ c.1 ≠ string_bytes "data") (junk1 ++ junk2 ++ junk3) →
  Forall chunk_ok chunks → blen (riff_bytes chunks) < 2 ^ 63 →
  decode_bytes (riff_bytes chunks) {| sample_rate_hz := 16000; channels := 1; format := AF_Wav |} =
  Some (Ok (map pcm16_sample samples)).
Proof.
  intros chunks Hs Hj Hok Hlen. rewrite !Forall_app in Hj. destruct Hj as (H1 & H2 & H3).
  cbn [decode_bytes format]. rewrite decode_wav_riff by done. unfold chunks.
  rewrite foldl_app, foldl_ignored by done. cbn [foldl]. cbn [mbind option_bind].
  rewrite wav_chunk_fmt by done.
  rewrite foldl_app, foldl_ignored by done. cbn [foldl fst snd mbind option_bind].
  unfold wav_chunk at 2. rewrite decide_False by (by intros [? _]). rewrite decide_True by done.
  cbn [mbind option_bind fmt_tag w_channels w_sample_rate bits_per_sample].
  rewrite foldl_ignored by done. cbn [mbind option_bind]. f_equal. unfold finish_wav.
  cbn [fmt_tag w_channels w_sample_rate bits_per_sample w_audio default Z.eqb Pos.eqb negb andb].
  by apply decode_pcm16_bytes.
Qed.

(** The WAV reader never panics and always ends: on any sequence of bytes, however
    malformed, no slice is out of range and the chunk walk finishes within one round per
    byte; so decoding a payload of any format answers samples or an error. *)
Theorem payload_decode_total {Url} (fs_read : string → result (bool * string) Bytes)
    (payload : AudioPayload Url) (cfg_sample_rate : Z) :
  (∀ data (params : AudioParams), payload = AP_Bytes data params → Forall (is_u 8) data) →
  (∀ path data, fs_read path = Ok data → Forall (is_u 8) data) →
  is_Some (payload_to_f32_pcm fs_read payload cfg_sample_rate).
Proof.
  intros Hb Hf.
  assert (∀ data, Forall (is_u 8) data → is_Some (decode_wav data)) as Hwav.
  { intros data Hd. unfold decode_wav. destruct (Z.ltb_spec (blen data) 12); [done|].
    destruct (slice_some data 0 4) as (? & -> & _); [lia..|].
    destruct (slice_some data 8 12) as (? & -> & _); [lia..|]. cbn [mbind option_bind].
    case_decide; [done|].
    destruct (wav_loop_total (S (length data)) data 12 WavState_empty Hd) as [r ->];
      [lia|unfold blen; lia|lia|]. done. }
  assert (∀ data p, Forall (is_u 8) data → is_Some (decode_bytes data p)) as Hdec.
  { intros data p Hd. unfold decode_bytes. destruct (format p); try done. by apply Hwav. }
  destruct payload as [data p|path p|u p]; cbn [payload_to_f32_pcm]; [| |done].
  - destruct (check_params p _); [|done]. apply Hdec. by eapply Hb.
  - destruct (check_params p _); [|done]. unfold read_file.
    destruct (fs_read path) as [data|[nf e]] eqn:E; cbn [map_err]; [|done]. apply Hdec. by eapply Hf.
Qed.
End wav.

(** A 44-byte-header file with an extended format chunk and an odd unknown chunk. *)
Lemma wav_roundtrip_witness :
  decode_bytes (λ _, EmptyString)
    (riff_bytes [(string_bytes "LIST", [7]); fmt_chunk 1 1 16000 16 [0; 0];
                 (string_bytes "data", pcm16_bytes [0; 32767; -32768])])
    {| sample_rate_hz := 16000; channels := 1; format := AF_Wav |} =
  Some (Ok (map pcm16_sample [0; 32767; -32768])).
Proof.
  apply (wav_roundtrip (λ _, EmptyString) [0; 32767; -32768] [0; 0] [(string_bytes "LIST", [7])] [] []);
    [repeat constructor; lia|repeat constructor; done|repeat constructor|vm_compute; done].
Defined.
Lemma payload_decode_total_witness :
  is_Some (payload_to_f32_pcm (Url:=string) (λ _, EmptyString) (λ _, Ok [82; 73; 70; 70])
    (AP_Path "a.wav" {| sample_rate_hz := 16000; channels := 1; format := AF_Wav |}) 16000).
Proof.
  apply payload_decode_total; [intros data params H; discriminate H|].
  intros path data [= <-]. repeat constructor; unfold is_u; lia.
Defined.
(** The errors of the module, on files one field away from a good one. *)
Example wav_errors :
  let read c := decode_wav (λ _, "?") (riff_bytes c) in
  let data : Bytes * Bytes := (string_bytes "data", [0; 0; 0; 0]) in
  read [data] = Some (Err "WAV: missing fmt chunk") ∧
  read [fmt_chunk 1 1 16000 16 []] = Some (Err "WAV: missing data chunk") ∧
  read [fmt_chunk 1 2 16000 16 []; data] = Some (Err "WAV: expected mono, got 2 channels") ∧
  read [fmt_chunk 1 1 48000 16 []; data] = Some (Err "WAV: expected 16000 Hz, got 48000 Hz") ∧
  read [fmt_chunk 1 1 16000 24 []; data] = Some (Err "WAV: only PCM-16 (fmt 1, 16-bit) or IEEE-FLOAT (fmt 3, 32-bit) supported; got fmt 1/24-bit") ∧
  decode_wav (λ _, "?") (string_bytes "RIFX") = Some (Err "WAV: missing RIFF/WAVE header").
Proof. vm_compute. done. Qed.
