(* ===== verification/Whisper.v ===== *)
(** * Local Whisper runtime

    Models [inference-runtime-whisper-local/src]: [config.rs], [error.rs], [session.rs] and
    [runner.rs] on top of the decoder of [WavDecode].  whisper.cpp is a parameter: opening a
    model, creating a state, running it on samples, and the segments and tokens it then
    gives.  The build (feature and host architecture) is an argument. *)
From Stdlib Require Import SpecFloat.
From S2P Require Import Prelude F64 Runtime Tokens Text Audio Runner AudioProvider WavDecode.

(** ** Configuration (config.rs) *)

Record WhisperConfig : Type := {
  wc_model_path : string;
  wc_language : option string;
  wc_n_threads : option Z;
  wc_translate : bool;
  wc_word_timestamps : bool;
  wc_sample_rate_hz : Z
}.
Definition default_sample_rate : Z := 16000.
Definition WhisperConfig_default : WhisperConfig := {|
  wc_model_path := ""; wc_language := None; wc_n_threads := None; wc_translate := false;
  wc_word_timestamps := false; wc_sample_rate_hz := default_sample_rate
|}.

(** ** Errors (error.rs) *)

Inductive WhisperError : Type :=
  | Wh_ModelNotFound (path : string)
  | Wh_ModelIo (path source : string)
  | Wh_UnsupportedAudio (message : string)
  | Wh_StreamingNotSupported
  | Wh_Backend (message : string)
  | Wh_FeatureDisabled
  | Wh_UnsupportedArch (arch : string).
Definition whisper_error_to_string (e : WhisperError) : string :=
  match e with
  | Wh_ModelNotFound path => "whisper: model file not found at " +:+ path
  | Wh_ModelIo path source => "whisper: model io error at " +:+ path +:+ ": " +:+ source
  | Wh_UnsupportedAudio message => "whisper: unsupported audio format (" +:+ message +:+ ")"
  | Wh_StreamingNotSupported =>
      "whisper: streaming AudioInput not supported by this runtime (use AudioInput::Static)"
  | Wh_Backend m => "whisper: backend error: " +:+ m
  | Wh_FeatureDisabled =>
      "stt-whisper feature disabled at build time — rebuild with --features stt-whisper"
  | Wh_UnsupportedArch arch => "whisper: unsupported host architecture (" +:+ arch +:+ ")"
  end.
Definition with_arch_hint (e : InferenceError) (arch : string) : InferenceError :=
  match e with
  | Unsupported method runtime => Unsupported
      (method +:+ " (host arch `" +:+ arch +:+ "` is not in the supported set: linux-x86_64, linux-aarch64)") runtime
  | other => other
  end.
Definition whisper_error_into (e : WhisperError) : InferenceError :=
  match e with
  | Wh_ModelNotFound _ | Wh_ModelIo _ _ => BadRequest (whisper_error_to_string e)
  | Wh_UnsupportedAudio message => UnsupportedAudioFormat message
  | Wh_StreamingNotSupported => Unsupported "execute_audio" RK_SpeechToText
  | Wh_UnsupportedArch arch => with_arch_hint (Unsupported "execute_audio" RK_SpeechToText) arch
  | Wh_Backend _ | Wh_FeatureDisabled => Internal (whisper_error_to_string e)
  end.

(** ** The session (session.rs) *)

(** What [transcribe] sets; [None] is left to whisper.cpp. *)
Record FullParams : Type := {
  fp_best_of : Z;
  fp_n_threads : option Z;
  fp_language : option string;
  fp_translate : bool;
  fp_print : bool;                 (* special tokens, progress, realtime, timestamps *)
  fp_token_timestamps : bool
}.
Definition full_params (cfg : WhisperConfig) : FullParams := {|
  fp_best_of := 1; fp_n_threads := as_i32 <$> wc_n_threads cfg; fp_language := wc_language cfg;
  fp_translate := wc_translate cfg; fp_print := false; fp_token_timestamps := wc_word_timestamps cfg
|}.
(** A token and a segment of the backend; times are in hundredths of a second. *)
Record Token : Type := { tk_text : result string string; tk_t0 : Z; tk_t1 : Z; tk_p : f32 }.
Record Segment : Type := {
  sg_text : result string string; sg_start : Z; sg_end : Z;
  sg_n_tokens : Z; sg_get_token : Z → option Token
}.
(** [(t.max(0) as u64 * 10) as u32], in a build without overflow checks. *)
Definition centis_to_ms (t : Z) : Z := wrap_u32 (wrap_u64 (Z.max t 0 * 10)).
Definition special_token (text : string) : bool := starts_with "[" text || starts_with "<" text.

(** The body of the loop of [extract_words]: what it pushes. *)
Definition token_word (j : Z) (token : option Token) : result WhisperError (option WordTiming) :=
  match token with
  | None => Ok None
  | Some tk =>
      let? text := map_err (λ e, Wh_Backend ("token.to_str_lossy(" +:+ pretty j +:+ "): " +:+ e)) (tk_text tk) in
      if special_token text then Ok None
      else Ok (Some {| wt_text := str_trim text; wt_start_ms := centis_to_ms (tk_t0 tk);
                       wt_end_ms := centis_to_ms (tk_t1 tk); wt_confidence := Some (tk_p tk) |})
  end.
Fixpoint words_loop (get : Z → option Token) (k : nat) (j : Z) (out : list WordTiming) :
  result WhisperError (list WordTiming) :=
  match k with
  | O => Ok out
  | S k' =>
      let? w := token_word j (get j) in
      words_loop get k' (j + 1) (out ++ option_list w)
  end.
Definition extract_words (s : Segment) : result WhisperError (list WordTiming) :=
  words_loop (sg_get_token s) (Z.to_nat (sg_n_tokens s)) 0 [].

Definition empty_transcript (request_id : string) : TranscriptChunk := {|
  tc_request_id := request_id; tc_is_final := true; tc_text := ""; tc_start_ms := 0; tc_end_ms := 0;
  tc_speaker_id := None; tc_words := []; tc_usage := None
|}.
Definition whisper_segment_chunk (cfg : WhisperConfig) (request_id : string) (n i : Z) (segment : option Segment) :
  result WhisperError TranscriptChunk :=
  match segment with
  | None => Err (Wh_Backend ("get_segment(" +:+ pretty i +:+ ") returned None"))
  | Some s =>
      let? text := map_err (λ e, Wh_Backend ("segment.to_str_lossy(" +:+ pretty i +:+ "): " +:+ e)) (sg_text s) in
      let? words := (if wc_word_timestamps cfg then extract_words s else Ok []) in
      Ok {| tc_request_id := request_id; tc_is_final := i + 1 =? n; tc_text := text;
            tc_start_ms := centis_to_ms (sg_start s); tc_end_ms := centis_to_ms (sg_end s);
            tc_speaker_id := None; tc_words := words; tc_usage := None |}
  end.
Fixpoint segments_loop (cfg : WhisperConfig) (request_id : string) (get : Z → option Segment)
    (n : Z) (k : nat) (i : Z) (chunks : list TranscriptChunk) : result WhisperError (list TranscriptChunk) :=
  match k with
  | O => Ok chunks
  | S k' =>
      let? c := whisper_segment_chunk cfg request_id n i (get i) in
      segments_loop cfg request_id get n k' (i + 1) (chunks ++ [c])
  end.

Section backend.
Context {Ctx WState : Type}.
(** Whether a path is a file; [WhisperContext::new_with_params], [create_state]. *)
Variable is_file : string → bool.
Variable new_context : string → result string Ctx.
Variable create_state : Ctx → result string WState.
(** [WhisperState::full] changes the state; the rest reads it. *)
Variable full : WState → FullParams → list f32 → WState * result string unit.
Variable full_n_segments : WState → Z.
Variable get_segment : WState → Z → option Segment.

(** The state is behind a mutex. *)
Record WhisperSession : Type := { ws_ctx : Ctx; ws_state : WState }.
Definition assert_model_present (path : string) : result WhisperError unit :=
  if is_file path then Ok () else Err (Wh_ModelNotFound path).
Definition build_session (cfg : WhisperConfig) : result WhisperError WhisperSession :=
  let path := wc_model_path cfg in
  if is_file path then
    let? ctx := map_err (λ e, Wh_Backend ("WhisperContext::new: " +:+ e)) (new_context path) in
    let? state := map_err (λ e, Wh_Backend ("WhisperContext::create_state: " +:+ e)) (create_state ctx) in
    Ok {| ws_ctx := ctx; ws_state := state |}
  else Err (Wh_ModelNotFound path).

Definition transcribe (session : WhisperSession) (samples : list f32) (cfg : WhisperConfig) (request_id : string) :
  WhisperSession * result WhisperError (list TranscriptChunk) :=
  let '(state, ran) := full (ws_state session) (full_params cfg) samples in
  ({| ws_ctx := ws_ctx session; ws_state := state |},
   let? _ := map_err (λ e, Wh_Backend ("WhisperState::full: " +:+ e)) ran in
   let n_segments := full_n_segments state in
   if n_segments <=? 0 then Ok [empty_transcript request_id]
   else segments_loop cfg request_id (get_segment state) n_segments (Z.to_nat n_segments) 0 []).

(** ** The runner (runner.rs) *)

(** How the crate was built, and for which host. *)
Inductive Build : Type := B_FeatureOff | B_UnsupportedArch (arch : string) | B_Enabled.
Definition run_unsupported_arch_or_feature (b : Build) : InferenceResult unit :=
  match b with
  | B_FeatureOff => Err (whisper_error_into Wh_FeatureDisabled)
  | B_UnsupportedArch arch => Err (whisper_error_into (Wh_UnsupportedArch arch))
  | B_Enabled => Ok ()
  end.
Record WhisperRunner : Type := { wr_cfg : WhisperConfig; wr_session : option WhisperSession }.
Definition whisper_new (cfg : WhisperConfig) : WhisperRunner := {| wr_cfg := cfg; wr_session := None |}.
Definition with_session (s : option WhisperSession) (r : WhisperRunner) : WhisperRunner :=
  {| wr_cfg := wr_cfg r; wr_session := s |}.
Definition ensure_session (r : WhisperRunner) : WhisperRunner * InferenceResult WhisperSession :=
  let '(cell, res) := get_or_try_init (map_err whisper_error_into (build_session (wr_cfg r))) (wr_session r) in
  (with_session cell r, res).

Context {Url Receiver : Type}.
Variable build : Build.
Variable lossy : Bytes → string.
Variable fs_read : string → result (bool * string) Bytes.
(** [None]: a panic of the decoder, which [payload_decode_total] excludes. *)
Definition whisper_execute (r : WhisperRunner) (batch : AudioBatch Url Receiver) :
  option (WhisperRunner * InferenceResult (RunHandle TranscriptChunk)) :=
  match ab_options batch with
  | AO_Audio2Face _ => Some (r, Err (BadRequest
      "whisper-local: AudioOptions::Audio2Face passed to an STT runner — wire the request to an A2F deployment instead"))
  | AO_Transcribe _ =>
      match ab_input batch with
      | AI_Stream _ _ => Some (r, Err (whisper_error_into Wh_StreamingNotSupported))
      | AI_Static payload =>
          match run_unsupported_arch_or_feature build with
          | Err e => Some (r, Err e)
          | Ok _ =>
              match ensure_session r with
              | (r, Err e) => Some (r, Err e)
              | (r, Ok session) =>
                  pcm ← payload_to_f32_pcm lossy fs_read payload (wc_sample_rate_hz (wr_cfg r));
                  Some match pcm with
                  | Err m => (r, Err (whisper_error_into (Wh_UnsupportedAudio m)))
                  | Ok samples =>
                      let '(session, chunks) := transcribe session samples (wr_cfg r) (ab_request_id batch) in
                      (with_session (Some session) r,
                       let? cs := map_err whisper_error_into chunks in Ok (streaming (Ok <$> cs)))
                  end
              end
          end
      end
  end.
Definition whisper_base : RunnerBase WhisperRunner := {|
  runner_kind _ := RK_SpeechToText;
  runner_transport _ := TK_LocalCpu;
  rebuild_session r cause :=
    (match build with B_Enabled => with_session (reset_cell cause (wr_session r)) r | _ => r end, Ok ());
  rate_limits := rate_limits_default
|}.
End backend.

(** ** What the runner delivers *)

Lemma centis_to_ms_range t : is_u 32 (centis_to_ms t).
Proof. apply wrap_range. lia. Qed.
#[export] Hint Resolve centis_to_ms_range : rust.
(** Below 2^32 ms (49 days) times are exact. *)
Lemma centis_to_ms_exact t : 0 ≤ t * 10 < 2 ^ 32 → centis_to_ms t = t * 10.
Proof. intros H. unfold centis_to_ms. rewrite Z.max_l by lia. rewrite (wrap_id 64), (wrap_id 32) by (unfold is_u; lia). done. Qed.

Lemma words_loop_typed get k j out ws :
  words_loop get k j out = Ok ws → Forall word_typed out → Forall word_typed ws.
Proof.
  revert j out. induction k as [|k IH]; intros j out H Ho; cbn in H; [by simplify_eq|].
  destruct (token_word j (get j)) as [w|e] eqn:Hw; [|done]. apply (IH _ _ H).
  apply Forall_app. split; [done|]. destruct w as [w|]; [|constructor]. constructor; [|constructor].
  unfold token_word in Hw. destruct (get j) as [tk|]; [|done]. destruct (tk_text tk) as [t|e]; [|done].
  cbn in Hw. destruct (special_token t); [done|]. simplify_eq. split; cbn; auto with rust.
Qed.

(** What the chunk of segment [i] of [n] says. *)
Definition chunk_of_segment (cfg : WhisperConfig) (rid : string) (n i : Z) (s : option Segment)
    (c : TranscriptChunk) : Prop :=
  ∃ seg, s = Some seg ∧ sg_text seg = Ok (tc_text c) ∧
    tc_start_ms c = centis_to_ms (sg_start seg) ∧ tc_end_ms c = centis_to_ms (sg_end seg) ∧
    tc_is_final c = (i + 1 =? n) ∧ transcript_typed rid c ∧
    (if wc_word_timestamps cfg then extract_words seg = Ok (tc_words c) else tc_words c = []).
Lemma whisper_segment_chunk_spec cfg rid n i s c :
  whisper_segment_chunk cfg rid n i s = Ok c → chunk_of_segment cfg rid n i s c.
Proof.
  unfold whisper_segment_chunk. destruct s as [seg|]; [|done]. destruct (sg_text seg) as [t|e] eqn:Ht; [|done].
  cbn. destruct (wc_word_timestamps cfg) eqn:Hw.
  - destruct (extract_words seg) as [ws|e] eqn:He; intros; simplify_eq. exists seg. rewrite Hw.
    split_and!; try done. split_and!; cbn; auto with rust. by apply (words_loop_typed _ _ _ _ _ He).
  - intros; simplify_eq. exists seg. rewrite Hw. split_and!; try done. split_and!; cbn; auto with rust.
Qed.
Lemma segments_loop_spec cfg rid get n k i out cs :
  segments_loop cfg rid get n k i out = Ok cs →
  ∃ new, cs = out ++ new ∧ length new = k ∧
    ∀ j c, new !! j = Some c → chunk_of_segment cfg rid n (i + Z.of_nat j) (get (i + Z.of_nat j)) c.
Proof.
  revert i out. induction k as [|k IH]; intros i out H; cbn in H.
  - exists []. simplify_eq. rewrite app_nil_r. done.
  - destruct (whisper_segment_chunk cfg rid n i (get i)) as [c|e] eqn:Hc; [|done].
    destruct (IH _ _ H) as (new & -> & Hl & Hn). exists (c :: new). rewrite <-app_assoc.
    split_and!; [done|by cbn; f_equal|]. intros [|j] d Hd.
    + cbn in Hd. simplify_eq. rewrite Z.add_0_r. by apply whisper_segment_chunk_spec.
    + replace (i + Z.of_nat (S j)) with (i + 1 + Z.of_nat j) by lia. by apply Hn.
Qed.

(** A transcription has one final chunk, the last. *)
Lemma transcribe_one_final {Ctx WState} full full_n get (session session' : WhisperSession (Ctx := Ctx) (WState := WState))
    samples cfg rid cs :
  transcribe full full_n get session samples cfg rid = (session', Ok cs) →
  ∃ init last_, cs = init ++ [last_] ∧ Forall (λ c, tc_is_final c = false) init ∧ tc_is_final last_ = true.
Proof.
  unfold transcribe. destruct (full _ _ _) as [state [[]|e]]; [|done]. cbn [map_err].
  destruct (Z.leb_spec (full_n state) 0) as [Hn|Hn].
  - intros [= <- <-]. by exists [], (empty_transcript rid).
  - intros [= _ H]. destruct (segments_loop_spec _ _ _ _ _ _ _ _ H) as (new & -> & Hl & Hnew). cbn [app].
    destruct new as [|x ws] using rev_ind; [cbn in Hl; lia|]. clear IHws.
    rewrite length_app in Hl. cbn in Hl. exists ws, x. split; [done|]. split.
    + apply Forall_lookup. intros i c Hi. pose proof (lookup_lt_Some _ _ _ Hi).
      destruct (Hnew i c) as (? & _ & _ & _ & _ & -> & _); [by rewrite lookup_app_l|]. apply Z.eqb_neq. lia.
    + destruct (Hnew (length ws) x) as (? & _ & _ & _ & _ & -> & _); [|apply Z.eqb_eq; lia].
      rewrite lookup_app_r, Nat.sub_diag by lia. done.
Qed.

Section delivers.
Context {Ctx WState Url Receiver : Type} (is_file : string → bool) (new_context : string → result string Ctx)
  (create_state : Ctx → result string WState)
  (full : WState → FullParams → list f32 → WState * result string unit)
  (full_n_segments : WState → Z) (get_segment : WState → Z → option Segment)
  (build : Build) (lossy : Bytes → string) (fs_read : string → result (bool * string) Bytes).
Abbreviation execute :=
  (whisper_execute (Url := Url) (Receiver := Receiver) is_file new_context create_state full full_n_segments
     get_segment build lossy fs_read).
Abbreviation Runner := (WhisperRunner (Ctx := Ctx) (WState := WState)).

(** [C21] A transcription that is answered is complete: the batch was a static transcription on
    an enabled build, its payload decoded, the model ran on exactly those samples from the
    session's state, and the stream is one chunk per segment the model found, in order, with
    its text and times (and words exactly when configured), the last one and only it final;
    or one empty final chunk when it found none.  No item of the stream is an error. *)
Theorem whisper_execute_delivers (r r' : Runner) (batch : AudioBatch Url Receiver) (h : RunHandle TranscriptChunk) :
  execute r batch = Some (r', Ok h) →
  ∃ payload samples session state cs,
    ab_input batch = AI_Static payload ∧ build = B_Enabled ∧
    payload_to_f32_pcm lossy fs_read payload (wc_sample_rate_hz (wr_cfg r)) = Some (Ok samples) ∧
    (∀ s, wr_session r = Some s → session = s) ∧
    full (ws_state session) (full_params (wr_cfg r)) samples = (state, Ok ()) ∧
    wr_session r' = Some {| ws_ctx := ws_ctx session; ws_state := state |} ∧
    into_stream h = Ok <$> cs ∧ length cs = Nat.max 1 (Z.to_nat (full_n_segments state)) ∧
    (full_n_segments state ≤ 0 → cs = [empty_transcript (ab_request_id batch)]) ∧
    (∀ i c, 0 < full_n_segments state → cs !! i = Some c →
      chunk_of_segment (wr_cfg r) (ab_request_id batch) (full_n_segments state) (Z.of_nat i)
        (get_segment state (Z.of_nat i)) c).
Proof.
  unfold whisper_execute. destruct (ab_options batch); [|done]. destruct (ab_input batch) as [payload|]; [|done].
  destruct build eqn:Hb; [done..|]. cbn [run_unsupported_arch_or_feature]. unfold ensure_session.
  destruct (get_or_try_init _ (wr_session r)) as [cell [session|e]] eqn:Hinit; [|done].
  cbn [wr_cfg with_session].
  destruct (payload_to_f32_pcm lossy fs_read payload _) as [[samples|m]|] eqn:Hp; [|done..].
  cbn [mbind option_bind]. unfold transcribe.
  destruct (full (ws_state session) (full_params (wr_cfg r)) samples) as [state [[]|e]] eqn:Hfull; [|done].
  cbn [map_err]. intros H.
  destruct (get_or_try_init_ok _ _ _ _ Hinit) as [_ Hs].
  destruct (Z.leb_spec (full_n_segments state) 0) as [Hn|Hn].
  - exists payload, samples, session, state, [empty_transcript (ab_request_id batch)]. simplify_eq/=.
    split_and!; try done. + lia. + lia.
  - destruct (segments_loop _ _ _ _ _ _ _) as [cs|e] eqn:Hcs; [|done]. simplify_eq/=.
    destruct (segments_loop_spec _ _ _ _ _ _ _ _ Hcs) as (new & -> & Hl & Hnew). cbn in *.
    exists payload, samples, session, state, new. split_and!; try done. + lia. + lia. + intros i c _. apply Hnew.
Qed.
(** A request outside the runner's scope is refused before any model is loaded. *)
Theorem whisper_refuses_early (r : Runner) (batch : AudioBatch Url Receiver) :
  (∃ o, ab_options batch = AO_Audio2Face o) ∨ (∃ p rx, ab_input batch = AI_Stream p rx) ∨ build ≠ B_Enabled →
  ∃ e, execute r batch = Some (r, Err e) ∧ is_retryable e = false.
Proof.
  intros H. unfold whisper_execute. destruct (ab_options batch); [|by eexists].
  destruct (ab_input batch); [|by eexists]. destruct build; [by eexists..|].
  by destruct H as [[? ?]|[(? & ? & ?)|?]].
Qed.
(** On byte payloads and files, every execution answers. *)
Theorem whisper_execute_total (r : Runner) (batch : AudioBatch Url Receiver) :
  (∀ data (params : AudioParams), ab_input batch = AI_Static (AP_Bytes data params) → Forall (is_u 8) data) →
  (∀ path data, fs_read path = Ok data → Forall (is_u 8) data) →
  is_Some (execute r batch).
Proof.
  intros Hb Hf. unfold whisper_execute. destruct (ab_options batch); [|done].
  destruct (ab_input batch) as [payload|]; [|done]. destruct (run_unsupported_arch_or_feature build); [|done].
  destruct (ensure_session _ _ _ _) as [r1 [session|]]; [|done].
  destruct (payload_decode_total lossy fs_read payload (wc_sample_rate_hz (wr_cfg r1))) as [x ->]; [|done|done].
  intros data params ->. by eapply Hb.
Qed.
End delivers.

(** ** Witness *)

Definition demo_token (j : Z) : option Token :=
  Some {| tk_text := Ok (if j =? 0 then "[_BEG_]" else " hi"); tk_t0 := 10; tk_t1 := 20; tk_p := S754_zero false |}.
Definition demo_segment (_ : nat) (i : Z) : option Segment :=
  Some {| sg_text := Ok (if i =? 0 then "hi" else "bye"); sg_start := i * 100; sg_end := i * 100 + 50;
          sg_n_tokens := 2; sg_get_token := demo_token |}.
Definition demo_whisper : WhisperRunner (Ctx := unit) (WState := nat) := whisper_new {|
  wc_model_path := "m.bin"; wc_language := None; wc_n_threads := None; wc_translate := false;
  wc_word_timestamps := true; wc_sample_rate_hz := 16000 |}.
Definition demo_audio : AudioBatch string unit := {|
  ab_request_id := "r"; ab_model := "tiny";
  ab_input := AI_Static (AP_Bytes [0; 0; 255; 127] {| sample_rate_hz := 16000; channels := 1; format := AF_Pcm16Le |});
  ab_stream := false; ab_options := AO_Transcribe TranscribeOptions_default; ab_estimated_units := 1 |}.
Definition demo_execute (r : WhisperRunner (Ctx := unit) (WState := nat)) (b : AudioBatch string unit) :
  option (WhisperRunner (Ctx := unit) (WState := nat) * InferenceResult (RunHandle TranscriptChunk)) :=
  whisper_execute (λ _, true) (λ _, Ok ()) (λ _, Ok 0%nat) (λ st _ xs, ((st + length xs)%nat, Ok ()))
    (λ _, 2) demo_segment B_Enabled (λ _, "") (λ _, Err (true, "")) r b.
Lemma whisper_execute_delivers_witness :
  ∃ r' h cs, demo_execute demo_whisper demo_audio = Some (r', Ok h) ∧ into_stream h = Ok <$> cs ∧
    wr_session r' = Some {| ws_ctx := (); ws_state := 2%nat |} ∧ length cs = 2%nat.
Proof.
  assert (∃ r' h, demo_execute demo_whisper demo_audio = Some (r', Ok h) ∧
    wr_session r' = Some {| ws_ctx := (); ws_state := 2%nat |}) as (r' & h & H & Hs)
    by (do 2 eexists; split; vm_compute; reflexivity).
  destruct (whisper_execute_delivers _ _ _ _ _ _ _ _ _ _ _ _ _ H)
    as (p & xs & session & state & cs & _ & _ & _ & _ & _ & _ & Hc & Hl & _).
  exists r', h, cs. split; [exact H|]. split; [exact Hc|]. split; [exact Hs|]. exact Hl.
Defined.
