(* ===== verification/Piper.v ===== *)
(** * Local Piper synthesis

    Models [inference-runtime-piper/src]: [config.rs], [phoneme.rs], [error.rs],
    [session.rs] and [runner.rs] with the [piper] feature.  ONNX Runtime (building a session,
    running it) is a parameter, as are reading a file and decoding the voice manifest. *)
From Stdlib Require Import SpecFloat.
From S2P Require Import Prelude F64 Runtime Text Audio Runner AudioProvider Synthesis.

(** ** Configuration (config.rs) *)

Record PiperConfig : Type := {
  pc_voice_path : string;
  pc_voice_manifest_path : option string;
  pc_speaker_id : option Z;
  pc_length_scale : f32;
  pc_noise_scale : f32;
  pc_noise_w : f32;
  pc_chunk_samples : Z;
  pc_intra_threads : option Z
}.
Definition default_length_scale : f32 := f32_of_Z 1.
Definition default_noise_scale : f32 := f32_div (f32_of_Z 667) (f32_of_Z 1000).
Definition default_noise_w : f32 := f32_div (f32_of_Z 8) (f32_of_Z 10).
Definition default_chunk_samples : Z := 4096.
Definition resolved_manifest_path (c : PiperConfig) : string :=
  match pc_voice_manifest_path c with Some p => p | None => pc_voice_path c +:+ ".json" end.

Record PiperInference : Type := {
  pi_noise_scale : option f32; pi_length_scale : option f32; pi_noise_w : option f32
}.
Record PiperVoiceManifest : Type := {
  pm_sample_rate : Z;
  pm_inference : PiperInference;
  phoneme_id_map : gmap string (list Z);
  num_symbols : Z;
  num_speakers : Z;
  espeak_voice : option string
}.
Definition default_num_speakers : Z := 1.

(** ** Errors (error.rs) *)

Inductive PiperError : Type :=
  | Pe_VoiceNotFound (path : string) | Pe_ManifestNotFound (path : string)
  | Pe_ManifestIo (e : string) | Pe_ManifestParse (e : string)
  | Pe_UnknownPhoneme (phoneme : string) | Pe_SpeakerOutOfRange (requested num : Z)
  | Pe_Ort (e : string) | Pe_FeatureDisabled.
Definition piper_error_to_string (e : PiperError) : string :=
  match e with
  | Pe_VoiceNotFound path => "piper voice file not found: " +:+ path
  | Pe_ManifestNotFound path => "piper voice manifest not found: " +:+ path
  | Pe_ManifestIo e => "piper manifest io: " +:+ e
  | Pe_ManifestParse e => "piper manifest parse: " +:+ e
  | Pe_UnknownPhoneme p => "piper unknown phoneme: " +:+ debug_str p
  | Pe_SpeakerOutOfRange requested num =>
      "piper speaker id " +:+ pretty requested +:+ " out of range (voice has " +:+ pretty num +:+ ")"
  | Pe_Ort e => "piper ort error: " +:+ e
  | Pe_FeatureDisabled => "piper feature disabled at build time — rebuild with --features piper"
  end.
Definition piper_error_into (e : PiperError) : InferenceError :=
  match e with
  | Pe_VoiceNotFound _ | Pe_ManifestNotFound _ | Pe_UnknownPhoneme _ | Pe_SpeakerOutOfRange _ _ =>
      BadRequest (piper_error_to_string e)
  | Pe_ManifestIo _ | Pe_ManifestParse _ | Pe_Ort _ | Pe_FeatureDisabled => Internal (piper_error_to_string e)
  end.

(** ** Phonemes (phoneme.rs) *)

Definition BOS : string := "^".
Definition EOS : string := "$".
Definition PAD : string := "_".
Definition entry (m : gmap string (list Z)) (key : string) : list Z := default [] (m !! key).
(** The loop over the characters. *)
Fixpoint ids_loop (m : gmap string (list Z)) (text : list string) (out : list Z) : result PiperError (list Z) :=
  match text with
  | [] => Ok out
  | key :: rest =>
      match m !! key with
      | None => Err (Pe_UnknownPhoneme key)
      | Some ids => ids_loop m rest (out ++ ids ++ entry m PAD)
      end
  end.
Definition ids_for_text (m : gmap string (list Z)) (text : string) : result PiperError (list Z) :=
  let out := match m !! BOS with Some bos => bos ++ entry m PAD | None => [] end in
  let? out := ids_loop m (chars text) out in
  Ok (out ++ entry m EOS).

(** ** The session (session.rs) *)

Inductive Tensor : Type := T_I64 (shape data : list Z) | T_F32 (shape : list Z) (data : list f32).
Section session.
Context {Session : Type}.
(** [Path::exists], [std::fs::read], the JSON decoder. *)
Variable exists_ : string → bool.
Variable fs_read : string → result string Bytes.
Variable parse_manifest : Bytes → result string PiperVoiceManifest.
(** The session builder with its thread count; a run, by input names; the outputs in the
    session's order, those that are f32 tensors with their data.  Building the input
    tensors can only fail in the same way as the run, and is part of it. *)
Variable commit_from_file : option Z → string → result string Session.
Variable session_run : Session → list (string * Tensor) → result string (list (string * option (list f32))).

Record PiperState : Type := { ps_session : Session; ps_manifest : PiperVoiceManifest }.
Definition load_manifest (path : string) : result PiperError PiperVoiceManifest :=
  if exists_ path then
    let? raw := map_err Pe_ManifestIo (fs_read path) in
    map_err Pe_ManifestParse (parse_manifest raw)
  else Err (Pe_ManifestNotFound path).
Definition build_state (cfg : PiperConfig) : result PiperError PiperState :=
  if exists_ (pc_voice_path cfg) then
    let? manifest := load_manifest (resolved_manifest_path cfg) in
    let? session := map_err Pe_Ort (commit_from_file (pc_intra_threads cfg) (pc_voice_path cfg)) in
    Ok {| ps_session := session; ps_manifest := manifest |}
  else Err (Pe_VoiceNotFound (pc_voice_path cfg)).

(** The guard on the speaker, with its cast to [u32]. *)
Definition speaker_ok (sid num : Z) : bool := negb ((sid <? 0) || (num <=? wrap_u32 sid)).
Definition synthesis_inputs (m : PiperVoiceManifest) (cfg : PiperConfig) (ids : list Z) (sid : Z) :
  list (string * Tensor) :=
  let length := Z.of_nat (length ids) in
  [("input", T_I64 [1; length] ids); ("input_lengths", T_I64 [1] [length]);
   ("scales", T_F32 [3] [pc_noise_scale cfg; pc_length_scale cfg; pc_noise_w cfg])] ++
  (if 1 <? num_speakers m then [("sid", T_I64 [1] [sid])] else []).
Definition first_f32 (outputs : list (string * option (list f32))) : result PiperError (list f32) :=
  match head (omap snd outputs) with
  | Some data => Ok data
  | None => Err (Pe_Ort "no f32 output tensor")
  end.
Definition run_synthesis (state : PiperState) (text : string) (cfg : PiperConfig) : result PiperError (list f32) :=
  let? ids := ids_for_text (phoneme_id_map (ps_manifest state)) text in
  let sid := default 0 (pc_speaker_id cfg) in
  if speaker_ok sid (num_speakers (ps_manifest state)) then
    let? outputs := map_err Pe_Ort (session_run (ps_session state) (synthesis_inputs (ps_manifest state) cfg ids sid)) in
    first_f32 outputs
  else Err (Pe_SpeakerOutOfRange sid (num_speakers (ps_manifest state))).

(** ** The runner (runner.rs) *)

Definition i16_sample (s : f32) : Z :=
  f32_to_i 16 (f32_mul (f32_clamp s (f32_of_Z (-1)) (f32_of_Z 1)) (f32_of_Z 32767)).
Definition sample_bytes (s : f32) : Bytes := to_le_bytes 2 (wrap 16 (i16_sample s)).
Definition piper_params (sample_rate : Z) : AudioParams :=
  {| sample_rate_hz := sample_rate; channels := 1; format := AF_Pcm16Le |}.
Definition pcm_f32_to_chunks (pcm : list f32) (request_id : string) (sample_rate : Z) (chunk_samples : nat) :
  list SpeechChunk :=
  match pcm with
  | [] => [speech_chunk request_id (piper_params sample_rate) true []]
  | _ =>
      let windows := chunks_of chunk_samples pcm in
      imap (λ i window, speech_chunk request_id (piper_params sample_rate) (S i =? length windows)%nat
                          (concat (sample_bytes <$> window))) windows
  end.

Record PiperRunner : Type := { pr_cfg : PiperConfig; pr_state : option PiperState }.
Definition piper_new (cfg : PiperConfig) : PiperRunner := {| pr_cfg := cfg; pr_state := None |}.
Definition with_state (s : option PiperState) (r : PiperRunner) : PiperRunner :=
  {| pr_cfg := pr_cfg r; pr_state := s |}.
Context {Url : Type}.
Definition piper_speak (r : PiperRunner) (batch : SpeechBatch Url) :
  PiperRunner * InferenceResult (RunHandle SpeechChunk) :=
  let '(cell, res) := get_or_try_init (map_err piper_error_into (build_state (pr_cfg r))) (pr_state r) in
  (with_state cell r,
   let? state := res in
   let chunk_samples := Z.to_nat (Z.max (pc_chunk_samples (pr_cfg r)) 1) in
   let? pcm := map_err piper_error_into (run_synthesis state (sb_text batch) (pr_cfg r)) in
   Ok (streaming (Ok <$> pcm_f32_to_chunks pcm (sb_request_id batch) (pm_sample_rate (ps_manifest state)) chunk_samples))).
Definition piper_base : RunnerBase PiperRunner := {|
  runner_kind _ := RK_TextToSpeech;
  runner_transport _ := TK_LocalCpu;
  rebuild_session r cause := (with_state (reset_cell cause (pr_state r)) r, Ok ());
  rate_limits := rate_limits_default
|}.
#[local] Instance piper_runner_base : RunnerBase PiperRunner := piper_base.
#[local] Instance piper_runner : SpeechRunner Url PiperRunner := piper_speak.
End session.

(** ** Phoneme ids *)

Lemma ids_loop_spec m l out :
  ids_loop m l out =
  match find (λ k, bool_decide (m !! k = None)) l with
  | Some k => Err (Pe_UnknownPhoneme k)
  | None => Ok (out ++ concat ((λ k, entry m k ++ entry m PAD) <$> l))
  end.
Proof.
  revert out. induction l as [|k l IH]; intros out; cbn; [by rewrite app_nil_r|].
  unfold entry at 2. destruct (m !! k) as [ids|] eqn:Hk; cbn; [|done]. rewrite IH.
  destruct (find _ l); [done|]. by rewrite <-!app_assoc.
Qed.
Definition unambiguous (m : gmap string (list Z)) : Prop :=
  (∀ k ids, m !! k = Some ids → length ids = 1%nat) ∧
  (∀ k1 k2 ids, m !! k1 = Some ids → m !! k2 = Some ids → k1 = k2).
Lemma encoding_injective m l1 l2 :
  unambiguous m → Forall (λ k, is_Some (m !! k)) l1 → Forall (λ k, is_Some (m !! k)) l2 →
  concat ((λ k, entry m k ++ entry m PAD) <$> l1) = concat ((λ k, entry m k ++ entry m PAD) <$> l2) →
  l1 = l2.
Proof.
  intros [Hlen Hinj] H1. revert l2.
  assert (∀ k, is_Some (m !! k) → m !! k = Some (entry m k) ∧ length (entry m k) = 1%nat) as Hk.
  { intros k [ids Hids]. unfold entry. rewrite Hids. split; [done|]. by eapply Hlen. }
  induction H1 as [|k l1 H IH IHl]; intros [|k2 l2] H2 He; [done| | |]; cbn in He.
  - apply Forall_cons in H2 as [H2 _]. apply Hk in H2 as [_ H2]. by destruct (entry m k2).
  - apply Hk in H as [_ H]. by destruct (entry m k).
  - apply Forall_cons in H2 as [H2 Hl2]. destruct (Hk k H) as [Hk1 Hl1]. destruct (Hk k2 H2) as [Hk2 Hl3].
    rewrite <-!app_assoc in He. apply app_inj_1 in He as [He Hr]; [|congruence].
    apply app_inv_head in Hr. f_equal; [|by apply IHl].
    apply (Hinj k k2 (entry m k)); [done|]. by rewrite He.
Qed.
Lemma ids_for_text_ok m text ids : ids_for_text m text = Ok ids →
  Forall (λ k, is_Some (m !! k)) (chars text) ∧
  ids = match m !! BOS with Some bos => bos ++ entry m PAD | None => [] end ++
        concat ((λ k, entry m k ++ entry m PAD) <$> chars text) ++ entry m EOS.
Proof.
  unfold ids_for_text. rewrite ids_loop_spec. destruct (find _ (chars text)) as [k|] eqn:Hf; [done|].
  intros [= <-]. split; [|by rewrite <-app_assoc]. apply Forall_forall. intros k Hk.
  apply list_elem_of_In in Hk. apply (find_none _ _ Hf), bool_decide_eq_false in Hk.
  by apply not_eq_None_Some.
Qed.
(** The phoneme encoding loses nothing: with a voice whose phonemes have one id each, all
    different, two texts that are encoded to the same ids are the same text, whatever
    padding and sentence marks the voice has. *)
Theorem phoneme_ids_injective (m : gmap string (list Z)) (t1 t2 : string) (ids : list Z) :
  unambiguous m → ids_for_text m t1 = Ok ids → ids_for_text m t2 = Ok ids → t1 = t2.
Proof.
  intros Hm H1 H2. apply ids_for_text_ok in H1 as [Hf1 ->]. apply ids_for_text_ok in H2 as [Hf2 He].
  apply app_inv_head, app_inv_tail in He.
  rewrite <-(concat_chars t1), <-(concat_chars t2). f_equal. by apply (encoding_injective m).
Qed.

(** ** Speech chunks *)

Lemma concat_windows {A B} (f : A → list B) (ws : list (list A)) :
  concat ((λ w, concat (f <$> w)) <$> ws) = concat (f <$> concat ws).
Proof. induction ws as [|w ws IH]; [done|]. cbn. by rewrite IH, fmap_app, concat_app. Qed.
Lemma length_sample_bytes s : length (sample_bytes s) = 2%nat.
Proof. apply length_to_le_bytes. Qed.
Lemma length_samples w : length (concat (sample_bytes <$> w)) = (2 * length w)%nat.
Proof.
  induction w as [|s w IH]; [done|].
  rewrite fmap_cons. cbn [concat]. rewrite length_app, IH, length_sample_bytes. cbn [length]. lia.
Qed.
Lemma imap_final {A} (f : bool → A → SpeechChunk) (x : A) (l : list A) n :
  (∀ b y, sc_is_final (f b y) = b) → n = length (l ++ [x]) →
  imap (λ i w, f (S i =? n)%nat w) (l ++ [x]) = (f false <$> l) ++ [f true x].
Proof.
  intros Hf ->. rewrite imap_app, length_app. f_equal.
  - apply list_eq. intros i. rewrite list_lookup_imap, list_lookup_fmap.
    destruct (l !! i) as [y|] eqn:Hi; [|done]. apply lookup_lt_Some in Hi.
    change (Some (f (S i =? length l + length [x])%nat y) = Some (f false y)).
    rewrite (proj2 (Nat.eqb_neq _ _)); [done|cbn [length]; lia].
  - cbn. by rewrite Nat.add_0_r, Nat.add_1_r, Nat.eqb_refl.
Qed.

(** The chunks of a synthesis: its samples in order, whole samples per chunk, the last one and
    only it final. *)
Lemma pcm_chunks_whole pcm rid rate (size : nat) :
  (0 < size)%nat →
  ∃ init last_, pcm_f32_to_chunks pcm rid rate size = init ++ [last_] ∧
    concat (sc_audio_pcm_chunk <$> (init ++ [last_])) = concat (sample_bytes <$> pcm) ∧
    Forall (λ c, sc_request_id c = rid ∧ sc_params c = piper_params rate ∧
                 ∃ n : nat, length (sc_audio_pcm_chunk c) = (2 * n)%nat ∧ (n ≤ size)%nat) (init ++ [last_]) ∧
    Forall (λ c, sc_is_final c = false) init ∧ sc_is_final last_ = true.
Proof.
  intros Hsize. set (mk := λ (b : bool) w, speech_chunk rid (piper_params rate) b (concat (sample_bytes <$> w))).
  assert (∃ ws x, pcm_f32_to_chunks pcm rid rate size = (mk false <$> ws) ++ [mk true x] ∧ concat (ws ++ [x]) = pcm ∧
            Forall (λ w, length w ≤ size)%nat (ws ++ [x])) as (ws & x & -> & Hc & Hf).
  { destruct pcm as [|s pcm'] eqn:Ep; [by exists [], []; repeat constructor; cbn; lia|]. rewrite <-Ep.
    destruct (chunks_of_spec size pcm ltac:(lia)) as [Hc Hf].
    destruct (chunks_of size pcm) as [|x ws] eqn:Hw using rev_ind; [by subst pcm|].
    exists ws, x. split_and!; [|done|eapply Forall_impl; [exact Hf|cbn; lia]].
    unfold pcm_f32_to_chunks. rewrite Ep, <-Ep, Hw. by apply (imap_final mk). }
  exists (mk false <$> ws), (mk true x). split_and!; try done.
  - rewrite fmap_app, <-list_fmap_compose. rewrite <-Hc, <-concat_windows, fmap_app, concat_app. by rewrite concat_app.
  - assert (∀ b w, (length w ≤ size)%nat → sc_request_id (mk b w) = rid ∧ sc_params (mk b w) = piper_params rate ∧
      ∃ n : nat, length (sc_audio_pcm_chunk (mk b w)) = (2 * n)%nat ∧ (n ≤ size)%nat) as Hmk.
    { intros b w Hw. split_and!; [done..|]. exists (length w). split; [apply length_samples|lia]. }
    apply Forall_app in Hf as [Hf Hx]. apply Forall_app. split.
    + apply Forall_fmap. eapply Forall_impl; [exact Hf|]. intros w Hw. by apply Hmk.
    + constructor; [|constructor]. apply Hmk. by inversion Hx.
  - apply Forall_fmap, Forall_true. done.
Qed.

Section delivers.
Context {Session Url : Type} (exists_ : string → bool) (fs_read : string → result string Bytes)
  (parse_manifest : Bytes → result string PiperVoiceManifest)
  (commit_from_file : option Z → string → result string Session)
  (session_run : Session → list (string * Tensor) → result string (list (string * option (list f32)))).
Abbreviation speak_ := (piper_speak (Url := Url) exists_ fs_read parse_manifest commit_from_file session_run).

(** [C30] A synthesis that is answered is whole: the text was encoded with the voice's phonemes,
    the model ran on exactly those ids, and the stream is its first f32 output as signed
    16-bit samples in order, cut into chunks of whole samples no longer than configured (at
    least one sample), with the voice's sample rate, the last one and only it final. *)
Theorem piper_speak_delivers (r r' : PiperRunner (Session := Session)) (batch : SpeechBatch Url)
    (h : RunHandle SpeechChunk) :
  speak_ r batch = (r', Ok h) →
  ∃ state ids outputs pcm init last_,
    pr_state r' = Some state ∧ (∀ s, pr_state r = Some s → state = s) ∧
    ids_for_text (phoneme_id_map (ps_manifest state)) (sb_text batch) = Ok ids ∧
    session_run (ps_session state) (synthesis_inputs (ps_manifest state) (pr_cfg r) ids
      (default 0 (pc_speaker_id (pr_cfg r)))) = Ok outputs ∧
    head (omap snd outputs) = Some pcm ∧
    into_stream h = Ok <$> (init ++ [last_]) ∧
    concat (sc_audio_pcm_chunk <$> (init ++ [last_])) = concat (sample_bytes <$> pcm) ∧
    Forall (λ c, sc_request_id c = sb_request_id batch ∧
                 sc_params c = piper_params (pm_sample_rate (ps_manifest state)) ∧
                 ∃ n : nat, length (sc_audio_pcm_chunk c) = (2 * n)%nat ∧
                   Z.of_nat n ≤ Z.max (pc_chunk_samples (pr_cfg r)) 1) (init ++ [last_]) ∧
    Forall (λ c, sc_is_final c = false) init ∧ sc_is_final last_ = true.
Proof.
  unfold piper_speak. destruct (get_or_try_init _ (pr_state r)) as [cell [state|e]] eqn:Hinit; [|done].
  destruct (get_or_try_init_ok _ _ _ _ Hinit) as [Hcell Hs].
  unfold run_synthesis. destruct (ids_for_text _ (sb_text batch)) as [ids|e] eqn:Hids; [|done]. cbn [map_err].
  destruct (speaker_ok _ _); [|done]. destruct (session_run _ _) as [outputs|e] eqn:Hrun; [|done]. cbn [map_err].
  unfold first_f32. destruct (head (omap snd outputs)) as [pcm|] eqn:Hpcm; [|done]. cbn [map_err].
  intros [= <- <-]. exists state, ids, outputs, pcm. cbn [pr_state with_state into_stream streaming rh_inner].
  destruct (pcm_chunks_whole pcm (sb_request_id batch) (pm_sample_rate (ps_manifest state))
    (Z.to_nat (Z.max (pc_chunk_samples (pr_cfg r)) 1)) ltac:(lia)) as (init & last_ & -> & Hc & Hf & Hi & Hl).
  exists init, last_. split_and!; try done.
  eapply Forall_impl; [exact Hf|]. intros c (Hid & Hp & n & Hn & Hle). split_and!; [done..|].
  exists n. split; [done|lia].
Qed.
(** The guard on the speaker id compares only its low 32 bits: a request for a speaker far
    out of the voice's range is accepted, and that id is what the model is given. *)
Theorem piper_speaker_wraps (state : PiperState (Session := Session)) (text : string) (cfg : PiperConfig) (ids : list Z) :
  let m := ps_manifest state in
  ids_for_text (phoneme_id_map m) text = Ok ids → 1 < num_speakers m < 2 ^ 32 →
  pc_speaker_id cfg = Some (2 ^ 32) →
  num_speakers m ≤ 2 ^ 32 ∧
  run_synthesis session_run state text cfg =
    (let? outputs := map_err Pe_Ort (session_run (ps_session state) (synthesis_inputs m cfg ids (2 ^ 32))) in
     first_f32 outputs) ∧
  ("sid", T_I64 [1] [2 ^ 32]) ∈ synthesis_inputs m cfg ids (2 ^ 32).
Proof.
  intros m Hids Hn Hs. split_and!; [lia| |].
  - unfold run_synthesis. fold m. rewrite Hids, Hs. change (default 0 (Some (2 ^ 32))) with (2 ^ 32).
    assert (speaker_ok (2 ^ 32) (num_speakers m) = true) as Hok; [|by rewrite Hok].
    unfold speaker_ok, wrap_u32, wrap. rewrite Z.mod_same by done. cbn.
    rewrite (proj2 (Z.leb_gt _ _)) by lia. done.
  - unfold synthesis_inputs. rewrite (proj2 (Z.ltb_lt _ _)) by lia. set_solver.
Qed.
End delivers.

(** ** Witnesses *)

Definition demo_phonemes : gmap string (list Z) :=
  {[ "_" := [0]; "^" := [1]; "$" := [2]; "h" := [10]; "e" := [11] ]}.
Lemma demo_unambiguous : unambiguous demo_phonemes.
Proof.
  assert (∀ k ids, demo_phonemes !! k = Some ids →
    (k, ids) ∈ [("_", [0]); ("^", [1]); ("$", [2]); ("h", [10]); ("e", [11])]) as H.
  { intros k ids. unfold demo_phonemes. rewrite !lookup_insert_Some, lookup_singleton_Some. set_solver. }
  split.
  - intros k ids Hk. apply H in Hk. set_solver.
  - intros k1 k2 ids H1 H2. apply H in H1, H2. set_solver.
Qed.
Lemma phoneme_ids_injective_witness :
  ids_for_text demo_phonemes "he" = Ok [1; 0; 10; 0; 11; 0; 2] ∧
  ∀ t, ids_for_text demo_phonemes t = Ok [1; 0; 10; 0; 11; 0; 2] → "he" = t.
Proof.
  assert (ids_for_text demo_phonemes "he" = Ok [1; 0; 10; 0; 11; 0; 2]) as H by (vm_compute; reflexivity).
  split; [exact H|]. intros t Ht. exact (phoneme_ids_injective demo_phonemes "he" t _ demo_unambiguous H Ht).
Defined.
Definition demo_manifest : PiperVoiceManifest := {|
  pm_sample_rate := 22050; pm_inference := {| pi_noise_scale := None; pi_length_scale := None; pi_noise_w := None |};
  phoneme_id_map := demo_phonemes; num_symbols := 256; num_speakers := 3; espeak_voice := None |}.
Definition demo_piper (speaker : option Z) : PiperConfig := {|
  pc_voice_path := "v.onnx"; pc_voice_manifest_path := None; pc_speaker_id := speaker;
  pc_length_scale := default_length_scale; pc_noise_scale := default_noise_scale; pc_noise_w := default_noise_w;
  pc_chunk_samples := 2; pc_intra_threads := None |}.
Definition demo_run (_ : unit) (inputs : list (string * Tensor)) : result string (list (string * option (list f32))) :=
  Ok [("meta", None); ("output", Some [f32_of_Z 1; f32_of_Z (-2); f32_div (f32_of_Z 1) (f32_of_Z 2)])].
Definition demo_speech : SpeechBatch unit := {|
  sb_request_id := "r"; sb_model := "v"; sb_text := "he"; sb_voice := VR_Named "v";
  sb_options := SynthOptions_default; sb_stream := false; sb_emit_alignment := false;
  sb_estimated_characters := 2 |}.
Definition demo_speak : PiperRunner (Session := unit) → SpeechBatch unit →
    PiperRunner (Session := unit) * InferenceResult (RunHandle SpeechChunk) :=
  piper_speak (λ _, true) (λ _, Ok []) (λ _, Ok demo_manifest) (λ _ _, Ok ()) demo_run.
Lemma piper_speak_delivers_witness :
  ∃ r' h cs, demo_speak (piper_new (demo_piper None)) demo_speech = (r', Ok h) ∧ into_stream h = Ok <$> cs ∧
    concat (sc_audio_pcm_chunk <$> cs) = [255; 127; 1; 128; 255; 63] ∧ length (into_stream h) = 2%nat.
Proof.
  assert (∃ r' h, demo_speak (piper_new (demo_piper None)) demo_speech = (r', Ok h) ∧
    pr_state r' = Some {| ps_session := (); ps_manifest := demo_manifest |} ∧ length (into_stream h) = 2%nat)
    as (r' & h & H & Hst & Hl) by (do 2 eexists; split_and!; vm_compute; reflexivity).
  destruct (piper_speak_delivers _ _ _ _ _ _ _ _ _ H)
    as (state & ids & outputs & pcm & init & last_ & _ & _ & _ & Hr & Hp & Hs & Hc & _).
  exists r', h, (init ++ [last_]). split; [exact H|]. split; [exact Hs|]. split; [|exact Hl].
  rewrite Hc. unfold demo_run in Hr. injection Hr as <-. injection Hp as <-. vm_compute. reflexivity.
Defined.
