(* ===== verification/AudioDemos.v ===== *)
(** * The audio examples

    Models the three audio programs of src/examples: [tts_piper_local] (text to a WAV file),
    [stt_whisper_local] (a WAV file to a transcript) and [tts_elevenlabs_alignment] (text to
    an MP3 file with its alignment), each a [main] around one runner of the library.
    Arguments, environment and files are parameters; what a program prints is a list of
    lines, without the column widths.  The first two compose: the file the one writes is
    read by the other. *)
From Stdlib Require Import SpecFloat.
From S2P Require Import Prelude F64 Runtime Deployment Tokens Text Audio Runner.
From S2P Require Import AudioProvider Synthesis Session ElevenLabs WavDecode Whisper Piper.

(** [anyhow]: the context a failure carries, with the runner's error where there is one. *)
Inductive DemoFailure : Type :=
  | DF_Missing (context : string)
  | DF_Io (context : string)
  | DF_Client (e : string)
  | DF_Inference (context : string) (e : InferenceError).

(** [text.chars().count() as u32]. *)
Definition char_count (text : string) : Z := wrap_u32 (Z.of_nat (length (Text.chars text))).

(** ** [tts_piper_local] *)

Definition piper_demo_config (voice_path : string) : PiperConfig := {|
  pc_voice_path := voice_path; pc_voice_manifest_path := None; pc_speaker_id := None;
  pc_length_scale := f32_of_Z 1;
  pc_noise_scale := f32_div (f32_of_Z 667) (f32_of_Z 1000);
  pc_noise_w := f32_div (f32_of_Z 8) (f32_of_Z 10);
  pc_chunk_samples := 4096; pc_intra_threads := None
|}.
Definition piper_demo_batch {Url} (text : string) : SpeechBatch Url := {|
  sb_request_id := "cli"; sb_model := "piper"; sb_text := text; sb_voice := VR_Named "default";
  sb_options := SynthOptions_default; sb_stream := true; sb_emit_alignment := false;
  sb_estimated_characters := char_count text
|}.
(** The loop over the stream: the samples so far and the rate of the last chunk. *)
Fixpoint piper_collect (items : list (InferenceResult SpeechChunk)) (pcm : Bytes) (sample_rate : Z) :
  result DemoFailure (Bytes * Z) :=
  match items with
  | [] => Ok (pcm, sample_rate)
  | Err e :: _ => Err (DF_Inference "chunk" e)
  | Ok chunk :: rest =>
      let sample_rate := sample_rate_hz (sc_params chunk) in
      let pcm := pcm ++ sc_audio_pcm_chunk chunk in
      if sc_is_final chunk then Ok (pcm, sample_rate) else piper_collect rest pcm sample_rate
  end.
(** What [write_wav] writes. *)
Definition write_wav (pcm : Bytes) (sample_rate channels : Z) : Bytes :=
  let byte_rate := wrap_u32 (wrap_u32 (sample_rate * channels) * 2) in
  let data_len := wrap_u32 (blen pcm) in
  let riff_len := wrap_u32 (36 + data_len) in
  string_bytes "RIFF" ++ to_le_bytes 4 riff_len ++ string_bytes "WAVE" ++
  string_bytes "fmt " ++ to_le_bytes 4 16 ++ to_le_bytes 2 1 ++ to_le_bytes 2 channels ++
  to_le_bytes 4 sample_rate ++ to_le_bytes 4 byte_rate ++ to_le_bytes 2 (wrap_u16 (channels * 2)) ++
  to_le_bytes 2 16 ++ string_bytes "data" ++ to_le_bytes 4 data_len ++ pcm.

Section piper_demo.
Context {Session Url : Type} (exists_ : string → bool) (fs_read : string → result string Bytes)
  (parse_manifest : Bytes → result string PiperVoiceManifest)
  (commit_from_file : option Z → string → result string Session)
  (session_run : Session → list (string * Tensor) → result string (list (string * option (list f32)))).
(** Creating a file and writing it. *)
Variable fs_write : string → Bytes → result string unit.

(** [main]: the path and the contents of the file written. *)
Definition piper_main (arg1 : option string) (env : string → option string) : result DemoFailure (string * Bytes) :=
  let text := default "həloʊ" arg1 in
  match env "PIPER_VOICE_PATH" with
  | None => Err (DF_Missing "set PIPER_VOICE_PATH to a Piper .onnx voice")
  | Some voice_path =>
      let out_path := default "piper_out.wav" (env "PIPER_OUT_PATH") in
      let runner := piper_new (Session := Session) (piper_demo_config voice_path) in
      let? handle := map_err (DF_Inference "speak")
        (snd (piper_speak (Url := Url) exists_ fs_read parse_manifest commit_from_file session_run
                runner (piper_demo_batch text))) in
      let? out := piper_collect (into_stream handle) [] 22050 in
      let file := write_wav (fst out) (snd out) 1 in
      let? _ := map_err DF_Io (fs_write out_path file) in
      Ok (out_path, file)
  end.
End piper_demo.

(** ** [stt_whisper_local] *)

Inductive TranscriptLine : Type :=
  | TL_Segment (start_ms end_ms : Z) (text : string)
  | TL_Word (start_ms end_ms : Z) (confidence : f32) (text : string).
Definition word_line (w : WordTiming) : TranscriptLine :=
  TL_Word (wt_start_ms w) (wt_end_ms w) (default (S754_zero false) (wt_confidence w)) (wt_text w).
Definition chunk_lines (want_words : bool) (c : TranscriptChunk) : list TranscriptLine :=
  TL_Segment (tc_start_ms c) (tc_end_ms c) (str_trim (tc_text c)) ::
  (if want_words then word_line <$> tc_words c else []).
Fixpoint transcript_print (want_words : bool) (items : list (InferenceResult TranscriptChunk)) :
  list TranscriptLine * result DemoFailure unit :=
  match items with
  | [] => ([], Ok ())
  | Err e :: _ => ([], Err (DF_Inference "chunk" e))
  | Ok c :: rest =>
      if tc_is_final c then (chunk_lines want_words c, Ok ())
      else let '(out, r) := transcript_print want_words rest in (chunk_lines want_words c ++ out, r)
  end.
Definition wants_words (v : option string) : bool :=
  match v with
  | Some v => bool_decide (v = "1") || bool_decide (to_ascii_lowercase v = "true")
  | None => false
  end.
Definition whisper_demo_config (model : string) (want_words : bool) : WhisperConfig := {|
  wc_model_path := model; wc_language := None; wc_n_threads := None; wc_translate := false;
  wc_word_timestamps := want_words; wc_sample_rate_hz := default_sample_rate
|}.
Definition wav_payload {Url} (wav : Bytes) : AudioPayload Url :=
  AP_Bytes wav {| sample_rate_hz := 16000; channels := 1; format := AF_Wav |}.
Definition whisper_demo_batch {Url Receiver} (wav : Bytes) (want_words : bool) : AudioBatch Url Receiver := {|
  ab_request_id := "cli"; ab_model := "whisper-local"; ab_input := AI_Static (wav_payload wav);
  ab_stream := false;
  ab_options := AO_Transcribe {| to_language := None; interim_results := false; word_timestamps := want_words;
                                 diarize := false; to_prompt := None; to_temperature := None |};
  ab_estimated_units := 1
|}.

Section whisper_demo.
Context {Ctx WState Url Receiver : Type} (is_file : string → bool) (new_context : string → result string Ctx)
  (create_state : Ctx → result string WState)
  (full : WState → FullParams → list f32 → WState * result string unit)
  (full_n_segments : WState → Z) (get_segment : WState → Z → option Segment)
  (build : Build) (lossy : Bytes → string) (fs_read : string → result (bool * string) Bytes).
Definition demo_whisper_execute (cfg : WhisperConfig) (batch : AudioBatch Url Receiver) :=
  snd <$> whisper_execute is_file new_context create_state full full_n_segments get_segment build lossy fs_read
    (whisper_new cfg) batch.
(** [None]: a panic of the decoder. *)
Definition whisper_main (arg1 : option string) (env : string → option string) :
  option (list TranscriptLine * result DemoFailure unit) :=
  match arg1 with
  | None => Some ([], Err (DF_Missing "usage: stt_whisper_local <path-to-wav>"))
  | Some wav_path =>
      match env "WHISPER_MODEL_PATH" with
      | None => Some ([], Err (DF_Missing "set WHISPER_MODEL_PATH to a ggml whisper model"))
      | Some model =>
          let want_words := wants_words (env "WHISPER_WORD_TIMESTAMPS") in
          match fs_read wav_path with
          | Err _ => Some ([], Err (DF_Io "read wav"))
          | Ok wav_bytes =>
              handle ← demo_whisper_execute (whisper_demo_config model want_words)
                         (whisper_demo_batch wav_bytes want_words);
              Some match handle with
                   | Err e => ([], Err (DF_Inference "execute_audio" e))
                   | Ok h => transcript_print want_words (into_stream h)
                   end
          end
      end
  end.
End whisper_demo.

(** ** [tts_elevenlabs_alignment] *)

Definition DEFAULT_VOICE : string := "21m00Tcm4TlvDq8ikWAM".
Inductive AlignmentLine : Type :=
  | AL_Frame (idx : Z) (chars bytes : Z) (is_final : bool)
  | AL_Char (text : string) (start_ms end_ms : Z)
  | AL_Wrote (bytes : Z) (out_path : string) (alignment_frames : Z).
Definition alignment_lines (frame_idx : Z) (c : SpeechChunk) : list AlignmentLine :=
  match sc_alignment c with
  | Some a =>
      AL_Frame frame_idx (Z.of_nat (length (al_words a))) (blen (sc_audio_pcm_chunk c)) (sc_is_final c) ::
      ((λ w, AL_Char (wt_text w) (wt_start_ms w) (wt_end_ms w)) <$> take 8 (al_words a))
  | None => []
  end.
Fixpoint alignment_collect (items : list (InferenceResult SpeechChunk)) (audio : Bytes) (frame_idx : Z) :
  list AlignmentLine * result DemoFailure (Bytes * Z) :=
  match items with
  | [] => ([], Ok (audio, frame_idx))
  | Err e :: _ => ([], Err (DF_Inference "chunk" e))
  | Ok chunk :: rest =>
      let audio := audio ++ sc_audio_pcm_chunk chunk in
      let lines := alignment_lines frame_idx chunk in
      if sc_is_final chunk then (lines, Ok (audio, frame_idx))
      else let '(out, r) := alignment_collect rest audio (wrap_u32 (frame_idx + 1)) in (lines ++ out, r)
  end.
Definition alignment_batch {Url} (text voice : string) : SpeechBatch Url := {|
  sb_request_id := "cli"; sb_model := "eleven_turbo_v2_5"; sb_text := text; sb_voice := VR_Id voice;
  sb_options := SynthOptions_default; sb_stream := true; sb_emit_alignment := true;
  sb_estimated_characters := char_count text
|}.

Section elevenlabs_demo.
Context {Url Client : Type} `{!UrlOps Url}.
Variable build_client : Timeouts → string → result string Client.
Variable fs_write : string → Bytes → result string unit.
(** [SpeechRunner::speak] of the runner built, with its sockets and its client. *)
Variable speak : ElevenLabsTtsRunner Url → SpeechBatch Url → InferenceResult (RunHandle SpeechChunk).

(** [None]: a static URL of the defaults did not parse, a panic. *)
Definition alignment_main (arg1 arg2 : option string) (env : string → option string) :
  option (list AlignmentLine * result DemoFailure unit) :=
  let text := default "Hello from atomr-infer." arg1 in
  let voice := default DEFAULT_VOICE arg2 in
  let out_path := default "elevenlabs_out.mp3" (env "ELEVEN_OUT_PATH") in
  match env "ELEVEN_API_KEY" with
  | None => Some ([], Err (DF_Missing "set ELEVEN_API_KEY to your bearer token"))
  | Some api_key =>
      cfg ← defaults_for_elevenlabs (ES_Env "ELEVEN_API_KEY");
      Some
        (let opened :=
           let? _ := map_err DF_Client (build_client Timeouts_default "tts-elevenlabs-example/0") in
           let? runner := map_err (DF_Inference "") (elevenlabs_new cfg api_key) in
           map_err (DF_Inference "speak") (speak runner (alignment_batch text voice)) in
         match opened with
         | Err e => ([], Err e)
         | Ok handle =>
             let '(out, r) := alignment_collect (into_stream handle) [] 0 in
             match r with
             | Err e => (out, Err e)
             | Ok (audio, frame_idx) =>
                 match fs_write out_path audio with
                 | Err _ => (out, Err (DF_Io "write output"))
                 | Ok _ => (out ++ [AL_Wrote (blen audio) out_path frame_idx], Ok ())
                 end
             end
         end)
  end.
End elevenlabs_demo.

(** ** A written file is a WAV file *)

(** On samples of an even length that fit the header, the file is the RIFF file of a format
    chunk and a data chunk. *)
Lemma write_wav_riff pcm rate :
  is_u 32 (rate * 2) → 0 ≤ rate → blen pcm `mod` 2 = 0 → 36 + blen pcm < 2 ^ 32 →
  write_wav pcm rate 1 = riff_bytes [fmt_chunk 1 1 rate 16 []; (string_bytes "data", pcm)].
Proof.
  intros Hr H0 Hm Hl. pose proof (blen_nonneg pcm). unfold is_u in Hr.
  unfold write_wav, riff_bytes, fmt_chunk, chunk_bytes. cbn [map concat fst snd].
  rewrite Hm. cbn [Z.eqb]. rewrite Z.mul_1_r.
  rewrite (wrap_id 32 rate), (wrap_id 32 (rate * 2)), (wrap_id 32 (blen pcm)), (wrap_id 32 (36 + blen pcm))
    by (unfold is_u; lia).
  change (1 * (16 `div` 8)) with 2. change (wrap_u16 (1 * 2)) with 2.
  assert (blen (to_le_bytes 2 1 ++ to_le_bytes 2 1 ++ to_le_bytes 4 rate ++ to_le_bytes 4 (rate * 2) ++
                to_le_bytes 2 2 ++ to_le_bytes 2 16 ++ []) = 16) as E16
    by (rewrite !blen_app, !blen_le; done).
  rewrite E16. change (16 `mod` 2 =? 0) with true. cbv iota. rewrite !app_nil_r, <-!app_assoc.
  do 2 f_equal. f_equal. rewrite !blen_app, !blen_le. change (blen (string_bytes _)) with 4. lia.
Qed.
Lemma decode_two_chunks lossy pcm rate :
  is_u 32 rate → blen pcm < 2 ^ 32 - 44 → blen (riff_bytes [fmt_chunk 1 1 rate 16 []; (string_bytes "data", pcm)]) < 2 ^ 63 →
  decode_wav lossy (riff_bytes [fmt_chunk 1 1 rate 16 []; (string_bytes "data", pcm)]) =
  Some (if rate =? 16000 then decode_pcm16 pcm
        else Err ("WAV: expected 16000 Hz, got " +:+ pretty rate +:+ " Hz")).
Proof.
  intros Hr Hp Hl. rewrite decode_wav_riff; [|repeat constructor; cbn [fst snd]; try done; lia|done].
  cbn [foldl]. cbn [mbind option_bind]. rewrite wav_chunk_fmt by (unfold is_u in *; lia).
  cbn [mbind option_bind]. unfold wav_chunk. cbn [fst snd].
  rewrite decide_False by (by intros [? _]). rewrite decide_True by done. cbn [mbind option_bind].
  unfold finish_wav. cbn. by destruct (rate =? 16000).
Qed.
Lemma length_riff_two pcm rate :
  blen pcm `mod` 2 = 0 → blen (riff_bytes [fmt_chunk 1 1 rate 16 []; (string_bytes "data", pcm)]) = 44 + blen pcm.
Proof.
  intros Hm. unfold riff_bytes, fmt_chunk, chunk_bytes. cbn [map concat fst snd]. rewrite Hm.
  match goal with |- context [if blen ?l `mod` 2 =? 0 then _ else _] =>
    assert (blen l = 16) as E by (rewrite !blen_app, !blen_le; done) end.
  rewrite E. change (16 `mod` 2 =? 0) with true. cbv iota. change (0 =? 0) with true. cbv iota.
  rewrite !blen_app, !blen_le in *. change (blen (string_bytes _)) with 4. change (blen []) with 0. lia.
Qed.
Lemma samples_pcm16 pcm : concat (sample_bytes <$> pcm) = pcm16_bytes (i16_sample <$> pcm).
Proof. unfold pcm16_bytes. by rewrite map_map. Qed.
Lemma blen_samples pcm : blen (concat (sample_bytes <$> pcm)) = 2 * Z.of_nat (length pcm).
Proof. unfold blen. rewrite length_samples. lia. Qed.

(** The loops of the examples on a stream whose last chunk, and only it, is final. *)
Lemma piper_collect_whole init last_ acc r0 :
  Forall (λ c, sc_is_final c = false) init → sc_is_final last_ = true →
  piper_collect (Ok <$> (init ++ [last_])) acc r0 =
    Ok (acc ++ concat (sc_audio_pcm_chunk <$> (init ++ [last_])), sample_rate_hz (sc_params last_)).
Proof.
  intros Hi Hl. revert acc r0. induction Hi as [|c init Hc _ IH]; intros acc r0; cbn.
  - by rewrite Hl, app_nil_r.
  - rewrite Hc, IH. by rewrite <-app_assoc.
Qed.
Lemma transcript_print_whole want init last_ :
  Forall (λ c, tc_is_final c = false) init → tc_is_final last_ = true →
  transcript_print want (Ok <$> (init ++ [last_])) = (concat (chunk_lines want <$> (init ++ [last_])), Ok ()).
Proof.
  intros Hi Hl. induction Hi as [|c init Hc _ IH]; [cbn [app fmap list_fmap transcript_print concat]; by rewrite Hl, app_nil_r|].
  cbn [app fmap list_fmap transcript_print]. rewrite Hc. change (list_fmap _ _ Ok (init ++ [last_])) with (Ok (E:=InferenceError) <$> (init ++ [last_])).
  by rewrite IH.
Qed.

Section pipeline.
Context {Session Url : Type} (exists_ : string → bool) (fs_read : string → result string Bytes)
  (parse_manifest : Bytes → result string PiperVoiceManifest)
  (commit_from_file : option Z → string → result string Session)
  (session_run : Session → list (string * Tensor) → result string (list (string * option (list f32))))
  (fs_write : string → Bytes → result string unit).

(** [C38] The two local examples compose.  When [tts_piper_local] ends well, the voice was loaded
    and run on the text, and the file it wrote is a WAV file of the samples: given to
    [stt_whisper_local], the samples the model is run on are, for a 16 kHz voice, exactly
    those synthesized, each rounded to 16 bits, none lost and none added, whatever the
    chunking; for a voice of another rate the file is refused with that rate, never
    misread.  (For a rate below 2^31 and a file of less than 4 GiB, what the 32-bit fields of
    the format can say.) *)
Theorem synthesized_file_transcribes {Url'} (lossy : Bytes → string) (read : string → result (bool * string) Bytes)
    (arg1 : option string) (env : string → option string) (path : string) (file : Bytes) :
  piper_main (Url := Url) exists_ fs_read parse_manifest commit_from_file session_run fs_write arg1 env =
    Ok (path, file) →
  ∃ voice state pcm,
    env "PIPER_VOICE_PATH" = Some voice ∧ fs_write path file = Ok () ∧
    build_state exists_ fs_read parse_manifest commit_from_file (piper_demo_config voice) = Ok state ∧
    run_synthesis session_run state (default "həloʊ" arg1) (piper_demo_config voice) = Ok pcm ∧
    let rate := pm_sample_rate (ps_manifest state) in
    (0 ≤ rate < 2 ^ 31 → 44 + 2 * Z.of_nat (length pcm) < 2 ^ 32 →
     payload_to_f32_pcm lossy read (wav_payload (Url := Url') file) default_sample_rate =
     Some (if rate =? 16000 then Ok (map pcm16_sample (i16_sample <$> pcm))
           else Err ("WAV: expected 16000 Hz, got " +:+ pretty rate +:+ " Hz"))).
Proof.
  unfold piper_main. destruct (env "PIPER_VOICE_PATH") as [voice|]; [|done].
  unfold piper_speak. cbn [pr_state piper_new get_or_try_init pr_cfg].
  destruct (build_state _ _ _ _ _) as [state|] eqn:Hb; [|done]. cbn [map_err snd with_state].
  destruct (run_synthesis _ _ _ _) as [pcm|] eqn:Hrun; [|done]. cbn [map_err into_stream streaming rh_inner].
  destruct (pcm_chunks_whole pcm (sb_request_id (piper_demo_batch (Url := Url) (default "həloʊ" arg1)))
    (pm_sample_rate (ps_manifest state))
    (Z.to_nat (Z.max (pc_chunk_samples (piper_demo_config voice)) 1)) ltac:(lia)) as (init & last_ & -> & Hc & Hf & Hi & Hl).
  rewrite piper_collect_whole by done. rewrite Hc. cbn [app fst snd].
  apply Forall_app in Hf as [_ Hf]. apply Forall_cons in Hf as [(_ & -> & _) _]. cbn [piper_params sample_rate_hz].
  destruct (fs_write _ _) as [[]|] eqn:Hw; [|done]. cbn [map_err]. intros [= <- <-].
  exists voice, state, pcm. split_and!; try done. cbv zeta. intros Hr Hlen.
  cbn [payload_to_f32_pcm wav_payload check_params decode_bytes format]. 
  rewrite write_wav_riff; [|unfold is_u; lia|lia|rewrite blen_samples, Z.mul_comm; by apply Z.mod_mul|rewrite blen_samples; lia].
  unfold check_params. cbn [sample_rate_hz channels default_sample_rate Z.eqb Pos.eqb negb].
  rewrite decode_two_chunks; [|unfold is_u; lia|rewrite blen_samples; lia|].
  - f_equal. destruct (Z.eqb_spec (pm_sample_rate (ps_manifest state)) 16000); [|done].
    rewrite samples_pcm16. apply (decode_pcm16_bytes lossy), Forall_fmap, Forall_true. intros s. by apply (f32_to_i_range 16).
  - rewrite length_riff_two, blen_samples; [lia|]. rewrite blen_samples, Z.mul_comm. by apply Z.mod_mul.
Qed.
End pipeline.

Section transcript.
Context {Ctx WState Url Receiver : Type} (is_file : string → bool) (new_context : string → result string Ctx)
  (create_state : Ctx → result string WState)
  (full : WState → FullParams → list f32 → WState * result string unit)
  (full_n_segments : WState → Z) (get_segment : WState → Z → option Segment)
  (build : Build) (lossy : Bytes → string) (fs_read : string → result (bool * string) Bytes).
Abbreviation execute := (demo_whisper_execute (Url := Url) (Receiver := Receiver) is_file new_context create_state full
  full_n_segments get_segment build lossy fs_read).

(** Stopping at the first final chunk cuts nothing off: once the model has answered, the
    example prints every chunk of the transcription, in order, and ends without an error. *)
Theorem transcript_printed_whole (wav model : string) (env : string → option string) (bytes : Bytes)
    (h : RunHandle TranscriptChunk) :
  env "WHISPER_MODEL_PATH" = Some model → fs_read wav = Ok bytes →
  let want := wants_words (env "WHISPER_WORD_TIMESTAMPS") in
  execute (whisper_demo_config model want) (whisper_demo_batch bytes want) = Some (Ok h) →
  ∃ cs, into_stream h = Ok <$> cs ∧
    whisper_main (Url := Url) (Receiver := Receiver) is_file new_context create_state full full_n_segments
      get_segment build lossy fs_read (Some wav) env = Some (concat (chunk_lines want <$> cs), Ok ()).
Proof.
  intros Hm Hw want He. unfold whisper_main. rewrite Hm, Hw. fold want. rewrite He. cbn [mbind option_bind].
  unfold demo_whisper_execute, whisper_execute in He. cbn [ab_options ab_input whisper_demo_batch] in He.
  destruct (run_unsupported_arch_or_feature build); [|done].
  destruct (ensure_session _ _ _ _) as [r1 [session|]]; [|done].
  destruct (payload_to_f32_pcm _ _ _ _) as [[samples|]|]; [|done..]. cbn [mbind option_bind] in He.
  destruct (transcribe _ _ _ _ _ _ _) as [session' chunks] eqn:Ht. cbn [fmap option_fmap option_map snd] in He.
  destruct chunks as [cs|]; [|done]. cbn [map_err] in He. simplify_eq.
  destruct (transcribe_one_final _ _ _ _ _ _ _ _ _ Ht) as (init & last_ & -> & Hi & Hl).
  eexists. split; [reflexivity|]. cbn [into_stream streaming rh_inner]. by rewrite transcript_print_whole.
Qed.
End transcript.

(** The number the alignment example reports as alignment frames is the number of chunks
    before the final one: it does not depend on which chunks carried an alignment, while
    the frame lines printed are exactly those that did. *)
Definition is_frame_line (l : AlignmentLine) : bool := match l with AL_Frame _ _ _ _ => true | _ => false end.
Definition count_frames (l : list AlignmentLine) : nat := length (List.filter is_frame_line l).
Lemma count_frames_app l1 l2 : count_frames (l1 ++ l2) = (count_frames l1 + count_frames l2)%nat.
Proof. unfold count_frames. by rewrite List.filter_app, length_app. Qed.
Lemma count_frames_chunk i c : count_frames (alignment_lines i c) = (match sc_alignment c with Some _ => 1 | None => 0 end)%nat.
Proof.
  unfold alignment_lines. destruct (sc_alignment c) as [a|]; [|done].
  unfold count_frames. cbn [List.filter is_frame_line length]. f_equal. by induction (take 8 (al_words a)).
Qed.
Theorem alignment_frames_are_chunks init last_ acc idx :
  Forall (λ c, sc_is_final c = false) init → sc_is_final last_ = true →
  0 ≤ idx → idx + Z.of_nat (length init) < 2 ^ 32 →
  ∃ lines, alignment_collect (Ok <$> (init ++ [last_])) acc idx =
      (lines, Ok (acc ++ concat (sc_audio_pcm_chunk <$> (init ++ [last_])), idx + Z.of_nat (length init))) ∧
    count_frames lines = length (omap sc_alignment (init ++ [last_])).
Proof.
  intros Hi Hl. revert acc idx. induction Hi as [|c init Hc _ IH]; intros acc idx H0 Hlt.
  - cbn. rewrite Hl, Z.add_0_r, app_nil_r. eexists. split; [done|].
    rewrite count_frames_chunk. by destruct (sc_alignment last_).
  - cbn [length] in Hlt. cbn [app fmap list_fmap alignment_collect]. rewrite Hc.
    rewrite (wrap_id 32) by (unfold is_u; lia).
    destruct (IH (acc ++ sc_audio_pcm_chunk c) (idx + 1) ltac:(lia) ltac:(lia)) as (lines & E & Hn).
    change (list_fmap _ _ Ok (init ++ [last_])) with (Ok (E:=InferenceError) <$> (init ++ [last_])). rewrite E.
    eexists. split; [do 3 f_equal; [by rewrite <-app_assoc|cbn [length]; lia]|].
    rewrite count_frames_app, count_frames_chunk, Hn. cbn. by destruct (sc_alignment c).
Qed.
Example alignment_frames_miscounted :
  let c final := speech_chunk "r" (piper_params 16000) final [0; 0] in
  snd (alignment_collect (Ok <$> [c false; c false; c true]) [] 0) = Ok ([0; 0; 0; 0; 0; 0], 2) ∧
  count_frames (fst (alignment_collect (Ok <$> [c false; c false; c true]) [] 0)) = 0%nat.
Proof. done. Qed.

(** ** Witness *)

Definition demo_env (s : string) : option string :=
  if decide (s = "PIPER_VOICE_PATH") then Some "v.onnx" else None.
Definition demo_manifest_16k : PiperVoiceManifest := {|
  pm_sample_rate := 16000; pm_inference := pm_inference demo_manifest; phoneme_id_map := demo_phonemes;
  num_symbols := 256; num_speakers := 3; espeak_voice := None |}.
Definition demo_piper_main : option string → (string → option string) → result DemoFailure (string * Bytes) :=
  piper_main (Url := unit) (λ _, true) (λ _, Ok []) (λ _, Ok demo_manifest_16k) (λ _ _, Ok ()) demo_run (λ _ _, Ok ()).
(** Three samples make a file of 50 bytes, which reads back as the three. *)
Lemma synthesized_file_transcribes_witness :
  ∃ file, demo_piper_main (Some "he") demo_env = Ok ("piper_out.wav", file) ∧ length file = 50%nat ∧
    payload_to_f32_pcm (λ _, "") (λ _, Err (true, "")) (wav_payload (Url := unit) file) default_sample_rate =
    Some (Ok (map pcm16_sample [32767; -32767; 16383])).
Proof.
  assert (∃ file, demo_piper_main (Some "he") demo_env = Ok ("piper_out.wav", file) ∧ length file = 50%nat)
    as (file & E & Hl) by (eexists; split; vm_compute; reflexivity).
  exists file. split; [exact E|]. split; [exact Hl|].
  destruct (synthesized_file_transcribes _ _ _ _ _ _ (Url' := unit) (λ _, "") (λ _, Err (true, "")) _ _ _ _ E)
    as (voice & state & pcm & _ & _ & Hb & Hr & H).
  injection Hb as <-.
  assert (pcm = [f32_of_Z 1; f32_of_Z (-2); f32_div (f32_of_Z 1) (f32_of_Z 2)]) as ->
    by (vm_compute in Hr; injection Hr as <-; reflexivity).
  etrans; [apply H; vm_compute; split; done || done|]. vm_compute. reflexivity.
Defined.
