(* ===== verification/LocalTts.v ===== *)
(** * Local synthesis runtimes whose model is not wired yet

    Models [inference-runtime-kokoro/src], [inference-runtime-xtts/src] and
    [inference-runtime-moss/src]: configuration, errors, cost and the runners.  In the source
    the three check the request and the model's files, then answer one empty final chunk
    where the synthesis will be; the class [PlaceholderTts] states that for all of them.
    The features, the host and [Path::exists] are arguments. *)
From Stdlib Require Import SpecFloat.
From S2P Require Import Prelude F64 Runtime Tokens Text Audio Runner AudioProvider Synthesis.

(** A local model costs nothing: [per_million_chars_usd] and [estimate_usd] of the three. *)
Definition per_million_chars_usd (_ : string) : f64 := S754_zero false.
Definition local_estimate_usd (model : string) (chars : Z) : f64 :=
  f64_div (f64_mul (per_million_chars_usd model) (f64_of_Z chars)) (f64_of_Z 1000000).
(** All three answer at this rate ([KOKORO_SAMPLE_RATE_HZ] and its siblings), mono. *)
Definition LOCAL_TTS_RATE : Z := 24000.
Definition local_tts_params : AudioParams := {| sample_rate_hz := LOCAL_TTS_RATE; channels := 1; format := AF_Pcm16Le |}.
Definition placeholder (request_id : string) : RunHandle SpeechChunk :=
  streaming [Ok (speech_chunk request_id local_tts_params true [])].
(** The check on the output format, with the runner's name and its error. *)
Definition check_pcm {E} (unsupported : string → E) (name : string) (o : SynthOptions) : result E unit :=
  match so_format o with
  | Some fmt => if is_pcm fmt then Ok ()
                else Err (unsupported (name +:+ " only emits PCM; requested " +:+ debug_AudioFormat fmt +:+ " is not supported"))
  | None => Ok ()
  end.

(** ** Kokoro *)

Record KokoroConfig : Type := {
  kc_voice_pack_dir : string; kc_default_voice : string; kc_chunk_samples : Z; kc_intra_threads : option Z
}.
Definition voice_onnx_path (c : KokoroConfig) : string := path_join (kc_voice_pack_dir c) (kc_default_voice c +:+ ".onnx").
Inductive KokoroError : Type :=
  | Ke_VoiceNotFound (path : string) | Ke_EmptyVoiceName | Ke_Io (m : string) | Ke_Ort (m : string)
  | Ke_UnsupportedFormat (message : string) | Ke_FeatureDisabled.
Definition kokoro_error_to_string (e : KokoroError) : string :=
  match e with
  | Ke_VoiceNotFound path => "kokoro voice file not found: " +:+ path
  | Ke_EmptyVoiceName => "kokoro voice name is empty"
  | Ke_Io m => "kokoro io: " +:+ m
  | Ke_Ort m => "kokoro ort error: " +:+ m
  | Ke_UnsupportedFormat message => "kokoro unsupported format: " +:+ message
  | Ke_FeatureDisabled => "kokoro feature disabled at build time — rebuild with --features tts-kokoro"
  end.
Definition kokoro_error_into (e : KokoroError) : InferenceError :=
  match e with
  | Ke_VoiceNotFound _ | Ke_EmptyVoiceName => BadRequest (kokoro_error_to_string e)
  | Ke_UnsupportedFormat message => UnsupportedAudioFormat message
  | Ke_Io _ | Ke_Ort _ | Ke_FeatureDisabled => Internal (kokoro_error_to_string e)
  end.

(** ** XTTS *)

Record XttsConfig : Type := {
  xc_model_path : string; xc_default_language : string; xc_chunk_samples : Z; xc_intra_threads : option Z
}.
Definition default_language : string := "en".
Inductive XttsError : Type :=
  | Xe_ModelNotFound (path : string) | Xe_ReferenceAudioError (reason : string) | Xe_UnsupportedLanguage (lang : string)
  | Xe_UnsupportedFormat (message : string) | Xe_Io (m : string) | Xe_Ort (m : string) | Xe_FeatureDisabled.
Definition xtts_error_to_string (e : XttsError) : string :=
  match e with
  | Xe_ModelNotFound path => "xtts model not found: " +:+ path
  | Xe_ReferenceAudioError reason => "xtts reference audio could not be materialized: " +:+ reason
  | Xe_UnsupportedLanguage lang => "xtts unsupported language: " +:+ lang
  | Xe_UnsupportedFormat message => "xtts unsupported format: " +:+ message
  | Xe_Io m => "xtts io: " +:+ m
  | Xe_Ort m => "xtts ort error: " +:+ m
  | Xe_FeatureDisabled => "xtts feature disabled at build time — rebuild with --features tts-xtts"
  end.
Definition xtts_error_into (e : XttsError) : InferenceError :=
  match e with
  | Xe_ModelNotFound _ | Xe_ReferenceAudioError _ | Xe_UnsupportedLanguage _ => BadRequest (xtts_error_to_string e)
  | Xe_UnsupportedFormat message => UnsupportedAudioFormat message
  | Xe_Io _ | Xe_Ort _ | Xe_FeatureDisabled => Internal (xtts_error_to_string e)
  end.

(** ** MOSS *)

Record MossConfig : Type := { mc_model_dir : string; mc_default_voice : string; mc_chunk_samples : Z }.
Definition default_voice : string := "default".
Inductive MossError : Type :=
  | Me_ModelNotFound (path : string) | Me_UnsupportedFormat (message : string) | Me_RequiresLinux
  | Me_Io (m : string) | Me_Internal (m : string) | Me_FeatureDisabled.
Definition moss_error_to_string (e : MossError) : string :=
  match e with
  | Me_ModelNotFound path => "moss model directory not found: " +:+ path
  | Me_UnsupportedFormat message => "moss unsupported format: " +:+ message
  | Me_RequiresLinux => "moss requires Linux — this binary was built for a different target OS"
  | Me_Io m => "moss io: " +:+ m
  | Me_Internal m => "moss internal: " +:+ m
  | Me_FeatureDisabled => "moss feature disabled at build time — rebuild with --features tts-moss"
  end.
Definition moss_error_into (e : MossError) : InferenceError :=
  match e with
  | Me_ModelNotFound _ => BadRequest (moss_error_to_string e)
  | Me_UnsupportedFormat message => UnsupportedAudioFormat message
  | Me_RequiresLinux | Me_Io _ | Me_Internal _ | Me_FeatureDisabled => Internal (moss_error_to_string e)
  end.

(** ** The runners *)

Record KokoroRunner : Type := { kr_cfg : KokoroConfig }.
Record XttsRunner : Type := { xr_cfg : XttsConfig }.
Record MossRunner : Type := { mr_cfg : MossConfig }.

Section runners.
Context {Url : Type}.
(** The crate's feature, whether the host is Linux, and [Path::exists]. *)
Variables (feature linux : bool) (exists_ : string → bool).

Definition kokoro_validate_batch (r : KokoroRunner) (batch : SpeechBatch Url) : result KokoroError unit :=
  if is_empty_str (kc_default_voice (kr_cfg r)) then Err Ke_EmptyVoiceName
  else check_pcm Ke_UnsupportedFormat "Kokoro" (sb_options batch).
Definition kokoro_speak (r : KokoroRunner) (batch : SpeechBatch Url) : KokoroRunner * InferenceResult (RunHandle SpeechChunk) :=
  (r,
   if feature then
     let? _ := map_err kokoro_error_into (kokoro_validate_batch r batch) in
     let voice_path := voice_onnx_path (kr_cfg r) in
     if exists_ voice_path then Ok (placeholder (sb_request_id batch))
     else Err (kokoro_error_into (Ke_VoiceNotFound voice_path))
   else Err (Internal "tts-kokoro feature disabled at build time — rebuild with --features tts-kokoro")).

Definition handle_voice_ref (voice : VoiceRef Url) : result XttsError unit :=
  match voice with
  | VR_Named _ | VR_Id _ => Ok ()
  | VR_ClonedFrom payload =>
      if params_is_valid (payload_params payload) then Ok ()
      else Err (Xe_ReferenceAudioError "reference audio params out of valid range")
  end.
Definition xtts_speak (r : XttsRunner) (batch : SpeechBatch Url) : XttsRunner * InferenceResult (RunHandle SpeechChunk) :=
  (r,
   if feature then
     let? _ := map_err xtts_error_into (check_pcm Xe_UnsupportedFormat "XTTS" (sb_options batch)) in
     let? _ := map_err xtts_error_into (handle_voice_ref (sb_voice batch)) in
     let model_path := path_join (xc_model_path (xr_cfg r)) "model.onnx" in
     if exists_ model_path then Ok (placeholder (sb_request_id batch))
     else Err (xtts_error_into (Xe_ModelNotFound model_path))
   else Err (Internal "tts-xtts feature disabled at build time — rebuild with --features tts-xtts")).

Definition moss_speak (r : MossRunner) (batch : SpeechBatch Url) : MossRunner * InferenceResult (RunHandle SpeechChunk) :=
  (r,
   if feature then
     if linux then
       let? _ := map_err moss_error_into (check_pcm Me_UnsupportedFormat "MOSS" (sb_options batch)) in
       if exists_ (mc_model_dir (mr_cfg r)) then Ok (placeholder (sb_request_id batch))
       else Err (moss_error_into (Me_ModelNotFound (mc_model_dir (mr_cfg r))))
     else Err (moss_error_into Me_RequiresLinux)
   else Err (Internal "tts-moss feature disabled at build time — rebuild with --features tts-moss")).

(** What the three implement in the same words. *)
Definition local_tts_base {R} : RunnerBase R := {|
  runner_kind _ := RK_TextToSpeech;
  runner_transport _ := TK_LocalCpu;
  rebuild_session r _ := (r, Ok ());
  rate_limits := rate_limits_default
|}.

(** ** What they promise *)

(** A runner whose model is not wired never changes; it answers one empty final chunk, only
    with its feature on and for a PCM format, or an error that no retry can cure. *)
Class PlaceholderTts {R} (speak : R → SpeechBatch Url → R * InferenceResult (RunHandle SpeechChunk)) : Prop := {
  placeholder_keeps r b : fst (speak r b) = r;
  placeholder_cases r b :
    (snd (speak r b) = Ok (placeholder (sb_request_id b)) ∧ feature = true ∧
       ∀ fmt, so_format (sb_options b) = Some fmt → is_pcm fmt = true) ∨
    ∃ e, snd (speak r b) = Err e ∧ is_retryable e = false
}.
Lemma check_pcm_cases {E} (u : string → E) name o :
  (check_pcm u name o = Ok () ∧ ∀ fmt, so_format o = Some fmt → is_pcm fmt = true) ∨ ∃ m, check_pcm u name o = Err (u m).
Proof.
  unfold check_pcm. destruct (so_format o) as [fmt|]; [|by left].
  destruct (is_pcm fmt) eqn:Hf; [left|right; by eexists]. split; [done|]. intros f Hf'. congruence.
Qed.
Lemma handle_voice_ref_err voice e : handle_voice_ref voice = Err e → is_retryable (xtts_error_into e) = false.
Proof. unfold handle_voice_ref. destruct voice as [| |p]; [done..|]. destruct (params_is_valid _); [done|]. by intros [= <-]. Qed.

#[export] Instance kokoro_placeholder : PlaceholderTts kokoro_speak.
Proof.
  split; intros r b; [done|]. unfold kokoro_speak, kokoro_validate_batch. cbn [snd].
  destruct feature; [|right; by eexists]. destruct (is_empty_str _); [right; by eexists|].
  destruct (check_pcm_cases Ke_UnsupportedFormat "Kokoro" (sb_options b)) as [[-> Hf]|[m ->]]; [|right; by eexists].
  cbn. destruct (exists_ _); [by left|right; by eexists].
Qed.
#[export] Instance xtts_placeholder : PlaceholderTts xtts_speak.
Proof.
  split; intros r b; [done|]. unfold xtts_speak. cbn [snd]. destruct feature; [|right; by eexists].
  destruct (check_pcm_cases Xe_UnsupportedFormat "XTTS" (sb_options b)) as [[-> Hf]|[m ->]]; [|right; by eexists].
  cbn. destruct (handle_voice_ref (sb_voice b)) as [[]|e] eqn:Hv; cbn;
    [|right; eexists; split; [done|by apply handle_voice_ref_err in Hv]].
  destruct (exists_ _); [by left|right; by eexists].
Qed.
#[export] Instance moss_placeholder : PlaceholderTts moss_speak.
Proof.
  split; intros r b; [done|]. unfold moss_speak. cbn [snd]. destruct feature; [|right; by eexists].
  destruct linux; [|right; by eexists].
  destruct (check_pcm_cases Me_UnsupportedFormat "MOSS" (sb_options b)) as [[-> Hf]|[m ->]]; [|right; by eexists].
  cbn. destruct (exists_ _); [by left|right; by eexists].
Qed.
(** A client of any of them that gets an answer gets no audio: one final chunk of zero bytes,
    labelled 24 kHz PCM, whatever the text. *)
Theorem placeholder_silent {R} speak `{!PlaceholderTts (R := R) speak} (r : R) (b : SpeechBatch Url) h :
  snd (speak r b) = Ok h →
  into_stream h = [Ok (speech_chunk (sb_request_id b) local_tts_params true [])].
Proof. intros H. destruct (placeholder_cases r b) as [[H' _]|[e [H' _]]]; rewrite H' in H; by simplify_eq. Qed.
End runners.
