(* ===== verification/Audio2Face.v ===== *)
(** * Audio2Face runtime

    Models [inference-runtime-audio2face/src]: [config.rs], [error.rs], [cost.rs], [wire.rs],
    [arkit.rs] and [runner.rs].  The gRPC transport is not written in the source: the runner
    generates its frames, and so does the model.  [f32::sin] is a parameter, since its
    precision is the platform's. *)
From Stdlib Require Import SpecFloat.
From S2P Require Import Prelude F64 Runtime Tokens Audio Runner.

(** ** Configuration, errors, cost, wire types *)

Record Audio2FaceConfig : Type := {
  af_endpoint : string;
  af_default_emotion : option string;
  af_connect_timeout : Duration;
  af_request_timeout : Duration;
  af_max_retries : Z;
  af_tls : bool
}.
Definition default_connect_timeout : Duration := from_secs 5.
Definition default_request_timeout : Duration := from_secs 60.
Definition default_max_retries : Z := 3.
Definition defaults_for_a2f : Audio2FaceConfig := {|
  af_endpoint := "localhost:50051"; af_default_emotion := None;
  af_connect_timeout := default_connect_timeout; af_request_timeout := default_request_timeout;
  af_max_retries := default_max_retries; af_tls := false
|}.
Definition with_endpoint (endpoint : string) (c : Audio2FaceConfig) : Audio2FaceConfig := {|
  af_endpoint := endpoint; af_default_emotion := af_default_emotion c; af_connect_timeout := af_connect_timeout c;
  af_request_timeout := af_request_timeout c; af_max_retries := af_max_retries c; af_tls := af_tls c
|}.
Definition with_emotion (emotion : string) (c : Audio2FaceConfig) : Audio2FaceConfig := {|
  af_endpoint := af_endpoint c; af_default_emotion := Some emotion; af_connect_timeout := af_connect_timeout c;
  af_request_timeout := af_request_timeout c; af_max_retries := af_max_retries c; af_tls := af_tls c
|}.

Inductive Audio2FaceError : Type :=
  | Af_FeatureDisabled | Af_UnsupportedArch | Af_Unsupported (m : string) | Af_BadRequest (m : string)
  | Af_UnsupportedFormat (m : string).
Definition a2f_error_to_string (e : Audio2FaceError) : string :=
  match e with
  | Af_FeatureDisabled => "audio2face feature is disabled; rebuild with --features audio2face"
  | Af_UnsupportedArch => "audio2face requires Linux x86_64; current platform is unsupported"
  | Af_Unsupported m => "unsupported: " +:+ m
  | Af_BadRequest m => "bad request: " +:+ m
  | Af_UnsupportedFormat m => "unsupported audio format: " +:+ m
  end.
Definition a2f_error_into (e : Audio2FaceError) : InferenceError :=
  match e with
  | Af_FeatureDisabled | Af_UnsupportedArch => Internal (a2f_error_to_string e)
  | Af_Unsupported m | Af_BadRequest m => BadRequest m
  | Af_UnsupportedFormat m => BadRequest ("audio format: " +:+ m)
  end.
Definition per_minute_usd (_ : string) : f64 := S754_zero false.
Record PushAudioRequest : Type := { pa_audio_chunk : Bytes; pa_sample_rate : Z; pa_channels : Z }.
Record BlendshapeOutput : Type := { bo_time_code : Z; bo_blend_shapes : list f32 }.

(** ** ARKit (arkit.rs) *)

Definition ARKIT_BLENDSHAPE_NAMES : list string :=
  ["eyeBlinkLeft"; "eyeLookDownLeft"; "eyeLookInLeft"; "eyeLookOutLeft"; "eyeLookUpLeft"; "eyeSquintLeft";
   "eyeWideLeft"; "eyeBlinkRight"; "eyeLookDownRight"; "eyeLookInRight"; "eyeLookOutRight"; "eyeLookUpRight";
   "eyeSquintRight"; "eyeWideRight"; "jawForward"; "jawLeft"; "jawRight"; "jawOpen"; "mouthClose";
   "mouthFunnel"; "mouthPucker"; "mouthLeft"; "mouthRight"; "mouthSmileLeft"; "mouthSmileRight";
   "mouthFrownLeft"; "mouthFrownRight"; "mouthDimpleLeft"; "mouthDimpleRight"; "mouthStretchLeft";
   "mouthStretchRight"; "mouthRollLower"; "mouthRollUpper"; "mouthShrugLower"; "mouthShrugUpper";
   "mouthPressLeft"; "mouthPressRight"; "mouthLowerDownLeft"; "mouthLowerDownRight"; "mouthUpperUpLeft";
   "mouthUpperUpRight"; "browDownLeft"; "browDownRight"; "browInnerUp"; "browOuterUpLeft";
   "browOuterUpRight"; "cheekPuff"; "cheekSquintLeft"; "cheekSquintRight"; "noseSneerLeft";
   "noseSneerRight"; "tongueOut"].
(** The permutation is still the identity in the source. *)
Definition a2f_to_arkit (a2f : list f32) : list f32 := a2f.
Example arkit_names_distinct : NoDup ARKIT_BLENDSHAPE_NAMES ∧ length ARKIT_BLENDSHAPE_NAMES = 52%nat.
Proof. split; [|done]. apply (bool_decide_eq_true_1 _). vm_compute. reflexivity. Qed.

(** ** The runner (runner.rs) *)

Inductive A2FBuild : Type := A2F_FeatureOff | A2F_UnsupportedArch | A2F_Enabled.
Record Audio2FaceRunner : Type := { afr_config : Audio2FaceConfig }.
Definition a2f_new (config : Audio2FaceConfig) : Audio2FaceRunner := {| afr_config := config |}.

Section runner.
Context {Url Receiver : Type}.
Variable build : A2FBuild.
Variable sin : f32 → f32.

(** [1.0 * x.fract()] for [x] of a magnitude where the truncation is exact. *)
Definition f32_fract (x : f32) : f32 := f32_sub x (f32_of_Z (f32_to_i 64 x)).
(** [std::f32::consts::TAU], 0x40C90FDB. *)
Definition TAU : f32 := f32_div (f32_of_Z 13176795) (f32_of_Z 2097152).
Definition sine_wave (t speed gain : f32) : f32 := f32_mul (SFabs (sin (f32_mul (f32_mul t TAU) speed))) gain.
Definition raw_weights (t : f32) : list f32 :=
  let smile := sine_wave t (f32_lit 15 10) (f32_lit 4 10) in
  let blink := if f32_gt (f32_fract (f32_mul t (f32_of_Z 4))) (f32_lit 9 10) then f32_lit 8 10 else S754_zero false in
  <[7%nat := blink]> (<[0%nat := blink]> (<[24%nat := smile]> (<[23%nat := smile]>
    (<[17%nat := sine_wave t (f32_of_Z 2) (f32_lit 6 10)]> (replicate 52 (S754_zero false)))))).
Definition generator_frame (request_id : string) (frame_count frame_duration_ms : Z) (i : nat) : BlendshapeChunk := {|
  bc_request_id := request_id;
  bc_is_final := Z.of_nat i =? frame_count - 1;
  bc_timestamp_ms := saturating_mul 32 (wrap_u32 (Z.of_nat i)) frame_duration_ms;
  bc_weights := a2f_to_arkit (raw_weights (f32_div (f32_of_Z (Z.of_nat i)) (f32_of_Z (Z.max frame_count 1))))
|}.
Definition build_generator_stream (request_id : string) (frame_count frame_duration_ms : Z) :
  list (InferenceResult BlendshapeChunk) :=
  (λ i, Ok (generator_frame request_id frame_count frame_duration_ms i)) <$> seq 0 (Z.to_nat frame_count).

(** [frame_count] of the batch, before its last [max(1)]. *)
Definition batch_frames (fps : Z) (batch : AudioBatch Url Receiver) : Z :=
  match ab_input batch with
  | AI_Static payload =>
      if 0 <? ab_estimated_units batch then ab_estimated_units batch
      else
        match payload with
        | AP_Bytes data params =>
            let samples_per_frame := sample_rate_hz params / Z.max fps 1 in
            let total_samples := wrap_u32 (Z.of_nat (length data)) / Z.max (wrap_u32 (2 * channels params)) 1 in
            Z.max (total_samples / Z.max samples_per_frame 1) 1
        | _ => fps
        end
  | AI_Stream _ _ => fps
  end.
Definition a2f_fps_of (o : A2FOptions) : Z := Z.max (default 30 (a2f_fps o)) 1.
Definition a2f_execute (r : Audio2FaceRunner) (batch : AudioBatch Url Receiver) :
  Audio2FaceRunner * InferenceResult (RunHandle BlendshapeChunk) :=
  (r,
   match build with
   | A2F_FeatureOff => Err (a2f_error_into Af_FeatureDisabled)
   | A2F_UnsupportedArch => Err (a2f_error_into Af_UnsupportedArch)
   | A2F_Enabled =>
       match ab_options batch with
       | AO_Audio2Face o =>
           let fps := a2f_fps_of o in
           let frame_duration_ms := 1000 / Z.max fps 1 in
           let frame_count := Z.max (batch_frames fps batch) 1 in
           Ok (streaming (build_generator_stream (ab_request_id batch) frame_count frame_duration_ms))
       | AO_Transcribe _ =>
           Err (a2f_error_into (Af_BadRequest "expected AudioOptions::Audio2Face; got Transcribe variant"))
       end
   end).
Definition a2f_base : RunnerBase Audio2FaceRunner := {|
  runner_kind _ := RK_Audio2Face;
  runner_transport _ := TK_RemoteNetwork PK_NvidiaA2F;
  rebuild_session r _ := (r, match build with A2F_FeatureOff => Err (a2f_error_into Af_FeatureDisabled) | _ => Ok () end);
  rate_limits := rate_limits_default
|}.
End runner.

(** ** What a client receives *)

Lemma length_raw_weights sin t : length (raw_weights sin t) = 52%nat.
Proof. unfold raw_weights. by rewrite !length_insert. Qed.
Definition frames (sin : f32 → f32) (request_id : string) (frame_count frame_duration_ms : Z) : list BlendshapeChunk :=
  generator_frame sin request_id frame_count frame_duration_ms <$> seq 0 (Z.to_nat frame_count).
Lemma stream_frames sin id n d : build_generator_stream sin id n d = Ok <$> frames sin id n d.
Proof. unfold build_generator_stream, frames. by rewrite <-list_fmap_compose. Qed.
Lemma frames_lookup sin id n d i c : frames sin id n d !! i = Some c →
  Z.of_nat i < n ∧ c = generator_frame sin id n d i.
Proof.
  unfold frames. rewrite list_lookup_fmap. destruct (seq 0 (Z.to_nat n) !! i) as [k|] eqn:Hk; [|done].
  apply lookup_seq in Hk as [-> Hi]. cbn. intros [= <-]. split; [lia|done].
Qed.
(** Past 1000 frames per second the frame duration rounds to 0: no frame advances. *)
Lemma high_fps_frozen sin id n fps i c : 1000 < fps → frames sin id n (1000 / Z.max fps 1) !! i = Some c → bc_timestamp_ms c = 0.
Proof.
  intros Hf Hc. apply frames_lookup in Hc as [_ ->]. cbn. unfold saturating_mul.
  rewrite (Z.div_small 1000) by lia. by rewrite Z.mul_0_r.
Qed.

Section spec.
Context {Url Receiver : Type} (build : A2FBuild) (sin : f32 → f32).
Lemma batch_frames_range fps (batch : AudioBatch Url Receiver) :
  is_u 32 (ab_estimated_units batch) → is_u 32 fps →
  (∀ data params, ab_input batch = AI_Static (AP_Bytes data params) → 0 ≤ sample_rate_hz params) →
  batch_frames fps batch < 2 ^ 32.
Proof.
  unfold is_u, batch_frames. intros He Hf Hp.
  destruct (ab_input batch) as [[data params| |]|]; try lia; destruct (Z.ltb_spec 0 (ab_estimated_units batch)); try lia.
  pose proof (wrap_range 32 (Z.of_nat (length data)) ltac:(lia)) as Hw. unfold is_u in Hw.
  pose proof (Z.div_le_upper_bound (wrap_u32 (Z.of_nat (length data)) / Z.max (wrap_u32 (2 * channels params)) 1)
    (Z.max (sample_rate_hz params / Z.max fps 1) 1) (2 ^ 32 - 1) ltac:(lia)) as H1.
  pose proof (Z.div_le_upper_bound (wrap_u32 (Z.of_nat (length data))) (Z.max (wrap_u32 (2 * channels params)) 1) (2 ^ 32 - 1)
    ltac:(lia)) as H2. nia.
Qed.
Definition batch_typed (batch : AudioBatch Url Receiver) : Prop :=
  is_u 32 (ab_estimated_units batch) ∧
  (∀ o fps, ab_options batch = AO_Audio2Face o → a2f_fps o = Some fps → is_u 32 fps) ∧
  (∀ data params, ab_input batch = AI_Static (AP_Bytes data params) → 0 ≤ sample_rate_hz params).

(** An Audio2Face answer is a whole animation: on an enabled build, a batch with the right
    options gets exactly the frames asked for (at least one), each with its request's id and
    52 weights, the last one and only it final; frame [i] is at [i] times the frame duration,
    saturated, so timestamps never go back, and up to 1000 frames per second they advance. *)
Theorem a2f_stream_spec (r r' : Audio2FaceRunner) (batch : AudioBatch Url Receiver) (h : RunHandle BlendshapeChunk) :
  batch_typed batch → a2f_execute build sin r batch = (r', Ok h) →
  ∃ o cs, ab_options batch = AO_Audio2Face o ∧ build = A2F_Enabled ∧ into_stream h = Ok <$> cs ∧
    let n := Z.max (batch_frames (a2f_fps_of o) batch) 1 in
    let duration := 1000 / a2f_fps_of o in
    Z.of_nat (length cs) = n ∧ is_u 32 n ∧
    (∀ i c, cs !! i = Some c →
       bc_request_id c = ab_request_id batch ∧ bc_is_final c = (S i =? length cs)%nat ∧
       length (bc_weights c) = 52%nat ∧ bc_timestamp_ms c = Z.min U32_MAX (Z.of_nat i * duration)) ∧
    (∀ i j c d, cs !! i = Some c → cs !! j = Some d → (i < j)%nat →
       bc_timestamp_ms c ≤ bc_timestamp_ms d ∧
       (a2f_fps_of o ≤ 1000 → bc_timestamp_ms d < U32_MAX → bc_timestamp_ms c < bc_timestamp_ms d)).
Proof.
  intros (He & Hf & Hp). unfold a2f_execute. destruct build; [done..|]. destruct (ab_options batch) as [|o]; [done|].
  intros [= <- <-]. cbn [rh_inner streaming into_stream].
  assert (is_u 32 (a2f_fps_of o) ∧ 1 ≤ a2f_fps_of o) as [Hu H1].
  { unfold a2f_fps_of, is_u. destruct (a2f_fps o) as [fps|] eqn:E; [specialize (Hf o fps eq_refl E)|]; cbn; [unfold is_u in Hf|]; lia. }
  pose proof (batch_frames_range _ batch He Hu Hp) as Hn.
  rewrite (Z.max_l (a2f_fps_of o) 1) by lia. set (n := Z.max (batch_frames (a2f_fps_of o) batch) 1) in *.
  set (d := 1000 / a2f_fps_of o). assert (0 ≤ d) as Hd by (apply Z.div_pos; lia).
  assert (∀ i c, frames sin (ab_request_id batch) n d !! i = Some c → Z.of_nat i < n ∧
    c = generator_frame sin (ab_request_id batch) n d i ∧ bc_timestamp_ms c = Z.min U32_MAX (Z.of_nat i * d)) as Hfr.
  { intros i c Hc. apply frames_lookup in Hc as [Hi ->]. split_and!; [done..|].
    cbn. unfold saturating_mul. rewrite (wrap_id 32) by (unfold is_u; lia). done. }
  assert (length (frames sin (ab_request_id batch) n d) = Z.to_nat n) as Hl by (unfold frames; by rewrite length_fmap, length_seq).
  exists o, (frames sin (ab_request_id batch) n d). split; [done|split; [done|split; [apply stream_frames|]]].
  cbv zeta. rewrite Hl. split_and!; [lia|unfold is_u; lia| |].
  - intros i c Hc. destruct (Hfr i c Hc) as (Hi & -> & Ht). split_and!; [done| |apply length_raw_weights|done].
    change ((Z.of_nat i =? n - 1) = (S i =? Z.to_nat n)%nat).
    destruct (Z.eqb_spec (Z.of_nat i) (n - 1)), (Nat.eqb_spec (S i) (Z.to_nat n)); [done|lia|lia|done].
  - intros i j c e Hc He' Hij. destruct (Hfr i c Hc) as (_ & _ & ->), (Hfr j e He') as (_ & _ & ->). split; [nia|].
    intros H1000. assert (1 ≤ d) by (apply Z.div_le_lower_bound; lia). nia.
Qed.
End spec.

Definition demo_a2f_batch : AudioBatch string unit := {|
  ab_request_id := "r"; ab_model := "audio2face-3d";
  ab_input := AI_Static (AP_Bytes [] {| sample_rate_hz := 16000; channels := 1; format := AF_Pcm16Le |});
  ab_stream := false; ab_options := AO_Audio2Face {| a2f_fps := None; a2f_emotion := None; a2f_smoothing_ms := None; a2f_strength := None |};
  ab_estimated_units := 3
|}.
Lemma a2f_stream_spec_witness :
  ∃ cs, snd (a2f_execute A2F_Enabled (λ x, x) (a2f_new defaults_for_a2f) demo_a2f_batch) = Ok (streaming (Ok <$> cs)) ∧
    bc_timestamp_ms <$> cs = [0; 33; 66] ∧ bc_is_final <$> cs = [false; false; true].
Proof.
  destruct (a2f_execute A2F_Enabled (λ x, x) (a2f_new defaults_for_a2f) demo_a2f_batch) as [r [h|e]] eqn:E; [|done].
  destruct (a2f_stream_spec A2F_Enabled (λ x, x) (a2f_new defaults_for_a2f) r demo_a2f_batch h) as (o & cs & Ho & _ & Hs & Hl & _ & Hc & _).
  - split_and!; [done| |]; intros; cbn in *; simplify_eq; done.
  - exact E.
  - cbn in Ho. simplify_eq. exists cs. destruct h as [items]. cbn in Hs. subst items. split; [done|].
    cbn in Hl. destruct cs as [|c0 [|c1 [|c2 [|]]]]; [cbn in Hl; lia..| |cbn in Hl; lia].
    destruct (Hc 0%nat c0 eq_refl) as (_ & F0 & _ & T0), (Hc 1%nat c1 eq_refl) as (_ & F1 & _ & T1), (Hc 2%nat c2 eq_refl) as (_ & F2 & _ & T2).
    cbn [fmap list_fmap]. by rewrite T0, T1, T2, F0, F1, F2.
Defined.
