(* ===== verification/LocalModels.v ===== *)
(** * Local text runtimes beside ONNX and vLLM

    Models [inference-runtime-mistralrs/src/lib.rs] (the builder, the lazily loaded model and
    the task that turns its responses into chunks), [inference-runtime-tensorrt/src/lib.rs]
    (the plan and the engine state) and the runners of [inference-runtime-candle/src/lib.rs]
    and [inference-runtime-cudarc/src/lib.rs], which refuse every request.  The mistralrs,
    TensorRT and CUDA libraries are parameters; each crate's feature is an argument. *)
From Stdlib Require Import SpecFloat.
From S2P Require Import Prelude F64 Runtime Tokens Text Audio Runner.

(** ** mistralrs: configuration and model *)

Record MistralRsConfig : Type := {
  ms_model_id : string;
  ms_quant : option string;
  ms_hf_revision : option string;
  ms_force_cpu : bool;
  ms_max_num_seqs : option Z
}.
Inductive TextMessageRole : Type := TMR_System | TMR_User | TMR_Assistant | TMR_Tool.
Definition map_role (r : Role) : TextMessageRole :=
  match r with
  | Role_System => TMR_System | Role_User => TMR_User | Role_Assistant => TMR_Assistant | Role_Tool => TMR_Tool
  end.
Definition mistral_finish_reason (s : string) : FinishReason :=
  if decide (s = "length") then Fin_Length
  else if decide (s = "tool_calls") then Fin_ToolCalls
  else if decide (s = "content_filter") then Fin_ContentFilter else Fin_Stop.

(** A response of the model's stream; a choice of a chunk is its content and finish reason. *)
Inductive Response : Type :=
  | Rs_Chunk (choices : list (option string * option string))
  | Rs_Done (prompt_tokens completion_tokens : Z) (finish_reasons : list string)
  | Rs_ModelError (msg : string)
  | Rs_InternalError (e : string)
  | Rs_ValidationError (e : string)
  | Rs_Other.

Section mistral.
Context {Json Isq Model : Type}.
Abbreviation Chunk := (TokenChunk Json) (only parsing).
Abbreviation Item := (InferenceResult Chunk) (only parsing).
(** What [TextModelBuilder] was told. *)
Record TextModelBuilder : Type := {
  tb_model_id : string; tb_force_cpu : bool; tb_hf_revision : option string; tb_max_num_seqs : option Z;
  tb_isq : option Isq
}.
Variable parse_isq_value : string → result string Isq.
Variable build : TextModelBuilder → result string Model.
Definition model_builder (c : MistralRsConfig) : InferenceResult TextModelBuilder :=
  let builder isq := {| tb_model_id := ms_model_id c; tb_force_cpu := ms_force_cpu c; tb_hf_revision := ms_hf_revision c;
                        tb_max_num_seqs := ms_max_num_seqs c; tb_isq := isq |} in
  match ms_quant c with
  | Some q =>
      let? isq := map_err (λ e, Internal ("mistralrs: bad quant '" +:+ q +:+ "': " +:+ e)) (parse_isq_value q) in
      Ok (builder (Some isq))
  | None => Ok (builder None)
  end.
Definition load_model (c : MistralRsConfig) : InferenceResult Model :=
  let? builder := model_builder c in
  map_err (λ e, Internal ("mistralrs: failed to build model '" +:+ ms_model_id c +:+ "': " +:+ e)) (build builder).

Record MistralRsRunner : Type := { ms_config : MistralRsConfig; ms_model : option Model }.
Definition mistral_new (c : MistralRsConfig) : MistralRsRunner := {| ms_config := c; ms_model := None |}.
Definition ensure_model (r : MistralRsRunner) : MistralRsRunner * InferenceResult Model :=
  let '(cell, res) := get_or_try_init (load_model (ms_config r)) (ms_model r) in
  ({| ms_config := ms_config r; ms_model := cell |}, res).

(** ** mistralrs: the task behind a stream *)

(** Whether the client still holds the stream, given what it has received. *)
Variable listening : list Item → bool.
Definition mistral_chunk (id : string) (choices : list (option string * option string)) : Chunk :=
  let choice := head choices in {|
    c_request_id := id;
    text_delta := default "" (c ← choice; fst c);
    tool_call_delta := None; usage := None;
    finish_reason := mistral_finish_reason <$> (c ← choice; snd c)
  |}.
Definition done_chunk (id : string) (prompt_tokens completion_tokens : Z) (finish_reasons : list string) : Chunk := {|
  c_request_id := id; text_delta := ""; tool_call_delta := None;
  usage := Some {| input_tokens := wrap_u32 prompt_tokens; output_tokens := wrap_u32 completion_tokens;
                   reasoning_tokens := 0; cached_tokens := 0 |};
  finish_reason := Some (default Fin_Stop (mistral_finish_reason <$> head finish_reasons))
|}.
(** [tx.send]: what the client has then. *)
Definition offer (i : Item) (out : list Item) : list Item := if listening out then out ++ [i] else out.
Fixpoint stream_task (id : string) (responses : list Response) (out : list Item) : list Item :=
  match responses with
  | [] => out
  | Rs_Chunk choices :: rest =>
      if listening out then stream_task id rest (out ++ [Ok (mistral_chunk id choices)]) else out
  | Rs_Done p c fs :: _ => offer (Ok (done_chunk id p c fs)) out
  | Rs_ModelError msg :: _ => offer (Err (Internal ("mistralrs model error: " +:+ msg))) out
  | Rs_InternalError e :: _ | Rs_ValidationError e :: _ => offer (Err (Internal ("mistralrs error: " +:+ e))) out
  | Rs_Other :: _ => offer (Err (Internal "mistralrs: unexpected response variant")) out
  end.
Definition text_messages (messages : list Message) : list (TextMessageRole * string) :=
  (λ m, (map_role (role m), message_text m)) <$> messages.
Variable stream_chat_request : Model → list (TextMessageRole * string) → result string (list Response).
Definition mistral_execute (feature : bool) (r : MistralRsRunner) (batch : ExecuteBatch) :
  MistralRsRunner * InferenceResult (RunHandle Chunk) :=
  if feature then
    match ensure_model r with
    | (r, Err e) => (r, Err e)
    | (r, Ok model) =>
        (r, Ok (streaming
               match stream_chat_request model (text_messages (messages batch)) with
               | Err e => offer (Err (Internal ("mistralrs: stream_chat_request failed: " +:+ e))) []
               | Ok responses => stream_task (request_id batch) responses []
               end))
    end
  else (r, Err (Internal "mistralrs feature disabled at build time — rebuild with --features mistralrs")).
Definition mistral_base : RunnerBase MistralRsRunner := {|
  runner_kind _ := RK_MistralRs;
  runner_transport _ := TK_LocalGpu;
  rebuild_session r cause := ({| ms_config := ms_config r; ms_model := reset_cell cause (ms_model r) |}, Ok ());
  rate_limits := rate_limits_default
|}.
End mistral.
Arguments MistralRsRunner Model : clear implicits.

(** ** TensorRT *)

Inductive TrtPrecision : Type := Trt_Fp32 | Trt_Fp16 | Trt_Bf16 | Trt_Int8 | Trt_Fp8 | Trt_Best.
Record TensorRtConfig : Type := {
  trt_plan_path : string; trt_max_batch_size : Z; trt_precision : TrtPrecision; trt_device_id : Z
}.
Definition default_max_batch_size : Z := 1.
Inductive TrtError : Type :=
  | Tr_NotLinked (m : string) | Tr_Build (m : string) | Tr_Runtime (m : string) | Tr_Execution (m : string)
  | Tr_Onnx (m : string) | Tr_Calibration (m : string) | Tr_Plugin (m : string) | Tr_Refit (m : string)
  | Tr_NullEngine | Tr_InvalidArg (m : string).
Definition map_trt_err (e : TrtError) : InferenceError :=
  match e with
  | Tr_NotLinked m => Internal ("tensorrt not linked: " +:+ m +:+ " (rebuild with --features tensorrt-link)")
  | Tr_Build m | Tr_Runtime m | Tr_Execution m | Tr_Onnx m | Tr_Calibration m | Tr_Plugin m | Tr_Refit m =>
      Internal ("tensorrt: " +:+ m)
  | Tr_NullEngine => Internal "tensorrt: engine pointer was null"
  | Tr_InvalidArg m => BadRequest ("tensorrt: invalid argument: " +:+ m)
  end.

Section tensorrt.
Context {Engine Stream Json : Type}.
Variable fs_read : string → result string Bytes.
(** The default stream of a fresh context on a device, and the runtime's deserialiser. *)
Variable default_stream : Z → result string Stream.
Variable deserialize : Bytes → result TrtError Engine.
Record TrtState : Type := { ts_engine : Engine; ts_stream : Stream }.
Record TensorRtRunner : Type := { trt_config : TensorRtConfig; trt_plan : Bytes; trt_state : option TrtState }.
Definition with_trt_state (s : option TrtState) (r : TensorRtRunner) : TensorRtRunner :=
  {| trt_config := trt_config r; trt_plan := trt_plan r; trt_state := s |}.
Definition trt_new (c : TensorRtConfig) : InferenceResult TensorRtRunner :=
  let? plan := map_err (λ e, Internal ("tensorrt: failed to read plan from " +:+ trt_plan_path c +:+ ": " +:+ e))
                 (fs_read (trt_plan_path c)) in
  Ok {| trt_config := c; trt_plan := plan; trt_state := None |}.
Definition with_stream (stream : Stream) (r : TensorRtRunner) : TensorRtRunner :=
  match trt_state r with
  | Some st => with_trt_state (Some {| ts_engine := ts_engine st; ts_stream := stream |}) r
  | None => r
  end.
Definition trt_ensure_state (r : TensorRtRunner) : TensorRtRunner * InferenceResult unit :=
  match trt_state r with
  | Some _ => (r, Ok ())
  | None =>
      let made :=
        let? stream := map_err (λ e, Internal ("tensorrt: failed to create CUDA context on device " +:+
                                     pretty (trt_device_id (trt_config r)) +:+ ": " +:+ e))
                         (default_stream (trt_device_id (trt_config r))) in
        let? engine := map_err map_trt_err (deserialize (trt_plan r)) in
        Ok {| ts_engine := engine; ts_stream := stream |} in
      match made with Ok st => (with_trt_state (Some st) r, Ok ()) | Err e => (r, Err e) end
  end.
(** The bindings are dropped whatever the link feature. *)
Definition trt_enqueue (r : TensorRtRunner) : TensorRtRunner * InferenceResult unit :=
  match trt_ensure_state r with
  | (r, Err e) => (r, Err e)
  | (r, Ok _) => (r, Err (Internal ("tensorrt: enqueue requires the `tensorrt-link` feature (libnvinfer must be installed and the link probe must succeed in atomr-accel-tensorrt's build.rs)")))
  end.
Definition trt_execute (feature : bool) (r : TensorRtRunner) (batch : ExecuteBatch) :
  TensorRtRunner * InferenceResult (RunHandle (TokenChunk Json)) :=
  if feature then
    match trt_ensure_state r with
    | (r, Err e) => (r, Err e)
    | (r, Ok _) => (r, Err (Internal "tensorrt runner: chat-style execute requires a tokeniser layer; callers staging tensors directly should invoke `enqueue` with a prepared ExecutionBindings"))
    end
  else (r, Err (Internal "tensorrt feature disabled at build time — rebuild with --features tensorrt")).
(** The plan is read again first, and the state dropped only if that worked. *)
Definition trt_rebuild_session (feature : bool) (r : TensorRtRunner) (cause : SessionRebuildCause) :
  TensorRtRunner * InferenceResult unit :=
  if feature then
    match cause with
    | SRC_CudaContextPoisoned | SRC_Manual =>
        match fs_read (trt_plan_path (trt_config r)) with
        | Ok plan => ({| trt_config := trt_config r; trt_plan := plan; trt_state := None |}, Ok ())
        | Err e => (r, Err (Internal ("tensorrt: failed to re-read plan from " +:+ trt_plan_path (trt_config r) +:+ ": " +:+ e)))
        end
    | _ => (with_trt_state None r, Ok ())
    end
  else (r, Ok ()).
Definition trt_base (feature : bool) : RunnerBase TensorRtRunner := {|
  runner_kind _ := RK_TensorRt;
  runner_transport _ := TK_LocalGpu;
  rebuild_session := trt_rebuild_session feature;
  rate_limits := rate_limits_default
|}.
End tensorrt.
Arguments TensorRtRunner Engine Stream : clear implicits.

(** ** Candle and cudarc *)

Inductive CandleDevice : Type := Cd_Cpu | Cd_Cuda | Cd_Metal.
Inductive CandleDtype : Type := Cdt_F32 | Cdt_F16 | Cdt_Bf16 | Cdt_Q4_0.
Record CandleConfig : Type := { cn_model_path : string; cn_device : CandleDevice; cn_dtype : CandleDtype }.
Record CandleRunner : Type := { cn_config : CandleConfig }.
Definition candle_execute {Json} (feature : bool) (r : CandleRunner) (batch : ExecuteBatch) :
  CandleRunner * InferenceResult (RunHandle (TokenChunk Json)) :=
  (r, Err (Internal (if feature
     then "candle runner: forward pass pending — wire via atomr_accel_cuda::dispatcher::GpuDispatcher (doc §13 Phase 2b)"
     else "candle feature disabled at build time — rebuild with --features candle"))).
Record CudarcConfig : Type := { cu_device : Z; cu_kernel_package : string }.
Record CudarcRunner : Type := { cu_config : CudarcConfig }.
Definition cudarc_execute {Json} (feature : bool) (r : CudarcRunner) (batch : ExecuteBatch) :
  CudarcRunner * InferenceResult (RunHandle (TokenChunk Json)) :=
  (r, Err (Internal (if feature
     then "cudarc runner: kernel registry pending — wire via atomr_accel_cuda::kernel::BlasActor (doc §13 Phase 2b)"
     else "cudarc feature disabled at build time — rebuild with --features cudarc"))).
Definition candle_base : RunnerBase CandleRunner := {|
  runner_kind _ := RK_Candle; runner_transport _ := TK_LocalGpu; rebuild_session r _ := (r, Ok ());
  rate_limits := rate_limits_default
|}.
Definition cudarc_base : RunnerBase CudarcRunner := {|
  runner_kind _ := RK_Cudarc; runner_transport _ := TK_LocalGpu; rebuild_session r _ := (r, Ok ());
  rate_limits := rate_limits_default
|}.

(** ** What a mistralrs stream delivers *)

Section mistral_spec.
Context {Json : Type}.
Abbreviation Item := (InferenceResult (TokenChunk Json)) (only parsing).
(** The chunks before anything else, and what follows them. *)
Fixpoint leading_chunks (responses : list Response) : list (list (option string * option string)) * option Response :=
  match responses with
  | Rs_Chunk choices :: rest => let '(cs, last) := leading_chunks rest in (choices :: cs, last)
  | r :: _ => ([], Some r)
  | [] => ([], None)
  end.
(** The item the response after the chunks becomes. *)
Definition closing_item (id : string) (r : Response) : list Item :=
  match r with
  | Rs_Chunk _ => []
  | Rs_Done p c fs => [Ok (done_chunk id p c fs)]
  | Rs_ModelError msg => [Err (Internal ("mistralrs model error: " +:+ msg))]
  | Rs_InternalError e | Rs_ValidationError e => [Err (Internal ("mistralrs error: " +:+ e))]
  | Rs_Other => [Err (Internal "mistralrs: unexpected response variant")]
  end.
Definition mistral_items (id : string) (responses : list Response) : list Item :=
  let '(cs, last) := leading_chunks responses in
  ((λ choices, Ok (mistral_chunk id choices)) <$> cs) ++ match last with Some r => closing_item id r | None => [] end.

Lemma stream_task_prefix (listening : list Item → bool) id responses out :
  ∃ sent, stream_task listening id responses out = out ++ sent ∧ sent `prefix_of` mistral_items id responses ∧
    ((∀ l, listening l = true) → sent = mistral_items id responses).
Proof.
  revert out. induction responses as [|r responses IH]; intros out.
  { exists []. rewrite app_nil_r. split_and!; [done|apply prefix_nil|done]. }
  destruct r as [choices| | | | |]; cbn [stream_task].
  { unfold mistral_items. cbn [leading_chunks]. destruct (listening out) eqn:Hl.
    - destruct (IH (out ++ [Ok (mistral_chunk id choices)])) as (sent & -> & Hp & Hall).
      exists (Ok (mistral_chunk id choices) :: sent). rewrite <-app_assoc.
      unfold mistral_items in Hp, Hall. destruct (leading_chunks responses) as [cs last]. cbn.
      split_and!; [done|by apply prefix_cons|]. intros H. by rewrite Hall.
    - exists []. rewrite app_nil_r. split_and!; [done|apply prefix_nil|]. intros H. by rewrite H in Hl. }
  all: unfold offer; destruct (listening out) eqn:Hl; [eexists; split; [done|by split]|];
    exists []; rewrite app_nil_r; (split_and!; [done|apply prefix_nil|]); intros H; by rewrite H in Hl.
Qed.
Lemma leading_text id responses :
  foldr (λ i t, match i with Ok c => text_delta c +:+ t | Err _ => t end) "" (mistral_items id responses) =
  foldr (λ cs t, default "" (c ← head cs; fst c) +:+ t) "" (fst (leading_chunks responses)).
Proof.
  unfold mistral_items. induction responses as [|r responses IH]; [done|].
  destruct r as [choices| | | | |]; try done. cbn [leading_chunks].
  destruct (leading_chunks responses) as [cs last]. cbn in *. by rewrite IH.
Qed.
End mistral_spec.

Section mistral_runner.
Context {Json Isq Model : Type} (parse_isq_value : string → result string Isq)
  (build : TextModelBuilder (Isq := Isq) → result string Model)
  (listening : list (InferenceResult (TokenChunk Json)) → bool)
  (stream_chat_request : Model → list (TextMessageRole * string) → result string (list Response)).
Abbreviation execute := (mistral_execute parse_isq_value build listening stream_chat_request).

(** A mistralrs answer is the model's answer: what the client receives is a prefix of the
    model's chunks in order, each with its text, up to the first response that is not a chunk,
    which becomes the one closing item: usage and a finish reason for [Done], an error for any
    other.  A client that stays receives all of it, so its text is the model's text; the model
    is loaded once, and the runner keeps it. *)
Theorem mistral_stream_spec (r r' : MistralRsRunner Model) (batch : ExecuteBatch) (h : RunHandle (TokenChunk Json)) :
  execute true r batch = (r', Ok h) →
  ∃ model, ms_model r' = Some model ∧ (∀ m, ms_model r = Some m → m = model) ∧
    match stream_chat_request model (text_messages (messages batch)) with
    | Err e => into_stream h `prefix_of` [Err (Internal ("mistralrs: stream_chat_request failed: " +:+ e))]
    | Ok responses =>
        into_stream h `prefix_of` mistral_items (request_id batch) responses ∧
        ((∀ l, listening l = true) →
           into_stream h = mistral_items (request_id batch) responses ∧
           foldr (λ i t, match i with Ok c => text_delta c +:+ t | Err _ => t end) "" (into_stream h) =
             foldr (λ cs t, default "" (c ← head cs; fst c) +:+ t) "" (fst (leading_chunks responses)))
    end.
Proof.
  unfold mistral_execute, ensure_model. destruct (get_or_try_init _ (ms_model r)) as [cell [model|e]] eqn:Hcell; [|done].
  intros [= <- <-]. destruct (get_or_try_init_ok _ _ _ _ Hcell) as [-> Hm]. exists model. split; [done|].
  split; [intros m Hm'; by rewrite (Hm m Hm')|]. cbn [into_stream rh_inner streaming].
  destruct (stream_chat_request _ _) as [responses|e].
  - destruct (stream_task_prefix listening (request_id batch) responses []) as (sent & -> & Hp & Hall).
    split; [done|]. intros Hl. cbn [app]. rewrite (Hall Hl). split; [done|apply leading_text].
  - unfold offer. destruct (listening []); [done|apply prefix_nil].
Qed.
(** The sampling parameters of the batch reach nobody. *)
Lemma mistral_ignores_sampling feature (r : MistralRsRunner Model) (b1 b2 : ExecuteBatch) :
  request_id b1 = request_id b2 → messages b1 = messages b2 → execute feature r b1 = execute feature r b2.
Proof. intros Hr Hm. unfold mistral_execute. by rewrite Hr, Hm. Qed.
End mistral_runner.

(** ** TensorRT: what a rebuild leaves *)

Section trt_spec.
Context {Engine Stream Json : Type} (fs_read : string → result string Bytes)
  (default_stream : Z → result string Stream) (deserialize : Bytes → result TrtError Engine).
(** No chat request is ever answered. *)
Lemma trt_never_answers feature r batch :
  is_ok (snd (trt_execute (Json := Json) default_stream deserialize feature r batch)) = false.
Proof. unfold trt_execute. destruct feature; [|done]. by destruct (trt_ensure_state _ _ r) as [r' [|]]. Qed.
(** A poisoned context survives its rebuild when the plan file is gone, though the plan was
    read at construction precisely so that it may be: the state on the poisoned context is
    still there, and the next call uses it without creating another. *)
Theorem trt_poisoned_kept (r : TensorRtRunner Engine Stream) (st : TrtState) (e : string) :
  trt_state r = Some st → fs_read (trt_plan_path (trt_config r)) = Err e →
  let '(r', res) := trt_rebuild_session fs_read true r SRC_CudaContextPoisoned in
  is_ok res = false ∧ trt_state r' = Some st ∧ trt_ensure_state default_stream deserialize r' = (r', Ok ()).
Proof. intros Hst He. unfold trt_rebuild_session. rewrite He. unfold trt_ensure_state. by rewrite Hst. Qed.
(** The caller's stream is dropped by a runner that has no state yet. *)
Lemma with_stream_before_use (c : TensorRtConfig) (r : TensorRtRunner Engine Stream) (s : Stream) :
  trt_new fs_read c = Ok r → with_stream s r = r.
Proof. unfold trt_new. destruct (fs_read _); [|done]. by intros [= <-]. Qed.
End trt_spec.

(** ** Witnesses *)

Definition demo_request (id : string) : ExecuteBatch := {|
  request_id := id; model := "m"; messages := []; sampling := SamplingParams_default;
  stream := false; estimated_tokens_field := 1
|}.
Definition demo_mistral : MistralRsRunner unit := mistral_new {|
  ms_model_id := "m"; ms_quant := Some "Q4K"; ms_hf_revision := None; ms_force_cpu := true; ms_max_num_seqs := Some 16 |}.
Definition demo_responses : list Response :=
  [Rs_Chunk [(Some "Hel", None)]; Rs_Chunk [(Some "lo", Some "length")]; Rs_Done 3 2 ["length"]; Rs_Other].
Lemma mistral_stream_spec_witness :
  ∃ h, snd (mistral_execute (Json := unit) (Isq := unit) (λ _, Ok ()) (λ _, Ok ()) (λ _, true) (λ _ _, Ok demo_responses)
         true demo_mistral (demo_request "r")) = Ok h ∧
    length (into_stream h) = 3%nat ∧
    foldr (λ i t, match i with Ok c => text_delta c +:+ t | Err _ => t end) "" (into_stream h) = "Hello".
Proof.
  destruct (mistral_execute (Json := unit) (Isq := unit) (λ _, Ok ()) (λ _, Ok ()) (λ _, true) (λ _ _, Ok demo_responses)
    true demo_mistral (demo_request "r")) as [r' [h|e]] eqn:E; [|done].
  destruct (mistral_stream_spec (Json := unit) (Isq := unit) (λ _, Ok ()) (λ _, Ok ()) (λ _, true) (λ _ _, Ok demo_responses)
    demo_mistral r' (demo_request "r") h E) as (model & _ & _ & _ & H).
  destruct (H (λ _, eq_refl)) as [Hs Ht]. exists h. split; [done|]. split; [by rewrite Hs|]. rewrite Ht. reflexivity.
Defined.
Lemma trt_poisoned_kept_witness :
  let r : TensorRtRunner unit nat := {|
    trt_config := {| trt_plan_path := "/gone"; trt_max_batch_size := 1; trt_precision := Trt_Fp32; trt_device_id := 0 |};
    trt_plan := []; trt_state := Some {| ts_engine := (); ts_stream := 7%nat |} |} in
  trt_state (fst (trt_rebuild_session (λ _, Err "not found") true r SRC_CudaContextPoisoned)) =
    Some {| ts_engine := (); ts_stream := 7%nat |}.
Proof.
  intros r.
  destruct (trt_poisoned_kept (λ _, Err "not found") (λ _, Ok 0%nat) (λ _, Ok ()) r {| ts_engine := (); ts_stream := 7%nat |}
    "not found" eq_refl eq_refl) as (_ & H & _). exact H.
Defined.
