(* ===== verification/VllmEngine.v ===== *)
(** * vLLM engine

    Models [inference-runtime-vllm/src]: [lib.rs] (configuration and the lazily booted
    runner) and [engine.rs]: the keyword arguments of the engine, the prompt, the sampling
    parameters, and the pollers.  Every request has a task of its own that calls the shared
    engine's [step]; a world is the engine and the tasks, and a run is the sequence of the
    tasks that move.  vLLM itself is a parameter: [step], [has_unfinished_requests],
    [abort_request], [add_request] and the tokenizer's chat template. *)
From Stdlib Require Import SpecFloat.
From S2P Require Import Prelude F64 Runtime Tokens Text Runner.

(** ** Configuration (lib.rs) *)

Record VllmConfig : Type := {
  vc_model : string;
  vc_tensor_parallel_size : Z;
  vc_dtype : string;
  vc_gpu_memory_utilization : option f32;
  vc_max_model_len : option Z;
  vc_hf_cache_dir : option string;
  vc_enforce_eager : option bool;
  vc_enable_prefix_caching : option bool;
  vc_enable_chunked_prefill : option bool;
  vc_max_num_seqs : option Z;
  vc_block_size : option Z;
  vc_quantization : option string;
  vc_limit_mm_per_prompt : option (list (string * Z));
  vc_cpu_offload_gb : option Z
}.
Definition default_tp : Z := 1.
Definition default_dtype : string := "auto".

(** ** Booting the engine (engine.rs) *)

Inductive PyValue : Type :=
  | Py_Str (s : string) | Py_Int (n : Z) | Py_Float (x : f32) | Py_Bool (b : bool)
  | Py_Dict (d : list (string * Z)) | Py_List (l : list string).
Definition when_set {A} (key : string) (f : A → PyValue) (o : option A) : list (string * PyValue) :=
  match o with Some a => [(key, f a)] | None => [] end.
(** The environment [launch] sets before Python starts, and the keyword arguments. *)
Definition launch_env (join : string → string → string) (c : VllmConfig) : list (string * string) :=
  match vc_hf_cache_dir c with
  | Some dir => [("HF_HOME", dir); ("HF_HUB_CACHE", join dir "hub")]
  | None => []
  end.
Definition engine_kwargs (c : VllmConfig) : list (string * PyValue) :=
  [("model", Py_Str (vc_model c)); ("dtype", Py_Str (vc_dtype c));
   ("tensor_parallel_size", Py_Int (vc_tensor_parallel_size c))] ++
  when_set "gpu_memory_utilization" Py_Float (vc_gpu_memory_utilization c) ++
  when_set "max_model_len" Py_Int (vc_max_model_len c) ++
  when_set "enforce_eager" Py_Bool (vc_enforce_eager c) ++
  when_set "enable_prefix_caching" Py_Bool (vc_enable_prefix_caching c) ++
  when_set "enable_chunked_prefill" Py_Bool (vc_enable_chunked_prefill c) ++
  when_set "max_num_seqs" Py_Int (vc_max_num_seqs c) ++
  when_set "block_size" Py_Int (vc_block_size c) ++
  when_set "quantization" Py_Str (vc_quantization c) ++
  when_set "limit_mm_per_prompt" Py_Dict (vc_limit_mm_per_prompt c) ++
  when_set "cpu_offload_gb" Py_Int (vc_cpu_offload_gb c).

(** ** Requests *)

Definition simple_render (messages : list Message) : string :=
  foldl (λ out m, out +:+ render_message m) "" messages +:+ "<|assistant|>" +:+ nl.
Definition map_finish_reason (s : option string) : FinishReason :=
  match s with
  | Some r => if decide (r = "length") then Fin_Length else Fin_Stop
  | None => Fin_Stop
  end.
Definition sampling_kwargs (p : SamplingParams) : list (string * PyValue) :=
  [("max_tokens", Py_Int (default 512 (max_tokens p)));
   ("temperature", Py_Float (default (f32_of_Z 1) (temperature p)));
   ("top_p", Py_Float (default (f32_of_Z 1) (top_p p)))] ++
  match stop p with [] => [] | l => [("stop", Py_List l)] end.
(** [PythonGpuBridge::with_python] turns an exception into an internal error. *)
Definition with_python {A} (r : result string A) : InferenceResult A := map_err (λ e, Internal ("python: " +:+ e)) r.

(** vLLM's [RequestOutput], with the first of its [outputs] if there is one. *)
Record CompletionOutput : Type := { co_text : string; co_finish_reason : option string; co_tokens : Z }.
Record RequestOutput : Type := {
  ro_request_id : string; ro_outputs : list CompletionOutput; ro_finished : bool; ro_prompt_tokens : Z
}.
(** What the closure around [step] extracts. *)
Record StepChunk : Type := {
  k_text : string; k_finished : bool; k_finish_reason : option string; k_prompt_tokens : Z; k_output_tokens : Z
}.
Definition chunk_for (id : string) (outputs : list RequestOutput) : option StepChunk :=
  o ← find (λ o, bool_decide (ro_request_id o = id)) outputs;
  first ← head (ro_outputs o);
  Some {| k_text := co_text first; k_finished := ro_finished o; k_finish_reason := co_finish_reason first;
          k_prompt_tokens := ro_prompt_tokens o; k_output_tokens := co_tokens first |}.

Section engine.
Context {Json E : Type}.
Variable step : E → E * result string (list RequestOutput).
Variable has_unfinished_requests : E → result string bool.
Variable abort_request : E → string → E.
Variable add_request : E → string → string → list (string * PyValue) → E * result string unit.
Variable from_engine_args : list (string * PyValue) → result string E.
(** [None]: no tokenizer, no template, or no string from it. *)
Variable apply_chat_template : E → list (string * string) → option string.
Abbreviation Chunk := (TokenChunk Json) (only parsing).
Abbreviation Item := (InferenceResult Chunk) (only parsing).
(** Whether the client still holds the stream, given what it has received. *)
Variable listening : list Item → bool.

Record VllmEngine : Type := { ve_engine : E; ve_request_seq : Z }.
Definition launch (c : VllmConfig) : InferenceResult VllmEngine :=
  let? e := with_python (from_engine_args (engine_kwargs c)) in
  Ok {| ve_engine := e; ve_request_seq := 1 |}.
Definition render_chat (e : E) (messages : list Message) : string :=
  match apply_chat_template e ((λ m, (chat_role (role m), message_text m)) <$> messages) with
  | Some s => s
  | None => simple_render messages
  end.

(** ** The pollers *)

(** Where the loop of [drive_generation] is: between two accesses to the engine, another
    task may use it.  [Ph_Panicked] is a slice inside a character. *)
Inductive Phase : Type :=
  | Ph_Step | Ph_CheckUnfinished | Ph_Send (c : Chunk) (finished : bool) | Ph_Abort
  | Ph_Fail (e : InferenceError) | Ph_Done | Ph_Panicked.
Record Poller : Type := {
  pl_request_id : string;
  pl_chunk_request_id : string;
  pl_last_text_len : nat;
  pl_phase : Phase;
  pl_out : list Item
}.
Definition set_phase (ph : Phase) (p : Poller) : Poller := {|
  pl_request_id := pl_request_id p; pl_chunk_request_id := pl_chunk_request_id p;
  pl_last_text_len := pl_last_text_len p; pl_phase := ph; pl_out := pl_out p
|}.
Definition offer (i : Item) (p : Poller) : Poller := {|
  pl_request_id := pl_request_id p; pl_chunk_request_id := pl_chunk_request_id p;
  pl_last_text_len := pl_last_text_len p; pl_phase := pl_phase p; pl_out := pl_out p ++ [i]
|}.
Definition generation_chunk (id delta : string) (k : StepChunk) : Chunk := {|
  c_request_id := id; text_delta := delta; tool_call_delta := None;
  usage := if k_finished k
           then Some {| input_tokens := k_prompt_tokens k; output_tokens := k_output_tokens k;
                        reasoning_tokens := 0; cached_tokens := 0 |}
           else None;
  finish_reason := if k_finished k then Some (map_finish_reason (k_finish_reason k)) else None
|}.
(** An output of the request: the text past what was sent before. *)
Definition on_chunk (k : StepChunk) (p : Poller) : Poller :=
  let last := pl_last_text_len p in
  let p := {| pl_request_id := pl_request_id p; pl_chunk_request_id := pl_chunk_request_id p;
              pl_last_text_len := String.length (k_text k); pl_phase := pl_phase p; pl_out := pl_out p |} in
  if (last <? String.length (k_text k))%nat then
    match str_from (k_text k) last with
    | Some delta => set_phase (Ph_Send (generation_chunk (pl_chunk_request_id p) delta k) (k_finished k)) p
    | None => set_phase Ph_Panicked p
    end
  else set_phase (Ph_Send (generation_chunk (pl_chunk_request_id p) "" k) (k_finished k)) p.
Definition poll (p : Poller) (e : E) : Poller * E :=
  match pl_phase p with
  | Ph_Step =>
      let '(e, r) := step e in
      match with_python r with
      | Ok outputs =>
          match chunk_for (pl_request_id p) outputs with
          | Some k => (on_chunk k p, e)
          | None => (set_phase Ph_CheckUnfinished p, e)
          end
      | Err err => (set_phase (Ph_Fail (Internal ("vllm step: " +:+ error_to_string (λ _, "") err))) p, e)
      end
  | Ph_CheckUnfinished =>
      match with_python (has_unfinished_requests e) with
      | Ok true => (set_phase Ph_Step p, e)
      | Ok false => (set_phase Ph_Done p, e)
      | Err err => (set_phase (Ph_Fail err) p, e)
      end
  | Ph_Send c finished =>
      if listening (pl_out p) then (set_phase (if finished then Ph_Done else Ph_Step) (offer (Ok c) p), e)
      else (set_phase Ph_Abort p, e)
  | Ph_Abort => (set_phase Ph_Done p, abort_request e (pl_request_id p))
  | Ph_Fail err => (set_phase Ph_Done (if listening (pl_out p) then offer (Err err) p else p), e)
  | Ph_Done | Ph_Panicked => (p, e)
  end.

(** The engine and every task on it; a step of the world is one task's. *)
Record World : Type := { w_engine : E; w_pollers : list Poller }.
Definition world_step (i : nat) (w : World) : World :=
  match w_pollers w !! i with
  | None => w
  | Some p =>
      let '(p, e) := poll p (w_engine w) in
      {| w_engine := e; w_pollers := <[i := p]> (w_pollers w) |}
  end.
Definition world_run (sched : list nat) (w : World) : World := foldl (λ w i, world_step i w) w sched.

(** ** [generate] and the runner *)

Definition vllm_request_id (batch_id : string) (seq : Z) : string := batch_id +:+ "-" +:+ pretty seq.
Definition start_poller (id chunk_id : string) : Poller := {|
  pl_request_id := id; pl_chunk_request_id := chunk_id; pl_last_text_len := 0; pl_phase := Ph_Step; pl_out := []
|}.
(** The handle is the task that feeds it. *)
Definition generate (v : VllmEngine) (batch : ExecuteBatch) : VllmEngine * InferenceResult Poller :=
  let prompt := render_chat (ve_engine v) (messages batch) in
  let id := vllm_request_id (request_id batch) (ve_request_seq v) in
  let '(e, r) := add_request (ve_engine v) id prompt (sampling_kwargs (sampling batch)) in
  ({| ve_engine := e; ve_request_seq := wrap_u64 (ve_request_seq v + 1) |},
   let? _ := with_python r in Ok (start_poller id (request_id batch))).

Record VllmRunner : Type := { vr_config : VllmConfig; vr_engine : option VllmEngine }.
Definition vllm_new (c : VllmConfig) : VllmRunner := {| vr_config := c; vr_engine := None |}.
(** Without the [vllm] feature nothing is launched. *)
Definition vllm_execute (feature : bool) (r : VllmRunner) (batch : ExecuteBatch) :
  VllmRunner * InferenceResult Poller :=
  if feature then
    match get_or_try_init (launch (vr_config r)) (vr_engine r) with
    | (cell, Err e) => ({| vr_config := vr_config r; vr_engine := cell |}, Err e)
    | (_, Ok v) =>
        let '(v, res) := generate v batch in
        ({| vr_config := vr_config r; vr_engine := Some v |}, res)
    end
  else (r, Err (Internal "vllm feature disabled at build time — rebuild with --features vllm")).
Definition vllm_base : RunnerBase VllmRunner := {|
  runner_kind _ := RK_Vllm;
  runner_transport _ := TK_LocalGpu;
  rebuild_session r cause := ({| vr_config := vr_config r; vr_engine := reset_cell cause (vr_engine r) |}, Ok ());
  rate_limits := rate_limits_default
|}.

(** ** One request alone *)

(** What vLLM documents for a request that is alone: [step] reports its outputs with the text
    so far, each text extending the one before it by whole characters, until the finished
    one; while there is nothing to report the request is unfinished. *)
Inductive served (id : string) : E → string → StepChunk → Prop :=
  | served_last e e' outs t d k :
      step e = (e', Ok outs) → chunk_for id outs = Some k → k_finished k = true →
      k_text k = t +:+ d → continues d = false → served id e t k
  | served_more e e' outs t d k fin :
      step e = (e', Ok outs) → chunk_for id outs = Some k → k_finished k = false →
      k_text k = t +:+ d → continues d = false → served id e' (k_text k) fin → served id e t fin
  | served_idle e e' outs t fin :
      step e = (e', Ok outs) → chunk_for id outs = None → has_unfinished_requests e' = Ok true →
      served id e' t fin → served id e t fin.

Definition alone (n : nat) (pe : Poller * E) : Poller * E := Nat.iter n (λ pe, poll pe.1 pe.2) pe.
Lemma alone_S n p e : alone (S n) (p, e) = alone n (poll p e).
Proof. unfold alone. by rewrite Nat.iter_succ_r. Qed.
Lemma on_chunk_extends k p t d :
  pl_last_text_len p = String.length t → k_text k = t +:+ d → continues d = false →
  on_chunk k p = {| pl_request_id := pl_request_id p; pl_chunk_request_id := pl_chunk_request_id p;
                    pl_last_text_len := String.length (k_text k);
                    pl_phase := Ph_Send (generation_chunk (pl_chunk_request_id p) d k) (k_finished k);
                    pl_out := pl_out p |}.
Proof.
  intros Hl Ht Hd. unfold on_chunk. rewrite Hl, Ht, length_append.
  destruct d as [|c d]; cbn [String.length].
  - rewrite (proj2 (Nat.ltb_ge _ _)) by lia. done.
  - rewrite (proj2 (Nat.ltb_lt _ _)) by lia. by rewrite str_from_app.
Qed.
Lemma alone_step n p e p1 e1 : poll p e = (p1, e1) → alone (S n) (p, e) = alone n (p1, e1).
Proof. intros H. by rewrite alone_S, H. Qed.
Lemma poll_chunk p e e' outs t d k :
  (∀ l, listening l = true) → pl_phase p = Ph_Step → pl_last_text_len p = String.length t →
  step e = (e', Ok outs) → chunk_for (pl_request_id p) outs = Some k → k_text k = t +:+ d → continues d = false →
  ∀ n, alone (S (S n)) (p, e) = alone n ({|
    pl_request_id := pl_request_id p; pl_chunk_request_id := pl_chunk_request_id p;
    pl_last_text_len := String.length (k_text k); pl_phase := if k_finished k then Ph_Done else Ph_Step;
    pl_out := pl_out p ++ [Ok (generation_chunk (pl_chunk_request_id p) d k)] |}, e').
Proof.
  intros Hlis Hph Hl Hs Hc Ht Hd n. rewrite (alone_step _ p e (on_chunk k p) e').
  - rewrite (on_chunk_extends k p t d Hl Ht Hd). apply alone_step. unfold poll. cbn [pl_phase pl_out].
    rewrite Hlis. by destruct (k_finished k).
  - unfold poll. rewrite Hph, Hs. cbn [with_python map_err]. by rewrite Hc.
Qed.
Lemma world_alone n p e :
  world_run (replicate n 0%nat) {| w_engine := e; w_pollers := [p] |} =
  {| w_engine := (alone n (p, e)).2; w_pollers := [(alone n (p, e)).1] |}.
Proof.
  revert p e. induction n as [|n IH]; intros p e; [done|]. rewrite alone_S.
  destruct (poll p e) as [p1 e1] eqn:Hp. rewrite <-IH. cbn [replicate]. unfold world_run. cbn [foldl].
  unfold world_step at 2. cbn [w_pollers lookup list_lookup w_engine]. by rewrite Hp.
Qed.
Lemma alone_done n p e : pl_phase p = Ph_Done → alone n (p, e) = (p, e).
Proof. intros H. induction n as [|n IH]; [done|]. rewrite alone_S. unfold poll. by rewrite H. Qed.

(** A request served to its end: what its task sends, in two steps of it per output. *)
Lemma served_alone id e t fin :
  (∀ l, listening l = true) → served id e t fin →
  ∀ p, pl_phase p = Ph_Step → pl_request_id p = id → pl_last_text_len p = String.length t →
  ∃ n p' e' init d, alone n (p, e) = (p', e') ∧ pl_phase p' = Ph_Done ∧
    let last_ := generation_chunk (pl_chunk_request_id p) d fin in
    pl_out p' = pl_out p ++ (Ok <$> (init ++ [last_])) ∧
    t +:+ concat_text (init ++ [last_]) = k_text fin ∧
    k_finished fin = true ∧ Forall (λ c, finish_reason c = None) init.
Proof.
  intros Hlis. induction 1 as [e e' outs t d k Hs Hc Hf Ht Hd|e e' outs t d k fin Hs Hc Hf Ht Hd Hsv IH
    |e e' outs t fin Hs Hc Hu Hsv IH]; intros p Hph Hid Hl.
  - eexists 2%nat, _, e', [], d. rewrite (poll_chunk p e e' outs t d k Hlis Hph Hl Hs ltac:(by rewrite Hid) Ht Hd), Hf.
    split; [reflexivity|]. split; [reflexivity|]. cbn zeta. split_and!; [done| |done|constructor].
    cbn. by rewrite string_app_nil_r.
  - destruct (IH {| pl_request_id := pl_request_id p; pl_chunk_request_id := pl_chunk_request_id p;
      pl_last_text_len := String.length (k_text k); pl_phase := Ph_Step;
      pl_out := pl_out p ++ [Ok (generation_chunk (pl_chunk_request_id p) d k)] |})
      as (n & p' & e2 & init & dl & Hrun & Hdone & Hout & Htext & Hfin & Hall); [done..|].
    exists (S (S n)), p', e2, (generation_chunk (pl_chunk_request_id p) d k :: init), dl.
    rewrite (poll_chunk p e e' outs t d k Hlis Hph Hl Hs ltac:(by rewrite Hid) Ht Hd), Hf.
    split; [exact Hrun|]. split; [exact Hdone|]. cbn zeta.
    split_and!; [| |done|constructor; [cbn; by rewrite Hf|done]].
    + rewrite Hout. cbn [pl_out pl_chunk_request_id]. by rewrite <-app_assoc.
    + rewrite <-Htext, Ht, string_app_assoc. done.
  - destruct (IH (set_phase Ph_Step (set_phase Ph_CheckUnfinished p)))
      as (n & p' & e2 & init & dl & Hrun & Hdone & Hout & Htext & Hfin & Hall); [done..|].
    exists (S (S n)), p', e2, init, dl.
    rewrite (alone_step _ p e (set_phase Ph_CheckUnfinished p) e'),
      (alone_step _ _ _ (set_phase Ph_Step (set_phase Ph_CheckUnfinished p)) e'); [done| |].
    + unfold poll. cbn [pl_phase set_phase]. rewrite Hu. done.
    + unfold poll. rewrite Hph, Hs. cbn [with_python map_err]. by rewrite Hid, Hc.
Qed.
(** [C20] A request that has the engine to itself is streamed completely: if vLLM serves it to
    its end, its task finishes, and from then on the client has exactly the final text, cut
    into the chunks' deltas, the last chunk alone with a finish reason (vLLM's) and the
    token counts. *)
Theorem vllm_alone_complete (id cid : string) (e : E) (fin : StepChunk) :
  (∀ l, listening l = true) → served id e "" fin →
  ∃ n cs last_, ∀ m, (n ≤ m)%nat →
    ∃ e' p, world_run (replicate m 0%nat) {| w_engine := e; w_pollers := [start_poller id cid] |} =
              {| w_engine := e'; w_pollers := [p] |} ∧
      pl_phase p = Ph_Done ∧ pl_out p = Ok <$> (cs ++ [last_]) ∧
      concat_text (cs ++ [last_]) = k_text fin ∧ Forall (λ c, finish_reason c = None) cs ∧
      finish_reason last_ = Some (map_finish_reason (k_finish_reason fin)) ∧
      usage last_ = Some {| input_tokens := k_prompt_tokens fin; output_tokens := k_output_tokens fin;
                            reasoning_tokens := 0; cached_tokens := 0 |}.
Proof.
  intros Hlis Hsv.
  destruct (served_alone id e "" fin Hlis Hsv (start_poller id cid) eq_refl eq_refl eq_refl)
    as (n & p' & e' & cs & d & Hrun & Hdone & Hout & Htext & Hfin & Hall).
  exists n, cs, (generation_chunk cid d fin). intros m Hm. exists e', p'. rewrite world_alone.
  assert (alone m (start_poller id cid, e) = (p', e')) as ->.
  { unfold alone in *. replace m with ((m - n) + n)%nat by lia. rewrite Nat.iter_add, Hrun.
    by apply alone_done. }
  split_and!; try done; cbn; by rewrite Hfin.
Qed.

(** ** Two requests at once *)

(** The engine has nothing more to say about request [id], now and whatever it is asked:
    vLLM reports the end of a request once. *)
Definition silent_about (id : string) (Q : E → Prop) : Prop :=
  ∀ e, Q e → Q (fst (step e)) ∧ (∀ id', Q (abort_request e id')) ∧
    ∀ outs, snd (step e) = Ok outs → chunk_for id outs = None.
(** A task that awaits an output, or has ended without one. *)
Definition starved (p : Poller) : Prop :=
  match pl_phase p with Ph_Step | Ph_CheckUnfinished | Ph_Fail _ | Ph_Done => True | _ => False end.
Definition received (p : Poller) : list Chunk := omap result_ok (pl_out p).

Lemma poll_engine Q id p e : silent_about id Q → Q e → Q (snd (poll p e)).
Proof.
  intros HQ He. destruct (HQ e He) as (Hs & Ha & _). unfold poll. destruct (pl_phase p); try done.
  - destruct (step e) as [e1 r]. cbn in Hs. destruct (with_python r) as [outs|]; [|done].
    by destruct (chunk_for _ _).
  - destruct (with_python _) as [[]|]; done.
  - destruct (listening _); done.
  - apply Ha.
Qed.
Lemma poll_starved Q p e : silent_about (pl_request_id p) Q → Q e → starved p →
  starved (poll p e).1 ∧ received (poll p e).1 = received p ∧ pl_request_id (poll p e).1 = pl_request_id p.
Proof.
  intros HQ He Hp. destruct (HQ e He) as (_ & _ & Hno). unfold starved in Hp. unfold poll.
  destruct (pl_phase p) as [| | | |err| |] eqn:Hph; try done.
  - destruct (step e) as [e1 r]. cbn in Hno. destruct r as [outs|err]; cbn [with_python map_err]; [|done].
    by rewrite (Hno outs eq_refl).
  - destruct (with_python _) as [[]|]; done.
  - destruct (listening (pl_out p)); [|done]. split_and!; [done| |done].
    unfold received. cbn. rewrite omap_app. cbn. by rewrite app_nil_r.
  - cbn. unfold starved. by rewrite Hph.
Qed.
Lemma starved_run Q j id (sched : list nat) : silent_about id Q → ∀ w p,
  Q (w_engine w) → w_pollers w !! j = Some p → starved p → pl_request_id p = id →
  ∃ p', w_pollers (world_run sched w) !! j = Some p' ∧ starved p' ∧ received p' = received p.
Proof.
  intros HQ. induction sched as [|i sched IH]; intros w p He Hj Hp Hid; [by exists p|].
  unfold world_run. cbn [foldl]. fold (world_run sched (world_step i w)).
  unfold world_step. destruct (w_pollers w !! i) as [q|] eqn:Hi; [|by apply IH].
  destruct (poll q (w_engine w)) as [q' e'] eqn:Hq.
  pose proof (poll_engine Q id q (w_engine w) HQ He) as He'. rewrite Hq in He'.
  destruct (decide (i = j)) as [->|Hij].
  - rewrite Hi in Hj. simplify_eq. destruct (poll_starved Q p (w_engine w) HQ He Hp) as (H1 & H2 & H3).
    rewrite Hq in H1, H2, H3. cbn in H1, H2, H3.
    destruct (IH {| w_engine := e'; w_pollers := <[j := q']> (w_pollers w) |} q') as (p' & Hl & Hst & Hr);
      [done|cbn; apply list_lookup_insert_eq; by apply lookup_lt_Some in Hi|done..|].
    exists p'. by rewrite Hr.
  - apply (IH {| w_engine := e'; w_pollers := <[i := q']> (w_pollers w) |} p); [done| |done..].
    cbn. by rewrite list_lookup_insert_ne.
Qed.
(** Concurrent requests lose their end: [step] reports the outputs of every request, and each
    task keeps only its own.  If the finished output of request [j] comes out of a [step]
    that another task [i] called, then in no schedule does the client of [j] receive
    anything more: neither the rest of its text, nor a finish reason, nor the usage. *)
Theorem vllm_final_output_lost (Q : E → Prop) (w : World) (i j : nat) (pi pj : Poller) (e' : E)
    (outs : list RequestOutput) (k : StepChunk) (sched : list nat) :
  i ≠ j → w_pollers w !! i = Some pi → pl_phase pi = Ph_Step →
  w_pollers w !! j = Some pj → pl_phase pj = Ph_Step →
  step (w_engine w) = (e', Ok outs) → chunk_for (pl_request_id pj) outs = Some k → k_finished k = true →
  Q e' → silent_about (pl_request_id pj) Q →
  ∃ p, w_pollers (world_run (i :: sched) w) !! j = Some p ∧ received p = received pj.
Proof.
  intros Hij Hi Hphi Hj Hphj Hs Hk Hf HQe HQ. unfold world_run. cbn [foldl]. fold (world_run sched (world_step i w)).
  unfold world_step. rewrite Hi. destruct (poll pi (w_engine w)) as [p1 e1] eqn:Hp.
  assert (e1 = e') as ->.
  { unfold poll in Hp. rewrite Hphi, Hs in Hp. cbn [with_python map_err] in Hp.
    by destruct (chunk_for (pl_request_id pi) outs); simplify_eq. }
  destruct (starved_run Q j _ sched HQ {| w_engine := e'; w_pollers := <[i := p1]> (w_pollers w) |} pj)
    as (p & Hl & _ & Hr); [done| |unfold starved; by rewrite Hphj|done|by exists p].
  cbn. by rewrite list_lookup_insert_ne.
Qed.
End engine.

(** ** Witnesses *)

(** An engine that answers a script of steps. *)
Definition Script : Type := list (list RequestOutput).
Definition script_step (e : Script) : Script * result string (list RequestOutput) :=
  match e with [] => ([], Ok []) | o :: r => (r, Ok o) end.
Definition script_unfinished (e : Script) : result string bool := Ok (negb (bool_decide (length e = 0%nat))).
Definition script_abort (e : Script) (_ : string) : Script := e.
Definition demo_output (id text : string) (finished : bool) : RequestOutput := {|
  ro_request_id := id; ro_finished := finished; ro_prompt_tokens := 3;
  ro_outputs := [{| co_text := text; co_finish_reason := if finished then Some "length" else None; co_tokens := 2 |}] |}.
Definition demo_fin : StepChunk := {|
  k_text := "hello"; k_finished := true; k_finish_reason := Some "length"; k_prompt_tokens := 3; k_output_tokens := 2 |}.
Definition demo_script : Script := [[demo_output "a-1" "hel" false]; []; [demo_output "a-1" "hello" true]].
Definition demo_world_run : list nat → World (Json := unit) → World (Json := unit) :=
  world_run script_step script_unfinished script_abort (λ _, true).
Lemma vllm_alone_complete_witness :
  ∃ n cs last_, ∀ m, (n ≤ m)%nat →
    ∃ e' p, demo_world_run (replicate m 0%nat) {| w_engine := demo_script; w_pollers := [start_poller "a-1" "a"] |} =
              {| w_engine := e'; w_pollers := [p] |} ∧
      pl_out p = Ok <$> (cs ++ [last_]) ∧ concat_text (cs ++ [last_]) = "hello" ∧
      finish_reason last_ = Some Fin_Length.
Proof.
  destruct (vllm_alone_complete (Json := unit) script_step script_unfinished script_abort (λ _, true) "a-1" "a"
    demo_script demo_fin) as (n & cs & last_ & H); [done| |].
  { eapply (served_more _ _ _ _ _ _ "" "hel"); [vm_compute; reflexivity..|].
    eapply served_idle; [vm_compute; reflexivity..|].
    eapply (served_last _ _ _ _ _ _ "hel" "lo"); vm_compute; reflexivity. }
  exists n, cs, last_. intros m Hm. destruct (H m Hm) as (e' & p & Hr & _ & Ho & Ht & _ & Hf & _).
  exists e', p. split; [exact Hr|]. split; [exact Ho|]. split; [exact Ht|exact Hf].
Defined.
(** The first task's [step] takes the end of the second request. *)
Definition demo_shared : Script := [[demo_output "a-1" "x" false; demo_output "b-2" "bye" true]].
Definition demo_pair : World (Json := unit) (E := Script) :=
  {| w_engine := demo_shared; w_pollers := [start_poller "a-1" "a"; start_poller "b-2" "b"] |}.
Lemma vllm_final_output_lost_witness :
  ∃ p, w_pollers (demo_world_run [0; 1; 1; 0; 1]%nat demo_pair) !! 1%nat = Some p ∧ received p = [].
Proof.
  apply (vllm_final_output_lost script_step script_unfinished script_abort (λ _, true) (λ e, e = []) demo_pair 0 1
    (start_poller "a-1" "a") (start_poller "b-2" "b") [] [demo_output "a-1" "x" false; demo_output "b-2" "bye" true]
    {| k_text := "bye"; k_finished := true; k_finish_reason := Some "length"; k_prompt_tokens := 3; k_output_tokens := 2 |});
    [done|reflexivity..|].
  intros e ->. split; [reflexivity|]. split; [reflexivity|]. intros outs Ho. injection Ho as <-. reflexivity.
Defined.
