(* ===== verification/VllmDefaults.v ===== *)
(** * Auto-provisioning of a local model

    Models [inference-runtime-vllm/src]: [hf_cache.rs] (where the HuggingFace cache and token
    are), [probe.rs] (the checks of the host) and [defaults.rs] (the deployment registered
    when they pass).  The environment, the file system and the subprocesses are functions
    the model is given; so are the decimal text of an [f32] and its parsing. *)
From Stdlib Require Import SpecFloat.
From S2P Require Import Prelude F64 Runtime Text Deployment Manager VllmEngine.

(** ** The cache (hf_cache.rs) *)

Record HfCache : Type := { hf_home : string; hub_cache : string; token_path : string }.

Section host.
(** [env::var(..).ok()], [dirs::home_dir], [Path::exists], [fs::read_to_string]. *)
Variable env_var : string → option string.
Variable home_dir : option string.
Variable path_exists : string → bool.
Variable read_to_string : string → result string string.
(** [Path::ancestors], the path itself first, and [Path::parent]. *)
Variable ancestors : string → list string.
Variable parent : string → option string.
(** A subprocess: not started, or its success, stdout and stderr. *)
Record Output : Type := { o_success : bool; o_stdout : string; o_stderr : string }.
Variable df : string → option Output.
Variable nvidia_smi python_version python_import_vllm : result string Output.
(** [str::parse::<f32>] and the formatting of one decimal. *)
Variable parse_f32 : string → result string f32.
Variable fmt1 : f32 → string.

Definition env_string (var : string) : option string :=
  s ← str_trim <$> env_var var;
  if is_empty_str s then None else Some s.
Definition resolve : InferenceResult HfCache :=
  let? home :=
    match env_string "HF_HOME" with
    | Some h => Ok h
    | None =>
        match env_string "XDG_CACHE_HOME" with
        | Some xdg => Ok (path_join xdg "huggingface")
        | None =>
            match home_dir with
            | Some h => Ok (path_join (path_join h ".cache") "huggingface")
            | None => Err (Internal "hf-cache: no HF_HOME / XDG_CACHE_HOME / $HOME — cannot resolve cache")
            end
        end
    end in
  Ok {| hf_home := home; hub_cache := default (path_join home "hub") (env_string "HF_HUB_CACHE");
        token_path := path_join home "token" |}.
Definition discover_token (c : HfCache) : InferenceResult (option string) :=
  match env_string "HF_TOKEN" with
  | Some t => Ok (Some t)
  | None =>
      match env_string "HUGGING_FACE_HUB_TOKEN" with
      | Some t => Ok (Some t)
      | None =>
          if path_exists (token_path c) then
            let? raw := map_err (λ e, Internal ("hf-cache: failed to read " +:+ token_path c +:+ ": " +:+ e))
              (read_to_string (token_path c)) in
            Ok (if is_empty_str (str_trim raw) then None else Some (str_trim raw))
          else Ok None
      end
  end.
Definition free_bytes_at (path : string) : option Z :=
  p ← find path_exists (ancestors path);
  out ← df p;
  if o_success out then
    line ← str_lines (o_stdout out) !! 1%nat;
    result_ok (parse_uint U64_MAX (str_trim line))
  else None.
Definition free_bytes (c : HfCache) : option Z :=
  match free_bytes_at (hub_cache c) with
  | Some n => Some n
  | None =>
      match free_bytes_at (hf_home c) with
      | Some n => Some n
      | None => free_bytes_at (default "/" (parent (hf_home c)))
      end
  end.

(** ** The probe (probe.rs) *)

Inductive ProbeResult : Type :=
  | PR_Ready (vram_free_gb : f32) (cache : HfCache)
  | PR_Skipped (reason hint : string)
  | PR_Error (e : InferenceError).

Definition probe_gpu : result string f32 :=
  let? out := map_err (λ e, "nvidia-smi not on PATH (no NVIDIA driver?): " +:+ e) nvidia_smi in
  if o_success out then
    match head (str_lines (str_trim (o_stdout out))) with
    | None => Err "nvidia-smi returned empty output"
    | Some line =>
        let? free_mib := map_err (λ e, "could not parse nvidia-smi output `" +:+ str_trim (o_stdout out) +:+ "`: " +:+ e)
          (parse_f32 (str_trim line)) in
        Ok (f32_div free_mib (f32_of_Z 1024))
    end
  else Err ("nvidia-smi exited non-zero: " +:+ str_trim (o_stderr out)).
Definition version_below (major minor : Z) : bool := (major <? 3) || (major =? 3) && (minor <? 10).
Definition probe_python : result string unit :=
  let? out := map_err (λ e, "python3 not on PATH: " +:+ e) python_version in
  if o_success out then
    let combined := o_stdout out +:+ o_stderr out in
    match split_whitespace combined !! 1%nat with
    | None => Err ("could not parse `" +:+ str_trim combined +:+ "`")
    | Some version =>
        let parts := split_on dot_char version in
        match parts !! 0%nat with
        | None => Err "missing major"
        | Some a =>
            let? major := map_err (λ e, "bad major: " +:+ e) (parse_uint U32_MAX a) in
            match parts !! 1%nat with
            | None => Err "missing minor"
            | Some b =>
                let? minor := map_err (λ e, "bad minor: " +:+ e) (parse_uint U32_MAX b) in
                if version_below major minor
                then Err ("Python " +:+ pretty major +:+ "." +:+ pretty minor +:+ " on PATH; vLLM requires 3.10+")
                else Ok ()
            end
        end
    end
  else Err "python3 --version returned non-zero exit".
Definition probe_vllm : result string string :=
  let? out := map_err (λ e, "python3 spawn failed: " +:+ e) python_import_vllm in
  if o_success out then Ok (str_trim (o_stdout out))
  else if contains "ModuleNotFoundError" (o_stderr out) || contains "No module named 'vllm'" (o_stderr out)
  then Err "vLLM not importable in active python3"
  else Err ("vllm import probe failed: " +:+ str_trim (o_stderr out)).

(** [free as f32 / 1e9]. *)
Definition free_gb (free : Z) : f32 := f32_div (f32_of_Z free) (f32_of_Z 1000000000).
Definition probe (model_id : string) (min_vram_gb min_disk_gb : f32) (smaller : option string) : ProbeResult :=
  match resolve with
  | Err e => PR_Error e
  | Ok cache =>
      match probe_gpu with
      | Err reason => PR_Skipped reason
          ("set ATOMR_INFER_GEMMA_AUTO=skip-quietly to suppress this message; " +:+
           "set ATOMR_INFER_GEMMA_MODEL=<remote-provider> to use a remote backend")
      | Ok vram =>
          if f32_gt min_vram_gb vram then
            let need := "free VRAM " +:+ fmt1 vram +:+ " GB < " +:+ fmt1 min_vram_gb +:+ " GB needed for " +:+ model_id +:+ "; " in
            PR_Skipped ("insufficient VRAM for " +:+ model_id)
              (need +:+ match smaller with
                        | Some s => "try ATOMR_INFER_GEMMA_MODEL=" +:+ s
                        | None => "no smaller supported variant — consider a remote backend"
                        end)
          else
            match probe_python with
            | Err reason => PR_Skipped reason "install Python 3.10+ and ensure `python3` is on PATH"
            | Ok _ =>
                match probe_vllm with
                | Err reason => PR_Skipped reason "install vLLM in the active venv: `pip install 'vllm>=0.6.4'`"
                | Ok _ =>
                    match discover_token cache with
                    | Err e => PR_Error e
                    | Ok None => PR_Skipped "no HuggingFace token found"
                        ("run `huggingface-cli login`, then accept the Gemma ToS at https://huggingface.co/" +:+ model_id)
                    | Ok (Some _) =>
                        match free_bytes cache with
                        | Some free =>
                            if f32_gt min_disk_gb (free_gb free) then
                              PR_Skipped ("insufficient disk for " +:+ model_id +:+ ": " +:+ fmt1 (free_gb free) +:+
                                " GB free at " +:+ hub_cache cache +:+ " (need ~" +:+ fmt1 min_disk_gb +:+ " GB)")
                                "free up space or set HF_HUB_CACHE to a different mountpoint"
                            else PR_Ready vram cache
                        | None => PR_Ready vram cache
                        end
                    end
                end
            end
      end
  end.

(** ** The deployment (defaults.rs) *)

Definition DEFAULT_DEPLOYMENT_NAME : string := "gemma-local".
Definition DEFAULT_MODEL_ID : string := "google/gemma-4-E4B-it".
Definition SUPPORTED_VARIANTS : list string :=
  ["google/gemma-4-E2B"; "google/gemma-4-E2B-it"; "google/gemma-4-E4B"; "google/gemma-4-E4B-it"].
Definition is_e2b (m : string) : bool := bool_decide (m = "google/gemma-4-E2B" ∨ m = "google/gemma-4-E2B-it").
Definition is_e4b (m : string) : bool := bool_decide (m = "google/gemma-4-E4B" ∨ m = "google/gemma-4-E4B-it").
Definition min_vram_gb (m : string) : option f32 :=
  if is_e2b m then Some (f32_lit 25 10) else if is_e4b m then Some (f32_lit 45 10) else None.
Definition min_disk_gb (m : string) : option f32 :=
  if is_e2b m then Some (f32_of_Z 4) else if is_e4b m then Some (f32_of_Z 7) else None.
Definition fallback_variant (m : string) : option string :=
  if decide (m = "google/gemma-4-E4B-it") then Some "google/gemma-4-E2B-it"
  else if decide (m = "google/gemma-4-E4B") then Some "google/gemma-4-E2B" else None.
Definition validate_variant (m : string) : InferenceResult unit :=
  if bool_decide (m ∈ SUPPORTED_VARIANTS) then Ok ()
  else Err (BadRequest ("unsupported Gemma variant `" +:+ m +:+ "` — supported: " +:+ join ", " SUPPORTED_VARIANTS)).

Record GemmaDefaults : Type := {
  gd_model_id : string;
  gd_deployment_name : string;
  gd_cache_dir : option string;
  gd_gpu_memory_utilization : f32;
  gd_max_model_len : option Z;
  gd_auto_provision : bool
}.
Definition GemmaDefaults_default : GemmaDefaults := {|
  gd_model_id := DEFAULT_MODEL_ID; gd_deployment_name := DEFAULT_DEPLOYMENT_NAME; gd_cache_dir := None;
  gd_gpu_memory_utilization := f32_lit 5 10; gd_max_model_len := None; gd_auto_provision := true
|}.
Definition auto_off (v : string) : bool :=
  bool_decide (to_ascii_lowercase v ∈ ["0"; "false"; "no"; "off"; "skip"; "skip-quietly"]).
Definition from_env : GemmaDefaults :=
  let d := GemmaDefaults_default in {|
    gd_auto_provision := match env_string "ATOMR_INFER_GEMMA_AUTO" with
                         | Some v => negb (auto_off v) | None => gd_auto_provision d end;
    gd_model_id := default (gd_model_id d) (env_string "ATOMR_INFER_GEMMA_MODEL");
    gd_deployment_name := default (gd_deployment_name d) (env_string "ATOMR_INFER_GEMMA_DEPLOYMENT");
    gd_gpu_memory_utilization :=
      default (gd_gpu_memory_utilization d) (v ← env_string "ATOMR_INFER_GEMMA_GPU_UTIL"; result_ok (parse_f32 v));
    gd_max_model_len :=
      match v ← env_string "ATOMR_INFER_GEMMA_MAX_LEN"; result_ok (parse_uint U32_MAX v) with
      | Some u => Some u | None => gd_max_model_len d end;
    gd_cache_dir := gd_cache_dir d
  |}.

Inductive ProvisionOutcome : Type :=
  | PO_Ready (deployment_name : string)
  | PO_Skipped (reason hint : string).
Definition gemma_vllm_config (cfg : GemmaDefaults) : VllmConfig := {|
  vc_model := gd_model_id cfg; vc_tensor_parallel_size := 1; vc_dtype := "auto";
  vc_gpu_memory_utilization := Some (gd_gpu_memory_utilization cfg); vc_max_model_len := gd_max_model_len cfg;
  vc_hf_cache_dir := gd_cache_dir cfg; vc_enforce_eager := Some true; vc_enable_prefix_caching := None;
  vc_enable_chunked_prefill := None; vc_max_num_seqs := Some 16; vc_block_size := None;
  vc_quantization := None; vc_limit_mm_per_prompt := None; vc_cpu_offload_gb := Some 4
|}.
Context {Json : Type}.
Variable to_value : VllmConfig → result string Json.
Definition gemma_deployment (cfg : GemmaDefaults) (v : Json) : Deployment Json := {|
  d_name := gd_deployment_name cfg; d_model := gd_model_id cfg; d_runtime := Some RK_Vllm;
  d_runtime_config := Some (RC_Vllm v); d_gpus := Some 1; d_replicas := 1; d_serving := Serving_default;
  d_budget := None; d_idempotent := true
|}.
(** The manager's catalog and whether the manager is alive to answer. *)
Abbreviation Catalog := (gmap string (DeploymentRecord (Json := Json))).
Definition tell_apply (alive : bool) (d : Deployment Json) (records : Catalog) :
  Catalog * option (InferenceResult unit) :=
  if alive then
    let '(records, reply) := manager_handle (DM_Apply d) records in
    (records, match reply with DR_Result r => Some r | _ => None end)
  else (records, None).
Definition provision_if_ready (alive : bool) (cfg : GemmaDefaults) (records : Catalog) :
  Catalog * InferenceResult ProvisionOutcome :=
  match validate_variant (gd_model_id cfg) with
  | Err e => (records, Err e)
  | Ok _ =>
      match probe (gd_model_id cfg) (default (f32_lit 45 10) (min_vram_gb (gd_model_id cfg)))
              (default (f32_of_Z 7) (min_disk_gb (gd_model_id cfg))) (fallback_variant (gd_model_id cfg)) with
      | PR_Skipped reason hint => (records, Ok (PO_Skipped reason hint))
      | PR_Error e => (records, Err e)
      | PR_Ready _ _ =>
          match to_value (gemma_vllm_config cfg) with
          | Err e => (records, Err (Internal ("gemma defaults: serialise VllmConfig: " +:+ e)))
          | Ok v =>
              let '(records, reply) := tell_apply alive (gemma_deployment cfg v) records in
              (records,
               match reply with
               | Some (Ok _) => Ok (PO_Ready (gd_deployment_name cfg))
               | Some (Err e) => Err e
               | None => Err (Internal "gemma defaults: deployment manager dropped reply channel")
               end)
          end
      end
  end.

(** ** What provisioning guarantees *)

(** The probe's gates, all of them, in the host's own terms. *)
Definition gates (min_vram min_disk vram : f32) (cache : HfCache) : Prop :=
  resolve = Ok cache ∧ probe_gpu = Ok vram ∧ f32_gt min_vram vram = false ∧
  probe_python = Ok () ∧ is_ok probe_vllm = true ∧
  (∃ token, discover_token cache = Ok (Some token)) ∧
  (∀ free, free_bytes cache = Some free → f32_gt min_disk (free_gb free) = false).
Lemma probe_ready_iff m min_vram min_disk smaller vram cache :
  probe m min_vram min_disk smaller = PR_Ready vram cache ↔ gates min_vram min_disk vram cache.
Proof.
  unfold probe, gates. split.
  - destruct resolve as [c|e]; [|done]. destruct probe_gpu as [g|e]; [|done].
    destruct (f32_gt min_vram g) eqn:Hv; [done|]. destruct probe_python as [[]|e]; [|done].
    destruct probe_vllm as [v|e]; [|done]. destruct (discover_token c) as [[t|]|e] eqn:Ht; [|done..].
    destruct (free_bytes c) as [free|] eqn:Hf; [destruct (f32_gt min_disk (free_gb free)) eqn:Hd; [done|]|];
      intros [= <- <-]; (split_and!; [done..|by exists t|]); intros f Hf'; by simplify_eq.
  - intros (-> & -> & -> & -> & Hvl & [t Ht] & Hd). destruct probe_vllm as [v|e]; [|done]. rewrite Ht.
    destruct (free_bytes cache) as [free|]; [|done]. by rewrite (Hd free eq_refl).
Qed.
(** A token found is never blank. *)
Lemma env_string_nonempty var s : env_string var = Some s → s ≠ "".
Proof.
  unfold env_string. destruct (env_var var) as [v|]; cbn; [|done].
  destruct (str_trim v); cbn; intros; by simplify_eq.
Qed.
Lemma token_nonempty c t : discover_token c = Ok (Some t) → t ≠ "".
Proof.
  unfold discover_token. destruct (env_string "HF_TOKEN") eqn:H1; [intros; simplify_eq; by eapply env_string_nonempty|].
  destruct (env_string "HUGGING_FACE_HUB_TOKEN") eqn:H2; [intros; simplify_eq; by eapply env_string_nonempty|].
  destruct (path_exists _); [|done]. destruct (read_to_string _) as [raw|e]; cbn; [|done].
  destruct (str_trim raw) eqn:Hr; cbn; intros; by simplify_eq.
Qed.
Lemma from_env_named : gd_deployment_name from_env ≠ "".
Proof.
  unfold from_env. cbn. destruct (env_string "ATOMR_INFER_GEMMA_DEPLOYMENT") eqn:H; [|done].
  by eapply env_string_nonempty.
Qed.
Lemma variant_floors m : validate_variant m = Ok () → is_Some (min_vram_gb m) ∧ is_Some (min_disk_gb m) ∧ m ≠ "".
Proof.
  unfold validate_variant. case_bool_decide as H; [|done]. intros _.
  unfold SUPPORTED_VARIANTS in H. repeat (apply elem_of_cons in H as [->|H]; [done|]). by apply elem_of_nil in H.
Qed.
(** Provisioning registers a working deployment or changes nothing.  It reports [Ready]
    exactly when the variant is supported, every gate of the host passes (the floors being
    the variant's own), and the manager is there to accept; then the catalog is the old one
    with that one valid deployment, which runs on vLLM.  In every other case, skipped or
    failed, the catalog is untouched. *)
Theorem provision_all_or_nothing (alive : bool) (cfg : GemmaDefaults) (records : Catalog) :
  gd_deployment_name cfg ≠ "" →
  let res := provision_if_ready alive cfg records in
  (∃ v d min_vram min_disk vram cache,
     min_vram_gb (gd_model_id cfg) = Some min_vram ∧ min_disk_gb (gd_model_id cfg) = Some min_disk ∧
     gates min_vram min_disk vram cache ∧ to_value (gemma_vllm_config cfg) = Ok v ∧ alive = true ∧
     d = gemma_deployment cfg v ∧ validate d = Ok () ∧ effective_runtime d = RK_Vllm ∧
     res = (<[gd_deployment_name cfg := {| dr_deployment := d; dr_state := DS_Pending |}]> records,
            Ok (PO_Ready (gd_deployment_name cfg)))) ∨
  fst res = records ∧ ∀ n, snd res ≠ Ok (PO_Ready n).
Proof.
  intros Hname res. unfold res, provision_if_ready.
  destruct (validate_variant (gd_model_id cfg)) as [[]|e] eqn:Hv; [|by right].
  destruct (variant_floors _ Hv) as ([vr Hvr] & [dk Hdk] & Hm). rewrite Hvr, Hdk.
  change (default (f32_lit 45 10) (Some vr)) with vr. change (default (f32_of_Z 7) (Some dk)) with dk.
  destruct (probe (gd_model_id cfg) vr dk (fallback_variant (gd_model_id cfg))) as [vram cache|reason hint|e] eqn:Hp; [|by right..].
  apply probe_ready_iff in Hp. destruct (to_value (gemma_vllm_config cfg)) as [v|e] eqn:Hto; [|by right].
  destruct alive; [|by right]. left.
  assert (validate (gemma_deployment cfg v) = Ok ()) as Hval by (by apply validate_ok).
  exists v, (gemma_deployment cfg v), vr, dk, vram, cache. split_and!; try done.
  unfold tell_apply, manager_handle. by rewrite Hval.
Qed.
End host.

(** ** Witness *)

Definition demo_env (var : string) : option string :=
  if decide (var = "HF_HOME") then Some "/hf " else if decide (var = "HF_TOKEN") then Some "tok" else None.
Definition demo_ok (stdout : string) : result string Output :=
  Ok {| o_success := true; o_stdout := stdout; o_stderr := "" |}.
Definition demo_provision (alive : bool) (cfg : GemmaDefaults) :
  gmap string (DeploymentRecord (Json := string)) → gmap string (DeploymentRecord (Json := string)) * InferenceResult ProvisionOutcome :=
  provision_if_ready demo_env None (λ _, true) (λ _, Ok "") (λ p, [p]) (λ _, None) (λ _, None)
    (demo_ok ("16000" +:+ nl)) (demo_ok "Python 3.11.2") (demo_ok "0.6.4") (λ _, Ok (f32_of_Z 16000)) (λ _, "x")
    (λ c, Ok (vc_model c)) alive cfg.
Lemma provision_all_or_nothing_witness :
  ∃ d, validate d = Ok () ∧ effective_runtime d = RK_Vllm ∧
    demo_provision true GemmaDefaults_default ∅ =
      (<["gemma-local" := {| dr_deployment := d; dr_state := DS_Pending |}]> ∅, Ok (PO_Ready "gemma-local")).
Proof.
  assert (snd (demo_provision true GemmaDefaults_default ∅) = Ok (PO_Ready "gemma-local")) as Hr
    by (vm_compute; reflexivity).
  destruct (provision_all_or_nothing demo_env None (λ _, true) (λ _, Ok "") (λ p, [p]) (λ _, None) (λ _, None)
    (demo_ok ("16000" +:+ nl)) (demo_ok "Python 3.11.2") (demo_ok "0.6.4") (λ _, Ok (f32_of_Z 16000)) (λ _, "x")
    (λ c, Ok (vc_model c)) true GemmaDefaults_default ∅ ltac:(discriminate))
    as [(v & d & vr & dk & g & c & _ & _ & _ & _ & _ & _ & Hv & He & H)|[_ H]];
    [|exfalso; exact (H _ Hr)].
  exists d. split; [exact Hv|]. split; [exact He|exact H].
Defined.
