(* ===== verification/PyBridge.v ===== *)
(** * The Python bridge

    Models [inference-python-bridge/src]: [bridge.rs] and the stub of [lib.rs].  A call of
    [with_python] takes the bridge's own lock, then the interpreter's (the GIL), runs its
    closure, and releases them in the opposite order; calls of several threads on several
    bridges share the one GIL, so the locks are modelled with the threads that hold and wait
    for them.  The bridge's lock is [parking_lot]'s, which is not re-entrant; the GIL is, for
    the thread that holds it.  Inside a closure a thread keeps both.  What a closure computes
    is [VllmEngine.with_python]'s argument; the tokio runtime builder is an interface. *)
From stdpp Require Import relations.
From S2P Require Import Prelude Runtime VllmEngine.

(** ** The bridge *)

Record PythonGpuBridge : Type := { interpreter_id : Z }.
Definition PythonGpuBridge_new (id : Z) : PythonGpuBridge := {| interpreter_id := id |}.

Class RuntimeBuilder (B Rt : Type) : Type := {
  new_multi_thread : B; worker_threads : Z → B → B; thread_name : string → B → B; enable_all : B → B;
  build_runtime : B → result string Rt
}.
Definition python_pinned_dispatcher {B Rt} `{!RuntimeBuilder B Rt} (name : string) : InferenceResult Rt :=
  map_err (λ e, Internal ("python-pinned dispatcher: " +:+ e))
    (build_runtime (enable_all (thread_name name (worker_threads 1 new_multi_thread)))).
(** Without the [python] feature. *)
Definition feature_disabled {T} : InferenceResult T :=
  Err (Internal "python feature disabled at build time — rebuild with --features python").

(** ** The locks *)

Inductive Instr : Type :=
  | I_Lock (b : nat) | I_Unlock (b : nat)      (* the bridge's [serializer] *)
  | I_Gil | I_UnGil                            (* [Python::with_gil] *)
  | I_Work.                                    (* a step of the closure *)
(** One [with_python] on bridge [b] whose closure is [body]. *)
Definition with_python_code (b : nat) (body : list Instr) : list Instr :=
  I_Lock b :: I_Gil :: body ++ [I_UnGil; I_Unlock b].

(** Who holds each bridge's lock, and the GIL with its depth. *)
Record Locks : Type := { lk_serializer : gmap nat nat; lk_gil : option (nat * nat) }.
Definition no_locks : Locks := {| lk_serializer := ∅; lk_gil := None |}.
(** Thread [t] executes one instruction; [None]: it has to wait. *)
Definition exec_instr (t : nat) (i : Instr) (l : Locks) : option Locks :=
  match i with
  | I_Lock b =>
      match lk_serializer l !! b with
      | None => Some {| lk_serializer := <[b := t]> (lk_serializer l); lk_gil := lk_gil l |}
      | Some _ => None
      end
  | I_Unlock b => Some {| lk_serializer := delete b (lk_serializer l); lk_gil := lk_gil l |}
  | I_Gil =>
      match lk_gil l with
      | None => Some {| lk_serializer := lk_serializer l; lk_gil := Some (t, 1%nat) |}
      | Some (t', d) =>
          if decide (t' = t) then Some {| lk_serializer := lk_serializer l; lk_gil := Some (t, S d) |} else None
      end
  | I_UnGil =>
      match lk_gil l with
      | Some (t', S (S d)) => Some {| lk_serializer := lk_serializer l; lk_gil := Some (t', S d) |}
      | _ => Some {| lk_serializer := lk_serializer l; lk_gil := None |}
      end
  | I_Work => Some l
  end.
Record Threads : Type := { th_pool : list (list Instr); th_locks : Locks }.
Inductive thread_step : Threads → Threads → Prop :=
  | Thread_step s t i rest l' :
      th_pool s !! t = Some (i :: rest) → exec_instr t i (th_locks s) = Some l' →
      thread_step s {| th_pool := <[t := rest]> (th_pool s); th_locks := l' |}.
Definition threads_start (pool : list (list Instr)) : Threads := {| th_pool := pool; th_locks := no_locks |}.
Definition all_done (s : Threads) : Prop := Forall (λ c, c = []) (th_pool s).
Definition deadlocked (s : Threads) : Prop := ¬ all_done s ∧ ∀ s', ¬ thread_step s s'.

(** What a closure that does not call [with_python] again executes: steps of its own, and
    the points where the interpreter hands the GIL to another thread and takes it back. *)
Inductive Act : Type := A_Work | A_Switch.
Definition act_code (a : Act) : list Instr := match a with A_Work => [I_Work] | A_Switch => [I_UnGil; I_Gil] end.
Definition closure_code (body : list Act) : list Instr := concat (act_code <$> body).
(** A thread that makes these calls one after the other: bridge and closure of each. *)
Definition calls (l : list (nat * list Act)) : list Instr :=
  concat ((λ c, with_python_code c.1 (closure_code c.2)) <$> l).

(** ** Threads that call one after the other never deadlock *)

(** Where a thread is, with what it holds. *)
Inductive phase : list Instr → option nat → bool → Prop :=
  | Ph_out l : phase (calls l) None false
  | Ph_locked b n l : phase (I_Gil :: closure_code n ++ [I_UnGil; I_Unlock b] ++ calls l) (Some b) false
  | Ph_inside b n l : phase (closure_code n ++ [I_UnGil; I_Unlock b] ++ calls l) (Some b) true
  | Ph_leaving b l : phase (I_Unlock b :: calls l) (Some b) false.
Record locks_ok (s : Threads) : Prop := {
  ok_phase t c : th_pool s !! t = Some c → ∃ h g, phase c h g ∧
    (∀ b, lk_serializer (th_locks s) !! b = Some t ↔ h = Some b) ∧
    (lk_gil (th_locks s) = Some (t, 1%nat) ↔ g = true);
  ok_serializer b t : lk_serializer (th_locks s) !! b = Some t → (t < length (th_pool s))%nat;
  ok_gil t d : lk_gil (th_locks s) = Some (t, d) → d = 1%nat ∧ (t < length (th_pool s))%nat
}.

Lemma calls_cons b n l :
  calls ((b, n) :: l) = I_Lock b :: I_Gil :: closure_code n ++ [I_UnGil; I_Unlock b] ++ calls l.
Proof. unfold calls. cbn. by rewrite <-app_assoc. Qed.
Lemma threads_start_ok progs : locks_ok (threads_start (calls <$> progs)).
Proof.
  split; cbn; [|done..]. intros t c Hc. rewrite list_lookup_fmap in Hc.
  apply fmap_Some in Hc as (l & _ & ->). exists None, false. split; [constructor|]. split; [|done].
  intros b. by rewrite lookup_empty.
Qed.
(** Replacing a thread's code and the locks it holds keeps the invariant, when the others'
    locks are untouched. *)
Lemma locks_ok_update s t rest l' h g :
  locks_ok s → (t < length (th_pool s))%nat → phase rest h g →
  (∀ b, lk_serializer l' !! b = Some t ↔ h = Some b) → (lk_gil l' = Some (t, 1%nat) ↔ g = true) →
  (∀ b t', t' ≠ t → lk_serializer l' !! b = Some t' ↔ lk_serializer (th_locks s) !! b = Some t') →
  (∀ t' d, t' ≠ t → lk_gil l' = Some (t', d) ↔ lk_gil (th_locks s) = Some (t', d)) →
  (∀ d, lk_gil l' = Some (t, d) → d = 1%nat) →
  locks_ok {| th_pool := <[t := rest]> (th_pool s); th_locks := l' |}.
Proof.
  intros [Hp Hs Hg] Ht Hph Hb Hgil Hob Hog Hd. split; cbn.
  - intros t' c Hc. destruct (decide (t' = t)) as [->|Hne].
    + rewrite list_lookup_insert_eq in Hc by done. simplify_eq. eauto.
    + rewrite list_lookup_insert_ne in Hc by done. destruct (Hp t' c Hc) as (h' & g' & H1 & H2 & H3).
      exists h', g'. split; [done|]. split; [intros b; by rewrite Hob|by rewrite Hog].
  - intros b t' Hl. rewrite length_insert. destruct (decide (t' = t)) as [->|Hne]; [done|].
    apply (Hs b). by rewrite <-Hob.
  - intros t' d Hl. rewrite length_insert. destruct (decide (t' = t)) as [->|Hne]; [split; [by apply Hd|done]|].
    apply Hg. by rewrite <-Hog.
Qed.

(** The five moves of a thread, with what it holds before and after. *)
Inductive move : Instr → list Instr → option nat → bool → Prop :=
  | Mv_lock b rest : phase rest (Some b) false → move (I_Lock b) rest None false
  | Mv_gil b rest : phase rest (Some b) true → move I_Gil rest (Some b) false
  | Mv_work b rest : phase rest (Some b) true → move I_Work rest (Some b) true
  | Mv_ungil b rest : phase rest (Some b) false → move I_UnGil rest (Some b) true
  | Mv_unlock b rest : phase rest None false → move (I_Unlock b) rest (Some b) false.
Lemma phase_move i rest h g : phase (i :: rest) h g → move i rest h g.
Proof.
  intros H. inversion H as [l E|b n l E|b n l E|b l E]; subst.
  - destruct l as [|[b n] l]; [done|]. rewrite calls_cons in E. simplify_eq. constructor. constructor.
  - constructor. constructor.
  - destruct n as [|[] n]; cbn in E; simplify_eq; constructor; constructor.
  - constructor. constructor.
Qed.
Lemma phase_nil h g : phase [] h g → h = None ∧ g = false.
Proof. intros H. inversion H as [| |b n l E|]; [done|]. by destruct n as [|[] n]. Qed.

Lemma thread_step_ok s s' : thread_step s s' → locks_ok s → locks_ok s'.
Proof.
  intros [s0 t i rest l' Hc Hx] Hok. pose proof (lookup_lt_Some _ _ _ Hc) as Ht.
  destruct Hok as [Hp Hs Hg]. destruct (Hp t _ Hc) as (h & g & Hph & Hb & Hgil).
  apply phase_move in Hph. pose proof (Build_locks_ok s0 Hp Hs Hg) as Hok.
  inversion Hph; subst; cbn in Hx.
  - destruct (lk_serializer (th_locks s0) !! b) eqn:Hf; [done|]. simplify_eq.
    apply (locks_ok_update s0 t rest _ (Some b) false); try done; cbn.
    + intros b'. destruct (decide (b = b')) as [->|Hne]; [rewrite lookup_insert_eq; naive_solver|].
      rewrite lookup_insert_ne by done. rewrite Hb. naive_solver.
    + intros b' t' Hne. destruct (decide (b = b')) as [->|Hn]; [rewrite lookup_insert_eq, Hf; naive_solver|].
      by rewrite lookup_insert_ne.
    + intros d Hd. by apply Hg in Hd as [-> _].
  - destruct (lk_gil (th_locks s0)) as [[t' d]|] eqn:Hf.
    + destruct (decide (t' = t)) as [->|]; [|done]. exfalso.
      destruct (Hg t d eq_refl) as [-> _]. discriminate (proj1 Hgil eq_refl).
    + simplify_eq. apply (locks_ok_update s0 t rest _ (Some b) true); try done; cbn.
      * intros t' d Hne. rewrite Hf. naive_solver.
      * naive_solver.
  - simplify_eq. apply (locks_ok_update s0 t rest _ (Some b) true); try done.
    intros d Hd. by apply Hg in Hd as [-> _].
  - assert (lk_gil (th_locks s0) = Some (t, 1%nat)) as Hf by (by apply Hgil). rewrite Hf in Hx. simplify_eq.
    apply (locks_ok_update s0 t rest _ (Some b) false); try done; cbn.
    intros t' d Hne. rewrite Hf. naive_solver.
  - simplify_eq. apply (locks_ok_update s0 t rest _ None false); try done; cbn.
    + intros b'. destruct (decide (b = b')) as [->|Hn]; [rewrite lookup_delete_eq; naive_solver|].
      rewrite lookup_delete_ne by done. rewrite Hb. naive_solver.
    + intros b' t' Hne. destruct (decide (b = b')) as [->|Hn]; [|by rewrite lookup_delete_ne].
      rewrite lookup_delete_eq. assert (lk_serializer (th_locks s0) !! b' = Some t) as -> by (by apply Hb). naive_solver.
    + intros d Hd. by apply Hg in Hd as [-> _].
Qed.

Lemma can_step s t i rest l' :
  th_pool s !! t = Some (i :: rest) → exec_instr t i (th_locks s) = Some l' → ∃ s', thread_step s s'.
Proof. eauto using Thread_step. Qed.
(** The thread to run next: the one with the GIL, else one with a bridge's lock, else any. *)
Lemma locks_progress s : locks_ok s → ¬ all_done s → ∃ s', thread_step s s'.
Proof.
  intros [Hp Hs Hg] Hd.
  destruct (lk_gil (th_locks s)) as [[t d]|] eqn:Hgil.
  { destruct (Hg t d eq_refl) as [-> Ht]. apply lookup_lt_is_Some in Ht as [c Hc].
    destruct (Hp t c Hc) as (h & g & Hph & _ & Hin). assert (g = true) as -> by (by apply Hin).
    destruct c as [|i rest]; [by apply phase_nil in Hph as [_ ?]|]. apply phase_move in Hph.
    inversion Hph; subst; (eapply can_step; [exact Hc|cbn; by rewrite ?Hgil]). }
  destruct (decide (Exists (λ c, c ≠ []) (th_pool s))) as [He|He]; cycle 1.
  { destruct Hd. apply Forall_forall. intros c Hc. destruct c; [done|]. destruct He. by apply Exists_exists; eauto. }
  apply Exists_exists in He as (c & Hc & Hne). apply list_elem_of_lookup in Hc as [t Hc].
  destruct c as [|i rest]; [done|]. destruct (Hp t _ Hc) as (h & g & Hph & Hb & Hin).
  apply phase_move in Hph. inversion Hph; subst; cbn in *.
  - destruct (lk_serializer (th_locks s) !! b) as [t'|] eqn:Hl; cycle 1.
    { eapply can_step; [exact Hc|cbn; by rewrite Hl]. }
    (* the holder of the lock is past it and can move *)
    destruct (lookup_lt_is_Some_2 _ _ (Hs b t' Hl)) as [c' Hc'].
    destruct (Hp t' c' Hc') as (h' & g' & Hph' & Hb' & Hin'). apply Hb' in Hl as ->.
    destruct c' as [|i' rest']; [by apply phase_nil in Hph' as [? _]|]. apply phase_move in Hph'.
    inversion Hph'; subst; (eapply can_step; [exact Hc'|cbn; by rewrite ?Hgil]).
  - eapply can_step; [exact Hc|cbn; by rewrite Hgil].
  - discriminate (proj2 Hin eq_refl).
  - discriminate (proj2 Hin eq_refl).
  - eapply can_step; [exact Hc|done].
Qed.

(** Instructions left. *)
Definition work (s : Threads) : nat := sum_list (length <$> th_pool s).
Lemma thread_step_work s s' : thread_step s s' → work s = S (work s').
Proof.
  intros [s0 t i rest l' Hc _]. unfold work. cbn [th_pool]. revert t Hc.
  induction (th_pool s0) as [|c pool IH]; intros [|t] Hc; try done.
  - injection Hc as ->. done.
  - specialize (IH t Hc). cbn [insert list_insert].
    rewrite !fmap_cons. cbn [sum_list_with]. rewrite IH. apply Nat.add_succ_r.
Qed.
Lemma work_0 s : work s = 0%nat → all_done s.
Proof.
  unfold work, all_done. induction (th_pool s) as [|c pool IH]; cbn; [constructor|].
  intros H. constructor; [by destruct c; cbn in *|apply IH; lia].
Qed.

(** [C31] The lock order of the bridge is sound for callers that do not hold the GIL.  However
    many threads call [with_python] on however many bridges, one call after the other, in
    whatever interleaving, and wherever the interpreter switches threads inside a closure:
    they never deadlock, at most one thread at a time is at a step of its closure, each
    instruction is executed once, so that every run that cannot be extended has completed
    every call, and then every lock is free. *)
Theorem bridge_calls_complete (progs : list (list (nat * list Act))) (n : nat) (s : Threads) :
  nsteps thread_step n (threads_start (calls <$> progs)) s →
  ¬ deadlocked s ∧
  (∀ t1 t2 c1 c2, th_pool s !! t1 = Some (I_Work :: c1) → th_pool s !! t2 = Some (I_Work :: c2) → t1 = t2) ∧
  (n + work s = work (threads_start (calls <$> progs)))%nat ∧
  ((∀ s', ¬ thread_step s s') → all_done s ∧ th_locks s = no_locks).
Proof.
  intros Hrun.
  assert (locks_ok s ∧ (n + work s = work (threads_start (calls <$> progs)))%nat) as [Hok Hw].
  { generalize (threads_start_ok progs). induction Hrun as [x|n x y z Hxy _ IH]; intros Hx; [done|].
    pose proof (thread_step_work _ _ Hxy). destruct (IH (thread_step_ok _ _ Hxy Hx)). split; [done|lia]. }
  split_and!; [|..|done|].
  - intros [Hd Hstuck]. destruct (locks_progress s Hok Hd) as [s' Hs']. by eapply Hstuck.
  - intros t1 t2 c1 c2 H1 H2. destruct Hok as [Hp _ _].
    destruct (Hp _ _ H1) as (h1 & g1 & P1 & _ & G1), (Hp _ _ H2) as (h2 & g2 & P2 & _ & G2).
    apply phase_move in P1, P2. inversion P1; inversion P2; subst.
    rewrite (proj2 G1 eq_refl) in G2. by injection (proj2 G2 eq_refl).
  - intros Hstuck. assert (all_done s) as Hd.
    { destruct (decide (work s = 0%nat)) as [E|E]; [by apply work_0|]. exfalso.
      destruct (locks_progress s Hok) as [s' Hs']; [|by eapply Hstuck].
      intros Hd. apply E. unfold work. clear -Hd. unfold all_done in Hd.
      induction Hd as [|c pool -> _ IH]; [done|]. exact IH. }
    split; [done|]. destruct Hok as [Hp Hs Hg]. unfold all_done in Hd. rewrite Forall_lookup in Hd.
    assert (∀ t c, th_pool s !! t = Some c → (∀ b, lk_serializer (th_locks s) !! b ≠ Some t) ∧
      lk_gil (th_locks s) ≠ Some (t, 1%nat)) as Hfree.
    { intros t c Hc. destruct (Hp t c Hc) as (h & g & Hph & Hb & Hgil). rewrite (Hd _ _ Hc) in Hph.
      apply phase_nil in Hph as [-> ->]. split; [intros b Hl; by apply Hb in Hl|intros Hl; by apply Hgil in Hl]. }
    destruct (th_locks s) as [ser gil]; cbn in *. unfold no_locks. f_equal.
    + apply map_eq. intros b. rewrite lookup_empty. destruct (ser !! b) as [t|] eqn:Hl; [|done].
      destruct (lookup_lt_is_Some_2 _ _ (Hs b t Hl)) as [c Hc]. by destruct (proj1 (Hfree t c Hc) b).
    + destruct gil as [[t d]|]; [|done]. destruct (Hg t d eq_refl) as [-> Ht].
      destruct (lookup_lt_is_Some_2 _ _ Ht) as [c Hc]. by destruct (proj2 (Hfree t c Hc)).
Qed.
Lemma bridge_calls_complete_witness :
  let progs := [[(0, [A_Work; A_Switch])]; [(0, []); (1, [A_Work])]]%nat in
  ∃ s, nsteps thread_step 1 (threads_start (calls <$> progs)) s ∧ ¬ deadlocked s.
Proof.
  cbv zeta. set (progs := [[(0, [A_Work; A_Switch])]; [(0, []); (1, [A_Work])]]%nat).
  pose proof (Thread_step (threads_start (calls <$> progs)) 1 (I_Lock 0) _ _ eq_refl eq_refl) as Hstep.
  eexists. split; [exact (nsteps_once _ _ Hstep)|].
  exact (proj1 (bridge_calls_complete progs 1 _ (nsteps_once _ _ Hstep))).
Defined.

(** ** Where the order does not help *)

Lemma thread_step_run s t i rest l' :
  th_pool s !! t = Some (i :: rest) → exec_instr t i (th_locks s) = Some l' →
  rtc thread_step s {| th_pool := <[t := rest]> (th_pool s); th_locks := l' |}.
Proof. intros. apply rtc_once. by econstructor. Qed.
(** A state in which every thread waits. *)
Lemma all_waiting_deadlocked s :
  th_pool s ≠ [] → (∀ t c, th_pool s !! t = Some c → ∃ i rest, c = i :: rest ∧ exec_instr t i (th_locks s) = None) →
  deadlocked s.
Proof.
  intros Hne Hw. split.
  - intros Hd. unfold all_done in Hd. rewrite Forall_lookup in Hd.
    destruct (th_pool s) as [|c pool] eqn:Hp; [done|].
    destruct (Hw 0%nat c eq_refl) as (i & rest & -> & _). discriminate (Hd 0%nat _ eq_refl).
  - intros s' Hs. destruct Hs as [s0 t i rest l' Hc Hx]. destruct (Hw t _ Hc) as (i' & rest' & E & Hn). by simplify_eq.
Qed.

(** A thread that already holds the GIL (a Python thread calling into the native module) and
    calls [with_python], against one that is between the bridge's lock and the GIL: each
    waits for the other. *)
Theorem with_python_under_gil_deadlocks b body1 body2 rest :
  ∃ s, rtc thread_step (threads_start [I_Gil :: with_python_code b body1 ++ rest; with_python_code b body2]) s ∧
       deadlocked s.
Proof.
  eexists. split.
  - etransitivity; [eapply (thread_step_run _ 0); reflexivity|].
    eapply (thread_step_run _ 1); [reflexivity|]. cbn. by rewrite lookup_empty.
  - apply all_waiting_deadlocked; [done|]. intros [|[|t]] c Hc; cbn in Hc; simplify_eq; eexists _, _; split; try done.
    cbn. by rewrite lookup_insert_eq.
Qed.
(** A closure that calls [with_python] on its own bridge never returns, in a single thread. *)
Theorem with_python_nested_deadlocks b body :
  ∃ s, rtc thread_step (threads_start [with_python_code b (with_python_code b body)]) s ∧ deadlocked s.
Proof.
  eexists. split.
  - etransitivity; [eapply (thread_step_run _ 0); [reflexivity|cbn; by rewrite lookup_empty]|].
    eapply (thread_step_run _ 0); reflexivity.
  - apply all_waiting_deadlocked; [done|]. intros [|t] c Hc; cbn in Hc; simplify_eq. eexists _, _. split; [done|].
    cbn. by rewrite lookup_insert_eq.
Qed.
