(* ===== verification/GemmaBench.v ===== *)
(** * The local benchmark harness

    Models [src/examples/gemma_bench/src/main.rs]: how a request is measured, how a number of
    requests is kept in flight, what is computed from the measurements, and the battery of
    configurations the subcommands run.  Clock readings are a function of their order; whether a
    task has finished when it is polled is the environment's.  The tables printed for people
    repeat the records that are emitted; only the records are kept. *)
From Stdlib Require Import SpecFloat.
From S2P Require Import Prelude F64 Runtime Tokens Text Deployment Audio Runner VllmEngine VllmDefaults.

(** ** Floats of measurements *)

(** [Duration::as_secs_f64]. *)
Definition as_secs_f64 (d : Duration) : f64 :=
  f64_add (f64_of_Z (d / ns_per_s)) (f64_div (f64_of_Z (d `mod` ns_per_s)) (f64_of_Z ns_per_s)).
Definition millis_f64 (d : Duration) : f64 := f64_mul (as_secs_f64 d) (f64_of_Z 1000).
(** [x.round() as usize]: half away from zero, then the saturating cast. *)
Definition round_usize (x : f64) : Z :=
  match x with
  | S754_finite false m e =>
      Z.min (2 ^ 64 - 1) (if 0 <=? e then Zpos m * 2 ^ e else (Zpos m + 2 ^ (- e - 1)) / 2 ^ (- e))
  | S754_infinity false => 2 ^ 64 - 1
  | _ => 0
  end.

(** ** One measured request *)

Record RunStats : Type := {
  rs_id : string; ttft_ms : f64; decode_ms : f64; total_ms : f64; rs_output_tokens : Z; rs_text : string
}.
Definition tokens_per_sec_decode (s : RunStats) : f64 :=
  if SFleb (decode_ms s) (f64_of_Z 0) then f64_of_Z 0
  else f64_div (f64_of_Z (rs_output_tokens s)) (f64_div (decode_ms s) (f64_of_Z 1000)).
Definition make_batch (id model prompt : string) (max_tokens_ : Z) : ExecuteBatch := {|
  request_id := id; model := model; messages := [{| role := Role_User; content := MC_Text prompt |}];
  sampling := {| temperature := Some (f32_of_Z 0); top_p := None; top_k := None; max_tokens := Some max_tokens_; stop := [];
                 presence_penalty := None; frequency_penalty := None; seed := None |};
  stream := true; estimated_tokens_field := Z.max max_tokens_ 8
|}.

Section measure.
Context {Json : Type}.
Abbreviation Chunk := (TokenChunk Json).
(** What the loop has taken from the stream so far. *)
Record Taken : Type := { tk_text : string; tk_tokens : Z; tk_ttft : option Duration }.
Definition nothing_taken : Taken := {| tk_text := ""; tk_tokens := 0; tk_ttft := None |}.
Definition take_chunk (elapsed : Duration) (chunk : Chunk) (p : Taken) : Taken := {|
  tk_text := tk_text p +:+ text_delta chunk;
  tk_tokens := match usage chunk with Some u => output_tokens u | None => tk_tokens p end;
  tk_ttft := match tk_ttft p with
             | None => if is_empty_str (text_delta chunk) then None else Some elapsed
             | Some t => Some t
             end
|}.
(** The loop over the stream from item [i] on.  Item [i] is looked at at reading [2i+1], against
    the deadline if there is one, and its arrival is timed by reading [2i+2]. *)
Fixpoint drain_loop (clock : nat → Instant) (started : Instant) (deadline : option Instant) (i : nat)
  (stream : list (InferenceResult Chunk)) (p : Taken) : result string Taken :=
  match stream with
  | [] => Ok p
  | chunk_result :: rest =>
      if match deadline with Some d => d <=? clock (2 * i + 1)%nat | None => false end
      then Err "run exceeded 900s — engine appears hung"
      else
        match chunk_result with
        | Err _ => Err "stream chunk error"
        | Ok chunk =>
            let p := take_chunk (duration_since (clock (2 * i + 2)%nat) started) chunk p in
            match finish_reason chunk with
            | Some _ => Ok p
            | None => drain_loop clock started deadline (S i) rest p
            end
        end
  end.
Definition stats_of (id : string) (total : Duration) (p : Taken) : RunStats :=
  let ttft := default total (tk_ttft p) in
  let decode := saturating_sub total ttft in
  {| rs_id := id; ttft_ms := millis_f64 ttft; decode_ms := millis_f64 decode; total_ms := millis_f64 total;
     rs_output_tokens := tk_tokens p; rs_text := tk_text p |}.
(** The reading after the loop. *)
Definition last_reading (clock : nat → Instant) (stream : list (InferenceResult Chunk)) : Instant :=
  clock (2 * length stream + 1)%nat.
Definition drain_stream (clock : nat → Instant) (id : string) (handle : RunHandle Chunk) : result string RunStats :=
  let req_started := clock 0%nat in
  let? p := drain_loop clock req_started None 0 (into_stream handle) nothing_taken in
  Ok (stats_of id (duration_since (last_reading clock (into_stream handle)) req_started) p).

Section runner.
Context {Ctx R : Type} `{!RunnerBase R} `{!ModelRunner Json R Ctx}.
Variable debug_duration : Duration → string.
(** [format!("{:x}", now & 0xFFFFFFFF)] of the wall clock. *)
Variable random_id : string.
Definition run_one (clock : nat → Instant) (r : R) (model prompt : string) (max_tokens : Z) : R * result string RunStats :=
  let id := "bench-" +:+ random_id in
  let started := clock 0%nat in
  match @execute Json R Ctx _ _ r (make_batch id model prompt max_tokens) with
  | (r, Err _) => (r, Err ("execute(" +:+ debug_str prompt +:+ ")"))
  | (r, Ok handle) =>
      let deadline := started + from_secs 900 in
      (r, let? p := drain_loop clock started (Some deadline) 0 (into_stream handle) nothing_taken in
          Ok (stats_of id (duration_since (last_reading clock (into_stream handle)) started) p))
  end.

(** ** Keeping requests in flight *)

(** A task that drains the stream of one request. *)
Record Task : Type := { ta_id : string; ta_handle : RunHandle Chunk }.
Record Pool : Type := { po_next : Z; po_in_flight : list Task; po_completed : list RunStats }.
Definition pool_start : Pool := {| po_next := 0; po_in_flight := []; po_completed := [] |}.
Section pool.
Variables (model prompt : string) (concurrency total max_tokens : Z).
(** The clock readings of a request's own task. *)
Variable task_clock : string → nat → Instant.
Definition bench_id (i : Z) : string := "bench-" +:+ pretty concurrency +:+ "-" +:+ pretty i.
(** The inner loop; a round adds a task, so [concurrency] rounds fill the pool. *)
Fixpoint top_up (fuel : nat) (r : R) (s : Pool) : R * result string Pool :=
  match fuel with
  | O => (r, Ok s)
  | S fuel =>
      if (Z.of_nat (length (po_in_flight s)) <? concurrency) && (po_next s <? total) then
        match @execute Json R Ctx _ _ r (make_batch (bench_id (po_next s)) model prompt max_tokens) with
        | (r, Err e) => (r, Err (error_to_string debug_duration e))
        | (r, Ok handle) =>
            top_up fuel r {|
              po_next := po_next s + 1;
              po_in_flight := po_in_flight s ++ [{| ta_id := bench_id (po_next s); ta_handle := handle |}];
              po_completed := po_completed s |}
        end
      else (r, Ok s)
  end.
Definition first_ready (finished : string → bool) (handles : list Task) : option nat :=
  fst <$> list_find (λ t, finished (ta_id t) = true) handles.
(** [Vec::swap_remove]. *)
Definition swap_remove (i : nat) (l : list Task) : list Task :=
  match list.last l with Some x => take (length l - 1) (<[i := x]> l) | None => l end.
(** One round of the outer loop. *)
Definition pool_round (finished : string → bool) (r : R) (s : Pool) : R * result string Pool :=
  match top_up (Z.to_nat concurrency) r s with
  | (r, Err e) => (r, Err e)
  | (r, Ok s) =>
      (r, match first_ready finished (po_in_flight s) with
          | None => Ok s
          | Some idx =>
              match po_in_flight s !! idx with
              | None => Ok s
              | Some task =>
                  let? stats := drain_stream (task_clock (ta_id task)) (ta_id task) (ta_handle task) in
                  Ok {| po_next := po_next s; po_in_flight := swap_remove idx (po_in_flight s);
                        po_completed := po_completed s ++ [stats] |}
              end
          end)
  end.
(** The outer loop, given what each poll finds; [None]: still running after the last of them. *)
Fixpoint pool_loop (polls : list (string → bool)) (r : R) (s : Pool) : option (R * result string (list RunStats)) :=
  if total <=? Z.of_nat (length (po_completed s)) then Some (r, Ok (po_completed s))
  else
    match polls with
    | [] => None
    | finished :: rest =>
        match pool_round finished r s with
        | (r, Err e) => Some (r, Err e)
        | (r, Ok s) => pool_loop rest r s
        end
    end.
End pool.
End runner.
End measure.

(** ** What is computed from the measurements *)

Record ConcurrentStats : Type := {
  cs_concurrency : Z; cs_total_requests : Z; wall_ms : f64; total_output_tokens : Z; tokens_per_sec_aggregate : f64;
  ttft_p50 : f64; ttft_p95 : f64; decode_p50 : f64; decode_p95 : f64;
  per_request_ttft_ms : list f64; per_request_decode_ms : list f64; per_request_tokens : list Z
}.
Definition percentile (sorted : list f64) (p : f64) : f64 :=
  match sorted with
  | [] => f64_of_Z 0
  | _ =>
      let n := Z.of_nat (length sorted) in
      let idx := round_usize (f64_mul (f64_div p (f64_of_Z 100)) (SFsub 53 1024 (f64_of_Z n) (f64_of_Z 1))) in
      nth (Z.to_nat (Z.min idx (n - 1))) sorted (f64_of_Z 0)
  end.
(** [sort_by(|a, b| a.partial_cmp(b).unwrap())], stable; comparing a NaN is a panic. *)
Definition f64_le (x y : f64) : Prop := SFleb x y = true.
#[export] Instance f64_le_dec : RelDecision f64_le := λ x y, bool_eq_dec (SFleb x y) true.
Definition sort_f64 (l : list f64) : option (list f64) :=
  if (1 <? length l)%nat && existsb f64_is_nan l then None else Some (merge_sort f64_le l).
Definition concurrent_stats (concurrency total : Z) (wall : Duration) (completed : list RunStats) : option ConcurrentStats :=
  let tokens := rs_output_tokens <$> completed in
  let total_tokens := wrap_u32 (foldl Z.add 0 tokens) in
  ttfts ← sort_f64 (ttft_ms <$> completed);
  decodes ← sort_f64 (decode_ms <$> completed);
  Some {|
    cs_concurrency := concurrency; cs_total_requests := total; wall_ms := millis_f64 wall;
    total_output_tokens := total_tokens;
    tokens_per_sec_aggregate := f64_div (f64_of_Z total_tokens) (f64_max (as_secs_f64 wall) (f64_lit 1 1000000));
    ttft_p50 := percentile ttfts (f64_of_Z 50); ttft_p95 := percentile ttfts (f64_of_Z 95);
    decode_p50 := percentile decodes (f64_of_Z 50); decode_p95 := percentile decodes (f64_of_Z 95);
    per_request_ttft_ms := ttfts; per_request_decode_ms := decodes; per_request_tokens := tokens
  |}.

(** ** Configurations and prompts *)

Definition base_config (model : string) : VllmConfig := {|
  vc_model := model; vc_tensor_parallel_size := 1; vc_dtype := "auto"; vc_gpu_memory_utilization := Some (f32_lit 85 100);
  vc_max_model_len := Some 2048; vc_hf_cache_dir := None; vc_enforce_eager := Some true; vc_enable_prefix_caching := None;
  vc_enable_chunked_prefill := None; vc_max_num_seqs := Some 16; vc_block_size := None; vc_quantization := None;
  vc_limit_mm_per_prompt := None; vc_cpu_offload_gb := Some 4
|}.
(** One assignment to a copy of a configuration. *)
Inductive Knob : Type :=
  | Kn_gpu_util (v : f32) | Kn_dtype (v : string) | Kn_eager (v : bool) | Kn_prefix_cache (v : bool)
  | Kn_chunked_prefill (v : bool) | Kn_block_size (v : Z) | Kn_max_num_seqs (v : Z).
Definition turn (k : Knob) (c : VllmConfig) : VllmConfig := {|
  vc_model := vc_model c; vc_tensor_parallel_size := vc_tensor_parallel_size c;
  vc_dtype := match k with Kn_dtype v => v | _ => vc_dtype c end;
  vc_gpu_memory_utilization := match k with Kn_gpu_util v => Some v | _ => vc_gpu_memory_utilization c end;
  vc_max_model_len := vc_max_model_len c; vc_hf_cache_dir := vc_hf_cache_dir c;
  vc_enforce_eager := match k with Kn_eager v => Some v | _ => vc_enforce_eager c end;
  vc_enable_prefix_caching := match k with Kn_prefix_cache v => Some v | _ => vc_enable_prefix_caching c end;
  vc_enable_chunked_prefill := match k with Kn_chunked_prefill v => Some v | _ => vc_enable_chunked_prefill c end;
  vc_max_num_seqs := match k with Kn_max_num_seqs v => Some v | _ => vc_max_num_seqs c end;
  vc_block_size := match k with Kn_block_size v => Some v | _ => vc_block_size c end;
  vc_quantization := vc_quantization c; vc_limit_mm_per_prompt := vc_limit_mm_per_prompt c;
  vc_cpu_offload_gb := vc_cpu_offload_gb c
|}.
Definition short_prompt : string := "Reply with the word OK.".
Definition medium_prompt : string :=
  "Summarise the difference between an actor system and a thread pool in three sentences.".
Definition long_para : string :=
  "The actor model is a mathematical model of concurrent computation that treats `actors` as the universal primitives of concurrent computation. " +:+
  "In response to a message it receives, an actor can: make local decisions, create more actors, send more messages, and determine how to respond to the next message received. " +:+
  "Actors may modify their own private state, but can only affect each other indirectly through messaging (removing the need for lock-based synchronisation). ".
Definition long_prompt : string :=
  foldl (λ out _, out +:+ long_para) "" (seq 0 6) +:+ nl +:+
  "Given this background, briefly summarise three production trade-offs of the actor model versus a thread pool. Keep it under 150 words.".

(** ** The subcommands *)

Inductive OutputFormat : Type := OF_Human | OF_Jsonl.
Inductive SweepKnob : Type :=
  | SK_GpuUtil | SK_Dtype | SK_CudaGraphs | SK_PrefixCache | SK_ChunkedPrefill | SK_Concurrency | SK_BlockSize | SK_MaxNumSeqs.
Inductive Cmd : Type :=
  | Cmd_Smoke | Cmd_Latency | Cmd_Throughput (concurrency total : Z) | Cmd_Sweep (knob : SweepKnob) | Cmd_Experiments | Cmd_Compare.
Record BenchCli : Type := {
  bc_model : string; bc_allow_any_model : bool; bc_format : OutputFormat; bc_no_archive : bool; bc_max_tokens : Z;
  bc_quick : bool; bc_cmd : Cmd
}.
(** A record handed to the writer. *)
Inductive Value : Type := V_Run (s : RunStats) | V_Aggregate (s : ConcurrentStats) | V_Error (e : string).
Record Emission : Type := { em_label : string; em_sub_label : string; em_value : Value }.
Definition emit_with (label sub_label : string) (v : Value) : Emission :=
  {| em_label := label; em_sub_label := sub_label; em_value := v |}.
Definition emit (label : string) (v : Value) : Emission := emit_with label "" v.
Definition subcmd (c : Cmd) : string :=
  match c with
  | Cmd_Smoke => "smoke" | Cmd_Latency => "latency" | Cmd_Throughput _ _ => "throughput" | Cmd_Sweep _ => "sweep"
  | Cmd_Experiments => "experiments" | Cmd_Compare => "compare"
  end.
(** The archive's name, given the time in seconds. *)
Definition archive_path (cli : BenchCli) (ts : Z) : option string :=
  if bc_no_archive cli then None else Some ("target/gemma-bench/" +:+ subcmd (bc_cmd cli) +:+ "-" +:+ pretty ts +:+ ".jsonl").

Section commands.
(** The host's probe ([VllmDefaults.probe]). *)
Variable host_probe : string → f32 → f32 → option string → ProbeResult.
(** The [k]-th measurement on an engine of this configuration: [run_one] and [run_concurrent]. *)
Variable on_engine_one : VllmConfig → nat → string → string → Z → result string RunStats.
Variable on_engine : VllmConfig → nat → string → Z → Z → Z → string → result string ConcurrentStats.
Abbreviation Report := (list Emission * result string unit)%type.

Definition pass_probe (cfg : VllmConfig) : bool :=
  let min_vram := if bool_decide (vc_model cfg = "google/gemma-4-E2B" ∨ vc_model cfg = "google/gemma-4-E2B-it")
                  then f32_lit 25 10 else f32_lit 45 10 in
  let min_disk := if contains "E4B" (vc_model cfg) then f32_of_Z 7 else f32_of_Z 4 in
  match host_probe (vc_model cfg) min_vram min_disk None with
  | PR_Ready _ _ => true
  | PR_Skipped _ _ | PR_Error _ => false
  end.
Definition cmd_smoke (cli : BenchCli) : Report :=
  let cfg := base_config (bc_model cli) in
  if pass_probe cfg then
    match on_engine_one cfg 0 (bc_model cli) "Reply with just the word OK." (Z.min (bc_max_tokens cli) 8) with
    | Ok stats => ([emit "smoke" (V_Run stats)], Ok ())
    | Err e => ([], Err e)
    end
  else ([], Ok ()).
Definition latency_prompts (quick : bool) : list (string * string) :=
  if quick then [("short", short_prompt)]
  else [("short", short_prompt); ("medium", medium_prompt); ("long", long_prompt)].
Fixpoint latency_loop (cli : BenchCli) (cfg : VllmConfig) (k : nat) (prompts : list (string * string)) : Report :=
  match prompts with
  | [] => ([], Ok ())
  | (label, prompt) :: rest =>
      match on_engine_one cfg k (bc_model cli) prompt (bc_max_tokens cli) with
      | Ok stats => let '(out, r) := latency_loop cli cfg (S k) rest in (emit_with "latency" label (V_Run stats) :: out, r)
      | Err e => ([], Err e)
      end
  end.
Definition cmd_latency (cli : BenchCli) : Report :=
  let cfg := base_config (bc_model cli) in
  if pass_probe cfg then latency_loop cli cfg 0 (latency_prompts (bc_quick cli)) else ([], Ok ()).
Definition cmd_throughput (cli : BenchCli) (concurrency total : Z) : Report :=
  let cfg := base_config (bc_model cli) in
  if pass_probe cfg then
    let total := if bc_quick cli then Z.min total 8 else total in
    match on_engine cfg 0 (bc_model cli) concurrency total (bc_max_tokens cli) medium_prompt with
    | Ok agg => ([emit "throughput" (V_Aggregate agg)], Ok ())
    | Err e => ([], Err e)
    end
  else ([], Ok ()).
(** An engine per value; a failing one is recorded and the sweep goes on. *)
Definition sweep_runs (knob_name : string) (values : list (string * VllmConfig)) (cli : BenchCli) (n_requests : Z)
  (prompt : string) : Report :=
  ((λ v, emit_with ("sweep_" +:+ knob_name) (fst v)
           match on_engine (snd v) 0 (bc_model cli) 1 n_requests (bc_max_tokens cli) prompt with
           | Ok agg => V_Aggregate agg
           | Err e => V_Error e
           end) <$> values, Ok ()).
Definition knob_values (quick : bool) (knob : SweepKnob) : string * list (string * Knob) :=
  match knob with
  | SK_GpuUtil => ("gpu_util",
      if quick then [("0.45", Kn_gpu_util (f32_lit 45 100)); ("0.7", Kn_gpu_util (f32_lit 7 10))]
      else [("0.3", Kn_gpu_util (f32_lit 3 10)); ("0.5", Kn_gpu_util (f32_lit 5 10)); ("0.7", Kn_gpu_util (f32_lit 7 10));
            ("0.9", Kn_gpu_util (f32_lit 9 10))])
  | SK_Dtype => ("dtype", (λ s, (s, Kn_dtype s)) <$> (if quick then ["auto"; "bfloat16"] else ["auto"; "float16"; "bfloat16"]))
  | SK_CudaGraphs => ("enforce_eager", [("false", Kn_eager false); ("true", Kn_eager true)])
  | SK_PrefixCache => ("enable_prefix_caching", [("false", Kn_prefix_cache false); ("true", Kn_prefix_cache true)])
  | SK_ChunkedPrefill => ("enable_chunked_prefill", [("false", Kn_chunked_prefill false); ("true", Kn_chunked_prefill true)])
  | SK_BlockSize => ("block_size", (λ n, (pretty n, Kn_block_size n)) <$> [16; 32])
  | SK_MaxNumSeqs => ("max_num_seqs", (λ n, (pretty n, Kn_max_num_seqs n)) <$> (if quick then [16; 64] else [16; 64; 256]))
  | SK_Concurrency => ("concurrency", [])
  end.
Fixpoint concurrency_loop (cli : BenchCli) (cfg : VllmConfig) (k : nat) (cs : list Z) (prompt : string) : Report :=
  match cs with
  | [] => ([], Ok ())
  | c :: rest =>
      match on_engine cfg k (bc_model cli) c (wrap_u32 (c * 2)) (bc_max_tokens cli) prompt with
      | Ok agg =>
          let '(out, r) := concurrency_loop cli cfg (S k) rest prompt in
          (emit_with "sweep_concurrency" (pretty c) (V_Aggregate agg) :: out, r)
      | Err e => ([], Err e)
      end
  end.
Definition cmd_sweep (cli : BenchCli) (knob : SweepKnob) : Report :=
  let base := base_config (bc_model cli) in
  if pass_probe base then
    let n_requests := if bc_quick cli then 4 else 8 in
    match knob with
    | SK_Concurrency => concurrency_loop cli base 0 (if bc_quick cli then [1; 2] else [1; 2; 4; 8]) medium_prompt
    | _ =>
        let '(name, values) := knob_values (bc_quick cli) knob in
        sweep_runs name ((λ v, (fst v, turn (snd v) base)) <$> values) cli n_requests medium_prompt
    end
  else ([], Ok ()).
Definition experiment_configs (base : VllmConfig) : list (string * VllmConfig) :=
  [("vllm_defaults", base); ("eager", turn (Kn_eager true) base); ("graphs", turn (Kn_eager false) base);
   ("prefix_cache", turn (Kn_prefix_cache true) base); ("chunked_prefill", turn (Kn_chunked_prefill true) base);
   ("high_gpu_util", turn (Kn_gpu_util (f32_lit 85 100)) base); ("low_gpu_util", turn (Kn_gpu_util (f32_lit 4 10)) base)].
Definition cmd_experiments (cli : BenchCli) : Report :=
  let base := base_config (bc_model cli) in
  if pass_probe base then
    let n := if bc_quick cli then 4 else 8 in
    ((λ c, emit_with "experiments" (fst c)
             match on_engine (snd c) 0 (bc_model cli) 2 n (bc_max_tokens cli) medium_prompt with
             | Ok agg => V_Aggregate agg
             | Err e => V_Error e
             end) <$> experiment_configs base, Ok ())
  else ([], Ok ()).
Fixpoint compare_loop (cli : BenchCli) (n : Z) (variants : list string) : Report :=
  match variants with
  | [] => ([], Ok ())
  | variant :: rest =>
      let cfg := base_config variant in
      if pass_probe cfg then
        match on_engine cfg 0 variant 1 n (bc_max_tokens cli) medium_prompt with
        | Ok agg => let '(out, r) := compare_loop cli n rest in (emit_with "compare" variant (V_Aggregate agg) :: out, r)
        | Err e => ([], Err e)
        end
      else compare_loop cli n rest
  end.
Definition cmd_compare (cli : BenchCli) : Report :=
  compare_loop cli (if bc_quick cli then 3 else 6) ["google/gemma-4-E4B-it"; "google/gemma-4-E2B-it"].
Definition bench_main (debug_duration : Duration → string) (cli : BenchCli) : Report :=
  match (if bc_allow_any_model cli then Ok () else validate_variant (bc_model cli)) with
  | Err e => ([], Err (error_to_string debug_duration e +:+ "; pass --allow-any-model to bypass"))
  | Ok _ =>
      match bc_cmd cli with
      | Cmd_Smoke => cmd_smoke cli
      | Cmd_Latency => cmd_latency cli
      | Cmd_Throughput concurrency total => cmd_throughput cli concurrency total
      | Cmd_Sweep knob => cmd_sweep cli knob
      | Cmd_Experiments => cmd_experiments cli
      | Cmd_Compare => cmd_compare cli
      end
  end.
End commands.

(** ** Lemmas *)

Section measured.
Context {Json : Type}.
Abbreviation Chunk := (TokenChunk Json).
(** The items a measurement looks at: up to the first chunk with a finish reason. *)
Fixpoint until_finish (stream : list (InferenceResult Chunk)) : list (InferenceResult Chunk) :=
  match stream with
  | Ok c :: rest => Ok c :: match finish_reason c with Some _ => [] | None => until_finish rest end
  | x => take 1 x
  end.
(** Without a deadline the loop takes the text of the whole answer and its last reported usage,
    and fails exactly when an error comes before the finishing chunk. *)
Lemma drain_loop_spec clock started i stream p :
  match drain_loop (Json:=Json) clock started None i stream p with
  | Ok p' => ∃ cs, until_finish stream = Ok <$> cs ∧ tk_text p' = tk_text p +:+ concat_text cs ∧
               tk_tokens p' = default (tk_tokens p) (output_tokens <$> list.last (omap usage cs))
  | Err e => e = "stream chunk error" ∧ ∃ err, Err err ∈ until_finish stream
  end.
Proof.
  revert i p. induction stream as [|[c|err] stream IH]; intros i p; cbn [drain_loop until_finish].
  - exists []. split_and!; [done| |done]. cbn. by rewrite string_app_nil_r.
  - set (p1 := take_chunk _ c p). destruct (finish_reason c) as [fr|].
    + exists [c]. split_and!; [done| |].
      * unfold concat_text. cbn. by rewrite string_app_nil_r.
      * cbn. by destruct (usage c).
    + specialize (IH (S i) p1). destruct (drain_loop clock started None (S i) stream p1) as [p'|e].
      * destruct IH as (cs & -> & -> & ->). exists (c :: cs). split_and!; [done| |].
        -- change (concat_text (c :: cs)) with (text_delta c +:+ concat_text cs). cbn. by rewrite string_app_assoc.
        -- cbn [omap list_omap]. subst p1. cbn [tk_tokens take_chunk]. destruct (usage c) as [u|]; cbn; [|done].
           rewrite last_cons. by destruct (list.last (omap usage cs)).
      * destruct IH as (-> & err & H). split; [done|]. exists err. by right.
  - split; [done|]. exists err. cbn. by left.
Qed.
End measured.

Lemma swap_remove_perm {Json} i (l : list (@Task Json)) t : l !! i = Some t → t :: swap_remove i l ≡ₚ l.
Proof.
  intros Hi. pose proof (lookup_lt_Some _ _ _ Hi) as Hlt.
  destruct l as [|x l' _] using rev_ind; [done|]. unfold swap_remove. rewrite last_snoc, length_app, Nat.add_sub.
  rewrite length_app in Hlt. cbn in Hlt.
  destruct (decide (i = length l')) as [->|Hne].
  - rewrite list_lookup_middle in Hi by done. simplify_eq.
    rewrite insert_app_r_alt, Nat.sub_diag by done. cbn. rewrite take_app_length. by rewrite Permutation_cons_append.
  - rewrite lookup_app_l in Hi by lia. rewrite insert_app_l, take_app_length' by (rewrite ?length_insert; lia).
    rewrite insert_take_drop by lia. rewrite <-(take_drop_middle l' i t Hi) at 3. solve_Permutation.
Qed.

Section pool_lemmas.
Context {Json Ctx R : Type} `{!RunnerBase R} `{!ModelRunner Json R Ctx}.
Variable debug_duration : Duration → string.
Variables (model prompt : string) (concurrency total max_tokens : Z) (task_clock : string → nat → Instant).
Abbreviation top_up := (@top_up Json Ctx R _ _ debug_duration model prompt concurrency total max_tokens).
Abbreviation pool_round := (@pool_round Json Ctx R _ _ debug_duration model prompt concurrency total max_tokens task_clock).
Abbreviation pool_loop := (@pool_loop Json Ctx R _ _ debug_duration model prompt concurrency total max_tokens task_clock).
Abbreviation bench_id := (bench_id concurrency).
Abbreviation Pool := (@Pool Json).

(** Every request handed out is in flight or completed, once; and no more are in flight than
    asked for. *)
Definition pool_ok (s : Pool) : Prop :=
  0 ≤ po_next s ≤ total ∧ Z.of_nat (length (po_in_flight s)) ≤ Z.max 0 concurrency ∧
  (ta_id <$> po_in_flight s) ++ (rs_id <$> po_completed s) ≡ₚ bench_id <$> seqZ 0 (po_next s).
Lemma pool_start_ok : 0 ≤ total → pool_ok pool_start.
Proof. intros H. split_and!; cbn; [lia..|done]. Qed.
Lemma pool_ok_length s : pool_ok s → Z.of_nat (length (po_in_flight s) + length (po_completed s)) = po_next s.
Proof.
  intros (Hn & _ & Hp). apply Permutation_length in Hp. rewrite length_app, !length_fmap, length_seqZ in Hp. lia.
Qed.
Lemma top_up_ok fuel r s r' s' : pool_ok s → top_up fuel r s = (r', Ok s') →
  pool_ok s' ∧ po_completed s' = po_completed s ∧
  (concurrency ≤ Z.of_nat (fuel + length (po_in_flight s)) →
     concurrency ≤ Z.of_nat (length (po_in_flight s')) ∨ po_next s' = total).
Proof.
  revert r s. induction fuel as [|fuel IH]; intros r s Hs; cbn [GemmaBench.top_up].
  { intros [= <- <-]. split_and!; [done..|]. cbn. lia. }
  destruct ((_ <? concurrency) && (po_next s <? total)) eqn:E.
  - apply andb_true_iff in E as [E1%Z.ltb_lt E2%Z.ltb_lt].
    destruct (execute r _) as [r1 [handle|e]]; [|done]. intros H. apply IH in H as (Hok & Hc & Hf).
    + split_and!; [done..|]. intros Hlen. apply Hf. cbn. rewrite length_app. cbn. lia.
    + destruct Hs as (Hn & Hl & Hp). split_and!; cbn; [lia|lia|rewrite length_app; cbn; lia|].
      rewrite seqZ_app, !fmap_app, <-Hp by lia. rewrite seqZ_cons by lia. cbn. rewrite Z.add_0_l. solve_Permutation.
  - intros [= <- <-]. split_and!; [done..|]. destruct Hs as (Hn & Hl & Hp).
    intros _. apply andb_false_iff in E as [E%Z.ltb_ge|E%Z.ltb_ge]; lia.
Qed.
Lemma drain_stream_id clock id (handle : RunHandle (TokenChunk Json)) st : drain_stream clock id handle = Ok st → rs_id st = id.
Proof. unfold drain_stream. destruct (drain_loop _ _ _ _ _ _); cbn; [|done]. by intros [= <-]. Qed.
(** A round keeps the invariant; it completes one request exactly when it finds one finished. *)
Lemma pool_round_ok finished r s r' s' : pool_ok s → pool_round finished r s = (r', Ok s') →
  pool_ok s' ∧ (length (po_completed s) ≤ length (po_completed s'))%nat ∧
  ((∀ id, finished id = true) → 0 < concurrency → Z.of_nat (length (po_completed s)) < total →
     length (po_completed s') = S (length (po_completed s))).
Proof.
  intros Hs. unfold GemmaBench.pool_round. destruct (top_up _ r s) as [r1 [s1|e]] eqn:Ht; [|done].
  destruct (top_up_ok _ _ _ _ _ Hs Ht) as (Hok & Hc & Hf).
  destruct (first_ready finished (po_in_flight s1)) as [idx|] eqn:Hr.
  - unfold first_ready in Hr. destruct (list_find _ _) as [[j t]|] eqn:Hfind; [|done]. cbn in Hr. simplify_eq.
    apply list_find_Some in Hfind as (Hj & _ & _). rewrite Hj.
    destruct (drain_stream _ _ _) as [st|e] eqn:Hd; cbn; [|done]. intros [= <- <-]. cbn.
    pose proof (swap_remove_perm _ _ _ Hj) as Hp. rewrite Hc, length_app. cbn.
    split_and!; [|lia|lia]. destruct Hok as (Hn & Hl & Hids).
    pose proof (fmap_Permutation ta_id _ _ Hp) as Hp'. cbn [fmap list_fmap] in Hp'. split_and!; cbn; [lia|lia| |].
    + apply Permutation_length in Hp. cbn in Hp. lia.
    + rewrite fmap_app. cbn. rewrite (drain_stream_id _ _ _ _ Hd), <-Hids, <-Hp', Hc. solve_Permutation.
  - intros [= <- <-]. split_and!; [done|by rewrite Hc|]. intros Hall Hpos Hlt. exfalso.
    unfold first_ready in Hr. destruct (list_find _ (po_in_flight s1)) as [|] eqn:Hfind; [done|].
    apply list_find_None in Hfind. pose proof (pool_ok_length s1 Hok) as Hlen. rewrite Hc in Hlen.
    destruct (po_in_flight s1) as [|t l] eqn:El.
    + cbn in Hlen. destruct Hf as [H|H]; cbn in *; lia.
    + apply Forall_cons in Hfind as [Hno _]. by rewrite Hall in Hno.
Qed.
Lemma pool_loop_exact polls r s r' done_ : pool_ok s → pool_loop polls r s = Some (r', Ok done_) →
  rs_id <$> done_ ≡ₚ bench_id <$> seqZ 0 total.
Proof.
  assert (∀ s, pool_ok s → total ≤ Z.of_nat (length (po_completed s)) → rs_id <$> po_completed s ≡ₚ bench_id <$> seqZ 0 total) as Hend.
  { intros s0 Hok H. pose proof (pool_ok_length _ Hok) as Hl. destruct Hok as (Hn & _ & Hp).
    assert (po_in_flight s0 = []) as E by (apply nil_length_inv; lia). rewrite E in Hp. cbn in Hp.
    by replace total with (po_next s0) by lia. }
  revert r s. induction polls as [|f polls IH]; intros r s Hok; cbn [GemmaBench.pool_loop].
  - destruct (Z.leb_spec total (Z.of_nat (length (po_completed s)))); [|done]. intros [= <- <-]. by apply Hend.
  - destruct (Z.leb_spec total (Z.of_nat (length (po_completed s)))) as [H|H]; [intros [= <- <-]; by apply Hend|].
    destruct (pool_round f r s) as [r1 [s1|e]] eqn:E; [|done]. apply IH. by eapply pool_round_ok.
Qed.
(** Once every request is found finished, one round each is enough. *)
Lemma pool_loop_ends polls r s : pool_ok s → 0 < concurrency → Forall (λ f : string → bool, ∀ id, f id = true) polls →
  total ≤ Z.of_nat (length (po_completed s) + length polls) → is_Some (pool_loop polls r s).
Proof.
  intros Hok Hpos Hall. revert r s Hok. induction Hall as [|f polls Hf Hall IH]; intros r s Hok Hlen; cbn [GemmaBench.pool_loop].
  - rewrite (proj2 (Z.leb_le _ _)); [by eexists|]. cbn in Hlen. lia.
  - destruct (Z.leb_spec total (Z.of_nat (length (po_completed s)))) as [H|H]; [by eexists|].
    destruct (pool_round f r s) as [r1 [s1|e]] eqn:E; [|by eexists].
    destruct (pool_round_ok _ _ _ _ _ Hok E) as (Hok1 & _ & Hprog). apply IH; [done|].
    rewrite (Hprog Hf Hpos H). cbn in Hlen. lia.
Qed.
Lemma pool_loop_app polls1 polls2 r s : pool_ok s → 0 < concurrency → Forall (λ f : string → bool, ∀ id, f id = true) polls2 →
  total ≤ Z.of_nat (length polls2) → is_Some (pool_loop (polls1 ++ polls2) r s).
Proof.
  intros Hok Hpos Hall Hlen. revert r s Hok. induction polls1 as [|f polls1 IH]; intros r s Hok.
  - cbn [app]. apply pool_loop_ends; [done..|]. lia.
  - cbn [app GemmaBench.pool_loop]. destruct (total <=? _); [by eexists|].
    destruct (pool_round f r s) as [r1 [s1|e]] eqn:E; [|by eexists]. apply IH. by eapply pool_round_ok.
Qed.
End pool_lemmas.

(** A percentile of a nonempty list is one of its elements: the index never leaves it. *)
Lemma percentile_in (sorted : list f64) (p : f64) : sorted ≠ [] → percentile sorted p ∈ sorted.
Proof.
  intros Hne. unfold percentile. destruct sorted as [|x l] eqn:E; [done|]. rewrite <-E. clear Hne.
  apply list_elem_of_In, nth_In. subst. cbn [length]. lia.
Qed.
Lemma percentile_sorted_in (l : list f64) (p : f64) : l ≠ [] → percentile (merge_sort f64_le l) p ∈ l.
Proof.
  intros Hne. pose proof (merge_sort_Permutation f64_le l) as Hp.
  assert (percentile (merge_sort f64_le l) p ∈ merge_sort f64_le l) as Hin; [|set (x := percentile _ _) in *; by rewrite Hp in Hin].
  apply percentile_in. intros E. rewrite E in Hp.
  by apply Permutation_nil_l in Hp.
Qed.
(** The per-request figures are those of the completed requests, and the percentiles are among
    them. *)
Lemma concurrent_stats_figures c t wall completed s : concurrent_stats c t wall completed = Some s →
  per_request_ttft_ms s ≡ₚ ttft_ms <$> completed ∧ per_request_decode_ms s ≡ₚ decode_ms <$> completed ∧
  (completed ≠ [] → ttft_p50 s ∈ ttft_ms <$> completed ∧ ttft_p95 s ∈ ttft_ms <$> completed ∧
                    decode_p50 s ∈ decode_ms <$> completed ∧ decode_p95 s ∈ decode_ms <$> completed).
Proof.
  unfold concurrent_stats, sort_f64. intros H. destruct (_ && existsb _ (ttft_ms <$> completed)); [done|].
  destruct (_ && existsb _ (decode_ms <$> completed)); [done|]. cbn in H. simplify_eq. cbn.
  split_and!; [apply merge_sort_Permutation..|]. intros Hne. destruct completed as [|x completed]; [done|].
  split_and!; by apply percentile_sorted_in.
Qed.

Section bench_theorems.
Context {Json Ctx R : Type} `{!RunnerBase R} `{!ModelRunner Json R Ctx}.
Variable debug_duration : Duration → string.
Variables (model prompt : string) (total max_tokens : Z) (task_clock : string → nat → Instant).
Abbreviation pool_loop := (λ concurrency, @pool_loop Json Ctx R _ _ debug_duration model prompt concurrency total max_tokens task_clock).

(** A concurrent run ends, and measures exactly the requests asked for: for any positive
    concurrency, whatever the first polls find, once every task in flight is found finished
    [total] more rounds are enough; and if no request failed the completed ones are requests
    [0] to [total - 1], each once. *)
Theorem bench_run_completes (concurrency : Z) (r : R) (polls1 polls2 : list (string → bool)) :
  0 ≤ total → 0 < concurrency → Forall (λ f : string → bool, ∀ id, f id = true) polls2 → total ≤ Z.of_nat (length polls2) →
  ∃ r' res, pool_loop concurrency (polls1 ++ polls2) r pool_start = Some (r', res) ∧
    ∀ completed, res = Ok completed → rs_id <$> completed ≡ₚ bench_id concurrency <$> seqZ 0 total.
Proof.
  intros Ht Hc Hall Hlen.
  destruct (pool_loop_app (Ctx:=Ctx) debug_duration model prompt concurrency total max_tokens task_clock polls1 polls2 r pool_start
    (pool_start_ok concurrency total Ht) Hc Hall Hlen) as [[r' res] E].
  exists r', res. split; [exact E|]. intros completed ->. by eapply pool_loop_exact; [apply pool_start_ok|exact E].
Qed.
(** With no concurrency no request is ever sent and the run never ends. *)
Lemma zero_concurrency_hangs (r : R) (polls : list (string → bool)) : 0 < total → pool_loop 0 polls r pool_start = None.
Proof.
  intros Ht. induction polls as [|f polls IH]; cbn [GemmaBench.pool_loop]; cbn [po_completed pool_start length];
    (destruct (Z.leb_spec total (Z.of_nat 0)); [lia|]); [done|exact IH].
Qed.
End bench_theorems.

(** Three of the seven configurations of the battery are the same one. *)
Lemma experiments_repeat_base (m : string) :
  let base := base_config m in
  Forall (λ label, (label, base) ∈ experiment_configs base) ["vllm_defaults"; "eager"; "high_gpu_util"].
Proof. repeat constructor; cbn; set_solver. Qed.
(** A sweep has one record per value, in order, whatever fails. *)
Lemma sweep_complete on_engine knob values cli n prompt :
  snd (sweep_runs on_engine knob values cli n prompt) = Ok () ∧
  em_sub_label <$> fst (sweep_runs on_engine knob values cli n prompt) = fst <$> values.
Proof. split; [done|]. unfold sweep_runs. cbn [fst]. rewrite <-list_fmap_compose. by apply list_fmap_ext. Qed.
