(* ===== verification/Cli.v ===== *)
(** * Command line

    Models [inference-cli/src]: [config.rs] (the project file), [serve.rs] ([run_server]:
    which actors it starts, what it tells them and what it mounts) and the subcommands of
    [main.rs].  Reading the file and the TOML decoder are parameters; logging is left out.
    This is where the parts of the runtime meet: [Manager], [Coordinator], [Metrics],
    [Gateway] and the auto-provisioning of [VllmDefaults]. *)
From Stdlib Require Import SpecFloat.
From S2P Require Import Prelude F64 Runtime Tokens Text Deployment Manager Coordinator Gateway VllmEngine VllmDefaults.

Section cli.
Context {Json : Type}.

(** ** The project file (config.rs) *)

Record ClusterConfig : Type := { cc_name : string; cc_bind : string; cc_endpoint : option string }.
Definition default_bind : string := "127.0.0.1:8080".
Record ProjectFile : Type := { cluster : ClusterConfig; deployments : list (Deployment Json) }.
Variable read_to_string : string → result string string.
Variable from_toml : string → result string ProjectFile.
Definition from_path (path : string) : result string ProjectFile :=
  let? body := read_to_string path in from_toml body.

(** ** [run_server] (serve.rs) *)

Context {ActorPath : Type} `{!EqDecision ActorPath}.
(** What is running when the gateway is mounted: the catalog of the manager, the table of
    the coordinator the gateway was given, and the address. *)
Record Server : Type := {
  sv_catalog : gmap string (DeploymentRecord (Json := Json));
  sv_coordinator : gmap string (list (RouteTarget ActorPath));
  sv_bind : string
}.
(** One [Apply] per deployment, in file order; a refused one is only logged. *)
Definition apply_all (ds : list (Deployment Json)) : gmap string (DeploymentRecord (Json := Json)) :=
  manager_run (DM_Apply <$> ds) ∅.
(** With [gemma-default]: the configuration of the environment, and what
    [provision_if_ready] does to the catalog. *)
Definition auto_provision (gemma : option (GemmaDefaults * (gmap string (DeploymentRecord (Json := Json)) →
    gmap string (DeploymentRecord (Json := Json)) * InferenceResult ProvisionOutcome)))
    (catalog : gmap string (DeploymentRecord (Json := Json))) : gmap string (DeploymentRecord (Json := Json)) :=
  match gemma with
  | Some (cfg, provision) => if gd_auto_provision cfg then fst (provision catalog) else catalog
  | None => catalog
  end.
Definition run_server (project : ProjectFile) (gemma : option (GemmaDefaults *
    (gmap string (DeploymentRecord (Json := Json)) →
     gmap string (DeploymentRecord (Json := Json)) * InferenceResult ProvisionOutcome))) : Server := {|
  sv_catalog := auto_provision gemma (apply_all (deployments project));
  sv_coordinator := coordinator_new;
  sv_bind := cc_bind (cluster project)
|}.

(** ** The subcommands (main.rs) *)

Inductive Cmd : Type :=
  | Cmd_Serve (config : string) | Cmd_Status (config : string) | Cmd_CostReport
  | Cmd_RotateCredentials (deployment : string).
(** A line of [status], its columns before padding. *)
Record StatusLine : Type := { sl_name : string; sl_model : string; sl_runtime : RuntimeKind; sl_replicas : Z }.
Definition status_line (d : Deployment Json) : StatusLine := {|
  sl_name := d_name d; sl_model := d_model d; sl_runtime := effective_runtime d; sl_replicas := d_replicas d |}.
Inductive CmdOutcome : Type :=
  | CO_Serve (p : ProjectFile) | CO_Status (lines : list StatusLine) | CO_Message (m : string).
Definition run_cmd (c : Cmd) : result string CmdOutcome :=
  match c with
  | Cmd_Serve config => let? p := from_path config in Ok (CO_Serve p)
  | Cmd_Status config => let? p := from_path config in Ok (CO_Status (status_line <$> deployments p))
  | Cmd_CostReport => Ok (CO_Message "cost-report: not yet implemented (see doc §13 Phase 6)")
  | Cmd_RotateCredentials d =>
      Ok (CO_Message ("rotate-credentials " +:+ d +:+ ": not yet implemented (see doc §13 Phase 6)"))
  end.

(** ** What a served project can do *)

Lemma apply_keeps (ds : list (Deployment Json)) records name :
  is_Some (records !! name) → is_Some (manager_run (DM_Apply <$> ds) records !! name).
Proof.
  revert records. induction ds as [|d ds IH]; intros records H; [done|]. apply IH.
  cbn. destruct (validate d); cbn; [|done]. destruct (decide (d_name d = name)) as [->|Hn];
    [by rewrite lookup_insert_eq|by rewrite lookup_insert_ne].
Qed.
Lemma apply_all_registers (ds : list (Deployment Json)) d :
  d ∈ ds → validate d = Ok () → is_Some (apply_all ds !! d_name d).
Proof.
  intros Hd Hv. apply list_elem_of_split in Hd as (l1 & l2 & ->). unfold apply_all, manager_run.
  rewrite fmap_app, foldl_app. cbn [fmap list_fmap foldl]. apply (apply_keeps l2). cbn. rewrite Hv.
  cbn [fst]. by rewrite lookup_insert_eq.
Qed.
(** A served project answers nobody: [run_server] puts every valid deployment of the file in
    the manager's catalog, but nothing tells the coordinator of an engine, so the gateway it
    mounts has no route for any model, declared or not, and every request is refused. *)
Theorem served_project_unroutable (project : ProjectFile) gemma (dd : Duration → string) (now : option Z)
    (chat : ChatRequest) (speech : SpeechRequest) :
  (∀ d, d ∈ deployments project → validate d = Ok () → gemma = None →
     is_Some (sv_catalog (run_server project gemma) !! d_name d)) ∧
  let gateway := Some (sv_coordinator (run_server project gemma)) in
  let refused m := bad_request ("internal: no engine for deployment `" +:+ m +:+ "`") "no_route" in
  chat_completions dd now gateway chat = refused (cr_model chat) ∧
  audio_speech dd gateway speech = refused (sr_model speech) ∧
  audio_speech_stream dd gateway speech = refused (sr_model speech).
Proof.
  split; [intros d Hd Hv ->; by apply apply_all_registers|]. cbn zeta.
  assert (∀ m, ask_route (Some (sv_coordinator (run_server project gemma))) m =
    Some (Err (Internal ("no engine for deployment `" +:+ m +:+ "`")))) as Hno.
  { intros m. cbn. unfold coordinator_new, pick. by rewrite lookup_empty. }
  unfold chat_completions, audio_speech, audio_speech_stream, resolve_route. rewrite !Hno. done.
Qed.
End cli.

(** ** Witness *)

Definition demo_deployment : Deployment string := {|
  d_name := "chat"; d_model := "gpt-4o"; d_runtime := None; d_runtime_config := None; d_gpus := None;
  d_replicas := 1; d_serving := Serving_default; d_budget := None; d_idempotent := true |}.
Definition demo_project : ProjectFile (Json := string) := {|
  cluster := {| cc_name := "demo"; cc_bind := default_bind; cc_endpoint := None |};
  deployments := [demo_deployment] |}.
Definition demo_chat : ChatRequest := {|
  cr_model := "chat"; cr_messages := []; cr_stream := false; cr_temperature := None; cr_max_tokens := None |}.
Definition demo_speech_request : SpeechRequest := {|
  sr_model := "chat"; sr_input := "hi"; sr_voice := "v"; sr_response_format := "wav"; sr_speed := None;
  sr_emotion := None |}.
Definition demo_server : Server (Json := string) (ActorPath := nat) := run_server demo_project None.
Lemma served_project_unroutable_witness :
  is_Some (sv_catalog demo_server !! "chat") ∧
  chat_completions (λ _, "") None (Some (sv_coordinator demo_server)) demo_chat =
    bad_request "internal: no engine for deployment `chat`" "no_route".
Proof.
  destruct (served_project_unroutable (ActorPath := nat) demo_project None (λ _, "") None demo_chat demo_speech_request)
    as (H1 & H2 & _).
  split; [|exact H2]. apply (H1 demo_deployment); [apply list_elem_of_here|reflexivity|reflexivity].
Defined.
