(* ===== verification/OrtSampling.v ===== *)
(** * Token sampling of the ONNX runtime

    Models [inference-runtime-ort/src/sampling.rs]: greedy choice, and the pipeline
    temperature, top-k, softmax, top-p, weighted draw, on binary32 floats.  [f32::exp]
    has an unspecified precision, and [sort_by] and [select_nth_unstable_by] keep their
    promises only when the comparison is a total order on the slice (it is not on a NaN, where
    they may panic): they are parameters with those laws, as is [rand]'s [WeightedIndex]
    with its generator.  [None] is a panic. *)
From Stdlib Require Import SpecFloat.
From S2P Require Import Prelude F64 Tokens.

Abbreviation Scored := (list (Z * f32)) (only parsing).

(** [b.1.partial_cmp(&a.1).unwrap_or(Equal)]: [Less] puts [a] first. *)
Definition desc_cmp (a b : Z * f32) : comparison := default Eq (f64_cmp (snd b) (snd a)).
(** What the standard library asks of a comparison before it sorts a slice with it. *)
Definition total_order_on {A} (cmp : A → A → comparison) (l : list A) : Prop :=
  (∀ x y, x ∈ l → y ∈ l → cmp y x = CompOpp (cmp x y)) ∧
  (∀ x y z, x ∈ l → y ∈ l → z ∈ l → cmp x y ≠ Gt → cmp y z ≠ Gt → cmp x z ≠ Gt).
Abbreviation ranked cmp := (StronglySorted (λ x y, cmp x y ≠ Gt)) (only parsing).
Abbreviation numbers := (Forall (λ s : Z * f32, f64_is_nan (snd s) = false)) (only parsing).

Definition argmax_step (best : Z * f32) (iv : Z * f32) : Z * f32 :=
  if f32_gt (snd iv) (snd best) then iv else best.
(** [.iter().enumerate()]. *)
Definition enumerate (l : list f32) : Scored := imap (λ i v, (Z.of_nat i, v)) l.
Definition argmax (logits : list f32) : Z :=
  wrap_u32 (fst (foldl argmax_step (0, S754_infinity true) (enumerate logits))).

(** The loop that looks for the first prefix whose probabilities reach [p]. *)
Fixpoint cutoff_loop (p : f32) (acc : f32) (i : nat) (probs : Scored) : option nat :=
  match probs with
  | [] => None
  | (_, prob) :: r =>
      let acc := f32_add acc prob in
      if f32_ge acc p then Some (S i) else cutoff_loop p acc (S i) r
  end.
(** [if s > 0.0 { w /= s }], for every weight. *)
Definition normalise (l : Scored) : Scored :=
  let s := f32_sum (snd <$> l) in
  if f32_gt s (S754_zero false) then (λ '(t, w), (t, f32_div w s)) <$> l else l.
Definition top_p_active (p : f32) : bool :=
  f32_le (S754_zero false) p && f32_gt (f32_of_Z 1) p.

Section sampling.
Context {Rng : Type}.
Variable exp : f32 → f32.
(** [l.sort_by(cmp)] and [l.select_nth_unstable_by(n, cmp)]: the reordered slice, or a panic. *)
Variable sort_by : (Z * f32 → Z * f32 → comparison) → Scored → option Scored.
Variable select_nth : nat → (Z * f32 → Z * f32 → comparison) → Scored → option Scored.
(** [WeightedIndex::new(&weights)], then [sample]; [None] is its error. *)
Variable weighted_index : list f32 → Rng → option (nat * Rng).

Definition softmax (scored : Scored) : Scored :=
  let max := foldl f32_max (S754_infinity true) (snd <$> scored) in
  normalise ((λ '(t, l), (t, exp (f32_sub l max))) <$> scored).

Definition scale (temperature : f32) (logits : list f32) : Scored :=
  imap (λ i l, (wrap_u32 (Z.of_nat i), f32_div l temperature)) logits.
Definition top_k_truncate (k : Z) (scored : Scored) : option Scored :=
  if (k <? Z.of_nat (length scored)) && (0 <? k)
  then take (Z.to_nat k) <$> select_nth (Z.to_nat k - 1) desc_cmp scored else Some scored.
Definition top_p_truncate (p : f32) (probs : Scored) : option Scored :=
  probs ← sort_by desc_cmp probs;
  Some (normalise (take (default (length probs) (cutoff_loop p (S754_zero false) 0 probs)) probs)).

Definition sample_next (logits : list f32) (params : SamplingParams) (rng : Rng) : option (Z * Rng) :=
  let temperature := default (f32_of_Z 1) (temperature params) in
  if f32_le temperature (S754_zero false) then Some (argmax logits, rng)
  else
    let scored := scale temperature logits in
    scored ← match top_k params with Some k => top_k_truncate k scored | None => Some scored end;
    let probs := softmax scored in
    probs ←
      match top_p params with
      | Some p => if top_p_active p then top_p_truncate p probs else Some probs
      | None => Some probs
      end;
    match weighted_index (snd <$> probs) rng with
    | Some (i, rng') => '(t, _) ← probs !! i; Some (t, rng')
    | None => Some (match probs with (t, _) :: _ => t | [] => argmax logits end, rng)
    end.

(** What the library functions promise: the two sorts, for a comparison that orders the
    slice; [exp] never exceeds one on the difference of a number and a larger one. *)
Class SamplingLaws : Prop := {
  sort_by_sorts cmp l : total_order_on cmp l →
    ∃ l', sort_by cmp l = Some l' ∧ l' ≡ₚ l ∧ ranked cmp l';
  select_nth_splits n cmp l : (n < length l)%nat → total_order_on cmp l →
    ∃ l', select_nth n cmp l = Some l' ∧ l' ≡ₚ l ∧
      ∀ x y, x ∈ take (S n) l' → y ∈ drop (S n) l' → cmp x y ≠ Gt;
  exp_finite x y : f32_finite x = true → f32_finite y = true → f32_gt x y = false →
    f32_finite (exp (f32_sub x y)) = true;
  weighted_index_range w r i r' : weighted_index w r = Some (i, r') → (i < length w)%nat
}.

(** ** Lemmas *)

Lemma normalise_fst l : fst <$> normalise l = fst <$> l.
Proof.
  unfold normalise. case_match; [|done]. rewrite <- list_fmap_compose.
  apply list_fmap_ext. by intros ? [??].
Qed.
Lemma softmax_fst l : fst <$> softmax l = fst <$> l.
Proof.
  unfold softmax. rewrite normalise_fst, <- list_fmap_compose. apply list_fmap_ext. by intros ? [??].
Qed.
Lemma cutoff_loop_spec p l : ∀ acc i,
  (match cutoff_loop p acc i l with Some c => i < c ∧ c ≤ i + length l | None => True end)%nat ∧
  ∀ n, (0 < n ≤ length l)%nat →
    (match cutoff_loop p acc i l with Some c => i + n < c | None => True end)%nat →
    f32_ge (foldl f32_add acc (snd <$> take n l)) p = false.
Proof.
  induction l as [|[t w] l IH]; intros acc i; cbn [cutoff_loop length].
  { split; [done|]. intros n Hn. lia. }
  destruct (f32_ge (f32_add acc w) p) eqn:E.
  { split; [lia|]. intros n Hn Hc. lia. }
  destruct (IH (f32_add acc w) (S i)) as [H1 H2]. split.
  { destruct (cutoff_loop _ _ _ l); lia. }
  intros [|[|n]] Hn Hc; [lia|done|]. cbn [take fmap list_fmap foldl snd] in *.
  apply (H2 (S n)); [lia|]. destruct (cutoff_loop _ _ _ l); [lia|done].
Qed.

Lemma gt_trans (a b c : f32) : f32_gt a b = true → f32_gt a c = false → f64_is_nan c = false →
  f32_gt c b = true.
Proof.
  unfold f32_gt. destruct (f64_cmp a b) as [[]|] eqn:Hab; try done. intros _ Hac Hc.
  apply f64_gt_flip in Hab as Hf. destruct Hf as (Hf & Ha & Hb).
  destruct (f64_cmp c b) as [[]|] eqn:Hcb; try done; exfalso.
  1,2: assert (f64_not_gt a b) as Hn by
    (apply (f64_not_gt_trans a c b); [done| |]; unfold f64_not_gt; [by destruct (f64_cmp a c) as [[]|]|by rewrite Hcb]);
    by apply Hn.
  unfold f64_cmp in *. destruct c, b; try done; try destruct s; try destruct s0; done.
Qed.

Lemma enumerate_snoc l x : enumerate (l ++ [x]) = enumerate l ++ [(Z.of_nat (length l), x)].
Proof. unfold enumerate. rewrite imap_app. cbn. by rewrite Nat.add_0_r. Qed.
(** The fold of [argmax]: the start, or the first element no other one exceeds. *)
Lemma argmax_fold l :
  let '(b, v) := foldl argmax_step (0, S754_infinity true) (enumerate l) in
  (∀ w, w ∈ l → f32_gt w v = false) ∧ f64_is_nan v = false ∧
  ((b = 0 ∧ v = S754_infinity true) ∨
   (0 ≤ b ∧ l !! Z.to_nat b = Some v ∧
    ∀ j w, l !! j = Some w → (j < Z.to_nat b)%nat → f32_ge w v = false)).
Proof.
  induction l as [|x l IH] using rev_ind; [cbn; set_solver|].
  rewrite enumerate_snoc, foldl_app. destruct (foldl _ _ (enumerate l)) as [b v].
  destruct IH as (Hmax & Hnan & Hb). cbn [foldl]. unfold argmax_step. cbn [snd].
  destruct (f32_gt x v) eqn:E.
  - assert (f64_is_nan x = false) as Hx by (by destruct x).
    split; [|split; [done|right]].
    + intros w [Hw| ->%list_elem_of_singleton]%elem_of_app.
      * destruct (f32_gt w x) eqn:Ew; [|done]. rewrite <- (Hmax w Hw). symmetry.
        apply (gt_trans x); [done| |by destruct w].
        unfold f32_gt in *. rewrite (f64_cmp_antisym w x). by destruct (f64_cmp w x) as [[]|].
      * unfold f32_gt. pose proof (f64_not_gt_refl x) as Hr. unfold f64_not_gt in Hr.
        by destruct (f64_cmp x x) as [[]|].
    + rewrite Nat2Z.id. split; [lia|]. split; [by rewrite lookup_app_r, Nat.sub_diag by lia|].
      intros j w Hj Hlt. rewrite lookup_app_l in Hj by done.
      apply list_elem_of_lookup_2 in Hj. specialize (Hmax w Hj).
      destruct (f32_ge w x) eqn:Eg; [|done]. rewrite <- Hmax. symmetry.
      apply (gt_trans x); [done| |].
      * unfold f32_gt, f32_ge in *. rewrite (f64_cmp_antisym w x).
        by destruct (f64_cmp w x) as [[]|].
      * unfold f32_ge in Eg. by destruct w.
  - split; [|split; [done|]].
    + intros w [Hw| ->%list_elem_of_singleton]%elem_of_app; [by apply Hmax|done].
    + destruct Hb as [Hb|(H0 & Hl & Hf)]; [by left|right]. split; [done|].
      apply lookup_lt_Some in Hl as Hlt. split; [by rewrite lookup_app_l|].
      intros j w Hj Hjb. apply (Hf j); [|done]. by rewrite lookup_app_l in Hj by lia.
Qed.

(** Greedy decoding: at a temperature of zero or below the sampler is
    deterministic, leaves the generator alone and returns the first position whose
    logit no other logit exceeds, NaN or infinite logits included. *)
Theorem sample_greedy (logits : list f32) (params : SamplingParams) (rng : Rng) :
  logits ≠ [] → Z.of_nat (length logits) ≤ 2 ^ 32 →
  f32_le (default (f32_of_Z 1) (temperature params)) (S754_zero false) = true →
  ∃ t v, sample_next logits params rng = Some (Z.of_nat t, rng) ∧ logits !! t = Some v ∧
    (∀ w, w ∈ logits → f32_gt w v = false) ∧
    (∀ j w, logits !! j = Some w → (j < t)%nat → f32_ge w v = false).
Proof.
  intros Hne Hlen Ht. unfold sample_next. rewrite Ht. unfold argmax.
  pose proof (argmax_fold logits) as Ha. destruct (foldl argmax_step _ _) as [b v]. cbn [fst].
  destruct Ha as (Hmax & _ & [[-> ->]|(H0 & Hl & Hf)]).
  - destruct logits as [|v l]; [done|]. exists 0%nat, v. split; [done|]. split; [done|].
    split; [|intros ??; lia]. intros w Hw. pose proof (Hmax w Hw). pose proof (Hmax v ltac:(left)).
    destruct v as [|[]| |]; destruct w as [|[]| |[]]; done.
  - exists (Z.to_nat b), v. apply lookup_lt_Some in Hl as Hlt.
    rewrite wrap_id by (unfold is_u; lia). by rewrite Z2Nat.id.
Qed.

Lemma scale_fst temp logits :
  Z.of_nat (length logits) ≤ 2 ^ 32 →
  scale temp logits = imap (λ i l, (Z.of_nat i, f32_div l temp)) logits.
Proof.
  intros Hlen. unfold scale. apply imap_ext. intros i x Hx%lookup_lt_Some. by rewrite wrap_id by (unfold is_u; lia).
Qed.
(** On numbers the comparison of the code is one a slice may be sorted with. *)
Lemma desc_cmp_not_gt x y :
  f64_is_nan (snd x) = false → f64_is_nan (snd y) = false →
  desc_cmp x y ≠ Gt ↔ f64_not_gt (snd y) (snd x).
Proof. unfold desc_cmp, f64_not_gt. destruct (f64_cmp _ _) as [[]|]; naive_solver. Qed.
Lemma desc_cmp_total l : numbers l → total_order_on desc_cmp l.
Proof.
  rewrite Forall_forall. intros Hl. split.
  - intros x y _ _. unfold desc_cmp. rewrite (f64_cmp_antisym (snd y) (snd x)).
    by destruct (f64_cmp _ _) as [[]|].
  - intros x y z Hx%Hl Hy%Hl Hz%Hl. rewrite !desc_cmp_not_gt by done. intros ??. by apply (f64_not_gt_trans _ (snd y)).
Qed.
(** The maximum of a non-empty slice of finite floats is finite and none exceeds it. *)
Lemma max_finite (l : list f32) acc :
  Forall (λ x, f32_finite x = true) l →
  f32_finite acc = true ∨ (acc = S754_infinity true ∧ l ≠ []) →
  let m := foldl f32_max acc l in
  f32_finite m = true ∧ f64_not_gt acc m ∧ ∀ x, x ∈ l → f64_not_gt x m.
Proof.
  intros Hl. revert acc. induction Hl as [|x l Hx Hl IH]; intros acc Hacc; cbn [foldl].
  { destruct Hacc as [Hacc|[_ ?]]; [|done]. split; [done|]. split; [apply f64_not_gt_refl|set_solver]. }
  destruct (f32_max_finite acc x Hx) as (Hf & Ha & Hm); [naive_solver|].
  destruct (IH (f32_max acc x) ltac:(by left)) as (H1 & H2 & H3). split; [done|].
  assert (f64_is_nan (f32_max acc x) = false) as Hn by (by destruct (f32_max acc x)).
  split; [by eapply f64_not_gt_trans|]. intros y [->|Hy]%elem_of_cons; [by eapply f64_not_gt_trans|by apply H3].
Qed.
Context {laws : SamplingLaws}.
(** The probabilities of finite scores are numbers. *)
Lemma softmax_numbers l : Forall (λ s, f32_finite (snd s) = true) l → numbers (softmax l).
Proof.
  intros Hl. destruct (decide (l = [])) as [->|Hne]; [by vm_compute|]. unfold softmax.
  destruct (max_finite (snd <$> l) (S754_infinity true)) as (Hm & _ & Hle).
  { by apply Forall_fmap. } { right. split; [done|]. by destruct l. }
  set (m := foldl f32_max _ _) in *. set (es := _ <$> l).
  assert (Forall (λ s, f32_finite (snd s) = true) es) as He.
  { apply Forall_fmap. rewrite Forall_forall in *. intros [t x] Hx. cbn. apply exp_finite; [exact (Hl _ Hx)|done|].
    specialize (Hle x ltac:(by apply (list_elem_of_fmap_2 snd) in Hx)). unfold f64_not_gt in Hle. unfold f32_gt.
    by destruct (f64_cmp x m) as [[]|]. }
  unfold normalise. destruct (f32_gt _ _) eqn:Es.
  - apply Forall_fmap. eapply Forall_impl; [exact He|]. intros [t e] Hf. by apply f32_div_number.
  - eapply Forall_impl; [exact He|]. intros [t e] Hf. cbn in *. by destruct e.
Qed.
Lemma top_k_spec k l :
  numbers l → ∃ l', top_k_truncate k l = Some l' ∧ (∀ x, x ∈ l' → x ∈ l) ∧ (l ≠ [] → l' ≠ []) ∧
    (0 < k < Z.of_nat (length l) →
     ∀ x, x ∈ l' → Z.of_nat (count_if (λ y, f32_gt (snd y) (snd x)) l) < k).
Proof.
  intros Hnan. unfold top_k_truncate. destruct (_ && _) eqn:E; bool_to_prop.
  2: { exists l. split; [done|]. split; [done|]. split; [done|]. intros Hk.
       rewrite (proj2 (Z.ltb_lt _ _)), (proj2 (Z.ltb_lt 0 k)) in E by lia. done. }
  destruct (select_nth_splits (Z.to_nat k - 1) desc_cmp l) as (sel & -> & Hp & Hs);
    [lia|by apply desc_cmp_total|]. replace (S (Z.to_nat k - 1)) with (Z.to_nat k) in Hs by lia.
  assert (length sel = length l) as Hl by (by rewrite Hp).
  eexists. split; [reflexivity|]. split_and!.
  - intros x (j & Hx & _)%elem_of_take. rewrite <- Hp. by eapply list_elem_of_lookup_2.
  - intros _ Hn. apply (f_equal length) in Hn. rewrite length_take in Hn. cbn in Hn. lia.
  - intros _ x Hx. rewrite <- (count_if_perm _ sel l Hp), <- (take_drop (Z.to_nat k) sel), count_if_app.
    rewrite (count_if_none _ (drop _ sel)).
    + enough (count_if (λ y, f32_gt (snd y) (snd x)) (take (Z.to_nat k) sel) <
              length (take (Z.to_nat k) sel))%nat by (rewrite length_take in *; lia).
      apply (count_if_lt _ _ x); [done|]. unfold f32_gt. pose proof (f64_not_gt_refl (snd x)) as Hr.
      unfold f64_not_gt in Hr. by destruct (f64_cmp (snd x) (snd x)) as [[]|].
    + intros y Hy. specialize (Hs x y Hx Hy). unfold desc_cmp in Hs. unfold f32_gt.
      destruct (f64_cmp (snd y) (snd x)) as [[]|]; done.
Qed.

(** The scores the softmax is taken of. *)
Definition shortlist (params : SamplingParams) (logits : list f32) : option Scored :=
  let scored := scale (default (f32_of_Z 1) (temperature params)) logits in
  match top_k params with Some k => top_k_truncate k scored | None => Some scored end.
(** Among the [k] best, if top-k applies. *)
Definition within_top_k (params : SamplingParams) (logits : list f32) (l : f32) : Prop :=
  let temp := default (f32_of_Z 1) (temperature params) in
  ∀ k, top_k params = Some k → 0 < k < Z.of_nat (length logits) →
    Z.of_nat (count_if (λ l', f32_gt (f32_div l' temp) (f32_div l temp)) logits) < k.
(** In the nucleus of the candidates, if top-p applies: in an order of decreasing probability
    no shorter non-empty prefix has reached [p]. *)
Definition in_nucleus (params : SamplingParams) (candidates : Scored) (t : Z) : Prop :=
  ∀ p, top_p params = Some p → top_p_active p = true →
    ∃ ordered i w, ordered ≡ₚ candidates ∧ ranked desc_cmp ordered ∧ ordered !! i = Some (t, w) ∧
      ∀ n, (0 < n ≤ i)%nat →
        f32_ge (foldl f32_add (S754_zero false) (snd <$> take n ordered)) p = false.
(** The scaled logits are finite numbers. *)
Definition drawable (params : SamplingParams) (logits : list f32) : Prop :=
  Forall (λ l, f32_finite (f32_div l (default (f32_of_Z 1) (temperature params))) = true) logits.

Lemma top_p_spec p probs :
  numbers probs →
  ∃ l, top_p_truncate p probs = Some l ∧ (probs ≠ [] → l ≠ []) ∧
    ∀ t w, (t, w) ∈ l → (∃ w', (t, w') ∈ probs) ∧
      ∃ ordered i w', ordered ≡ₚ probs ∧ ranked desc_cmp ordered ∧ ordered !! i = Some (t, w') ∧
        ∀ n, (0 < n ≤ i)%nat →
          f32_ge (foldl f32_add (S754_zero false) (snd <$> take n ordered)) p = false.
Proof.
  intros Hnum. unfold top_p_truncate.
  destruct (sort_by_sorts desc_cmp probs) as (o & -> & Hp & Hr); [by apply desc_cmp_total|].
  cbn [mbind option_bind]. eexists. split; [reflexivity|].
  destruct (cutoff_loop_spec p o (S754_zero false) 0) as [Hc H]. split.
  - intros Hne Hn. apply (f_equal (fmap fst)), (f_equal length) in Hn.
    rewrite normalise_fst, length_fmap, length_take in Hn. cbn in Hn.
    assert (length o = length probs) as Hl by (by rewrite Hp).
    assert (length probs ≠ 0%nat) by (by destruct probs). rewrite Hl in Hn.
    destruct (cutoff_loop _ _ _ _); cbn [from_option id] in Hn; unfold id in Hn; lia.
  - intros t w Hin. apply (list_elem_of_fmap_2 fst) in Hin. rewrite normalise_fst in Hin.
    apply list_elem_of_fmap in Hin as ([t' w'] & Ht & Hin). cbn in Ht. subst t'.
    apply list_elem_of_lookup in Hin as (i & [E Hlt]%lookup_take_Some).
    split; [exists w'; rewrite <- Hp; by eapply list_elem_of_lookup_2|].
    exists o, i, w'. split_and!; [done..|]. intros n Hn. apply lookup_lt_Some in E as Hi. apply H; [lia|].
    destruct (cutoff_loop _ _ _ _) as [c|]; cbn in Hlt; [lia|done].
Qed.
Lemma shortlist_spec params logits :
  logits ≠ [] → Z.of_nat (length logits) ≤ 2 ^ 32 → drawable params logits →
  ∃ sl, shortlist params logits = Some sl ∧ sl ≠ [] ∧ Forall (λ s, f32_finite (snd s) = true) sl ∧
    ∀ t, t ∈ sl.*1 → ∃ l, 0 ≤ t ∧ logits !! Z.to_nat t = Some l ∧ within_top_k params logits l.
Proof.
  intros Hne Hlen Hd. unfold shortlist, drawable, within_top_k in *. set (temp := default _ _) in *.
  set (sc := scale temp logits).
  assert (sc = imap (λ i l, (Z.of_nat i, f32_div l temp)) logits) as Hsc by by apply scale_fst.
  assert (Forall (λ s, f32_finite (snd s) = true) sc) as Hf.
  { rewrite Hsc. apply Forall_forall. intros y (j & x & -> & Hj)%elem_of_lookup_imap. cbn [snd].
    rewrite Forall_forall in Hd. by apply Hd, (list_elem_of_lookup_2 _ j). }
  assert (numbers sc) as Hn.
  { eapply Forall_impl; [exact Hf|]. intros [t x] Hx. cbn in *. by destruct x. }
  assert (∃ sl, (match top_k params with Some k => top_k_truncate k sc | None => Some sc end) = Some sl ∧
    (∀ x, x ∈ sl → x ∈ sc) ∧ (sc ≠ [] → sl ≠ []) ∧
    ∀ k, top_k params = Some k → 0 < k < Z.of_nat (length sc) →
      ∀ x, x ∈ sl → Z.of_nat (count_if (λ y, f32_gt (snd y) (snd x)) sc) < k) as (sl & -> & Hsub & H0 & Hk).
  { destruct (top_k params) as [k|]; [|by exists sc].
    destruct (top_k_spec k sc Hn) as (sl & ? & ? & ? & ?). exists sl. split_and!; [done..|]. by intros ? [= <-]. }
  exists sl. split; [done|]. split; [apply H0; rewrite Hsc; by destruct logits|].
  split; [rewrite Forall_forall in *; auto|].
  intros t ([t' s] & -> & Hin)%list_elem_of_fmap. cbn [fst]. pose proof (Hsub _ Hin) as Hin'.
  rewrite Hsc in Hin'. apply elem_of_lookup_imap in Hin' as (i & l & [= -> ->] & Hi).
  exists l. split; [lia|]. split; [by rewrite Nat2Z.id|]. intros k Hk' Hr.
  assert (length sc = length logits) as Hsl by (by rewrite Hsc, length_imap).
  specialize (Hk k Hk' ltac:(by rewrite Hsl) _ Hin). cbn [snd] in Hk. rewrite Hsc in Hk.
  assert (∀ f n, count_if (λ y, f (snd y)) (imap (λ i l, (Z.of_nat (n + i), f32_div l temp)) logits) =
    count_if (λ l', f (f32_div l' temp)) logits) as Hcount.
  { clear. intros f. induction logits as [|x r IH]; intros n; [done|]. cbn [imap count_if snd]. f_equal.
    rewrite <- (IH (S n)). f_equal. apply imap_ext. intros j y _. cbn. by rewrite Nat.add_succ_r. }
  rewrite <- (Hcount (λ y, f32_gt y (f32_div l temp)) 0%nat). exact Hk.
Qed.

(** [C35] What a draw can return: at a positive temperature, with logits that stay finite over it,
    no comparison of the pipeline meets a NaN, so both sorts may be called; the sampler answers
    a token of the vocabulary, never an index out of range; with top-k it is one that fewer
    than [k] others outscore; with top-p it lies in the nucleus, no strictly shorter non-empty
    prefix of the candidates in order of probability having reached [p]. *)
Theorem sample_support (logits : list f32) (params : SamplingParams) (rng : Rng) :
  logits ≠ [] → Z.of_nat (length logits) ≤ 2 ^ 32 → drawable params logits →
  f32_le (default (f32_of_Z 1) (temperature params)) (S754_zero false) = false →
  ∃ sl t l rng', shortlist params logits = Some sl ∧
    sample_next logits params rng = Some (t, rng') ∧
    0 ≤ t ∧ logits !! Z.to_nat t = Some l ∧ t ∈ sl.*1 ∧
    within_top_k params logits l ∧ in_nucleus params (softmax sl) t.
Proof.
  intros Hne Hlen Hd Ht. destruct (shortlist_spec params logits Hne Hlen Hd) as (sl & Hsl & Hne' & Hfin & Hin).
  unfold sample_next. rewrite Ht. change (match top_k params with Some _ => _ | None => _ end)
    with (shortlist params logits). rewrite Hsl. cbn [mbind option_bind].
  pose proof (softmax_numbers sl Hfin) as Hnum.
  assert (softmax sl ≠ []) as Hsm.
  { intros E. apply (f_equal (fmap fst)) in E. rewrite softmax_fst in E. by apply fmap_nil_inv in E. }
  assert (∃ probs, match top_p params with
      | Some p => if top_p_active p then top_p_truncate p (softmax sl) else Some (softmax sl)
      | None => Some (softmax sl) end = Some probs ∧ probs ≠ [] ∧
    ∀ t w, (t, w) ∈ probs → t ∈ sl.*1 ∧ in_nucleus params (softmax sl) t) as (probs & -> & Hp0 & Hp).
  { assert (∀ t w, (t, w) ∈ softmax sl → t ∈ sl.*1) as Hsub.
    { intros t w Hx. apply (list_elem_of_fmap_2 fst) in Hx. by rewrite softmax_fst in Hx. }
    unfold in_nucleus. destruct (top_p params) as [p|]; [destruct (top_p_active p) eqn:Ep|].
    - destruct (top_p_spec p _ Hnum) as (l & -> & Hl & Hq). exists l. split_and!; [done|auto|].
      intros t w Hx. destruct (Hq t w Hx) as [[w' Hw] H]. split; [by eapply Hsub|]. by intros ? [= <-] _.
    - exists (softmax sl). split_and!; [done..|]. intros t w Hx. split; [by eapply Hsub|congruence].
    - exists (softmax sl). split_and!; [done..|]. intros t w Hx. split; [by eapply Hsub|done]. }
  cbn [mbind option_bind].
  assert (∀ t w (r : Rng), (t, w) ∈ probs → ∃ sl' t' l rng', Some sl = Some sl' ∧ Some (t, r) = Some (t', rng') ∧
    0 ≤ t' ∧ logits !! Z.to_nat t' = Some l ∧ t' ∈ sl'.*1 ∧ within_top_k params logits l ∧
    in_nucleus params (softmax sl') t') as Hfinish.
  { intros t w r Hx. destruct (Hp t w Hx) as [Hs Hn]. destruct (Hin t Hs) as (l & ? & ? & ?).
    by exists sl, t, l, r. }
  destruct (weighted_index (snd <$> probs) rng) as [[i rng']|] eqn:Ew.
  - apply weighted_index_range in Ew. rewrite length_fmap in Ew.
    destruct (lookup_lt_is_Some_2 probs i Ew) as [[t w] Hi]. rewrite Hi. cbn [mbind option_bind].
    apply (Hfinish t w). by eapply list_elem_of_lookup_2.
  - destruct probs as [|[t w] probs]; [done|]. apply (Hfinish t w). by left.
Qed.

(** Greedy, or from finite scores, the sampler does not panic. *)
Definition samplable (params : SamplingParams) (logits : list f32) : Prop :=
  f32_le (default (f32_of_Z 1) (temperature params)) (S754_zero false) = true ∨ drawable params logits.
Lemma sample_next_total logits params rng : samplable params logits → is_Some (sample_next logits params rng).
Proof.
  unfold samplable, sample_next, drawable. intros Hd. destruct (f32_le _ _); [done|].
  destruct Hd as [?|Hd]; [done|]. set (temp := default _ _) in *. set (sc := scale temp logits).
  assert (Forall (λ s, f32_finite (snd s) = true) sc) as Hf.
  { apply Forall_forall. intros y (j & x & -> & Hj)%elem_of_lookup_imap. cbn [snd].
    rewrite Forall_forall in Hd. by apply Hd, (list_elem_of_lookup_2 _ j). }
  assert (numbers sc) as Hn.
  { eapply Forall_impl; [exact Hf|]. intros [t x] Hx. cbn in *. by destruct x. }
  assert (∃ sl, (match top_k params with Some k => top_k_truncate k sc | None => Some sc end) = Some sl ∧
    Forall (λ s, f32_finite (snd s) = true) sl) as (sl & -> & Hsl).
  { destruct (top_k params) as [k|]; [|by exists sc].
    destruct (top_k_spec k sc Hn) as (sl & ? & Hsub & _). exists sl. split; [done|].
    rewrite Forall_forall in *. auto. }
  cbn [mbind option_bind].
  assert (∃ probs, match top_p params with
      | Some p => if top_p_active p then top_p_truncate p (softmax sl) else Some (softmax sl)
      | None => Some (softmax sl) end = Some probs) as (probs & ->).
  { destruct (top_p params) as [p|]; [destruct (top_p_active p)|]; [|by eexists..].
    destruct (top_p_spec p _ (softmax_numbers sl Hsl)) as (l & -> & _). by eexists. }
  cbn [mbind option_bind].
  destruct (weighted_index (snd <$> probs) rng) as [[i rng']|] eqn:E; [|done].
  apply weighted_index_range in E. rewrite length_fmap in E.
  by destruct (lookup_lt_is_Some_2 probs i E) as [[t w] ->].
Qed.

End sampling.

(** ** A concrete sampler *)

(** Insertion, by any comparison. *)
Section insertion.
Context {A : Type} (cmp : A → A → comparison).
Fixpoint insert_by (x : A) (l : list A) : list A :=
  match l with
  | [] => [x]
  | y :: r => match cmp x y with Lt => x :: y :: r | _ => y :: insert_by x r end
  end.
Definition insertion_sort (l : list A) : list A := foldl (λ acc x, insert_by x acc) [] l.
Lemma insert_by_perm x l : insert_by x l ≡ₚ x :: l.
Proof.
  induction l as [|y l IH]; [done|]. cbn [insert_by]. destruct (cmp x y); [|done|];
    rewrite IH; apply Permutation_swap.
Qed.
Lemma insert_by_ranked x l : total_order_on cmp (x :: l) → ranked cmp l → ranked cmp (insert_by x l).
Proof.
  intros [Hanti Htrans] Hs. induction Hs as [|y l Hs IH Hy]; cbn [insert_by]; [by repeat constructor|].
  destruct (cmp x y) eqn:E.
  2: { constructor; [by constructor|]. constructor; [by rewrite E|].
    rewrite Forall_forall in *. intros z Hz. apply (Htrans x y z); [set_solver..|by rewrite E|by apply Hy]. }
  all: constructor; [apply IH; [intros ????; apply Hanti; set_solver|intros ??????; apply Htrans; set_solver]|];
    rewrite insert_by_perm; constructor; [|done];
    rewrite (Hanti x y) by set_solver; by rewrite E.
Qed.
Lemma insertion_sort_spec l :
  insertion_sort l ≡ₚ l ∧ (total_order_on cmp l → ranked cmp (insertion_sort l)).
Proof.
  assert (∀ acc, foldl (λ acc x, insert_by x acc) acc l ≡ₚ acc ++ l ∧
    (total_order_on cmp (acc ++ l) → ranked cmp acc → ranked cmp (foldl (λ acc x, insert_by x acc) acc l))) as H.
  { induction l as [|x l IH]; intros acc; cbn [foldl]; [by rewrite app_nil_r|].
    destruct (IH (insert_by x acc)) as [H1 H2].
    assert (insert_by x acc ++ l ≡ₚ acc ++ x :: l) as Hp.
    { rewrite insert_by_perm. apply Permutation_middle. }
    split; [by rewrite H1|]. intros [Ha Ht] Hs. apply H2.
    - split; [intros ??; rewrite Hp; apply Ha|intros ???; rewrite Hp; apply Ht].
    - apply insert_by_ranked; [|done].
      split; [intros ????; apply Ha; set_solver|intros ??????; apply Ht; set_solver]. }
  destruct (H []) as [H1 H2]. split; [done|]. intros Ht. apply H2; [done|constructor].
Qed.
End insertion.
(** Sorting as the selection, a step function as [exp]; the generator counts draws. *)
Definition demo_exp (x : f32) : f32 :=
  if f32_ge x (S754_zero false) then f32_of_Z 1
  else if f32_ge x (f32_of_Z (-2)) then f32_lit 1 4 else f32_lit 1 100.
Definition demo_sort (cmp : Z * f32 → Z * f32 → comparison) (l : Scored) : option Scored :=
  Some (insertion_sort cmp l).
Definition demo_select (n : nat) (cmp : Z * f32 → Z * f32 → comparison) (l : Scored) : option Scored :=
  if (n <? length l)%nat then Some (insertion_sort cmp l) else None.
Definition demo_weighted (w : list f32) (r : nat) : option (nat * nat) :=
  match w with [] => None | _ => Some ((r mod length w)%nat, S r) end.
#[global] Instance demo_laws : SamplingLaws demo_exp demo_sort demo_select demo_weighted.
Proof.
  split.
  - intros cmp l Hl. destruct (insertion_sort_spec cmp l). exists (insertion_sort cmp l). auto.
  - intros n cmp l Hn Hl. destruct (insertion_sort_spec cmp l) as [Hp Hs]. exists (insertion_sort cmp l).
    unfold demo_select. rewrite (proj2 (Nat.ltb_lt _ _) Hn). split_and!; [done..|]. intros x y Hx Hy.
    specialize (Hs Hl). rewrite <- (take_drop (S n) (insertion_sort cmp l)) in Hs.
    by eapply (StronglySorted_app_1_elem_of (λ x y, cmp x y ≠ Gt)).
  - intros x y _ _ _. unfold demo_exp. by repeat case_match.
  - intros w r i r'. unfold demo_weighted. destruct w as [|x w]; [done|]. intros [= <- _].
    exact (Nat.mod_upper_bound r (S (length w)) (Nat.neq_succ_0 _)).
Qed.

Definition demo_params (t p : option f32) (k : option Z) : SamplingParams :=
  {| temperature := t; top_p := p; top_k := k; max_tokens := None; stop := [];
     presence_penalty := None; frequency_penalty := None; seed := None |}.
Definition demo_logits : list f32 := f32_of_Z <$> [1; 5; 2; 0; 5].
Lemma sample_greedy_witness :
  ∃ t v, sample_next demo_exp demo_sort demo_select demo_weighted demo_logits
           (demo_params (Some (S754_zero false)) None None) 0%nat = Some (Z.of_nat t, 0%nat) ∧
    demo_logits !! t = Some v ∧ (∀ w, w ∈ demo_logits → f32_gt w v = false) ∧
    (∀ j w, demo_logits !! j = Some w → (j < t)%nat → f32_ge w v = false).
Proof.
  apply sample_greedy; [discriminate| |vm_compute; done].
  change (Z.of_nat (length demo_logits)) with 5. lia.
Defined.
Lemma sample_support_witness :
  let params := demo_params None (Some (f32_lit 9 10)) (Some 3) in
  ∃ sl t l rng', shortlist demo_select params demo_logits = Some sl ∧
    sample_next demo_exp demo_sort demo_select demo_weighted demo_logits params 1%nat = Some (t, rng') ∧
    0 ≤ t ∧ demo_logits !! Z.to_nat t = Some l ∧ t ∈ sl.*1 ∧
    within_top_k params demo_logits l ∧ in_nucleus params (softmax demo_exp sl) t.
Proof.
  apply (sample_support demo_exp demo_sort demo_select demo_weighted (laws:=demo_laws));
    [discriminate| |by repeat constructor|vm_compute; done].
  change (Z.of_nat (length demo_logits)) with 5. lia.
Defined.
(** The greedy choice, and the two best tokens under top-k of 2. *)
Example sample_examples :
  sample_next demo_exp demo_sort demo_select demo_weighted demo_logits
    (demo_params (Some (f32_of_Z (-1))) None None) 7%nat = Some (1, 7%nat) ∧
  sample_next demo_exp demo_sort demo_select demo_weighted demo_logits (demo_params None None (Some 2)) 0%nat
    = Some (1, 1%nat) ∧
  sample_next demo_exp demo_sort demo_select demo_weighted demo_logits (demo_params None None (Some 2)) 1%nat
    = Some (4, 2%nat).
Proof. vm_compute. done. Qed.
