(* ===== verification/OrtGenerate.v ===== *)
(** * Autoregressive generation on ONNX Runtime

    Models [inference-runtime-ort/src]: [error.rs], [topology.rs] (what the model's
    inputs and outputs are), [tokenizer.rs] (the chat template), [generate.rs] (the
    KV-cached decoding loop, its inputs, streaming text and stop conditions) and
    [runner.rs].  The ONNX session, the tensor constructor, the tokenizer and the
    regular expressions are other crates: parameters.  What the loop does is a list of
    events: a run of the session with its inputs, or a chunk sent; [None] is a panic.
    The loop's fuel is the number of tokens it may generate. *)
From Stdlib Require Import SpecFloat.
From S2P Require Import Prelude F64 Runtime Tokens Text Audio Runner Classify OrtSampling.

(** ** error.rs *)

Definition map_ort_err (msg : string) : InferenceError :=
  let lower := to_ascii_lowercase msg in
  if contains "invalid" lower || contains "shape" lower || contains "missing" lower ||
     contains "expected" lower
  then BadRequest ("ort: " +:+ msg) else Internal ("ort: " +:+ msg).
Definition ort_internal (prefix e : string) : InferenceError :=
  Internal ("ort: " +:+ prefix +:+ ": " +:+ e).

(** ** topology.rs *)

Inductive ModelKind : Type := Mk_TextGenWithKv | Mk_TextGenStateless | Mk_EncoderOnly | Mk_Unknown.
#[global] Instance ModelKind_eq_dec : EqDecision ModelKind.
Proof. solve_decision. Defined.
Record KvLayer : Type := {
  past_key_input : string; past_value_input : string;
  present_key_output : string; present_value_output : string
}.

Definition eq_ignore_ascii_case (a b : string) : bool :=
  bool_decide (to_ascii_lowercase a = to_ascii_lowercase b).
Fixpoint pick_first (haystack needles : list string) : option string :=
  match needles with
  | [] => None
  | n :: r =>
      match find (λ h, eq_ignore_ascii_case h n) haystack with
      | Some found => Some found
      | None => pick_first haystack r
      end
  end.

(** A [BTreeMap<u32, (Option<String>, Option<String>)>] in key order. *)
Abbreviation LayerMap := (list (Z * (option string * option string))).
Fixpoint entry_or_default (k : Z) (f : option string * option string → option string * option string)
    (m : LayerMap) : LayerMap :=
  match m with
  | [] => [(k, f (None, None))]
  | (k', v) :: r =>
      if k <? k' then (k, f (None, None)) :: m
      else if k =? k' then (k', f v) :: r
      else (k', v) :: entry_or_default k f r
  end.
Fixpoint layer_get (k : Z) (m : LayerMap) : option (option string * option string) :=
  match m with [] => None | (k', v) :: r => if k =? k' then Some v else layer_get k r end.

(** [c[1].parse::<u32>().unwrap_or(0)]. *)
Definition layer_index (s : string) : Z :=
  match parse_u64 s with Some n => if n <=? U32_MAX then n else 0 | None => 0 end.
(** One name, whose captures are the layer's digits and [key] or [value]. *)
Definition by_layer_step (re : string → option (string * string)) (m : LayerMap) (name : string) : LayerMap :=
  match re name with
  | None => m
  | Some (digits, what) =>
      entry_or_default (layer_index digits)
        (λ '(k, v), if decide (what = "key") then (Some name, v)
                    else if decide (what = "value") then (k, Some name) else (k, v)) m
  end.
Definition pair_kv_layers (inputs outputs : list string)
    (past_re present_re : string → option (string * string)) : list KvLayer :=
  let past_by_layer := foldl (by_layer_step past_re) [] inputs in
  let present_by_layer := foldl (by_layer_step present_re) [] outputs in
  omap (λ '(idx, (pk, pv)),
    '(sk, sv) ← layer_get idx present_by_layer;
    pk ← pk; pv ← pv; sk ← sk; sv ← sv;
    Some {| past_key_input := pk; past_value_input := pv;
            present_key_output := sk; present_value_output := sv |}) past_by_layer.

Section probe.
Context {ElementType : Type}.
Record Topology : Type := {
  tp_kind : ModelKind;
  input_ids_name : option string;
  attention_mask_name : option string;
  position_ids_name : option string;
  logits_name : option string;
  logits_dtype : option ElementType;
  kv_layers : list KvLayer;
  all_input_names : list string;
  all_output_names : list string
}.
(** [ort::value::ValueType]: a tensor of a type and a shape, or something else. *)
Inductive ValueType : Type := VT_Tensor (ty : ElementType) (shape : list Z) | VT_Other.
(** The names and types a session declares. *)
Abbreviation Declared := (list (string * ValueType)).
Variables past_re present_re : string → option (string * string).

Definition probe (inputs_d outputs_d : Declared) : Topology :=
  let inputs := fst <$> inputs_d in
  let outputs := fst <$> outputs_d in
  let input_ids := pick_first inputs ["input_ids"; "inputs"; "tokens"] in
  let logits := pick_first outputs ["logits"; "output"; "last_hidden_state"] in
  let layers := pair_kv_layers inputs outputs past_re present_re in {|
    tp_kind :=
      match layers with
      | _ :: _ => Mk_TextGenWithKv
      | [] =>
          if negb (bool_decide (input_ids = None)) && bool_decide (logits = Some "logits")
          then Mk_TextGenStateless
          else if negb (bool_decide (input_ids = None)) && negb (bool_decide (logits = None))
          then Mk_EncoderOnly else Mk_Unknown
      end;
    input_ids_name := input_ids;
    attention_mask_name := pick_first inputs ["attention_mask"; "mask"];
    position_ids_name := pick_first inputs ["position_ids"; "positions"];
    logits_name := logits;
    logits_dtype :=
      name ← logits; o ← find (λ o, bool_decide (fst o = name)) outputs_d;
      match snd o with VT_Tensor ty _ => Some ty | VT_Other => None end;
    kv_layers := layers;
    all_input_names := inputs;
    all_output_names := outputs
  |}.
End probe.
Arguments Topology : clear implicits.
Arguments ValueType : clear implicits.

Definition debug_kind (k : ModelKind) : string :=
  match k with
  | Mk_TextGenWithKv => "TextGenWithKv" | Mk_TextGenStateless => "TextGenStateless"
  | Mk_EncoderOnly => "EncoderOnly" | Mk_Unknown => "Unknown"
  end.
Definition debug_strings (l : list string) : string := "[" +:+ join ", " (debug_str <$> l) +:+ "]".

(** ** tokenizer.rs: the chat template *)

Definition render_chat (messages : list Message) : InferenceResult string :=
  match messages with
  | [] => Err (BadRequest "ort: empty messages list")
  | _ => Ok (foldl (λ out m, out +:+ render_message m) "" messages +:+ "<|assistant|>" +:+ nl)
  end.

(** ** Streaming text *)

(** U+FFFD in UTF-8. *)
Definition replacement_char : string :=
  String (ascii_of_N 239) (String (ascii_of_N 191) (String (ascii_of_N 189) EmptyString)).
Fixpoint strip_prefix (p s : string) : option string :=
  match p, s with
  | EmptyString, _ => Some s
  | String a p', String b s' => if decide (a = b) then strip_prefix p' s' else None
  | String _ _, EmptyString => None
  end.
Fixpoint ends_with (suffix s : string) : bool :=
  bool_decide (s = suffix) || match s with EmptyString => false | String _ r => ends_with suffix r end.
Definition decode_delta (prev full : string) : string * bool :=
  match strip_prefix prev full with
  | Some suffix => if ends_with replacement_char suffix then ("", false) else (suffix, true)
  | None => (full, true)
  end.
(** The text still owed when the loop ends. *)
Definition final_tail (prev full : string) : string :=
  if (String.length prev <? String.length full)%nat then default "" (strip_prefix prev full) else "".

(** ** generate.rs *)

Inductive Tensor : Type := T_i64 (shape data : list Z) | T_f32 (shape : list Z) (data : list f32).
(** [outputs.get(name)], then [try_extract_tensor::<f32>()]: its error text, or the
    shape and the data. *)
Abbreviation Outputs := (string → option (result string (list Z * list f32))).
Abbreviation Inputs := (list (string * Tensor)).
Abbreviation KvCache := (list (list f32 * list f32)).

Section generate.
Context {Json ElementType Session Rng : Type} `{!EqDecision ElementType}.
Abbreviation Chunk := (TokenChunk Json).
(** [TensorElementType::Float32] and its derived [Debug]. *)
Variables (Float32 : ElementType) (debug_type : option ElementType → string).
(** [Tensor::from_array]: the text of its error, if it refuses the shape. *)
Variable from_array_error : Tensor → option string.
(** [session.run]. *)
Variable session_run : Session → Inputs → Session * result string Outputs.
(** The tokenizer. *)
Variables (encode : string → result string (list Z)) (decode : list Z → result string string)
  (token_to_id : string → option Z).
(** What [sample_next] takes, and [rng_from]. *)
Variables (exp : f32 → f32)
  (sort_by : (Z * f32 → Z * f32 → comparison) → list (Z * f32) → option (list (Z * f32)))
  (select_nth : nat → (Z * f32 → Z * f32 → comparison) → list (Z * f32) → option (list (Z * f32)))
  (weighted_index : list f32 → Rng → option (nat * Rng)).
Variable rng_from : option Z → Rng.
(** Whether the [n]-th send finds the receiver still there. *)
Variable alive : nat → bool.

Inductive GenEvent : Type :=
  | Gv_Run (inputs : Inputs)
  | Gv_Send (item : InferenceResult Chunk).
Definition sends (tr : list GenEvent) : list (InferenceResult Chunk) :=
  omap (λ e, match e with Gv_Send i => Some i | Gv_Run _ => None end) tr.

Abbreviation sample := (sample_next exp sort_by select_nth weighted_index).

Definition from_array (t : Tensor) : InferenceResult Tensor :=
  match from_array_error t with None => Ok t | Some e => Err (map_ort_err e) end.

(** [run_with_inputs]: names paired with tensors, in the order the code pushes them. *)
Definition run_inputs (topo : Topology ElementType) (input_ids : Tensor)
    (attention_mask position_ids : option Tensor) (kv_tensors : Inputs) : Inputs :=
  [(default "input_ids" (input_ids_name topo), input_ids)] ++
  match attention_mask_name topo, attention_mask with Some n, Some t => [(n, t)] | _, _ => [] end ++
  match position_ids_name topo, position_ids with Some n, Some t => [(n, t)] | _, _ => [] end ++
  kv_tensors.

Record GenState : Type := {
  g_session : Session;
  g_rng : Rng;
  all_ids : list Z;
  prev_full_decoded : string;
  g_tokens : Z;
  past_kv : KvCache;
  past_len : Z;
  is_prefill : bool;
  g_trace : list GenEvent
}.
(** How one round of the loop ends. *)
Inductive Flow : Type :=
  | Continue (g : GenState)
  | Break (g : GenState) (finish : option FinishReason)
  | Return (g : GenState) (r : InferenceResult unit).

Definition chunk_of (request_id text : string) (u : option TokenUsage) (fin : option FinishReason) : Chunk :=
  {| c_request_id := request_id; text_delta := text; tool_call_delta := None; usage := u;
     finish_reason := fin |}.

Section run.
Context (topo : Topology ElementType) (request_id : string) (sampling : SamplingParams)
  (prompt_ids : list Z) (kv_heads head_dim : Z) (max_new : Z) (eos_id : option Z).

Definition kv_input (past : Z) (layer : KvLayer) (kv : list f32 * list f32) : InferenceResult Inputs :=
  let shape := [1; kv_heads; past; head_dim] in
  let? k := from_array (T_f32 shape (fst kv)) in
  let? v := from_array (T_f32 shape (snd kv)) in
  Ok [(past_key_input layer, k); (past_value_input layer, v)].
Fixpoint kv_inputs (past : Z) (layers : list KvLayer) (kv : KvCache) : InferenceResult Inputs :=
  match layers, kv with
  | layer :: layers', b :: kv' =>
      let? i := kv_input past layer b in
      let? rest := kv_inputs past layers' kv' in
      Ok (i ++ rest)
  | _, _ => Ok []
  end.
Definition opt_tensor (name : option string) (t : Tensor) : InferenceResult (option Tensor) :=
  match name with None => Ok None | Some _ => let? t := from_array t in Ok (Some t) end.
(** The tensors of one round. *)
Definition round_inputs (cur_input : list Z) (past : Z) (kv : KvCache) : InferenceResult Inputs :=
  let cur_len := Z.of_nat (length cur_input) in
  let total := past + cur_len in
  let? input_ids := from_array (T_i64 [1; cur_len] cur_input) in
  let? mask := opt_tensor (attention_mask_name topo)
                 (T_i64 [1; total] (repeat 1 (Z.to_nat total))) in
  let? positions := opt_tensor (position_ids_name topo)
                      (T_i64 [1; cur_len] ((λ i, past + Z.of_nat i) <$> seq 0 (length cur_input))) in
  let? kvt := kv_inputs past (kv_layers topo) kv in
  Ok (run_inputs topo input_ids mask positions kvt).

Definition get_output (outputs : Outputs) (name : string) : InferenceResult (list Z * list f32) :=
  match outputs name with
  | None => Err (Internal ("ort: missing output '" +:+ name +:+ "'"))
  | Some (Err e) => Err (map_ort_err e)
  | Some (Ok x) => Ok x
  end.
(** [&logits_data[last_offset..last_offset + vocab]] on [usize]. *)
Definition last_row (shape : list Z) (data : list f32) : option (list f32) :=
  v ← shape !! (length shape - 1)%nat; s ← shape !! (length shape - 2)%nat;
  let vocab := wrap_u64 v in
  let offset := wrap_u64 (wrap_u64 (wrap_u64 s - 1) * vocab) in
  let stop := wrap_u64 (offset + vocab) in
  if (offset <=? stop) && (stop <=? Z.of_nat (length data))
  then Some (take (Z.to_nat (stop - offset)) (drop (Z.to_nat offset) data)) else None.
Fixpoint present_kv (outputs : Outputs) (layers : list KvLayer) : InferenceResult KvCache :=
  match layers with
  | [] => Ok []
  | layer :: r =>
      let? k := get_output outputs (present_key_output layer) in
      let? v := get_output outputs (present_value_output layer) in
      let? rest := present_kv outputs r in
      Ok ((snd k, snd v) :: rest)
  end.

Definition send_chunk (g : GenState) (item : InferenceResult Chunk) : GenState * bool :=
  ({| g_session := g_session g; g_rng := g_rng g; all_ids := all_ids g;
      prev_full_decoded := prev_full_decoded g; g_tokens := g_tokens g;
      past_kv := past_kv g; past_len := past_len g; is_prefill := is_prefill g;
      g_trace := g_trace g ++ [Gv_Send item] |}, alive (length (sends (g_trace g)))).
Definition ran (g : GenState) (session : Session) (inputs : Inputs) : GenState := {|
  g_session := session; g_rng := g_rng g; all_ids := all_ids g;
  prev_full_decoded := prev_full_decoded g; g_tokens := g_tokens g;
  past_kv := past_kv g; past_len := past_len g; is_prefill := is_prefill g;
  g_trace := g_trace g ++ [Gv_Run inputs]
|}.
Definition set_prev (g : GenState) (s : string) : GenState := {|
  g_session := g_session g; g_rng := g_rng g; all_ids := all_ids g; prev_full_decoded := s;
  g_tokens := g_tokens g; past_kv := past_kv g; past_len := past_len g;
  is_prefill := is_prefill g; g_trace := g_trace g
|}.
Definition generated (g : GenState) : list Z := drop (length prompt_ids) (all_ids g).

(** Why the loop stops after a token, if it does. *)
Definition stop_reason (next_id tokens : Z) (full_decoded : string) : option FinishReason :=
  if bool_decide (Some next_id = eos_id) then Some Fin_Stop
  else if max_new <=? tokens then Some Fin_Length
  else if existsb (λ s, contains s full_decoded) (stop sampling) then Some Fin_Stop
  else None.

(** From the sampled token on: bookkeeping, streaming, stop conditions. *)
Definition accept_token (g : GenState) (next_id : Z) (rng : Rng) (kv : KvCache) (cur_len : Z) : Flow :=
  let g1 := {|
    g_session := g_session g; g_rng := rng; all_ids := all_ids g ++ [next_id];
    prev_full_decoded := prev_full_decoded g; g_tokens := wrap_u32 (g_tokens g + 1);
    past_kv := kv; past_len := past_len g + cur_len; is_prefill := false; g_trace := g_trace g |} in
  match decode (generated g1) with
  | Err e => Return g1 (Err (ort_internal "tokenizer.decode" e))
  | Ok full =>
      let '(delta, advance) := decode_delta (prev_full_decoded g1) full in
      let '(g2, ok) :=
        if is_empty_str delta then (g1, true)
        else send_chunk g1 (Ok (chunk_of request_id delta None None)) in
      if negb ok then Return g2 (Ok ())
      else
        let g3 := if advance then set_prev g2 full else g2 in
        match stop_reason next_id (g_tokens g3) full with
        | Some fin => Break g3 (Some fin)
        | None => Continue g3
        end
  end.

(** One round of [loop]. *)
Definition gen_step (g : GenState) : option Flow :=
  cur ← (if is_prefill g then Some prompt_ids else x ← list.last (all_ids g); Some [x]);
  match round_inputs cur (past_len g) (past_kv g) with
  | Err e => Some (Return g (Err e))
  | Ok inputs =>
      let '(session, res) := session_run (g_session g) inputs in
      let g := ran g session inputs in
      match res with
      | Err e => Some (Return g (Err (map_ort_err e)))
      | Ok outputs =>
          name ← logits_name topo;
          match get_output outputs name with
          | Err e => Some (Return g (Err e))
          | Ok (shape, data) =>
              if (length shape <? 3)%nat then
                Some (Return g (Err (Internal ("ort: logits has rank " +:+ pretty (Z.of_nat (length shape)) +:+
                                               ", expected 3 ([batch, seq, vocab])"))))
              else
                row ← last_row shape data;
                '(next_id, rng) ← sample row sampling (g_rng g);
                match present_kv outputs (kv_layers topo) with
                | Err e => Some (Return g (Err e))
                | Ok kv => Some (accept_token g next_id rng kv (Z.of_nat (length cur)))
                end
          end
      end
  end.

(** After the loop: the last chunk, with the usage. *)
Definition final_flush (g : GenState) (finish : option FinishReason) : GenState * InferenceResult unit :=
  match decode (generated g) with
  | Err e => (g, Err (ort_internal "tokenizer.decode" e))
  | Ok full =>
      let u := {| input_tokens := wrap_u32 (Z.of_nat (length prompt_ids));
                  output_tokens := g_tokens g; reasoning_tokens := 0; cached_tokens := 0 |} in
      let '(g', _) := send_chunk g (Ok (chunk_of request_id (final_tail (prev_full_decoded g) full) (Some u)
                        (match finish with Some f => Some f | None => Some Fin_Stop end))) in
      (g', Ok ())
  end.

Fixpoint gen_loop (fuel : nat) (g : GenState) : option (GenState * InferenceResult unit) :=
  match fuel with
  | O => None
  | S fuel' =>
      flow ← gen_step g;
      match flow with
      | Continue g' => gen_loop fuel' g'
      | Break g' fin => Some (final_flush g' fin)
      | Return g' r => Some (g', r)
      end
  end.
Definition gen_fuel : nat := Nat.max 1 (Z.to_nat max_new).
Definition gen_init (session : Session) (rng : Rng) : GenState := {|
  g_session := session; g_rng := rng; all_ids := prompt_ids; prev_full_decoded := "";
  g_tokens := 0; past_kv := (λ _, ([], [])) <$> kv_layers topo; past_len := 0;
  is_prefill := true; g_trace := []
|}.
Definition run_loop (session : Session) (rng : Rng) : option (GenState * InferenceResult unit) :=
  if bool_decide (logits_dtype topo = Some Float32) then gen_loop gen_fuel (gen_init session rng)
  else Some (gen_init session rng,
    Err (BadRequest ("ort: chat-style execute() only supports f32 logits in this build (probed: " +:+
      debug_type (logits_dtype topo) +:+ "). Re-export with FP32 logits or use infer()."))).
End run.

(** ** [run_generation] *)

Definition infer_kv_dims (topo : Topology ElementType) (declared : list (string * ValueType ElementType)) :
  InferenceResult (Z * Z) :=
  match kv_layers topo with
  | [] => Err (Internal "ort: kv_layers empty after probe — bug in topology::probe")
  | layer :: _ =>
      let name := past_key_input layer in
      match find (λ i, bool_decide (fst i = name)) declared with
      | None => Err (Internal ("ort: declared kv input '" +:+ name +:+ "' not found on session"))
      | Some (_, VT_Other) => Err (BadRequest ("ort: kv input '" +:+ name +:+ "' is not a tensor"))
      | Some (_, VT_Tensor _ shape) =>
          match shape with
          | [_; kv_heads; _; head_dim] =>
              if (kv_heads <=? 0) || (head_dim <=? 0) then
                Err (BadRequest ("ort: kv input '" +:+ name +:+ "' declares dynamic heads (" +:+
                  pretty kv_heads +:+ ") or head_dim (" +:+ pretty head_dim +:+
                  "); export with concrete shape on dim 1 and dim 3"))
              else Ok (kv_heads, head_dim)
          | _ =>
              Err (BadRequest ("ort: kv input '" +:+ name +:+ "' has rank " +:+
                pretty (Z.of_nat (length shape)) +:+ ", expected 4 ([batch, kv_heads, past, head_dim])"))
          end
      end
  end.

Definition find_eos : option Z :=
  match token_to_id "</s>" with
  | Some t => Some t
  | None =>
      match token_to_id "<|endoftext|>" with
      | Some t => Some t
      | None => token_to_id "<|im_end|>"
      end
  end.

(** [OrtState]: the session with what it declares, its topology, and whether a
    tokenizer was found. *)
Record OrtState : Type := {
  os_session : Session;
  os_inputs : list (string * ValueType ElementType);
  os_topology : Topology ElementType;
  os_tokenizer : bool
}.
(** The stream the caller gets: what the blocking task sends; [None] is a panic of the task. *)
Definition run_generation (state : OrtState) (default_max_new_tokens : Z) (batch : ExecuteBatch) :
  option (InferenceResult (list (InferenceResult Chunk))) :=
  let topo := os_topology state in
  if negb (bool_decide (tp_kind topo = Mk_TextGenWithKv)) then
    Some (Err (BadRequest ("ort: chat-style execute() requires a causal LM with KV cache; probed kind = " +:+
      debug_kind (tp_kind topo) +:+ ", inputs = " +:+ debug_strings (all_input_names topo) +:+
      ", outputs = " +:+ debug_strings (all_output_names topo) +:+
      ". Use OrtRunner::infer for embedding / encoder / vision models.")))
  else if negb (os_tokenizer state) then
    Some (Err (BadRequest "ort: chat-style execute() requires a tokenizer.json — set OrtConfig::tokenizer_path or place tokenizer.json next to the ONNX file (or enable ort-hf-hub + set hf_repo)"))
  else
    match render_chat (messages batch) with
    | Err e => Some (Err e)
    | Ok prompt =>
        match encode prompt with
        | Err e => Some (Err (ort_internal "tokenizer.encode" e))
        | Ok [] => Some (Err (BadRequest "ort: tokenizer produced empty id sequence"))
        | Ok prompt_ids =>
            let max_new := default default_max_new_tokens (max_tokens (sampling batch)) in
            match infer_kv_dims topo (os_inputs state) with
            | Err e => Some (Err e)
            | Ok (kv_heads, head_dim) =>
                '(g, r) ← run_loop topo (request_id batch) (sampling batch) prompt_ids kv_heads head_dim
                            max_new find_eos (os_session state) (rng_from (seed (sampling batch)));
                Some (Ok (sends (g_trace g) ++ match r with Ok _ => [] | Err e => [Err e] end))
            end
        end
    end.

(** ** runner.rs: the lazily built state *)

Record OrtRunner : Type := { or_state : option OrtState }.
Definition ensure_state (build : InferenceResult OrtState) (r : OrtRunner) :
  OrtRunner * InferenceResult OrtState :=
  let '(cell, res) := get_or_try_init build (or_state r) in ({| or_state := cell |}, res).
Definition ort_execute (build : InferenceResult OrtState) (default_max : Z) (batch : ExecuteBatch)
    (r : OrtRunner) : OrtRunner * option (InferenceResult (RunHandle Chunk)) :=
  match ensure_state build r with
  | (r', Ok st) =>
      (r', res ← run_generation st default_max batch; Some (let? s := res in Ok (streaming s)))
  | (r', Err e) => (r', Some (Err e))
  end.
Definition ort_rebuild_session (cause : SessionRebuildCause) (r : OrtRunner) :
  OrtRunner * InferenceResult unit :=
  ({| or_state := reset_cell cause (or_state r) |}, Ok ()).

(** ** Termination *)

Section bounded.
Context (topo : Topology ElementType) (rid : string) (params : SamplingParams)
  (prompt_ids : list Z) (kv_heads head_dim max_new : Z) (eos_id : option Z).
Abbreviation step := (gen_step topo rid params prompt_ids kv_heads head_dim max_new eos_id).
Abbreviation loop := (gen_loop topo rid params prompt_ids kv_heads head_dim max_new eos_id).
Definition runs (tr : list GenEvent) : nat :=
  count_if (λ e, match e with Gv_Run _ => true | _ => false end) tr.

Lemma accept_runs g id rng kv n :
  match accept_token rid params prompt_ids max_new eos_id g id rng kv n with
  | Continue g' =>
      runs (g_trace g') = runs (g_trace g) ∧ g_tokens g' = wrap_u32 (g_tokens g + 1) ∧
      g_tokens g' < max_new
  | Break g' _ | Return g' _ => runs (g_trace g') = runs (g_trace g)
  end.
Proof.
  unfold accept_token. destruct (decode _) as [full|e]; [|done].
  destruct (decode_delta _ full) as [delta adv]. destruct (is_empty_str delta).
  - cbn [negb]. unfold stop_reason. destruct adv; cbn [g_tokens set_prev];
      destruct (bool_decide _); try done; destruct (Z.leb_spec max_new (wrap_u32 (g_tokens g + 1)));
      try done; destruct (existsb _ _); done.
  - cbn [send_chunk g_trace]. destruct (alive _); cbn [negb].
    + unfold stop_reason. destruct adv; cbn [g_tokens set_prev];
        destruct (bool_decide _); try destruct (Z.leb_spec max_new (wrap_u32 (g_tokens g + 1)));
        try destruct (existsb _ _); cbn [g_trace set_prev]; unfold runs; rewrite ?count_if_app; cbn; lia.
    + unfold runs; cbn [g_trace]. rewrite count_if_app. cbn. lia.
Qed.
Lemma step_runs g :
  match step g with
  | Some (Continue g') =>
      runs (g_trace g') = S (runs (g_trace g)) ∧ g_tokens g' = wrap_u32 (g_tokens g + 1) ∧
      g_tokens g' < max_new
  | Some (Break g' _) | Some (Return g' _) => (runs (g_trace g') ≤ S (runs (g_trace g)))%nat
  | None => True
  end.
Proof.
  unfold gen_step. destruct (if is_prefill g then _ else _) as [cur|]; [|done]. cbn [mbind option_bind].
  destruct (round_inputs _ _ _ _ _ _) as [inputs|e]; [|lia].
  destruct (session_run _ inputs) as [session res].
  assert (runs (g_trace (ran g session inputs)) = S (runs (g_trace g))) as Hr.
  { unfold runs. cbn [ran g_trace]. rewrite count_if_app. cbn. lia. }
  destruct res as [outputs|e]; [|lia]. destruct (logits_name topo) as [name|]; [|done]. cbn [mbind option_bind].
  destruct (get_output outputs name) as [[shape data]|e]; [|lia]. destruct (_ <? 3)%nat; [lia|].
  destruct (last_row shape data) as [row|]; [|done]. cbn [mbind option_bind].
  destruct (sample row params _) as [[id rng]|]; [|done]. cbn [mbind option_bind].
  destruct (present_kv outputs _) as [kv|e]; [|lia].
  pose proof (accept_runs (ran g session inputs) id rng kv (Z.of_nat (length cur))) as Ha.
  destruct (accept_token _ _ _ _ _ _ _ _ _ _); rewrite <- Hr; [exact Ha|lia..].
Qed.
Lemma loop_bounded fuel extra g :
  is_u 32 max_new → 0 ≤ g_tokens g → g_tokens g = 0 ∨ g_tokens g < max_new →
  (Nat.max 1 (Z.to_nat (max_new - g_tokens g)) ≤ fuel)%nat →
  loop (fuel + extra) g = loop fuel g ∧
  ∀ g' r, loop fuel g = Some (g', r) → (runs (g_trace g') ≤ runs (g_trace g) + fuel)%nat.
Proof.
  intros [Hm0 Hm]. revert g. induction fuel as [|fuel IH]; intros g H0 Hlt0 Hf; [lia|].
  cbn [gen_loop Nat.add]. pose proof (step_runs g) as Hs.
  destruct (step g) as [[g1|g1 fin|g1 r1]|]; cbn [mbind option_bind]; [| | |done].
  - destruct Hs as (Hr & Ht & Hlt).
    assert (g_tokens g1 = g_tokens g + 1) as Ht'.
    { rewrite Ht. apply wrap_id. unfold is_u. lia. }
    destruct (IH g1) as [I1 I2]; [lia..|]. split; [done|]. intros g' r Hg. specialize (I2 _ _ Hg). lia.
  - split; [done|]. intros g' r [= Hg]. unfold final_flush in Hg.
    destruct (decode _) as [full|e]; injection Hg as <- _; [|lia].
    cbn [g_trace]. unfold runs in *. rewrite count_if_app. cbn. lia.
  - split; [done|]. intros g' r [= <- _]. lia.
Qed.
End bounded.

(** ** The reference: decoding without a cache

    [logits_of ids] is what a causal model answers for the position after [ids],
    [kv_of ids] the cache it holds then, [text ids] the decoded text. *)
Section reference.
Context (topo : Topology ElementType) (rid : string) (params : SamplingParams)
  (prompt_ids : list Z) (kv_heads head_dim max_new : Z) (eos_id : option Z).
Context (vocab : Z) (logits_of : list Z → list f32) (kv_of : list Z → KvCache) (text : list Z → string).

Fixpoint ref_decode (fuel : nat) (gen : list Z) (rng : Rng) : option (list Z * FinishReason) :=
  match fuel with
  | O => None
  | S fuel' =>
      '(t, rng') ← sample (logits_of (prompt_ids ++ gen)) params rng;
      let gen' := gen ++ [t] in
      match stop_reason params max_new eos_id t (Z.of_nat (length gen')) (text gen') with
      | Some fin => Some (gen', fin)
      | None => ref_decode fuel' gen' rng'
      end
  end.

(** The cache after a context; before any run it is empty. *)
Definition cache (ctx : list Z) : KvCache :=
  match ctx with [] => (λ _, ([], [])) <$> kv_layers topo | _ => kv_of ctx end.
(** The inputs of the Optimum layout for [new] tokens after [ctx]. *)
Definition model_inputs (ctx new : list Z) : Inputs :=
  let n := Z.of_nat (length new) in
  let past := Z.of_nat (length ctx) in
  run_inputs topo (T_i64 [1; n] new)
    (Some (T_i64 [1; past + n] (repeat 1 (length ctx + length new))))
    (Some (T_i64 [1; n] ((λ i, past + Z.of_nat i) <$> seq 0 (length new))))
    (concat (zip_with (λ layer kv,
       [(past_key_input layer, T_f32 [1; kv_heads; past; head_dim] (fst kv));
        (past_value_input layer, T_f32 [1; kv_heads; past; head_dim] (snd kv))])
       (kv_layers topo) (cache ctx))).
(** A tensor whose data fills its shape. *)
Definition tensor_wf (t : Tensor) : Prop :=
  let size shape := foldr Z.mul 1 shape in
  match t with
  | T_i64 shape data => size shape = Z.of_nat (length data)
  | T_f32 shape data => size shape = Z.of_nat (length data)
  end.

(** The session is that causal model, in the layout the module documents; its logits are
    finite numbers over the temperature, unless the choice is greedy. *)
Class CausalModel : Prop := {
  cm_tensors t : tensor_wf t → from_array_error t = None;
  cm_name : ∃ name, logits_name topo = Some name;
  cm_vocab : 0 < vocab < 2 ^ 31;
  cm_samplable ids : ids ≠ [] → samplable params (logits_of ids);
  cm_cache_size ctx : ctx ≠ [] → Forall (λ kv,
    Z.of_nat (length (fst kv)) = kv_heads * (Z.of_nat (length ctx) * head_dim) ∧
    Z.of_nat (length (snd kv)) = kv_heads * (Z.of_nat (length ctx) * head_dim)) (kv_of ctx);
  cm_logits s ctx new name : new ≠ [] → logits_name topo = Some name →
    ∃ s' outputs data, session_run s (model_inputs ctx new) = (s', Ok outputs) ∧
      outputs name = Some (Ok ([1; Z.of_nat (length new); vocab], data)) ∧
      Z.of_nat (length data) = Z.of_nat (length new) * vocab ∧
      drop (Z.to_nat ((Z.of_nat (length new) - 1) * vocab)) data = logits_of (ctx ++ new) ∧
      Forall2 (λ layer kv, ∃ sk sv,
        outputs (present_key_output layer) = Some (Ok (sk, fst kv)) ∧
        outputs (present_value_output layer) = Some (Ok (sv, snd kv))) (kv_layers topo) (kv_of (ctx ++ new))
}.
(** The tokenizer decodes to UTF-8 text that only grows, a replacement character at the
    end standing for an incomplete character. *)
Class ByteDecoder : Prop := {
  bd_decode ids : decode ids = Ok (text ids);
  bd_nil : text [] = "";
  bd_grows a b : ends_with replacement_char (text a) = false → ∃ s, text (a ++ b) = text a +:+ s;
  bd_boundary a b s : text (a ++ b) = text a +:+ s → s ≠ "" →
    ends_with replacement_char s = ends_with replacement_char (text (a ++ b))
}.
Context {model : CausalModel} {decoder : ByteDecoder} {laws : SamplingLaws exp sort_by select_nth weighted_index}.

Lemma strip_prefix_app p s : strip_prefix p (p +:+ s) = Some s.
Proof.
  induction p as [|a p IH]; [by destruct s|]. change (String a p +:+ s) with (String a (p +:+ s)).
  cbn [strip_prefix]. by rewrite decide_True.
Qed.
Lemma from_array_ok t : tensor_wf t → from_array t = Ok t.
Proof. intros Ht. unfold from_array. by rewrite cm_tensors. Qed.

Lemma cache_length ctx new (s : Session) :
  new ≠ [] → length (kv_of (ctx ++ new)) = length (kv_layers topo).
Proof.
  intros Hn. destruct cm_name as [name Hname].
  destruct (cm_logits s ctx new name Hn Hname) as (? & ? & ? & _ & _ & _ & _ & Hf).
  symmetry. by eapply Forall2_length.
Qed.
Lemma kv_inputs_ok (ctx : list Z) layers kv :
  length kv = length layers →
  Forall (λ kv,
    Z.of_nat (length (fst kv)) = kv_heads * (Z.of_nat (length ctx) * head_dim) ∧
    Z.of_nat (length (snd kv)) = kv_heads * (Z.of_nat (length ctx) * head_dim)) kv →
  kv_inputs kv_heads head_dim (Z.of_nat (length ctx)) layers kv =
  Ok (concat (zip_with (λ layer kv,
       [(past_key_input layer, T_f32 [1; kv_heads; Z.of_nat (length ctx); head_dim] (fst kv));
        (past_value_input layer, T_f32 [1; kv_heads; Z.of_nat (length ctx); head_dim] (snd kv))])
       layers kv)).
Proof.
  revert layers. induction kv as [|[k v] kv IH]; intros [|layer layers] Hl Hf; try done.
  apply Forall_cons in Hf as [[Hk Hv] Hf]. cbn [kv_inputs zip_with concat]. unfold kv_input.
  cbn [fst snd] in *.
  rewrite (from_array_ok (T_f32 _ k)) by (cbn [tensor_wf foldr]; lia).
  rewrite (from_array_ok (T_f32 _ v)) by (cbn [tensor_wf foldr]; lia).
  rewrite IH; [done|by injection Hl|done].
Qed.
(** The tensors the loop builds are those of the layout. *)
Lemma round_inputs_ok ctx new (s : Session) :
  new ≠ [] →
  round_inputs topo kv_heads head_dim new (Z.of_nat (length ctx)) (cache ctx) = Ok (model_inputs ctx new).
Proof.
  intros Hn. unfold round_inputs, model_inputs.
  rewrite (from_array_ok (T_i64 [1; _] new)) by (cbn [tensor_wf foldr]; lia).
  replace (Z.to_nat (Z.of_nat (length ctx) + Z.of_nat (length new))) with (length ctx + length new)%nat by lia.
  set (mask := T_i64 [1; _ + _] _). set (pos := T_i64 _ (_ <$> _)).
  assert (from_array mask = Ok mask) as Hm.
  { apply from_array_ok. cbn [mask tensor_wf foldr]. rewrite repeat_length. lia. }
  assert (from_array pos = Ok pos) as Hp.
  { apply from_array_ok. cbn [pos tensor_wf foldr]. rewrite length_fmap, length_seq. lia. }
  unfold opt_tensor. rewrite Hm, Hp.
  rewrite kv_inputs_ok.
  - unfold run_inputs. destruct (attention_mask_name topo), (position_ids_name topo); done.
  - destruct ctx as [|x ctx]; cbn [cache]; [by rewrite length_fmap|].
    by rewrite <- (cache_length [] (x :: ctx) s).
  - destruct ctx as [|x ctx]; cbn [cache].
    + apply Forall_forall. intros kv (layer & -> & _)%list_elem_of_fmap. cbn. lia.
    + by apply cm_cache_size.
Qed.
Lemma last_row_ok n data :
  0 < n → n * vocab < 2 ^ 63 → Z.of_nat (length data) = n * vocab →
  last_row [1; n; vocab] data = Some (drop (Z.to_nat ((n - 1) * vocab)) data).
Proof.
  intros Hn Hs Hd. pose proof cm_vocab as Hv. unfold last_row. cbn [length lookup list_lookup Nat.sub mbind option_bind].
  assert (0 ≤ (n - 1) * vocab < 2 ^ 63) as Hoff by nia.
  rewrite (wrap_id 64 vocab) by (unfold is_u; lia). rewrite (wrap_id 64 n) by (unfold is_u; nia).
  rewrite (wrap_id 64 (n - 1)) by (unfold is_u; nia). rewrite (wrap_id 64 (_ * vocab)) by (unfold is_u; lia).
  replace ((n - 1) * vocab + vocab) with (n * vocab) by lia. rewrite wrap_id by (unfold is_u; nia).
  rewrite (proj2 (Z.leb_le _ _)), (proj2 (Z.leb_le (n * vocab) _)) by lia. cbn [andb]. f_equal.
  apply take_ge. rewrite length_drop. lia.
Qed.
Lemma present_kv_ok outputs layers kv :
  Forall2 (λ layer kv, ∃ sk sv,
    outputs (present_key_output layer) = Some (Ok (sk, fst kv)) ∧
    outputs (present_value_output layer) = Some (Ok (sv, snd kv))) layers kv →
  present_kv outputs layers = Ok kv.
Proof.
  induction 1 as [|layer [k v] layers kv (sk & sv & Hk & Hv) _ IH]; [done|].
  cbn [present_kv]. unfold get_output. by rewrite Hk, Hv, IH.
Qed.

(** ** The loop follows the reference *)

Definition plain (c : Chunk) : Prop := usage c = None ∧ finish_reason c = None ∧ c_request_id c = rid.
(** What has been streamed after the tokens [gen]: the text of a prefix of them. *)
Definition text_inv (prev : string) (tr : list GenEvent) (gen : list Z) : Prop :=
  ∃ a b chunks, gen = a ++ b ∧ prev = text a ∧ ends_with replacement_char (text a) = false ∧
    sends tr = Ok <$> chunks ∧ Forall plain chunks ∧ concat_text chunks = prev.
Record Inv (g : GenState) (gen : list Z) : Prop := {
  inv_ids : all_ids g = prompt_ids ++ gen;
  inv_tokens : g_tokens g = Z.of_nat (length gen);
  inv_ctx : ∃ ctx cur, ctx ++ cur = prompt_ids ++ gen ∧ past_len g = Z.of_nat (length ctx) ∧
    past_kv g = cache ctx ∧ Z.of_nat (length cur) < 2 ^ 32 ∧ cur ≠ [] ∧
    (if is_prefill g then cur = prompt_ids else ∃ x, cur = [x] ∧ list.last (all_ids g) = Some x);
  inv_text : text_inv (prev_full_decoded g) (g_trace g) gen;
  inv_runs : runs (g_trace g) = length gen
}.

Lemma sends_app tr1 tr2 : sends (tr1 ++ tr2) = sends tr1 ++ sends tr2.
Proof. apply omap_app. Qed.

(** What streaming does with the text of one more token. *)
Lemma text_step prev tr gen t :
  text_inv prev tr gen →
  let '(delta, advance) := decode_delta prev (text (gen ++ [t])) in
  text_inv (if advance then text (gen ++ [t]) else prev)
    (tr ++ (if is_empty_str delta then [] else [Gv_Send (Ok (chunk_of rid delta None None))])) (gen ++ [t]).
Proof.
  intros (a & b & chunks & -> & -> & He & Hs & Hp & Hc). rewrite <- app_assoc.
  destruct (bd_grows a (b ++ [t]) He) as [s Ht]. unfold decode_delta.
  rewrite Ht, strip_prefix_app. destruct (ends_with replacement_char s) eqn:Es.
  - cbn [is_empty_str]. rewrite app_nil_r. by exists a, (b ++ [t]), chunks.
  - destruct (is_empty_str s) eqn:E0.
    + destruct s; [|done]. rewrite string_app_nil_r in *. rewrite app_nil_r.
      exists (a ++ b ++ [t]), [], chunks. by rewrite app_nil_r, Ht.
    + assert (s ≠ "") as Hne by (by intros ->).
      exists (a ++ b ++ [t]), [], (chunks ++ [chunk_of rid s None None]).
      rewrite app_nil_r, Ht. split; [done|]. split; [done|].
      split; [by rewrite <- Ht, <- (bd_boundary a (b ++ [t]) s)|].
      rewrite sends_app, Hs, fmap_app. split; [done|].
      split; [by apply Forall_app_snoc|]. rewrite concat_text_app, Hc. cbn. by rewrite string_app_nil_r.
Qed.

Hypothesis (Halive : ∀ n, alive n = true).
Hypothesis (Hprompt : prompt_ids ≠ []).
Abbreviation step := (gen_step topo rid params prompt_ids kv_heads head_dim max_new eos_id).

Lemma accept_ok g gen t rng kv n (fin := stop_reason params max_new eos_id t
    (Z.of_nat (length (gen ++ [t]))) (text (gen ++ [t]))) :
  all_ids g = prompt_ids ++ gen → g_tokens g = Z.of_nat (length gen) →
  text_inv (prev_full_decoded g) (g_trace g) gen → Z.of_nat (length gen) + 1 < 2 ^ 32 →
  ∃ g', accept_token rid params prompt_ids max_new eos_id g t rng kv n =
        (match fin with Some f => Break g' (Some f) | None => Continue g' end) ∧
    all_ids g' = prompt_ids ++ gen ++ [t] ∧ g_tokens g' = Z.of_nat (length (gen ++ [t])) ∧
    past_len g' = past_len g + n ∧ past_kv g' = kv ∧ is_prefill g' = false ∧ g_rng g' = rng ∧
    runs (g_trace g') = runs (g_trace g) ∧
    text_inv (prev_full_decoded g') (g_trace g') (gen ++ [t]).
Proof.
  intros Hids Htok Htext Hlen. pose proof (text_step _ _ _ t Htext) as Hstep. unfold accept_token.
  set (g1 := Build_GenState _ _ _ _ _ _ _ _ _).
  assert (generated prompt_ids g1 = gen ++ [t]) as ->.
  { unfold generated. cbn [g1 all_ids]. by rewrite Hids, <- app_assoc, drop_app_length. }
  rewrite bd_decode. cbn [g1 prev_full_decoded].
  assert (wrap_u32 (g_tokens g + 1) = Z.of_nat (length (gen ++ [t]))) as Hw.
  { rewrite Htok, length_app. cbn [length]. rewrite (wrap_id 32) by (unfold is_u; lia). lia. }
  destruct (decode_delta _ _) as [delta adv]. unfold fin. destruct (is_empty_str delta).
  - cbn [negb]. rewrite app_nil_r in Hstep. exists (if adv then set_prev g1 (text (gen ++ [t])) else g1).
    assert (g_tokens (if adv then set_prev g1 (text (gen ++ [t])) else g1) = Z.of_nat (length (gen ++ [t]))) as ->
      by (by destruct adv).
    split; [done|]. destruct adv; cbn; rewrite ?Hids, <- ?app_assoc; done.
  - unfold send_chunk. rewrite Halive. cbn [negb]. set (g2 := Build_GenState _ _ _ _ _ _ _ _ _).
    exists (if adv then set_prev g2 (text (gen ++ [t])) else g2).
    assert (g_tokens (if adv then set_prev g2 (text (gen ++ [t])) else g2) = Z.of_nat (length (gen ++ [t]))) as ->
      by (by destruct adv).
    split; [done|]. assert (runs (g_trace g ++ [Gv_Send (Ok (chunk_of rid delta None None))]) = runs (g_trace g))
      as Hr by (unfold runs; rewrite count_if_app; cbn; lia).
    destruct adv; cbn; rewrite ?Hids, <- ?app_assoc; done.
Qed.

Lemma step_ok g gen :
  Inv g gen → Z.of_nat (length gen) + 1 < 2 ^ 32 →
  ∃ t rng g', sample (logits_of (prompt_ids ++ gen)) params (g_rng g) = Some (t, rng) ∧
    Inv g' (gen ++ [t]) ∧ g_rng g' = rng ∧
    step g = Some (match stop_reason params max_new eos_id t (Z.of_nat (length (gen ++ [t])))
                           (text (gen ++ [t])) with
                   | Some f => Break g' (Some f) | None => Continue g' end).
Proof.
  intros [Hids Htok (ctx & cur & Hcc & Hpl & Hkv & Hclen & Hne & Hcur) Htext Hruns] Hlen.
  destruct cm_name as [name Hname]. pose proof cm_vocab as Hv.
  destruct (cm_logits (g_session g) ctx cur name Hne Hname)
    as (s' & outputs & data & Hrun & Hout & Hdata & Hrow & Hkv').
  destruct (sample_next_total exp sort_by select_nth weighted_index (logits_of (ctx ++ cur)) params (g_rng g))
    as [[t rng] Hs]; [by apply cm_samplable; destruct ctx|].
  unfold gen_step.
  assert ((if is_prefill g then Some prompt_ids else x ← list.last (all_ids g); Some [x]) = Some cur) as ->.
  { destruct (is_prefill g); [by rewrite Hcur|]. by destruct Hcur as (x & -> & ->). }
  cbn [mbind option_bind]. rewrite Hpl, Hkv, (round_inputs_ok ctx cur (g_session g)), Hrun, Hname by done.
  cbn [mbind option_bind]. unfold get_output. rewrite Hout. cbn [length Nat.ltb Nat.leb].
  assert (0 < Z.of_nat (length cur)) by (destruct cur; [done|cbn; lia]).
  rewrite last_row_ok, Hrow by (done || nia). cbn [mbind option_bind g_rng ran].
  rewrite Hs. cbn [mbind option_bind]. rewrite (present_kv_ok outputs _ (kv_of (ctx ++ cur)) Hkv').
  set (g1 := ran g s' (model_inputs ctx cur)).
  assert (text_inv (prev_full_decoded g1) (g_trace g1) gen) as Ht1.
  { destruct Htext as (a & b & chunks & H1 & H2 & H3 & H4 & H5). exists a, b, chunks.
    cbn [g1 ran prev_full_decoded g_trace]. rewrite sends_app. cbn. by rewrite app_nil_r. }
  destruct (accept_ok g1 gen t rng (kv_of (ctx ++ cur)) (Z.of_nat (length cur)) Hids Htok Ht1 Hlen)
    as (g' & Hacc & I1 & I2 & I3 & I4 & I5 & I6 & I7 & I8).
  exists t, rng, g'. rewrite <- Hcc. split; [done|]. split; [|by rewrite Hacc].
  split; [done|done| |done|].
  - exists (ctx ++ cur), [t]. rewrite Hcc, <- app_assoc, I3, I4, I5, I1, app_assoc, last_snoc.
    cbn [g1 ran past_len]. rewrite Hpl, <- Hcc, length_app.
    split; [done|]. split; [lia|]. split; [by destruct (ctx ++ cur) eqn:E; [apply app_nil in E as [_ ->]|]|].
    split; [done|]. split; [done|]. eauto.
  - rewrite I7. cbn [g1 ran g_trace]. unfold runs in *. rewrite count_if_app, Hruns, length_app. cbn. lia.
Qed.

Lemma loop_ok fuel g gen :
  Inv g gen → max_new < 2 ^ 32 → Z.of_nat (length gen) < max_new ∨ gen = [] →
  (Nat.max 1 (Z.to_nat max_new - length gen) ≤ fuel)%nat →
  ∃ gen' fin g',
    ref_decode fuel gen (g_rng g) = Some (gen', fin) ∧ Inv g' gen' ∧
    (length gen < length gen' ≤ length gen + fuel)%nat ∧
    gen_loop topo rid params prompt_ids kv_heads head_dim max_new eos_id fuel g =
      Some (final_flush rid prompt_ids g' (Some fin)).
Proof.
  intros Hinv Hm. revert g gen Hinv. induction fuel as [|fuel IH]; intros g gen Hinv Hlt Hf; [lia|].
  destruct (step_ok g gen Hinv) as (t & rng & g' & Hs & Hinv' & Hrng & Hstep).
  { destruct Hlt as [?| ->]; [lia|]. cbn. lia. }
  cbn [ref_decode gen_loop]. rewrite Hs, Hstep. cbn [mbind option_bind].
  destruct (stop_reason _ _ _ _ _ _) as [fin|] eqn:Estop.
  - exists (gen ++ [t]), fin, g'. rewrite length_app. cbn. split; [done|]. split; [done|]. split; [lia|done].
  - assert (Z.of_nat (length (gen ++ [t])) < max_new) as Hnext.
    { unfold stop_reason in Estop. destruct (bool_decide _); [done|].
      destruct (Z.leb_spec max_new (Z.of_nat (length (gen ++ [t])))); [done|lia]. }
    rewrite length_app in Hnext. cbn in Hnext.
    destruct (IH g' (gen ++ [t]) Hinv') as (gen' & fin & g'' & H1 & H2 & H3 & H4);
      [left; rewrite length_app; cbn; lia|rewrite length_app; cbn; lia|].
    exists gen', fin, g''. rewrite Hrng in H1. rewrite length_app in H3. cbn in H3.
    split; [done|]. split; [done|]. split; [lia|done].
Qed.

(** [C19] KV-cached generation is plain autoregressive decoding: when the session is a
    causal model in the documented layout, with logits the sampler can compare, feeding each
    token once with the cached keys and values samples exactly the tokens that running the
    model on the whole sequence would, stops for the same reason, within [max(1, max_new)]
    runs of the session; the chunks streamed spell the decoded text with nothing lost or
    repeated, and the last one alone carries the exact token counts and the finish reason. *)
Theorem generation_faithful (session : Session) (rng : Rng) :
  logits_dtype topo = Some Float32 → is_u 32 max_new → Z.of_nat (length prompt_ids) < 2 ^ 32 →
  ∃ gen fin chunks last g,
    ref_decode (gen_fuel max_new) [] rng = Some (gen, fin) ∧
    run_loop topo rid params prompt_ids kv_heads head_dim max_new eos_id session rng = Some (g, Ok ()) ∧
    runs (g_trace g) = length gen ∧ (1 ≤ length gen ≤ Nat.max 1 (Z.to_nat max_new))%nat ∧
    sends (g_trace g) = Ok <$> chunks ++ [last] ∧ Forall plain chunks ∧
    concat_text (chunks ++ [last]) = text gen ∧
    usage last = Some {| input_tokens := Z.of_nat (length prompt_ids);
                         output_tokens := Z.of_nat (length gen);
                         reasoning_tokens := 0; cached_tokens := 0 |} ∧
    finish_reason last = Some fin.
Proof.
  intros Hd Hm Hp. unfold run_loop. rewrite bool_decide_true by done.
  assert (Inv (gen_init topo prompt_ids session rng) []) as H0.
  { split; [by rewrite app_nil_r|done| | |done].
    - exists [], prompt_ids. by rewrite app_nil_r.
    - exists [], [], []. rewrite bd_nil. done. }
  destruct (loop_ok (gen_fuel max_new) _ _ H0) as (gen & fin & g & Href & Hinv & Hlen & ->);
    [unfold is_u in Hm; lia|by right|cbn [length]; unfold gen_fuel; lia|].
  destruct Hinv as [Hids Htok _ (a & b & chunks & Hgen & Hprev & He & Hs & Hpl & Hc) Hruns].
  unfold final_flush.
  assert (generated prompt_ids g = gen) as ->.
  { unfold generated. by rewrite Hids, drop_app_length. }
  rewrite bd_decode. cbn [send_chunk].
  exists gen, fin, chunks, (chunk_of rid (final_tail (prev_full_decoded g) (text gen))
    (Some {| input_tokens := Z.of_nat (length prompt_ids); output_tokens := Z.of_nat (length gen);
             reasoning_tokens := 0; cached_tokens := 0 |}) (Some fin)).
  eexists. split; [exact Href|]. split; [reflexivity|]. cbn [g_trace].
  split; [unfold runs in *; rewrite count_if_app; cbn; lia|]. cbn [length] in Hlen.
  split; [unfold gen_fuel in Hlen; lia|].
  split; [rewrite sends_app, Hs, fmap_app; cbn; by rewrite Htok, (wrap_id 32) by (unfold is_u; lia)|].
  split; [done|]. split; [|done]. rewrite concat_text_app, Hc. cbn [concat_text foldr chunk_of text_delta].
  rewrite string_app_nil_r. destruct (bd_grows a b He) as [s Ht]. rewrite Hprev, Hgen, Ht.
  unfold final_tail. rewrite length_append, strip_prefix_app.
  destruct (Nat.ltb_spec (String.length (text a)) (String.length (text a) + String.length s)); [done|].
  destruct s; [done|]. cbn in *. lia.
Qed.
End reference.

(** Generation always ends: whatever the session, the tokenizer, the sampler and the
    receiver do, the loop makes at most [max(1, max_new)] runs of the session before it
    returns or panics, more fuel than that changing nothing. *)
Theorem generation_bounded (topo : Topology ElementType) (rid : string) (params : SamplingParams)
    (prompt_ids : list Z) (kv_heads head_dim max_new : Z) (eos_id : option Z)
    (session : Session) (rng : Rng) (extra : nat) :
  is_u 32 max_new →
  let loop fuel := gen_loop topo rid params prompt_ids kv_heads head_dim max_new eos_id fuel
                     (gen_init topo prompt_ids session rng) in
  loop (gen_fuel max_new + extra)%nat = loop (gen_fuel max_new) ∧
  ∀ g r, run_loop topo rid params prompt_ids kv_heads head_dim max_new eos_id session rng = Some (g, r) →
    (runs (g_trace g) ≤ Nat.max 1 (Z.to_nat max_new))%nat.
Proof.
  intros Hm loop.
  destruct (loop_bounded topo rid params prompt_ids kv_heads head_dim max_new eos_id (gen_fuel max_new) extra
    (gen_init topo prompt_ids session rng) Hm) as [H1 H2];
    [cbn; lia|by left|cbn [gen_init g_tokens]; unfold gen_fuel; lia|].
  split; [exact H1|]. intros g r. unfold run_loop. case_bool_decide; [by apply H2|].
  intros [= <- _]. cbn. lia.
Qed.
End generate.

(** ** A concrete causal model

    Three tokens, one layer; the cache holds the tokens seen, and the token at position
    [n] is [n mod 3]. *)
Definition demo_topology : Topology bool := {|
  tp_kind := Mk_TextGenWithKv; input_ids_name := Some "input_ids";
  attention_mask_name := Some "attention_mask"; position_ids_name := Some "position_ids";
  logits_name := Some "logits"; logits_dtype := Some true;
  kv_layers := [{| past_key_input := "past.0.key"; past_value_input := "past.0.value";
                   present_key_output := "present.0.key"; present_value_output := "present.0.value" |}];
  all_input_names := []; all_output_names := []
|}.
Definition demo_row (n : nat) : list f32 :=
  (λ i, f32_of_Z (if (n mod 3 =? i)%nat then 5 else 0)) <$> [0; 1; 2]%nat.
Definition demo_logits_of (ids : list Z) : list f32 := demo_row (length ids).
Definition demo_kv_of (ids : list Z) : KvCache := [(f32_of_Z <$> ids, f32_of_Z <$> ids)].
Definition find_input (name : string) (inputs : Inputs) : option Tensor :=
  snd <$> find (λ i, bool_decide (fst i = name)) inputs.
Definition demo_run (_ : unit) (inputs : Inputs) : unit * result string Outputs :=
  match find_input "input_ids" inputs, find_input "past.0.key" inputs with
  | Some (T_i64 _ new), Some (T_f32 _ past) =>
      let rows := concat ((λ i, demo_row (length past + S i)) <$> seq 0 (length new)) in
      let kv := past ++ (f32_of_Z <$> new) in
      (tt, Ok (λ name,
        if bool_decide (name = "logits") then Some (Ok ([1; Z.of_nat (length new); 3], rows))
        else if bool_decide (name = "present.0.key") then Some (Ok ([], kv))
        else if bool_decide (name = "present.0.value") then Some (Ok ([], kv)) else None))
  | _, _ => (tt, Err "missing input")
  end.
Definition demo_from_array (t : Tensor) : option string :=
  let size shape := foldr Z.mul 1 shape in
  match t with
  | T_i64 shape data => if size shape =? Z.of_nat (length data) then None else Some "invalid shape"
  | T_f32 shape data => if size shape =? Z.of_nat (length data) then None else Some "invalid shape"
  end.
Definition demo_letter (t : Z) : ascii :=
  ascii_of_N (if t =? 0 then 97 else if t =? 1 then 98 else 99).
Fixpoint demo_text (ids : list Z) : string :=
  match ids with [] => "" | t :: r => String (demo_letter t) (demo_text r) end.

Lemma demo_text_app a b : demo_text (a ++ b) = demo_text a +:+ demo_text b.
Proof. induction a as [|t a IH]; [done|]. by apply (f_equal (String _)). Qed.
Lemma demo_text_ends ids : ends_with replacement_char (demo_text ids) = false.
Proof.
  induction ids as [|t ids IH]; [done|]. cbn [demo_text ends_with]. rewrite IH, bool_decide_false; [done|].
  unfold demo_letter. intros [= Hc _]. by destruct (t =? 0), (t =? 1).
Qed.
#[global] Instance demo_decoder : ByteDecoder (λ ids, Ok (demo_text ids)) demo_text.
Proof.
  split; [done|done| |].
  - intros a b _. exists (demo_text b). apply demo_text_app.
  - intros a b s Ht _. rewrite demo_text_ends. rewrite demo_text_app in Ht.
    assert (strip_prefix (demo_text a) (demo_text a +:+ demo_text b) = Some s) as Hs
      by (rewrite Ht; apply strip_prefix_app).
    rewrite strip_prefix_app in Hs. injection Hs as <-. apply demo_text_ends.
Qed.
Lemma demo_rows_length k s n : length (concat ((λ i, demo_row (k + S i)) <$> seq s n)) = (n * 3)%nat.
Proof.
  revert s. induction n as [|n IH]; intros s; [reflexivity|].
  cbn [seq fmap list_fmap concat]. rewrite length_app, IH. reflexivity.
Qed.
Abbreviation demo_greedy := (demo_params (Some (S754_zero false)) None None).
#[global] Instance demo_model :
  CausalModel demo_from_array demo_run demo_topology demo_greedy 1 1 3 demo_logits_of demo_kv_of.
Proof.
  split.
  - intros [shape data|shape data]; unfold tensor_wf, demo_from_array; intros ->; by rewrite Z.eqb_refl.
  - by exists "logits".
  - lia.
  - intros ids _. by left.
  - intros ctx _. unfold demo_kv_of. constructor; [|constructor]. cbn [fst snd]. rewrite !length_fmap. lia.
  - intros s ctx new name Hn [= <-].
    assert (cache demo_topology demo_kv_of ctx = demo_kv_of ctx) as Hc by (by destruct ctx).
    unfold model_inputs. rewrite Hc. exists tt. do 2 eexists. split; [reflexivity|].
    split; [reflexivity|]. cbn [fst snd]. rewrite length_fmap.
    assert (length new ≠ 0%nat) as Hl by (by destruct new).
    split; [rewrite demo_rows_length; lia|]. split.
    + destruct (length new) as [|n] eqn:E; [done|]. rewrite seq_S, fmap_app, concat_app.
      replace (Z.to_nat ((Z.of_nat (S n) - 1) * 3)) with (n * 3)%nat by lia.
      rewrite <- (demo_rows_length (length ctx) 0 n), drop_app_length. cbn [Nat.add fmap list_fmap concat].
      unfold demo_logits_of. by rewrite app_nil_r, length_app, E.
    + repeat constructor. do 2 eexists. unfold demo_kv_of. cbn [fst snd]. rewrite fmap_app. done.
Qed.

(** The prompt "ab" goes on with "cabc". *)
Example demo_generates :
  ref_decode demo_exp demo_sort demo_select demo_weighted demo_greedy [0; 1] 4 None demo_logits_of demo_text 4 [] 0%nat
    = Some ([2; 0; 1; 2], Fin_Length).
Proof. vm_compute. done. Qed.
Lemma generation_faithful_witness :
  ∃ gen fin chunks last g,
    ref_decode demo_exp demo_sort demo_select demo_weighted demo_greedy [0; 1] 4 None demo_logits_of demo_text
      (gen_fuel 4) [] 0%nat = Some (gen, fin) ∧
    run_loop (Json:=unit) true (λ _, "") demo_from_array demo_run (λ ids, Ok (demo_text ids))
      demo_exp demo_sort demo_select demo_weighted (λ _, true) demo_topology "r" demo_greedy [0; 1] 1 1 4 None tt 0%nat
      = Some (g, Ok ()) ∧
    runs (g_trace g) = length gen ∧ (1 ≤ length gen ≤ Nat.max 1 (Z.to_nat 4))%nat ∧
    sends (g_trace g) = Ok <$> chunks ++ [last] ∧ Forall (plain "r") chunks ∧
    concat_text (chunks ++ [last]) = demo_text gen ∧
    usage last = Some {| input_tokens := 2; output_tokens := Z.of_nat (length gen);
                         reasoning_tokens := 0; cached_tokens := 0 |} ∧
    finish_reason last = Some fin.
Proof.
  apply generation_faithful with (vocab := 3) (kv_of := demo_kv_of);
    first [apply _|discriminate|done|unfold is_u; cbn; lia].
Defined.
Lemma generation_bounded_witness :
  let loop fuel := gen_loop (Json:=unit) demo_from_array demo_run (λ ids, Ok (demo_text ids))
      demo_exp demo_sort demo_select demo_weighted (λ _, true) demo_topology "r" demo_greedy [0; 1] 1 1 4 None fuel
      (gen_init demo_topology [0; 1] tt 0%nat) in
  loop (gen_fuel 4 + 7)%nat = loop (gen_fuel 4) ∧
  ∀ g r, run_loop (Json:=unit) true (λ _, "") demo_from_array demo_run (λ ids, Ok (demo_text ids))
      demo_exp demo_sort demo_select demo_weighted (λ _, true) demo_topology "r" demo_greedy [0; 1] 1 1 4 None tt 0%nat
      = Some (g, r) → (runs (g_trace g) ≤ Nat.max 1 (Z.to_nat 4))%nat.
Proof. apply generation_bounded. done. Defined.
