(* ===== verification/OrtSession.v ===== *)
(** * ONNX Runtime sessions

    Models the rest of [inference-runtime-ort/src]: [config.rs], [session.rs] (building the
    session with its execution providers), the tokenizer's resolution in [tokenizer.rs],
    [infer.rs] (the raw tensor entry) and [OrtRunner] of [runner.rs] over them; the decoding
    loop and the topology are [OrtGenerate].  The session builder, the file system, the
    tokenizer's loader and the hub are parameters; the features [ort-cuda] and [ort-hf-hub]
    are arguments. *)
From Stdlib Require Import SpecFloat.
From S2P Require Import Prelude F64 Runtime Tokens Text Runner OrtGenerate.

(** ** Configuration (config.rs) *)

Inductive ExecutionProvider : Type := EP_Cpu | EP_Cuda | EP_TensorRt | EP_DirectMl.
Definition ExecutionProvider_default : ExecutionProvider := EP_Cpu.
Record OrtConfig : Type := {
  oc_onnx_path : string;
  oc_execution_provider : ExecutionProvider;
  oc_device_id : Z;
  oc_tokenizer_path : option string;
  oc_hf_repo : option string;
  oc_intra_threads : option Z;
  oc_default_max_new_tokens : Z
}.
Definition default_max_new_tokens : Z := 256.

(** ** Execution providers (session.rs) *)

(** What is dispatched to the builder, in order of preference. *)
Inductive Dispatch : Type := Cuda_EP (device : Z) | Cpu_EP.
Definition providers_for (ort_cuda : bool) (cfg : OrtConfig) : InferenceResult (list Dispatch) :=
  match oc_execution_provider cfg with
  | EP_Cpu => Ok [Cpu_EP]
  | EP_Cuda =>
      if ort_cuda then Ok [Cuda_EP (as_i32 (oc_device_id cfg)); Cpu_EP]
      else Err (BadRequest
        "ort: execution_provider=cuda requires the `ort-cuda` cargo feature (rebuild with --features ort,ort-cuda)")
  | EP_TensorRt => Err (BadRequest
      "ort: execution_provider=tensor_rt is not wired in this build — use the `tensorrt` runner crate instead, or open an issue if you need ORT's TensorRT EP specifically")
  | EP_DirectMl => Err (BadRequest "ort: execution_provider=direct_ml is not wired in this build")
  end.

Section session.
Context {ElementType Session Builder Tok Rng Json : Type} `{!EqDecision ElementType}.
Variables ort_cuda ort_hf_hub : bool.
(** The session builder: every call gives a new builder, or the text of its error. *)
Variable builder_new : result string Builder.
Variable with_intra_threads : Builder → Z → result string Builder.
Variable with_execution_providers : Builder → list Dispatch → result string Builder.
Variable commit_from_file : Builder → string → result string Session.
(** What a session declares. *)
Variables session_inputs session_outputs : Session → list (string * ValueType ElementType).
Variables past_re present_re : string → option (string * string).
(** [Path::parent], [Path::is_file], [Tokenizer::from_file], and the file the hub gives. *)
Variable parent : string → option string.
Variable is_file : string → bool.
Variable from_file : string → result string Tok.
Variable hub_api : result string unit.
Variable hub_get : string → result string string.

(** ** The tokenizer (tokenizer.rs) *)

Definition load (path : string) : InferenceResult Tok :=
  map_err (ort_internal ("tokenizer.json " +:+ path)) (from_file path).
Definition resolve_via_hf_hub (repo : string) : InferenceResult Tok :=
  let? _ := map_err (ort_internal "hf-hub api") hub_api in
  let? path := map_err (ort_internal ("hf-hub get " +:+ repo +:+ "/tokenizer.json")) (hub_get repo) in
  load path.
Definition resolve_tokenizer (cfg : OrtConfig) : InferenceResult (option Tok) :=
  match oc_tokenizer_path cfg with
  | Some path => let? t := load path in Ok (Some t)
  | None =>
      match sibling ← parent (oc_onnx_path cfg);
            let sibling := path_join sibling "tokenizer.json" in
            if is_file sibling then Some sibling else None with
      | Some sibling => let? t := load sibling in Ok (Some t)
      | None =>
          match oc_hf_repo cfg with
          | Some repo => if ort_hf_hub then let? t := resolve_via_hf_hub repo in Ok (Some t) else Ok None
          | None => Ok None
          end
      end
  end.

(** ** Building (session.rs) *)

Definition build_state (cfg : OrtConfig) : InferenceResult (OrtState (ElementType := ElementType) (Session := Session) * option Tok) :=
  let? builder := map_err map_ort_err builder_new in
  let? builder := match oc_intra_threads cfg with
                  | Some threads => map_err map_ort_err (with_intra_threads builder threads)
                  | None => Ok builder
                  end in
  let? eps := providers_for ort_cuda cfg in
  let? builder := match eps with [] => Ok builder | _ => map_err map_ort_err (with_execution_providers builder eps) end in
  let? session := map_err (ort_internal ("commit_from_file(" +:+ oc_onnx_path cfg +:+ ")")) (commit_from_file builder (oc_onnx_path cfg)) in
  let topology := probe past_re present_re (session_inputs session) (session_outputs session) in
  let? tokenizer := resolve_tokenizer cfg in
  Ok ({| os_session := session; os_inputs := session_inputs session; os_topology := topology;
         os_tokenizer := bool_decide (is_Some tokenizer) |}, tokenizer).

(** ** Raw inference (infer.rs) *)

Variable from_array_error : Tensor → option string.
Variable session_run : Session → list (string * Tensor) →
  Session * result string (string → option (result string (list Z * list f32))).
Abbreviation InferOutputs := (gmap string (list Z * list f32)).

(** The inputs in the order the map is iterated in. *)
Fixpoint infer_entries (inputs : list (string * Tensor)) : InferenceResult (list (string * Tensor)) :=
  match inputs with
  | [] => Ok []
  | (name, t) :: rest =>
      let? tensor := from_array from_array_error t in
      let? entries := infer_entries rest in Ok ((name, tensor) :: entries)
  end.
(** The loop over the output names: what is there as an f32 tensor. *)
Definition collect_output (outputs : string → option (result string (list Z * list f32))) (out : InferOutputs)
    (name : string) : InferOutputs :=
  match outputs name with
  | Some (Ok x) => <[name := x]> out
  | _ => out
  end.
Definition run_infer (session : Session) (inputs : list (string * Tensor)) : Session * InferenceResult InferOutputs :=
  match infer_entries inputs with
  | Err e => (session, Err e)
  | Ok entries =>
      let '(session', r) := session_run session entries in
      (session', match r with
                 | Err e => Err (map_ort_err e)
                 | Ok outputs => Ok (foldl (collect_output outputs) ∅ (fst <$> session_outputs session))
                 end)
  end.

(** ** The runner's raw entry (runner.rs) *)

Definition with_session_of (st : OrtState (ElementType := ElementType) (Session := Session)) (s : Session) :
  OrtState (ElementType := ElementType) (Session := Session) := {|
  os_session := s; os_inputs := os_inputs st; os_topology := os_topology st; os_tokenizer := os_tokenizer st
|}.
Definition ort_infer (cfg : OrtConfig) (r : OrtRunner (ElementType := ElementType) (Session := Session))
    (inputs : list (string * Tensor)) :
  OrtRunner (ElementType := ElementType) (Session := Session) * InferenceResult InferOutputs :=
  match ensure_state (let? st := build_state cfg in Ok (fst st)) r with
  | (r, Err e) => (r, Err e)
  | (r, Ok st) =>
      let '(s, res) := run_infer (os_session st) inputs in
      ({| or_state := Some (with_session_of st s) |}, res)
  end.
Definition ort_base : RunnerBase (OrtRunner (ElementType := ElementType) (Session := Session)) := {|
  runner_kind _ := RK_Ort;
  runner_transport _ := TK_LocalGpu;
  rebuild_session r cause := ort_rebuild_session cause r;
  rate_limits := rate_limits_default
|}.

(** ** What the entries guarantee *)

Lemma collect_outputs outputs names (out : InferOutputs) name :
  foldl (collect_output outputs) out names !! name =
  if bool_decide (name ∈ names) then
    match outputs name with Some (Ok x) => Some x | _ => out !! name end
  else out !! name.
Proof.
  revert out. induction names as [|n names IH]; intros out; cbn [foldl]; [done|].
  assert (collect_output outputs out n !! name =
    if decide (name = n) then match outputs name with Some (Ok x) => Some x | _ => out !! name end else out !! name) as Hn.
  { unfold collect_output. destruct (decide (name = n)) as [->|Hne].
    - destruct (outputs n) as [[x|e]|]; [by rewrite lookup_insert_eq|done..].
    - destruct (outputs n) as [[x|e]|]; [by rewrite lookup_insert_ne|done..]. }
  rewrite IH, Hn. destruct (decide (name = n)) as [->|Hne].
  - rewrite (bool_decide_true (n ∈ n :: names)) by (by left).
    case_bool_decide; [|done]. by destruct (outputs n) as [[|]|].
  - rewrite (bool_decide_ext (name ∈ n :: names) (name ∈ names)) by (rewrite elem_of_cons; intuition congruence). done.
Qed.
Lemma infer_entries_id inputs entries : infer_entries inputs = Ok entries →
  entries = inputs ∧ Forall (λ e, from_array_error (snd e) = None) inputs.
Proof.
  revert entries. induction inputs as [|[name t] rest IH]; intros entries H; cbn in H; [by simplify_eq|].
  unfold from_array in H. destruct (from_array_error t) as [e|] eqn:Ht; [done|]. cbn in H.
  destruct (infer_entries rest) as [es|e]; [|done]. cbn in H. simplify_eq.
  destruct (IH _ eq_refl) as [-> Hf]. by repeat constructor.
Qed.
(** Raw inference is exactly one run of the session: the caller's tensors go in
    unchanged, and what comes back is, for every output the session declares and only for
    those, the data the run gave under that name when it is an f32 tensor; the session is
    built once and kept, so a later call runs on the state this one left. *)
Theorem infer_runs_once (cfg : OrtConfig) (r r' : OrtRunner (ElementType := ElementType) (Session := Session))
    (inputs : list (string * Tensor)) (out : InferOutputs) :
  ort_infer cfg r inputs = (r', Ok out) →
  ∃ st session outputs,
    (or_state r = Some st ∨ or_state r = None ∧ ∃ tok, build_state cfg = Ok (st, tok)) ∧
    session_run (os_session st) inputs = (session, Ok outputs) ∧
    or_state r' = Some (with_session_of st session) ∧
    ∀ name x, out !! name = Some x ↔
      outputs name = Some (Ok x) ∧ name ∈ fst <$> session_outputs (os_session st).
Proof.
  unfold ort_infer, ensure_state, run_infer.
  destruct (get_or_try_init _ (or_state r)) as [cell [st|e]] eqn:Hcell; [|done].
  destruct (infer_entries inputs) as [entries|e] eqn:He; [|done].
  destruct (infer_entries_id _ _ He) as [-> _].
  destruct (session_run (os_session st) inputs) as [session [outputs|e]] eqn:Hrun; [|done].
  intros [= <- <-]. exists st, session, outputs. split_and!; [|done|done|].
  - destruct (get_or_try_init_ok _ _ _ _ Hcell) as [_ Hs]. destruct (or_state r) as [st0|] eqn:Hr.
    + left. by rewrite (Hs st0 eq_refl).
    + right. split; [done|]. cbn in Hcell. destruct (build_state cfg) as [[st1 tok]|e]; [|done].
      cbn in Hcell. simplify_eq. by exists tok.
  - intros name x. rewrite collect_outputs, lookup_empty. case_bool_decide.
    + split; [|by intros [-> _]]. destruct (outputs name) as [[y|e]|]; [|done..]. by intros [= ->].
    + split; [done|]. by intros [_ ?].
Qed.

(** What a built state says of its configuration: the providers it runs on, and where its
    tokenizer came from. *)
Lemma build_state_spec cfg st tok : build_state cfg = Ok (st, tok) →
  (oc_execution_provider cfg = EP_Cpu ∨ oc_execution_provider cfg = EP_Cuda ∧ ort_cuda = true) ∧
  (∃ b, commit_from_file b (oc_onnx_path cfg) = Ok (os_session st)) ∧
  os_tokenizer st = bool_decide (is_Some tok) ∧ resolve_tokenizer cfg = Ok tok ∧
  os_topology st = probe past_re present_re (session_inputs (os_session st)) (session_outputs (os_session st)).
Proof.
  unfold build_state. destruct builder_new as [b0|]; cbn [map_err]; [|done].
  destruct (match oc_intra_threads cfg with Some t => _ | None => _ end) as [b1|]; [|done].
  destruct (providers_for ort_cuda cfg) as [eps|] eqn:Hp; [|done].
  destruct (match eps with [] => _ | _ => _ end) as [b2|]; [|done].
  destruct (commit_from_file b2 _) as [s|] eqn:Hc; cbn [map_err]; [|done].
  destruct (resolve_tokenizer cfg) as [t|]; [|done]. intros [= <- <-]. cbn.
  split_and!; [|by exists b2|done..]. unfold providers_for in Hp.
  destruct (oc_execution_provider cfg); [by left|right|done..]. by destruct ort_cuda.
Qed.
(** A configured path wins and must load; without one, the file next to the model wins over
    the hub, which is asked only with its feature on. *)
Lemma resolve_tokenizer_order cfg tok : resolve_tokenizer cfg = Ok tok →
  match oc_tokenizer_path cfg with
  | Some path => ∃ t, tok = Some t ∧ from_file path = Ok t
  | None =>
      (∃ dir t, parent (oc_onnx_path cfg) = Some dir ∧ tok = Some t ∧ from_file (path_join dir "tokenizer.json") = Ok t) ∨
      (∃ repo t, oc_hf_repo cfg = Some repo ∧ ort_hf_hub = true ∧ tok = Some t) ∨ tok = None
  end.
Proof.
  unfold resolve_tokenizer, load. destruct (oc_tokenizer_path cfg) as [path|].
  - destruct (from_file path) as [t|]; cbn; [|done]. intros [= <-]. by exists t.
  - destruct (parent (oc_onnx_path cfg)) as [dir|] eqn:Hd; cbn; [destruct (is_file _)|].
    + destruct (from_file _) as [t|] eqn:Ht; cbn; [|done]. intros [= <-]. left. by exists dir, t.
    + intros H. right. destruct (oc_hf_repo cfg) as [repo|]; [|right; congruence].
      destruct ort_hf_hub; [|right; congruence]. destruct (resolve_via_hf_hub repo) as [t|]; cbn in H; [|done].
      simplify_eq. left. by exists repo, t.
    + intros H. right. destruct (oc_hf_repo cfg) as [repo|]; [|right; congruence].
      destruct ort_hf_hub; [|right; congruence]. destruct (resolve_via_hf_hub repo) as [t|]; cbn in H; [|done].
      simplify_eq. left. by exists repo, t.
Qed.
End session.

(** ** Witness *)

Definition demo_ort_config : OrtConfig := {|
  oc_onnx_path := "/m/encoder.onnx"; oc_execution_provider := EP_Cpu; oc_device_id := 0; oc_tokenizer_path := None;
  oc_hf_repo := None; oc_intra_threads := Some 2; oc_default_max_new_tokens := default_max_new_tokens
|}.
(** A session that counts its runs and gives one f32 output out of the two it declares. *)
Definition demo_raw (r : OrtRunner (ElementType := unit) (Session := nat)) (inputs : list (string * OrtGenerate.Tensor)) :
  OrtRunner (ElementType := unit) (Session := nat) * InferenceResult (gmap string (list Z * list f32)) :=
  ort_infer (Builder := unit) (Tok := unit) false false (Ok ()) (λ _ _, Ok ()) (λ _ _, Ok ()) (λ _ _, Ok 0%nat)
    (λ _, [("input_ids", VT_Other)]) (λ _, [("last_hidden_state", VT_Other); ("ids", VT_Other)]) (λ _, None) (λ _, None)
    (λ _, Some "/m") (λ _, false) (λ _, Ok ()) (Ok ()) (λ _, Ok "") (λ _, None)
    (λ s _, (S s, Ok (λ n, if decide (n = "ids") then Some (Err "i64") else Some (Ok ([1], [f32_of_Z 1])))))
    demo_ort_config r inputs.
Lemma infer_runs_once_witness :
  ∃ st session outputs, or_state (fst (demo_raw {| or_state := None |} [])) = Some (with_session_of st session) ∧
    session = 1%nat ∧
    ∀ name x, ({["last_hidden_state" := ([1], [f32_of_Z 1])]} : gmap string (list Z * list f32)) !! name = Some x ↔
      outputs name = Some (Ok x : result string (list Z * list f32)) ∧ name ∈ ["last_hidden_state"; "ids"].
Proof.
  destruct (infer_runs_once (Builder := unit) (Tok := unit) false false (Ok ()) (λ _ _, Ok ()) (λ _ _, Ok ()) (λ _ _, Ok 0%nat)
    (λ _, [("input_ids", VT_Other)]) (λ _, [("last_hidden_state", VT_Other); ("ids", VT_Other)]) (λ _, None) (λ _, None)
    (λ _, Some "/m") (λ _, false) (λ _, Ok ()) (Ok ()) (λ _, Ok "") (λ _, None)
    (λ s _, (S s, Ok (λ n, if decide (n = "ids") then Some (Err "i64") else Some (Ok ([1], [f32_of_Z 1])))))
    demo_ort_config {| or_state := None |} (fst (demo_raw {| or_state := None |} [])) []
    {["last_hidden_state" := ([1], [f32_of_Z 1])]}) as (st & session & outputs & Hst & Hrun & Hr & Hout).
  - vm_compute. reflexivity.
  - exists st, session, outputs. split; [exact Hr|]. split; [|exact Hout].
    destruct Hst as [Hst|[_ [tok Hst]]]; [done|]. vm_compute in Hst.
    injection Hst as <- _. cbn in Hrun. congruence.
Defined.
