(* ===== verification/Pipeline.v ===== *)
(** * The pipeline crate

    Models [inference-pipeline/src/lib.rs]: the adapter from a request channel to a stream
    source and the descriptor of a hybrid graph.  The streams crate is an interface: a source
    made from a receiver emits what the receiver yields; the blueprints re-exported under
    [patterns] are another crate's. *)
From S2P Require Import Prelude Tokens Deployment.

(** An unbounded channel: what was sent and not yet received, and whether a sender is left. *)
Record UnboundedReceiver (A : Type) : Type := { ur_queue : list A; ur_open : bool }.
Arguments ur_queue {A}. Arguments ur_open {A}.
(** [emit]: one pull of a source; [None] is a source that waits. *)
Inductive Pull (A : Type) : Type := Pull_Item (a : A) | Pull_End | Pull_Pending.
Arguments Pull_Item {A}. Arguments Pull_End {A}. Arguments Pull_Pending {A}.
Definition recv {A} (r : UnboundedReceiver A) : UnboundedReceiver A * Pull A :=
  match ur_queue r with
  | a :: q => ({| ur_queue := q; ur_open := ur_open r |}, Pull_Item a)
  | [] => (r, if ur_open r then Pull_Pending else Pull_End)
  end.
Class StreamSource (Source : Type → Type) : Type := {
  from_receiver {A} : UnboundedReceiver A → Source A;
  pull {A} : Source A → Source A * Pull A
}.
(** The documented behaviour: a source made from a receiver pulls from it. *)
Class StreamSourceLaws (Source : Type → Type) `{!StreamSource Source} : Prop :=
  pull_receiver : ∀ A (r : UnboundedReceiver A),
    pull (from_receiver r) = (from_receiver (fst (recv r)), snd (recv r)).

Definition request_source `{StreamSource Source} (rx : UnboundedReceiver ExecuteBatch) : Source ExecuteBatch :=
  from_receiver rx.

Record HybridGraph : Type := {
  local_classify_deployment : string; local_executor_deployment : string;
  remote_planner_deployment : string; remote_fallback_deployment : string
}.
Definition HybridGraph_new (local_classify local_executor remote_planner remote_fallback : string) : HybridGraph := {|
  local_classify_deployment := local_classify; local_executor_deployment := local_executor;
  remote_planner_deployment := remote_planner; remote_fallback_deployment := remote_fallback
|}.

(** [n] pulls in a row. *)
Fixpoint pulls `{StreamSource Source} {A} (n : nat) (s : Source A) : list (Pull A) :=
  match n with O => [] | S n' => let '(s', p) := pull s in p :: pulls n' s' end.
(** The source emits the requests in the order they were sent, none lost, and ends exactly
    when the caller has dropped every sender. *)
Theorem request_source_emits `{StreamSourceLaws Source} (rx : UnboundedReceiver ExecuteBatch) :
  pulls (S (length (ur_queue rx))) (request_source (Source := Source) rx) =
  (Pull_Item <$> ur_queue rx) ++ [if ur_open rx then Pull_Pending else Pull_End].
Proof.
  unfold request_source. destruct rx as [q o]. cbn [ur_queue ur_open].
  induction q as [|b q IH]; cbn; rewrite pull_receiver; cbn; [done|]. f_equal. exact IH.
Qed.
