(* ===== verification/Manifests.v ===== *)
(** * The workspace's manifests

    The [Cargo.toml] of every member of the workspace that the rollup crate can pull in: its
    required and optional dependencies and its feature table.  No member turns off the
    default features of another.  Dependencies of the tests are not listed; nor are the
    features asked of crates outside the workspace. *)
From S2P Require Import Prelude.

(** An entry of a feature: a feature of the same crate, [dep:d], or [d/g]. *)
Inductive Req : Type := Own (f : string) | Dep (d : string) | Fwd (d g : string).
Record Manifest : Type := {
  mf_name : string; mf_required : list string; mf_optional : list string;
  mf_features : list (string * list Req)
}.

Definition umbrella_manifest : Manifest := {|
  mf_name := "atomr-infer";
  mf_required := ["atomr-infer-core"; "atomr-infer-runtime"];
  mf_optional := ["atomr-infer-runtime-vllm"; "atomr-infer-runtime-tensorrt"; "atomr-infer-runtime-ort";
    "atomr-infer-runtime-candle"; "atomr-infer-runtime-cudarc"; "atomr-infer-runtime-mistralrs";
    "atomr-infer-runtime-openai"; "atomr-infer-runtime-anthropic"; "atomr-infer-runtime-gemini";
    "atomr-infer-runtime-litellm"; "atomr-infer-runtime-piper"; "atomr-infer-runtime-whisper-local";
    "atomr-infer-runtime-openai-tts"; "atomr-infer-runtime-openai-stt";
    "atomr-infer-runtime-openai-realtime"; "atomr-infer-runtime-elevenlabs"; "atomr-infer-runtime-deepgram";
    "atomr-infer-runtime-assemblyai"; "atomr-infer-runtime-gemini-live"; "atomr-infer-runtime-kokoro";
    "atomr-infer-runtime-xtts"; "atomr-infer-runtime-moss"; "atomr-infer-runtime-audio2face";
    "atomr-infer-pipeline"; "atomr-infer-testkit"; "atomr-accel"; "atomr-accel-cuda"; "atomr-accel-patterns"];
  mf_features := [
    ("default", []);
    ("vllm", [Dep "atomr-infer-runtime-vllm"; Fwd "atomr-infer-runtime-vllm" "vllm"]);
    ("gemma-default", [Own "vllm"; Fwd "atomr-infer-runtime-vllm" "gemma-default"]);
    ("tensorrt", [Dep "atomr-infer-runtime-tensorrt"; Fwd "atomr-infer-runtime-tensorrt" "tensorrt"]);
    ("ort", [Dep "atomr-infer-runtime-ort"; Fwd "atomr-infer-runtime-ort" "ort"]);
    ("candle", [Dep "atomr-infer-runtime-candle"; Fwd "atomr-infer-runtime-candle" "candle"; Own "accel"]);
    ("cudarc", [Dep "atomr-infer-runtime-cudarc"; Fwd "atomr-infer-runtime-cudarc" "cudarc"; Own "accel"]);
    ("mistralrs", [Dep "atomr-infer-runtime-mistralrs"; Fwd "atomr-infer-runtime-mistralrs" "mistralrs"]);
    ("tensorrt-onnx", [Own "tensorrt"; Fwd "atomr-infer-runtime-tensorrt" "tensorrt-onnx"]);
    ("tensorrt-int8", [Own "tensorrt"; Fwd "atomr-infer-runtime-tensorrt" "tensorrt-int8"]);
    ("tensorrt-fp8", [Own "tensorrt"; Fwd "atomr-infer-runtime-tensorrt" "tensorrt-fp8"]);
    ("tensorrt-plugin", [Own "tensorrt"; Fwd "atomr-infer-runtime-tensorrt" "tensorrt-plugin"]);
    ("tensorrt-link", [Own "tensorrt"; Fwd "atomr-infer-runtime-tensorrt" "tensorrt-link"]);
    ("ort-cuda", [Own "ort"; Fwd "atomr-infer-runtime-ort" "ort-cuda"]);
    ("ort-load-dynamic", [Own "ort"; Fwd "atomr-infer-runtime-ort" "ort-load-dynamic"]);
    ("ort-hf-hub", [Own "ort"; Fwd "atomr-infer-runtime-ort" "ort-hf-hub"]);
    ("openai", [Dep "atomr-infer-runtime-openai"]);
    ("anthropic", [Dep "atomr-infer-runtime-anthropic"]);
    ("gemini", [Dep "atomr-infer-runtime-gemini"]);
    ("litellm", [Dep "atomr-infer-runtime-litellm"; Own "openai"]);
    ("tts-piper", [Dep "atomr-infer-runtime-piper"; Fwd "atomr-infer-runtime-piper" "piper"]);
    ("tts-piper-cuda", [Own "tts-piper"; Fwd "atomr-infer-runtime-piper" "piper-cuda"]);
    ("tts-piper-load-dynamic", [Own "tts-piper"; Fwd "atomr-infer-runtime-piper" "piper-load-dynamic"]);
    ("tts-openai", [Dep "atomr-infer-runtime-openai-tts"; Fwd "atomr-infer-runtime-openai-tts" "tts-openai";
      Own "openai"]);
    ("tts-openai-realtime", [Dep "atomr-infer-runtime-openai-realtime";
      Fwd "atomr-infer-runtime-openai-realtime" "tts-openai-realtime"; Own "openai"]);
    ("tts-elevenlabs", [Dep "atomr-infer-runtime-elevenlabs";
      Fwd "atomr-infer-runtime-elevenlabs" "tts-elevenlabs"]);
    ("tts-gemini-live", [Dep "atomr-infer-runtime-gemini-live";
      Fwd "atomr-infer-runtime-gemini-live" "tts-gemini-live"; Own "gemini"]);
    ("tts-kokoro", [Dep "atomr-infer-runtime-kokoro"; Fwd "atomr-infer-runtime-kokoro" "tts-kokoro"]);
    ("tts-kokoro-cuda", [Own "tts-kokoro"; Fwd "atomr-infer-runtime-kokoro" "tts-kokoro-cuda"]);
    ("tts-kokoro-load-dynamic", [Own "tts-kokoro";
      Fwd "atomr-infer-runtime-kokoro" "tts-kokoro-load-dynamic"]);
    ("tts-xtts", [Dep "atomr-infer-runtime-xtts"; Fwd "atomr-infer-runtime-xtts" "tts-xtts"]);
    ("tts-xtts-cuda", [Own "tts-xtts"; Fwd "atomr-infer-runtime-xtts" "tts-xtts-cuda"]);
    ("tts-xtts-load-dynamic", [Own "tts-xtts"; Fwd "atomr-infer-runtime-xtts" "tts-xtts-load-dynamic"]);
    ("tts-moss", [Dep "atomr-infer-runtime-moss"; Fwd "atomr-infer-runtime-moss" "tts-moss"]);
    ("stt-whisper", [Dep "atomr-infer-runtime-whisper-local";
      Fwd "atomr-infer-runtime-whisper-local" "stt-whisper"]);
    ("stt-whisper-cuda", [Own "stt-whisper"; Fwd "atomr-infer-runtime-whisper-local" "stt-whisper-cuda"]);
    ("stt-whisper-metal", [Own "stt-whisper"; Fwd "atomr-infer-runtime-whisper-local" "stt-whisper-metal"]);
    ("stt-whisper-coreml", [Own "stt-whisper"; Fwd "atomr-infer-runtime-whisper-local" "stt-whisper-coreml"]);
    ("stt-whisper-vulkan", [Own "stt-whisper"; Fwd "atomr-infer-runtime-whisper-local" "stt-whisper-vulkan"]);
    ("stt-whisper-openblas", [Own "stt-whisper";
      Fwd "atomr-infer-runtime-whisper-local" "stt-whisper-openblas"]);
    ("stt-openai", [Dep "atomr-infer-runtime-openai-stt"; Fwd "atomr-infer-runtime-openai-stt" "stt-openai";
      Own "openai"]);
    ("stt-deepgram", [Dep "atomr-infer-runtime-deepgram"; Fwd "atomr-infer-runtime-deepgram" "stt-deepgram"]);
    ("stt-assemblyai", [Dep "atomr-infer-runtime-assemblyai";
      Fwd "atomr-infer-runtime-assemblyai" "stt-assemblyai"]);
    ("audio2face", [Dep "atomr-infer-runtime-audio2face"; Fwd "atomr-infer-runtime-audio2face" "audio2face"]);
    ("tts-remote-all", [Own "tts-openai"; Own "tts-openai-realtime"; Own "tts-elevenlabs";
      Own "tts-gemini-live"]);
    ("tts-local-all", [Own "tts-piper"; Own "tts-kokoro"; Own "tts-xtts"; Own "tts-moss"]);
    ("tts-all", [Own "tts-remote-all"; Own "tts-local-all"]);
    ("stt-remote-all", [Own "stt-openai"; Own "stt-deepgram"; Own "stt-assemblyai"]);
    ("stt-local-all", [Own "stt-whisper"]);
    ("stt-all", [Own "stt-remote-all"; Own "stt-local-all"]);
    ("audio-all", [Own "tts-all"; Own "stt-all"; Own "audio2face"]);
    ("pipeline", [Dep "atomr-infer-pipeline"]);
    ("testkit", [Dep "atomr-infer-testkit"]);
    ("accel", [Dep "atomr-accel"; Dep "atomr-accel-cuda"; Fwd "atomr-infer-runtime" "local-gpu"]);
    ("accel-patterns", [Dep "atomr-accel-patterns"; Own "pipeline";
      Fwd "atomr-infer-pipeline" "cuda-patterns"]);
    ("all-native", [Own "tensorrt"; Own "ort"; Own "candle"; Own "cudarc"; Own "mistralrs";
      Own "tts-local-all"; Own "stt-local-all"]);
    ("all-python", [Own "vllm"]);
    ("all-local", [Own "all-native"; Own "all-python"]);
    ("all-remote", [Own "openai"; Own "anthropic"; Own "gemini"; Own "litellm"; Own "tts-remote-all";
      Own "stt-remote-all"]);
    ("all-runtimes", [Own "all-local"; Own "all-remote"; Own "accel-patterns"]);
    ("default-prod", [Own "vllm"; Own "tensorrt"; Own "ort"; Own "openai"; Own "anthropic"; Own "pipeline"]);
    ("remote-only", [Own "all-remote"; Own "pipeline"])]
|}.
Definition core_manifest : Manifest := {|
  mf_name := "atomr-infer-core";
  mf_required := ["serde"; "serde_json"; "thiserror"; "bytes"; "secrecy"; "async-trait"; "futures"; "url";
    "chrono"; "tokio"];
  mf_optional := [];
  mf_features := []
|}.
Definition pipeline_manifest : Manifest := {|
  mf_name := "atomr-infer-pipeline";
  mf_required := ["atomr-infer-core"; "atomr-infer-runtime"; "atomr-streams"; "tokio"; "async-trait";
    "futures"; "tracing"];
  mf_optional := ["atomr-accel-patterns"];
  mf_features := [
    ("default", []);
    ("cuda-patterns", [Dep "atomr-accel-patterns"])]
|}.
Definition python_bridge_manifest : Manifest := {|
  mf_name := "atomr-infer-python-bridge";
  mf_required := ["atomr-infer-core"];
  mf_optional := ["pyo3"; "tokio"; "parking_lot"];
  mf_features := [
    ("default", []);
    ("python", [Dep "pyo3"; Dep "tokio"; Dep "parking_lot"])]
|}.
Definition remote_core_manifest : Manifest := {|
  mf_name := "atomr-infer-remote-core";
  mf_required := ["atomr-infer-core"; "atomr-core"; "atomr-distributed-data"; "reqwest"; "hyper";
    "eventsource-stream"; "tower"; "tokio"; "async-trait"; "futures"; "futures-util"; "parking_lot";
    "arc-swap"; "tracing"; "serde"; "serde_json"; "thiserror"; "secrecy"; "url"; "bytes"; "chrono"];
  mf_optional := [];
  mf_features := []
|}.
Definition runtime_manifest : Manifest := {|
  mf_name := "atomr-infer-runtime";
  mf_required := ["atomr-infer-core"; "atomr-core"; "atomr-config"; "atomr-cluster-tools";
    "atomr-distributed-data"; "axum"; "tower"; "tokio"; "async-trait"; "chrono"; "futures"; "parking_lot";
    "arc-swap"; "tracing"; "serde"; "serde_json"; "thiserror"; "url"; "bytes"];
  mf_optional := ["atomr-accel"; "atomr-accel-cuda"];
  mf_features := [
    ("default", []);
    ("local-gpu", [Dep "atomr-accel"; Dep "atomr-accel-cuda"])]
|}.
Definition runtime_anthropic_manifest : Manifest := {|
  mf_name := "atomr-infer-runtime-anthropic";
  mf_required := ["atomr-infer-core"; "atomr-infer-runtime"; "atomr-infer-remote-core"; "reqwest"; "tokio";
    "async-trait"; "futures"; "futures-util"; "serde"; "serde_json"; "secrecy"; "tracing"; "url";
    "arc-swap"; "once_cell"];
  mf_optional := [];
  mf_features := []
|}.
Definition runtime_assemblyai_manifest : Manifest := {|
  mf_name := "atomr-infer-runtime-assemblyai";
  mf_required := ["atomr-infer-core"; "async-trait"; "thiserror"];
  mf_optional := ["atomr-infer-runtime-ws-core"; "atomr-infer-remote-core"; "tokio"; "tokio-stream";
    "futures"; "serde"; "serde_json"; "secrecy"; "url"; "bytes"; "tracing"; "arc-swap"];
  mf_features := [
    ("default", []);
    ("stt-assemblyai", [Dep "tokio"; Dep "tokio-stream"; Dep "futures"; Dep "serde"; Dep "serde_json";
      Dep "secrecy"; Dep "url"; Dep "bytes"; Dep "tracing"; Dep "arc-swap";
      Dep "atomr-infer-runtime-ws-core"; Dep "atomr-infer-remote-core"])]
|}.
Definition runtime_audio2face_manifest : Manifest := {|
  mf_name := "atomr-infer-runtime-audio2face";
  mf_required := ["atomr-infer-core"; "async-trait"; "bytes"; "futures"; "serde"; "thiserror"; "tokio";
    "tokio-stream"; "tracing"; "tonic"; "prost"];
  mf_optional := [];
  mf_features := [
    ("audio2face", [])]
|}.
Definition runtime_candle_manifest : Manifest := {|
  mf_name := "atomr-infer-runtime-candle";
  mf_required := ["atomr-infer-core"; "atomr-infer-runtime"; "async-trait"; "serde"];
  mf_optional := ["candle-core"; "candle-nn"; "candle-transformers"; "atomr-accel"];
  mf_features := [
    ("default", []);
    ("candle", [Dep "candle-core"; Dep "candle-nn"; Dep "candle-transformers"; Dep "atomr-accel"])]
|}.
Definition runtime_cudarc_manifest : Manifest := {|
  mf_name := "atomr-infer-runtime-cudarc";
  mf_required := ["atomr-infer-core"; "atomr-infer-runtime"; "async-trait"; "serde"];
  mf_optional := ["cudarc"; "atomr-accel"];
  mf_features := [
    ("default", []);
    ("cudarc", [Dep "cudarc"; Dep "atomr-accel"])]
|}.
Definition runtime_deepgram_manifest : Manifest := {|
  mf_name := "atomr-infer-runtime-deepgram";
  mf_required := ["atomr-infer-core"; "async-trait"; "thiserror"];
  mf_optional := ["atomr-infer-runtime-ws-core"; "atomr-infer-remote-core"; "tokio"; "tokio-stream";
    "futures"; "serde"; "serde_json"; "secrecy"; "url"; "bytes"; "tracing"; "arc-swap"];
  mf_features := [
    ("default", []);
    ("stt-deepgram", [Dep "tokio"; Dep "tokio-stream"; Dep "futures"; Dep "serde"; Dep "serde_json";
      Dep "secrecy"; Dep "url"; Dep "bytes"; Dep "tracing"; Dep "arc-swap";
      Dep "atomr-infer-runtime-ws-core"; Dep "atomr-infer-remote-core"])]
|}.
Definition runtime_elevenlabs_manifest : Manifest := {|
  mf_name := "atomr-infer-runtime-elevenlabs";
  mf_required := ["atomr-infer-core"; "async-trait"; "thiserror"];
  mf_optional := ["atomr-infer-runtime-ws-core"; "atomr-infer-remote-core"; "reqwest"; "tokio";
    "tokio-stream"; "futures"; "futures-util"; "serde"; "serde_json"; "secrecy"; "url"; "bytes"; "tracing";
    "arc-swap"; "base64"];
  mf_features := [
    ("default", []);
    ("tts-elevenlabs", [Dep "reqwest"; Dep "tokio"; Dep "tokio-stream"; Dep "futures"; Dep "futures-util";
      Dep "serde"; Dep "serde_json"; Dep "secrecy"; Dep "url"; Dep "bytes"; Dep "tracing"; Dep "arc-swap";
      Dep "base64"; Dep "atomr-infer-runtime-ws-core"; Dep "atomr-infer-remote-core"])]
|}.
Definition runtime_gemini_manifest : Manifest := {|
  mf_name := "atomr-infer-runtime-gemini";
  mf_required := ["atomr-infer-core"; "atomr-infer-runtime"; "atomr-infer-remote-core"; "reqwest"; "tokio";
    "async-trait"; "futures"; "futures-util"; "serde"; "serde_json"; "secrecy"; "tracing"; "url";
    "arc-swap"; "once_cell"];
  mf_optional := [];
  mf_features := []
|}.
Definition runtime_gemini_live_manifest : Manifest := {|
  mf_name := "atomr-infer-runtime-gemini-live";
  mf_required := ["atomr-infer-core"; "async-trait"; "thiserror"];
  mf_optional := ["atomr-infer-runtime-ws-core"; "atomr-infer-remote-core"; "tokio"; "futures"; "serde";
    "serde_json"; "secrecy"; "url"; "bytes"; "base64"; "tracing"; "arc-swap"];
  mf_features := [
    ("default", []);
    ("tts-gemini-live", [Dep "tokio"; Dep "futures"; Dep "serde"; Dep "serde_json"; Dep "secrecy";
      Dep "url"; Dep "bytes"; Dep "base64"; Dep "tracing"; Dep "arc-swap";
      Dep "atomr-infer-runtime-ws-core"; Dep "atomr-infer-remote-core"])]
|}.
Definition runtime_kokoro_manifest : Manifest := {|
  mf_name := "atomr-infer-runtime-kokoro";
  mf_required := ["atomr-infer-core"; "async-trait"; "bytes"; "serde"; "serde_json"; "thiserror"];
  mf_optional := ["ort"; "ndarray"; "tokio"; "tokio-stream"; "futures"; "parking_lot"; "tracing"];
  mf_features := [
    ("default", []);
    ("tts-kokoro", [Dep "ort"; Dep "ndarray"; Dep "tokio"; Dep "tokio-stream"; Dep "futures";
      Dep "parking_lot"; Dep "tracing"]);
    ("tts-kokoro-cuda", [Own "tts-kokoro"; Fwd "ort" "cuda"]);
    ("tts-kokoro-load-dynamic", [Own "tts-kokoro"; Fwd "ort" "load-dynamic"])]
|}.
Definition runtime_litellm_manifest : Manifest := {|
  mf_name := "atomr-infer-runtime-litellm";
  mf_required := ["atomr-infer-core"; "atomr-infer-runtime"; "atomr-infer-remote-core";
    "atomr-infer-runtime-openai"; "async-trait"; "serde"; "serde_json"; "url"; "arc-swap"; "tracing"];
  mf_optional := [];
  mf_features := []
|}.
Definition runtime_mistralrs_manifest : Manifest := {|
  mf_name := "atomr-infer-runtime-mistralrs";
  mf_required := ["atomr-infer-core"; "atomr-infer-runtime"; "async-trait"; "serde"; "tracing"];
  mf_optional := ["mistralrs"; "tokio"; "tokio-stream"; "futures"];
  mf_features := [
    ("default", []);
    ("mistralrs", [Dep "mistralrs"; Dep "tokio"; Dep "tokio-stream"; Dep "futures"])]
|}.
Definition runtime_moss_manifest : Manifest := {|
  mf_name := "atomr-infer-runtime-moss";
  mf_required := ["atomr-infer-core"; "async-trait"; "bytes"; "serde"; "serde_json"; "thiserror"];
  mf_optional := ["tokio"; "tokio-stream"; "futures"; "tracing"];
  mf_features := [
    ("default", []);
    ("tts-moss", [Dep "tokio"; Dep "tokio-stream"; Dep "futures"; Dep "tracing"])]
|}.
Definition runtime_openai_manifest : Manifest := {|
  mf_name := "atomr-infer-runtime-openai";
  mf_required := ["atomr-infer-core"; "atomr-infer-runtime"; "atomr-infer-remote-core"; "reqwest"; "tokio";
    "async-trait"; "futures"; "futures-util"; "serde"; "serde_json"; "secrecy"; "tracing"; "url"; "bytes";
    "thiserror"; "arc-swap"; "once_cell"];
  mf_optional := [];
  mf_features := []
|}.
Definition runtime_openai_realtime_manifest : Manifest := {|
  mf_name := "atomr-infer-runtime-openai-realtime";
  mf_required := ["atomr-infer-core"; "atomr-infer-runtime-ws-core"; "tokio"; "async-trait"; "futures";
    "futures-util"; "serde"; "serde_json"; "secrecy"; "tracing"; "url"; "bytes"; "thiserror"; "once_cell";
    "base64"];
  mf_optional := [];
  mf_features := [
    ("default", []);
    ("tts-openai-realtime", [])]
|}.
Definition runtime_openai_stt_manifest : Manifest := {|
  mf_name := "atomr-infer-runtime-openai-stt";
  mf_required := ["atomr-infer-core"; "async-trait"; "thiserror"];
  mf_optional := ["atomr-infer-runtime-openai"; "atomr-infer-remote-core"; "reqwest"; "tokio"; "futures";
    "serde"; "serde_json"; "secrecy"; "url"; "bytes"; "tracing"; "arc-swap"];
  mf_features := [
    ("default", []);
    ("stt-openai", [Dep "reqwest"; Dep "tokio"; Dep "futures"; Dep "serde"; Dep "serde_json"; Dep "secrecy";
      Dep "url"; Dep "bytes"; Dep "tracing"; Dep "arc-swap"; Dep "atomr-infer-runtime-openai";
      Dep "atomr-infer-remote-core"])]
|}.
Definition runtime_openai_tts_manifest : Manifest := {|
  mf_name := "atomr-infer-runtime-openai-tts";
  mf_required := ["atomr-infer-core"; "async-trait"; "thiserror"];
  mf_optional := ["atomr-infer-runtime-openai"; "atomr-infer-remote-core"; "reqwest"; "tokio"; "futures";
    "futures-util"; "serde"; "serde_json"; "secrecy"; "url"; "bytes"; "tracing"; "arc-swap"];
  mf_features := [
    ("default", []);
    ("tts-openai", [Dep "reqwest"; Dep "tokio"; Dep "futures"; Dep "futures-util"; Dep "serde";
      Dep "serde_json"; Dep "secrecy"; Dep "url"; Dep "bytes"; Dep "tracing"; Dep "arc-swap";
      Dep "atomr-infer-runtime-openai"; Dep "atomr-infer-remote-core"])]
|}.
Definition runtime_ort_manifest : Manifest := {|
  mf_name := "atomr-infer-runtime-ort";
  mf_required := ["atomr-infer-core"; "atomr-infer-runtime"; "async-trait"; "serde"];
  mf_optional := ["ort"; "tokenizers"; "ndarray"; "rand"; "half"; "tokio"; "tokio-stream"; "futures";
    "parking_lot"; "tracing"; "regex"; "hf-hub"];
  mf_features := [
    ("default", []);
    ("ort", [Dep "ort"; Dep "tokenizers"; Dep "ndarray"; Dep "rand"; Dep "half"; Dep "tokio";
      Dep "tokio-stream"; Dep "futures"; Dep "parking_lot"; Dep "tracing"; Dep "regex"]);
    ("ort-cuda", [Own "ort"; Fwd "ort" "cuda"]);
    ("ort-load-dynamic", [Own "ort"; Fwd "ort" "load-dynamic"]);
    ("ort-hf-hub", [Own "ort"; Dep "hf-hub"])]
|}.
Definition runtime_piper_manifest : Manifest := {|
  mf_name := "atomr-infer-runtime-piper";
  mf_required := ["atomr-infer-core"; "async-trait"; "bytes"; "serde"; "serde_json"; "thiserror"];
  mf_optional := ["ort"; "ndarray"; "tokio"; "tokio-stream"; "futures"; "parking_lot"; "tracing"];
  mf_features := [
    ("default", []);
    ("piper", [Dep "ort"; Dep "ndarray"; Dep "tokio"; Dep "tokio-stream"; Dep "futures"; Dep "parking_lot";
      Dep "tracing"]);
    ("piper-cuda", [Own "piper"; Fwd "ort" "cuda"]);
    ("piper-load-dynamic", [Own "piper"; Fwd "ort" "load-dynamic"])]
|}.
Definition runtime_tensorrt_manifest : Manifest := {|
  mf_name := "atomr-infer-runtime-tensorrt";
  mf_required := ["atomr-infer-core"; "atomr-infer-runtime"; "async-trait"; "serde"; "tracing"];
  mf_optional := ["atomr-accel-tensorrt"; "cudarc"; "parking_lot"];
  mf_features := [
    ("default", []);
    ("tensorrt", [Dep "atomr-accel-tensorrt"; Dep "cudarc"; Dep "parking_lot"]);
    ("tensorrt-onnx", [Own "tensorrt"; Fwd "atomr-accel-tensorrt" "tensorrt-onnx"]);
    ("tensorrt-int8", [Own "tensorrt"; Fwd "atomr-accel-tensorrt" "tensorrt-int8"]);
    ("tensorrt-fp8", [Own "tensorrt"; Fwd "atomr-accel-tensorrt" "tensorrt-fp8"]);
    ("tensorrt-plugin", [Own "tensorrt"; Fwd "atomr-accel-tensorrt" "tensorrt-plugin"]);
    ("tensorrt-link", [Own "tensorrt"; Fwd "atomr-accel-tensorrt" "tensorrt-link"])]
|}.
Definition runtime_vllm_manifest : Manifest := {|
  mf_name := "atomr-infer-runtime-vllm";
  mf_required := ["atomr-infer-core"; "atomr-infer-runtime"; "atomr-infer-python-bridge"; "async-trait";
    "serde"; "tracing"; "thiserror"];
  mf_optional := ["pyo3"; "tokio"; "tokio-stream"; "futures"; "parking_lot"; "hf-hub"; "dirs"; "atomr-core";
    "serde_json"];
  mf_features := [
    ("default", []);
    ("vllm", [Fwd "atomr-infer-python-bridge" "python"; Dep "pyo3"; Dep "tokio"; Dep "tokio-stream";
      Dep "futures"; Dep "parking_lot"]);
    ("gemma-default", [Own "vllm"; Dep "hf-hub"; Dep "dirs"; Dep "atomr-core"; Dep "serde_json"])]
|}.
Definition runtime_whisper_local_manifest : Manifest := {|
  mf_name := "atomr-infer-runtime-whisper-local";
  mf_required := ["atomr-infer-core"; "async-trait"; "bytes"; "serde"; "serde_json"; "thiserror"];
  mf_optional := ["whisper-rs"; "tokio"; "tokio-stream"; "futures"; "parking_lot"; "tracing"];
  mf_features := [
    ("default", []);
    ("stt-whisper", [Dep "whisper-rs"; Dep "tokio"; Dep "tokio-stream"; Dep "futures"; Dep "parking_lot";
      Dep "tracing"]);
    ("stt-whisper-cuda", [Own "stt-whisper"; Fwd "whisper-rs" "cuda"]);
    ("stt-whisper-metal", [Own "stt-whisper"; Fwd "whisper-rs" "metal"]);
    ("stt-whisper-coreml", [Own "stt-whisper"; Fwd "whisper-rs" "coreml"]);
    ("stt-whisper-vulkan", [Own "stt-whisper"; Fwd "whisper-rs" "vulkan"]);
    ("stt-whisper-openblas", [Own "stt-whisper"; Fwd "whisper-rs" "openblas"])]
|}.
Definition runtime_ws_core_manifest : Manifest := {|
  mf_name := "atomr-infer-runtime-ws-core";
  mf_required := ["atomr-infer-core"; "atomr-infer-remote-core"; "async-trait"; "bytes"; "futures";
    "futures-util"; "thiserror"; "tokio"; "tokio-tungstenite"; "tracing"; "url"];
  mf_optional := [];
  mf_features := []
|}.
Definition runtime_xtts_manifest : Manifest := {|
  mf_name := "atomr-infer-runtime-xtts";
  mf_required := ["atomr-infer-core"; "async-trait"; "bytes"; "serde"; "serde_json"; "thiserror"];
  mf_optional := ["ort"; "ndarray"; "tokio"; "tokio-stream"; "futures"; "parking_lot"; "tracing"];
  mf_features := [
    ("default", []);
    ("tts-xtts", [Dep "ort"; Dep "ndarray"; Dep "tokio"; Dep "tokio-stream"; Dep "futures";
      Dep "parking_lot"; Dep "tracing"]);
    ("tts-xtts-cuda", [Own "tts-xtts"; Fwd "ort" "cuda"]);
    ("tts-xtts-load-dynamic", [Own "tts-xtts"; Fwd "ort" "load-dynamic"])]
|}.
Definition testkit_manifest : Manifest := {|
  mf_name := "atomr-infer-testkit";
  mf_required := ["atomr-infer-core"; "atomr-infer-runtime"; "atomr-infer-remote-core"; "async-trait";
    "atomr-config"; "atomr-core"; "bytes"; "futures"; "serde"; "serde_json"; "tokio"; "tokio-tungstenite";
    "tracing"; "wiremock"];
  mf_optional := [];
  mf_features := []
|}.
(** The members of the workspace the rollup can pull in. *)
Definition workspace : list Manifest := [
  umbrella_manifest; core_manifest; pipeline_manifest; python_bridge_manifest; remote_core_manifest;
  runtime_manifest; runtime_anthropic_manifest; runtime_assemblyai_manifest; runtime_audio2face_manifest;
  runtime_candle_manifest; runtime_cudarc_manifest; runtime_deepgram_manifest; runtime_elevenlabs_manifest;
  runtime_gemini_manifest; runtime_gemini_live_manifest; runtime_kokoro_manifest; runtime_litellm_manifest;
  runtime_mistralrs_manifest; runtime_moss_manifest; runtime_openai_manifest;
  runtime_openai_realtime_manifest; runtime_openai_stt_manifest; runtime_openai_tts_manifest;
  runtime_ort_manifest; runtime_piper_manifest; runtime_tensorrt_manifest; runtime_vllm_manifest;
  runtime_whisper_local_manifest; runtime_ws_core_manifest; runtime_xtts_manifest; testkit_manifest].
