(* ===== verification/Rollup.v ===== *)
(** * The rollup crate

    Models [inference/src/lib.rs], whose content is a table of re-exports behind features, and
    the choice of features that decides what a build compiles: an item is a crate that is built,
    a feature that is on or a dependency that a crate has enabled, and each item forces others
    as the manifests of [Manifests] say.  A path of a crate resolves in another only through a
    dependency that the other has itself enabled, however many more crates build it.
    A build is the least set of items closed under that, computed by [resolve]. *)
From S2P Require Import Prelude Manifests.

(** ** Feature resolution *)

(** [DepOn c d]: the dependency of crate [c] on [d] is enabled. *)
Inductive Item : Type := Built (c : string) | Feat (c f : string) | DepOn (c d : string).
Definition item_eqb (i j : Item) : bool :=
  match i, j with
  | Built c, Built d => String.eqb c d
  | Feat c f, Feat d g => String.eqb f g && String.eqb c d
  | DepOn c e, DepOn d f => String.eqb e f && String.eqb c d
  | _, _ => false
  end.
Definition mem (i : Item) (l : list Item) : bool := existsb (item_eqb i) l.
Lemma item_eqb_eq i j : item_eqb i j = true ↔ i = j.
Proof. destruct i, j; cbn; rewrite ?andb_true_iff, ?String.eqb_eq; naive_solver. Qed.
Lemma mem_spec i l : mem i l = true ↔ i ∈ l.
Proof.
  unfold mem. rewrite existsb_exists, list_elem_of_In. split.
  - intros (j & Hj & E). by apply item_eqb_eq in E as <-.
  - intros Hi. exists i. by rewrite item_eqb_eq.
Qed.

Section resolution.
Variable ws : list Manifest.
Definition manifest_of (c : string) : option Manifest := List.find (λ m, String.eqb (mf_name m) c) ws.
Definition req_items (c : string) (r : Req) : list Item :=
  match r with Own g => [Feat c g] | Dep d => [DepOn c d] | Fwd d g => [DepOn c d; Feat d g] end.
Definition feature_reqs (m : Manifest) (f : string) : list Req :=
  default [] (snd <$> List.find (λ kv, String.eqb (fst kv) f) (mf_features m)).
(** What an item forces; a crate outside the workspace forces nothing here. *)
Definition consequences (i : Item) : list Item :=
  match i with
  | Built c =>
      match manifest_of c with
      | Some m => Feat c "default" :: (DepOn c <$> mf_required m)
      | None => []
      end
  | DepOn _ d => [Built d]
  | Feat c f =>
      match manifest_of c with
      | Some m => concat (req_items c <$> feature_reqs m f)
      | None => []
      end
  end.
Inductive on (S : list Item) : Item → Prop :=
  | On_root i : i ∈ S → on S i
  | On_step i j : on S i → j ∈ consequences i → on S j.

Fixpoint resolve (fuel : nat) (todo seen : list Item) : list Item :=
  match fuel, todo with
  | _, [] | O, _ => seen
  | Datatypes.S n, i :: r =>
      if mem i seen then resolve n r seen else resolve n (consequences i ++ r) (i :: seen)
  end.
Definition closed (S T : list Item) : bool :=
  forallb (λ i, mem i T) S && forallb (λ i, forallb (λ j, mem j T) (consequences i)) T.

Lemma resolve_sound S fuel todo seen i :
  (∀ j, j ∈ todo ∨ j ∈ seen → on S j) → i ∈ resolve fuel todo seen → on S i.
Proof.
  revert todo seen. induction fuel as [|n IH]; intros [|x r] seen Hon Hi; cbn in Hi; [by auto..|].
  destruct (mem x seen); eapply IH; [|exact Hi| |exact Hi]; intros j Hj.
  - apply Hon. rewrite elem_of_cons. tauto.
  - rewrite elem_of_app, elem_of_cons in Hj. assert (on S x) as Hx by (apply Hon; left; by left).
    destruct Hj as [[Hj|Hj]|[->|Hj]]; [by eapply On_step| |done|]; apply Hon; rewrite ?elem_of_cons; tauto.
Qed.
Lemma closed_complete S T i : closed S T = true → on S i → i ∈ T.
Proof.
  unfold closed. rewrite andb_true_iff, !forallb_forall. intros [HS HT] Hi.
  induction Hi as [i Hi|i j _ IH Hj]; [by apply mem_spec, HS, list_elem_of_In|].
  apply list_elem_of_In, HT in IH. rewrite forallb_forall in IH. by apply mem_spec, IH, list_elem_of_In.
Qed.
(** A computed set that is closed is the build. *)
Lemma resolve_exact S fuel i :
  closed S (resolve fuel S []) = true → on S i ↔ i ∈ resolve fuel S [].
Proof.
  intros Hc. split; [by apply closed_complete|]. apply resolve_sound. intros j [Hj|Hj]; [by constructor|].
  by apply not_elem_of_nil in Hj.
Qed.
Lemma resolve_in S fuel i : mem i (resolve fuel S []) = true → on S i.
Proof.
  intros Hi%mem_spec. revert Hi. apply resolve_sound. intros j [Hj|Hj]; [by constructor|by apply not_elem_of_nil in Hj].
Qed.
Lemma on_mono S T i : (∀ j, j ∈ S → on T j) → on S i → on T i.
Proof. intros HST Hi. induction Hi; [auto|by eapply On_step]. Qed.
(** Each item is forced by one of the roots. *)
Lemma on_split S i : on S i → ∃ s, s ∈ S ∧ on [s] i.
Proof.
  intros Hi. induction Hi as [i Hi|i j _ (s & Hs & IH) Hj]; [exists i; split; [done|constructor; by left]|].
  exists s. split; [done|by eapply On_step].
Qed.
End resolution.

(** ** The re-exports of lib.rs *)

(** Feature, crate and the name it is re-exported under; [core] and [runtime] are always
    there, and so is the [prelude], which names items of those two. *)
Definition reexports : list (string * string * string) := [
  ("candle", "atomr-infer-runtime-candle", "runtime_candle");
  ("cudarc", "atomr-infer-runtime-cudarc", "runtime_cudarc");
  ("mistralrs", "atomr-infer-runtime-mistralrs", "runtime_mistralrs");
  ("ort", "atomr-infer-runtime-ort", "runtime_ort");
  ("tensorrt", "atomr-infer-runtime-tensorrt", "runtime_tensorrt");
  ("vllm", "atomr-infer-runtime-vllm", "runtime_vllm");
  ("anthropic", "atomr-infer-runtime-anthropic", "runtime_anthropic");
  ("gemini", "atomr-infer-runtime-gemini", "runtime_gemini");
  ("litellm", "atomr-infer-runtime-litellm", "runtime_litellm");
  ("openai", "atomr-infer-runtime-openai", "runtime_openai");
  ("stt-assemblyai", "atomr-infer-runtime-assemblyai", "runtime_stt_assemblyai");
  ("audio2face", "atomr-infer-runtime-audio2face", "runtime_audio2face");
  ("stt-deepgram", "atomr-infer-runtime-deepgram", "runtime_stt_deepgram");
  ("tts-elevenlabs", "atomr-infer-runtime-elevenlabs", "runtime_tts_elevenlabs");
  ("tts-gemini-live", "atomr-infer-runtime-gemini-live", "runtime_tts_gemini_live");
  ("tts-kokoro", "atomr-infer-runtime-kokoro", "runtime_tts_kokoro");
  ("tts-moss", "atomr-infer-runtime-moss", "runtime_tts_moss");
  ("tts-openai-realtime", "atomr-infer-runtime-openai-realtime", "runtime_tts_openai_realtime");
  ("stt-openai", "atomr-infer-runtime-openai-stt", "runtime_stt_openai");
  ("tts-openai", "atomr-infer-runtime-openai-tts", "runtime_tts_openai");
  ("tts-piper", "atomr-infer-runtime-piper", "runtime_tts_piper");
  ("stt-whisper", "atomr-infer-runtime-whisper-local", "runtime_stt_whisper");
  ("tts-xtts", "atomr-infer-runtime-xtts", "runtime_tts_xtts");
  ("pipeline", "atomr-infer-pipeline", "pipeline"); ("testkit", "atomr-infer-testkit", "testkit");
  ("accel", "atomr-accel", "accel"); ("accel", "atomr-accel-cuda", "accel_cuda");
  ("accel-patterns", "atomr-accel-patterns", "accel_patterns")].
Definition always_reexported : list (string * string) :=
  [("atomr-infer-core", "core"); ("atomr-infer-runtime", "runtime")].
(** [defaults::gemma]: a module of a crate, by feature. *)
Definition defaults_module : string * string := ("gemma-default", "atomr-infer-runtime-vllm").

(** The roots of a build of the rollup with the given features. *)
Definition rollup (fs : list string) : list Item :=
  Built "atomr-infer" :: (Feat "atomr-infer" <$> fs).
Abbreviation build fs := (on workspace (rollup fs)).
(** The [pub use] of crate [c] is compiled into the rollup. *)
Definition visible (fs : list string) (c : string) : Prop :=
  ∃ f alias, (f, c, alias) ∈ reexports ∧ build fs (Feat "atomr-infer" f).

(** ** What a build contains *)

Definition fuel : nat := 4000.
Definition resolved (s : Item) : list Item := resolve workspace fuel [s] [].
(** The features the rollup declares, each resolved alone: the sets are closed, and the
    backends in each, built or depended on, are re-exported by it. *)
Definition single_ok (s : Item) : bool :=
  let T := resolved s in
  closed workspace [s] T &&
  forallb (λ c, negb (mem (Built c) T || mem (DepOn "atomr-infer" c) T) ||
    existsb (λ x, String.eqb (snd (fst x)) c && mem (Feat "atomr-infer" (fst (fst x))) T) reexports)
    (mf_optional umbrella_manifest).
Definition singles : list Item := Built "atomr-infer" :: (Feat "atomr-infer" <$> (mf_features umbrella_manifest).*1).
Lemma singles_ok : forallb single_ok singles = true.
Proof. vm_compute. reflexivity. Qed.
Lemma single_ok_of s : s ∈ singles → single_ok s = true.
Proof.
  intros Hs. exact (proj1 (forallb_forall single_ok singles) singles_ok s (proj1 (list_elem_of_In singles s) Hs)).
Qed.
Lemma reexports_ok :
  forallb (λ x, mem (DepOn "atomr-infer" (snd (fst x))) (resolved (Feat "atomr-infer" (fst (fst x))))) reexports = true.
Proof. vm_compute. reflexivity. Qed.
(** The backends that compile to a stub unless a feature of their own is on. *)
Definition own_feature : list (string * string) := [
  ("atomr-infer-runtime-candle", "candle"); ("atomr-infer-runtime-cudarc", "cudarc");
  ("atomr-infer-runtime-mistralrs", "mistralrs"); ("atomr-infer-runtime-ort", "ort");
  ("atomr-infer-runtime-tensorrt", "tensorrt"); ("atomr-infer-runtime-vllm", "vllm");
  ("atomr-infer-runtime-assemblyai", "stt-assemblyai"); ("atomr-infer-runtime-audio2face", "audio2face");
  ("atomr-infer-runtime-deepgram", "stt-deepgram"); ("atomr-infer-runtime-elevenlabs", "tts-elevenlabs");
  ("atomr-infer-runtime-gemini-live", "tts-gemini-live"); ("atomr-infer-runtime-kokoro", "tts-kokoro");
  ("atomr-infer-runtime-moss", "tts-moss"); ("atomr-infer-runtime-openai-realtime", "tts-openai-realtime");
  ("atomr-infer-runtime-openai-stt", "stt-openai"); ("atomr-infer-runtime-openai-tts", "tts-openai");
  ("atomr-infer-runtime-piper", "piper"); ("atomr-infer-runtime-whisper-local", "stt-whisper");
  ("atomr-infer-runtime-xtts", "tts-xtts")].
Lemma own_features_ok :
  forallb (λ cf, forallb (λ x, negb (String.eqb (snd (fst x)) (fst cf)) ||
    mem (Feat (fst cf) (snd cf)) (resolved (Feat "atomr-infer" (fst (fst x))))) reexports) own_feature = true.
Proof. vm_compute. reflexivity. Qed.
(** What the pure-remote build must not compile: a name with one of these in it, or one of
    the local engines. *)
Definition gpu_words : list string := ["cudarc"; "atomr-accel"; "candle"; "pyo3"].
Definition local_engines : list string := ["ort"; "mistralrs"; "whisper-rs"; "tokenizers"].
Definition gpu_crate (c : string) : bool :=
  existsb (λ w, match String.index 0 w c with Some _ => true | None => false end) gpu_words ||
  existsb (String.eqb c) local_engines.
Definition remote_runtimes : list string := ["atomr-infer-runtime-openai"; "atomr-infer-runtime-anthropic";
  "atomr-infer-runtime-gemini"; "atomr-infer-runtime-litellm"; "atomr-infer-pipeline"].
Definition remote_build : list Item := resolve workspace fuel (rollup ["remote-only"]) [].
Lemma remote_build_ok :
  closed workspace (rollup ["remote-only"]) remote_build &&
  forallb (λ i, match i with Built c => negb (gpu_crate c) | _ => true end) remote_build &&
  forallb (λ c, mem (Built c) remote_build) remote_runtimes = true.
Proof. vm_compute. reflexivity. Qed.
Lemma manifest_umbrella : manifest_of workspace "atomr-infer" = Some umbrella_manifest.
Proof. vm_compute. reflexivity. Qed.
#[local] Opaque workspace resolve closed umbrella_manifest.
Lemma single_spec s i :
  s ∈ singles →
  on workspace [s] i ↔ i ∈ resolved s.
Proof.
  intros Hs. apply resolve_exact. pose proof (single_ok_of s Hs) as H. unfold single_ok in H.
  apply andb_true_iff in H as [H _]. exact H.
Qed.
(** A feature that is not declared forces nothing. *)
Lemma undeclared_inert f :
  f ∉ (mf_features umbrella_manifest).*1 → consequences workspace (Feat "atomr-infer" f) = [].
Proof.
  intros Hf. unfold consequences. rewrite manifest_umbrella. unfold feature_reqs.
  destruct (List.find _ _) as [[g rs]|] eqn:E; [|done]. exfalso. apply Hf, list_elem_of_In.
  apply List.find_some in E as [Hin E]. cbn in E. apply String.eqb_eq in E as ->.
  exact (in_map fst _ _ Hin).
Qed.
Lemma on_single_undeclared f i :
  f ∉ (mf_features umbrella_manifest).*1 → on workspace [Feat "atomr-infer" f] i → i = Feat "atomr-infer" f.
Proof.
  intros Hf Hi. induction Hi as [i Hi|i j _ -> Hj]; [set_solver|]. rewrite undeclared_inert in Hj by done.
  by apply not_elem_of_nil in Hj.
Qed.

(** A backend the build contains comes in through one root, and that root re-exports it. *)
Lemma present_visible fs c i :
  c ∈ mf_optional umbrella_manifest → i = Built c ∨ i = DepOn "atomr-infer" c → build fs i → visible fs c.
Proof.
  intros Hc Hi Hb. apply on_split in Hb as (s & Hs & Hb).
  assert (∀ j, on workspace [s] j → build fs j) as Hup.
  { intros j. apply on_mono. intros k Hk. apply list_elem_of_singleton in Hk as ->. by constructor. }
  assert (s ∈ singles) as Hin.
  { unfold rollup in Hs. apply elem_of_cons in Hs as [->|Hs]; [by left|].
    apply list_elem_of_fmap in Hs as (f & -> & _).
    destruct (decide (f ∈ (mf_features umbrella_manifest).*1)) as [Hf|Hf].
    - right. by apply list_elem_of_fmap_2.
    - apply on_single_undeclared in Hb; [|done]. destruct Hi; simplify_eq. }
  pose proof (single_ok_of s Hin) as H.
  unfold single_ok in H. apply andb_true_iff in H as [_ H]. rewrite forallb_forall in H.
  specialize (H c (proj1 (list_elem_of_In _ _) Hc)). apply (single_spec s _ Hin), mem_spec in Hb.
  assert (mem (Built c) (resolved s) || mem (DepOn "atomr-infer" c) (resolved s) = true) as Hm.
  { destruct Hi as [-> | ->]; rewrite Hb; [done|apply orb_true_r]. }
  rewrite Hm in H. cbn [negb orb] in H. apply existsb_exists in H as ([[f c'] alias] & Hx & E). cbn in E.
  apply andb_true_iff in E as [->%String.eqb_eq Hf]. exists f, alias. split; [by apply list_elem_of_In|].
  by apply Hup, (single_spec s _ Hin), mem_spec.
Qed.
Lemma visible_depended fs c : visible fs c → build fs (DepOn "atomr-infer" c).
Proof.
  intros (f & alias & Hx & Hf). apply (on_mono workspace [Feat "atomr-infer" f]).
  { intros j Hj. by apply list_elem_of_singleton in Hj as ->. }
  pose proof reexports_ok as H. rewrite forallb_forall in H.
  exact (resolve_in _ _ _ _ (H _ (proj1 (list_elem_of_In _ _) Hx))).
Qed.
Lemma depended_built fs c d : build fs (DepOn c d) → build fs (Built d).
Proof. intros H. eapply On_step; [exact H|]. cbn. by left. Qed.

(** [C32] The features of the rollup are sound and complete for its backends: whatever features a
    build selects, the rollup compiles the re-export of an optional crate exactly when its own
    dependency on that crate is enabled, so every re-export resolves; and exactly when the crate
    is compiled at all, through any member of the workspace, so nothing is built that the user
    cannot name. *)
Theorem backend_built_iff_visible (fs : list string) (c : string) :
  c ∈ mf_optional umbrella_manifest →
  (visible fs c ↔ build fs (DepOn "atomr-infer" c)) ∧ (visible fs c ↔ build fs (Built c)).
Proof.
  intros Hc. split; split.
  - apply visible_depended.
  - by apply present_visible; [|right].
  - intros H. by eapply depended_built, visible_depended.
  - by apply present_visible; [|left].
Qed.
(** A backend that the rollup re-exports is never its stub. *)
Theorem visible_backend_live (fs : list string) (c f : string) :
  (c, f) ∈ own_feature → visible fs c → build fs (Feat c f).
Proof.
  intros Hcf (g & alias & Hx & Hg). apply (on_mono workspace [Feat "atomr-infer" g]).
  { intros j Hj. by apply list_elem_of_singleton in Hj as ->. }
  pose proof own_features_ok as H. rewrite forallb_forall in H.
  specialize (H _ (proj1 (list_elem_of_In _ _) Hcf)). rewrite forallb_forall in H.
  specialize (H _ (proj1 (list_elem_of_In _ _) Hx)). cbn [fst snd] in H. rewrite String.eqb_refl in H.
  cbn [negb orb] in H. exact (resolve_in _ _ _ _ H).
Qed.

(** The remote-only invariant of the rollup: the build compiles the remote runtimes and no GPU
    or local-inference dependency, directly or through any workspace crate. *)
Theorem remote_only_no_gpu :
  (¬ ∃ c, gpu_crate c = true ∧ build ["remote-only"] (Built c)) ∧
  Forall (λ c, build ["remote-only"] (Built c)) remote_runtimes.
Proof.
  pose proof remote_build_ok as H. apply andb_true_iff in H as [H Hr]. apply andb_true_iff in H as [Hc Hg].
  pose proof (λ i, resolve_exact workspace (rollup ["remote-only"]) fuel i Hc) as Hex. split.
  - intros (c & Hgpu & Hb). apply Hex in Hb. rewrite forallb_forall in Hg.
    specialize (Hg _ (proj1 (list_elem_of_In _ _) Hb)). cbn beta iota in Hg. by rewrite Hgpu in Hg.
  - apply Forall_forall. intros c Hin. apply Hex, mem_spec. rewrite forallb_forall in Hr.
    exact (Hr _ (proj1 (list_elem_of_In _ _) Hin)).
Qed.
(** The features that would break it: the local aggregate compiles GPU crates. *)
Example all_native_has_gpu :
  existsb (λ i, match i with Built c => gpu_crate c | _ => false end) (resolved (Feat "atomr-infer" "all-native"))
  = true.
Proof. vm_compute. reflexivity. Qed.
(** [audio2face], which has an architecture gate, is in no aggregate of runtimes. *)
Example audio2face_not_in_all_runtimes :
  mem (Feat "atomr-infer" "audio2face") (resolved (Feat "atomr-infer" "all-runtimes")) = false.
Proof. vm_compute. reflexivity. Qed.

#[local] Transparent umbrella_manifest.
Lemma backend_built_iff_visible_witness :
  "atomr-infer-runtime-openai" ∈ mf_optional umbrella_manifest ∧
  visible ["remote-only"] "atomr-infer-runtime-openai".
Proof.
  assert ("atomr-infer-runtime-openai" ∈ mf_optional umbrella_manifest) as Hin.
  { apply list_elem_of_In. cbn. tauto. }
  split; [exact Hin|]. apply (proj2 (proj2 (backend_built_iff_visible ["remote-only"] _ Hin))).
  apply (resolve_in workspace (rollup ["remote-only"]) fuel). vm_compute. reflexivity.
Defined.
