(* ===== verification/RemoteStubs.v ===== *)
(** * The remote audio runtimes without their features

    Models the [#[cfg(not(feature = ..))]] side of the seven remote audio crates: the runner
    that a build without the feature compiles in place of the one in [OpenAiTts], [OpenAiStt],
    [OpenAiRealtime], [ElevenLabs], [Deepgram], [AssemblyAi] and [GeminiLive].  A stub holds
    nothing, so it can reach no session, no credential and no network. *)
From S2P Require Import Prelude Runtime Deployment Tokens Audio Runner OpenAiTts OpenAiStt.
From S2P Require Import OpenAiRealtime ElevenLabs Deepgram AssemblyAi GeminiLive Manifests Rollup.

Record Stub : Type := new_stub {}.
Definition disabled {T} (feature : string) : InferenceResult T :=
  Err (Internal (feature +:+ " feature disabled at build time")).
(** What every stub reports; [rate_limits] is the trait's default. *)
Definition stub_base (kind : RuntimeKind) (provider : ProviderKind) : RunnerBase Stub := {|
  runner_kind _ := kind; runner_transport _ := TK_RemoteNetwork provider;
  rebuild_session r _ := (r, Ok ()); rate_limits := rate_limits_default
|}.

Section stubs.
Context {Url Receiver Sender : Type}.
Definition openai_tts_stub_base := stub_base RK_TextToSpeech PK_OpenAi.
Definition openai_tts_stub : @SpeechRunner Url Stub openai_tts_stub_base := λ r _, (r, disabled "tts-openai").
Definition openai_stt_stub_base := stub_base RK_SpeechToText PK_OpenAi.
Definition openai_stt_stub : @AudioRunner Url Receiver Stub openai_stt_stub_base := λ r _, (r, disabled "stt-openai").
Definition elevenlabs_stub_base := stub_base RK_TextToSpeech PK_ElevenLabs.
Definition elevenlabs_stub : @SpeechRunner Url Stub elevenlabs_stub_base := λ r _, (r, disabled "tts-elevenlabs").
Definition deepgram_stub_base := stub_base RK_SpeechToText PK_Deepgram.
Definition deepgram_stub : @AudioRunner Url Receiver Stub deepgram_stub_base := λ r _, (r, disabled "stt-deepgram").
Definition assemblyai_stub_base := stub_base RK_SpeechToText PK_AssemblyAi.
Definition assemblyai_stub : @AudioRunner Url Receiver Stub assemblyai_stub_base :=
  λ r _, (r, disabled "stt-assemblyai").
Definition gemini_live_stub_base := stub_base RK_RealtimeSpeech PK_Gemini.
Definition gemini_live_stub : @RealtimeRunner Url Receiver Sender Stub gemini_live_stub_base :=
  λ r _, (r, disabled "tts-gemini-live").
(** This crate's runner keeps its configuration in both builds. *)
Definition openai_realtime_stub_base : RunnerBase OpenAiRealtimeRunner := {|
  runner_kind _ := RK_RealtimeSpeech; runner_transport _ := TK_RemoteNetwork PK_OpenAi;
  rebuild_session r _ := (r, Ok ()); rate_limits := rate_limits_default
|}.
Definition openai_realtime_stub : @RealtimeRunner Url Receiver Sender OpenAiRealtimeRunner openai_realtime_stub_base :=
  λ r _, (r, disabled "tts-openai-realtime").
End stubs.

(** The error of each crate for a missing feature is the one its stub returns. *)
Theorem stub_errors_match {T} :
  disabled (T := T) "tts-openai" = Err (openai_tts_error_into OTE_FeatureDisabled) ∧
  disabled (T := T) "stt-openai" = Err (openai_stt_error_into OSE_FeatureDisabled) ∧
  disabled (T := T) "tts-elevenlabs" = Err (elevenlabs_error_into EE_FeatureDisabled) ∧
  disabled (T := T) "stt-deepgram" = Err (deepgram_error_into DE_FeatureDisabled) ∧
  disabled (T := T) "stt-assemblyai" = Err (assemblyai_error_into AAE_FeatureDisabled) ∧
  disabled (T := T) "tts-gemini-live" = Err (gemini_live_error_into GLE_FeatureDisabled).
Proof. done. Qed.

(** Same kind and same transport, whatever the runner. *)
Definition routes_alike {R R'} (B : RunnerBase R) (B' : RunnerBase R') : Prop :=
  ∀ (r : R) (r' : R'), @runner_kind R B r = @runner_kind R' B' r' ∧
    @runner_transport R B r = @runner_transport R' B' r'.
(** A build with the feature and one without report the same kind and transport, so placement
    and the registry treat the stub as the backend it stands for. *)
Theorem stubs_route_alike {Url : Type} :
  routes_alike (openai_tts_base (Url := Url)) openai_tts_stub_base ∧
  routes_alike (openai_stt_base (Url := Url)) openai_stt_stub_base ∧
  routes_alike (elevenlabs_base (Url := Url)) elevenlabs_stub_base ∧
  routes_alike (deepgram_base (Url := Url)) deepgram_stub_base ∧
  routes_alike (assemblyai_base (Url := Url)) assemblyai_stub_base ∧
  routes_alike (gemini_live_base (Url := Url)) gemini_live_stub_base ∧
  routes_alike openai_realtime_base openai_realtime_stub_base.
Proof. by split_and!. Qed.

Definition remote_audio : list (string * string) := [
  ("atomr-infer-runtime-openai-tts", "tts-openai"); ("atomr-infer-runtime-openai-stt", "stt-openai");
  ("atomr-infer-runtime-openai-realtime", "tts-openai-realtime"); ("atomr-infer-runtime-elevenlabs", "tts-elevenlabs");
  ("atomr-infer-runtime-deepgram", "stt-deepgram"); ("atomr-infer-runtime-assemblyai", "stt-assemblyai");
  ("atomr-infer-runtime-gemini-live", "tts-gemini-live")].
(** None of the seven is a stub in the pure-remote build of the rollup. *)
Theorem remote_only_has_no_stub :
  Forall (λ cf, on workspace (rollup ["remote-only"]) (Feat (fst cf) (snd cf))) remote_audio.
Proof.
  assert (forallb (λ cf, mem (Feat (fst cf) (snd cf)) remote_build) remote_audio = true) as H.
  { vm_compute. reflexivity. }
  apply Forall_forall. intros cf Hin. rewrite forallb_forall in H.
  exact (resolve_in _ _ _ _ (H _ (proj1 (list_elem_of_In _ _) Hin))).
Qed.
